(* ===== verification/_CoqProject ===== *)
-Q . S2P
Prelude.v
Status.v
Core.v
U128.v
Bytes.v
Fields.v
Policy.v
PolicyValid.v
Accounting.v
Evidence.v
Outcome.v
Allocation.v
AllocationSpec.v
Distributor.v
DistributorSpec.v
BuildSpec.v
Codec.v
CodecSpec.v
DecodeSpec.v
Engine.v
Planner.v
EngineSpec.v
PlannerSpec.v
EvalSpec.v
Fixture.v
FixtureSpec.v
Fsutil.v
Store.v
StoreSpec.v
Directory.v
Governor.v
GovernorSpec.v
GovernorEval.v
GovernorInv.v
GovernorReach.v
BackendSpec.v
Disk.v
GovernorDurable.v
GovernorLife.v
GovernorFixture.v
Frame.v
FrameSpec.v
Socket.v
SocketSpec.v
LinkServer.v
LinkClient.v
LinkSpec.v
LinkSession.v
LinkEvents.v
LinkSafety.v
LinkWorkers.v
LinkThreads.v
LinkCounts.v
LinkRaw.v
Explain.v
ExplainSpec.v
Scenario.v
ScenarioText.v
ScenarioLines.v
ScenarioTyped.v
ScenarioPrint.v
Cli.v
CliSpec.v
Publisher.v
PublisherSpec.v
LinkProcess.v
ProcessSpec.v
ScenarioFixture.v
Benchmark.v
BenchmarkSpec.v
Examples.v
ExamplesSpec.v
PropModel.v
PropEngine.v
PropStore.v
PropGovernor.v
PropLink.v
PropProcess.v
PropScenario.v
PropPrograms.v
