(* ===== verification/Prelude.v ===== *)
(** * Fairness Governor: verification development

    The Fairness Governor hands out the service of a window among subjects that
    are arranged in weighted groups, keeps a ledger of what each subject is owed,
    and proposes bounded corrections.  Evidence of what was served reaches it over
    a framed socket link; its policy and its ledger are kept in a crash-safe store.

    ** The program and the files that model it

    - Foundations.  [core/status.hpp] is Status; [core/limits.hpp], [core/ids.hpp]
      and [core/checked.hpp] are Core; [core/u128.hpp] is U128; [core/bytes.hpp] is
      Bytes, with words at fixed offsets in Fields.  A machine integer is a [Z]
      with its wrap-around written out, a byte buffer a list of [Z], a [Result] a
      sum type.  This file holds notations, tactics and lemmas all of them share.
    - Model.  [model/refs.hpp], [model/policy.hpp] and [src/model/policy.cpp] are
      Policy; [model/accounting.hpp] and [src/model/accounting.cpp] are Accounting;
      [model/evidence.hpp] and [src/model/evidence.cpp] are Evidence;
      [model/outcome.hpp] is Outcome; [src/persist/codec.cpp] is Codec.
    - Evaluation.  [src/eval/engine.cpp] is Allocation (the exact primitive),
      Distributor (the group tree), Engine (what is worked out for each subject)
      and Planner (the corrective plan, the verdicts, the decision).  It is pure:
      a function from a policy, a ledger and a snapshot to a decision.
    - Durability.  [src/persist/fsutil.cpp] is Fsutil, a map from paths to
      contents with a script of what the operating system makes of every mutation,
      crashes included; [persist/store.hpp] and [src/persist/store.cpp] are Store.
      Directory is what is drawn from the surroundings before anything is served:
      the boot identity of [src/core/entropy.cpp] and the store's directory.
    - Governor.  [eval/governor.hpp] and [src/eval/governor.cpp] are Governor: the
      members of [Impl] are a record, each public operation is one atomic step on
      it.  It reaches its store through the class [Backend]; BackendSpec states
      what a store promises, and Disk shows that the files of Store keep it.
    - Link.  [link/frame.hpp] and [src/link/frame.cpp] are Frame;
      [src/link/link.cpp] is Socket (reading and writing frames), LinkServer (one
      connection), LinkThreads (all workers over one governor, a command at a time),
      LinkWorkers (the accept loop, the registry of workers and shutdown),
      LinkClient (the publisher), and LinkRaw (the raw peer of the tests).  A worker
      is a program of commands: calls of the governor, updates of the counters, and
      what it does with its own socket.  Between its calls other threads may change
      the governor, which is the interference of a connection; a run of LinkThreads
      keeps a log of its steps, from which the interference of each worker is read.
      LinkEvents says, apart from the counters, what may happen on a connection:
      the frames, the governor each call finds, what it answers and what goes out.
    - Texts and the processes.  [src/eval/explain.cpp] is Explain (the bounded text,
      the lines of a decision); [scenario.hpp] and [src/scenario.cpp] are Scenario
      (numbers, the line scanner, the directives, the final validation);
      [tools/fg_governor_cli.cpp] is Cli, which puts the parser, the governor and
      the rendering together: a run is its exit code, its output and the store it
      leaves.  [tools/fg_evidence_publisher.cpp] is Publisher and
      [tools/fg_evidence_link.cpp] is LinkProcess: a run is also the bytes it sends.
    - Programs around the library.  [bench/fg_bench.cpp] is Benchmark (the random
      populations, what is measured on them, the sweep); [examples/evaluate.cpp] and
      [examples/downstream_consumer/consumer.cpp] are Examples.

    ** What is shown

    Every component has a file of lemmas beside it (AllocationSpec, CodecSpec and
    so on); the properties of the program are the numbered theorems of eight files.

    - PropEngine, C1-C10: allocations are exact and bounded; distribution over the
      group forest conserves the whole; the evaluation is total on valid inputs;
      the corrective plan conserves units, respects every bound and serves the
      starving first; a subject has authority in the decision exactly when the
      evidence and its observation are current, and nothing is corrected without;
      the verdicts, the aggregate outcome and the roll-ups say what the numbers say;
      the decision does not depend on the order of observations.  What these need of
      a policy is [policy_evaluable], which is less than validity.  Two flags that the
      headers document are never read by the engine, [enforce_guarantee_floors] and
      [allow_stale_result]; C2 and C3 say that they change nothing.
    - PropModel, C11-C14: 128-bit arithmetic and weights are exact; validation
      accepts exactly the declared well-formedness; a window moves a subject's
      account by exactly its net; the codecs round-trip.
    - PropStore, C15-C17: records round-trip and damage is detected; a commit is
      atomic under any script of failures, crashes and torn replaces, followed by
      recoveries that may crash too, except that a torn first record is left in place,
      unreadable; without failures a commit succeeds exactly when it should.
    - PropGovernor, C18-C28: the invariant of every reachable state and what only
      moves forward; each operation on every branch; a decision evaluated in service
      commits as announced, and only in the state it was taken in; no window is
      committed twice, an acknowledged commit survives, and a commit cut short is
      all or nothing, across restarts with any configuration and deaths at any write,
      over any store that keeps the promises of BackendSpec, which the files do.
      Two things lock a store, and the theorems say exactly when: a torn first ledger,
      and a ledger with a streak beyond its decoder's bound, which no evaluation
      announces but the commit does not check.
    - PropLink, C29 and C31-C34: a frame is reassembled from any division of the
      stream and a damaged one is never delivered; a publisher's session carries the
      contract of the governor over the wire, both ends (LinkSession states the
      contract, LinkCounts what the counters gain); whatever a peer sends and the
      other threads do, a connection is a conversation of LinkEvents, and every
      counter, of verdicts and of bytes, gains what its events call for (LinkSafety);
      in every interleaving of the workers each serves its connection as it would
      alone, the counters are exactly those of the connections together, and all can
      be carried to their end; once shutdown has drained the registry no worker is
      created and none is left behind.
    - PropProcess, C30: a link process and the publisher processes that visit it,
      from their arguments and scenario files to their exit codes, output and
      counters and the store they leave, carry out the governor's contract; a
      publisher of another epoch is fenced out (ProcessSpec, PublisherSpec).
    - PropScenario, C35-C38: what the parser accepts is typed and valid, and what
      it refuses is refused for the first error, at its line; where it is more lenient
      than the header of the format says is shown too; every scenario the
      format can express is read back from its printed form (ScenarioPrint holds
      the printer); an explanation is whole or visibly cut; a run of the command
      line ends with the code its scenario calls for, and moves the ledger on the
      store only when it was asked to commit and says so.
    - PropPrograms, C39-C40: the benchmark always reaches its end, and what it times
      are whole evaluations in which every subject has authority, though only its
      populations of one level are valid policies; the examples end well, from their
      policies to what they print and the ledger they leave.

    Theorems with hypotheses have a witness, on the concrete world of Fixture and
    GovernorFixture or on samples of their own.

    ** Bounds and fuel

    - [scatter] descends at most [kMaxGroupDepth] levels, which [build] enforces
      (BuildSpec); the division of U128 runs its 128 steps; loops over lists are
      structural.
    - [evict] has the size of the map as fuel: each round removes a key.
    - [frame_loop] has the size of the arrivals as fuel; LinkSpec shows that every
      round takes at least a header off them, so that serving always ends.
    - A worker of LinkThreads is given one round of its frame loop for every arrival
      and one more; that is enough in every interleaving ([serving_finished]).
    - The line scanner has the length of its line as fuel, [next_line] and
      [directives] the length of the text: every round takes at least a character
      (ScenarioLines), so the parser is a fold over the lines of the document.
    - The governor's theorems on evaluation assume [ledger_room]: the counters of
      the ledger have room for one more window, so that no checked addition fails.

    ** Not modelled

    - System calls as such: sockets are the outcomes of [recv] and [send], files a
      map, directories a class with laws; the draws of the random device, the clock
      and the process id are arguments.  Flushing a directory has no effect here,
      the code drops its outcome.  A wait on the listening socket that times out, and
      an accept that fails, change no state and are no steps of LinkWorkers and
      LinkThreads; resolving addresses is left out everywhere.
    - The durations of timeouts: an idle poll is an event, and a peer that never
      reads is a [send] script that does not end, which finite scripts only
      approximate ([write_all_blocked]).
    - A write that fails in a governor that lives on: Disk runs the operations of a
      live governor without faults, and the scripts of Fsutil drive its deaths.  That
      a commit is atomic under failures is C16, and what the governor does with a
      store that refuses, over any [Backend], is C19 and C23.
    - The link process with connections that overlap: LinkProcess serves them one
      after another; connections that overlap are the subject of LinkThreads, where
      the receipt of one frame is one step, and the flags and the registry that of
      LinkWorkers.
    - The benchmark's clock and the columns computed from it.
    - The branches for Windows; the tests. *)
From Stdlib Require Export ZArith Lia Permutation Sorting.Sorted.
From stdpp Require Export base list gmap strings.

Declare Scope fg_scope.
Delimit Scope fg_scope with fg.
#[global] Open Scope Z_scope.

(** ** Automation *)

Create HintDb fg.
Create Rewrite HintDb fg.

(** Splits a conjunction of the goal and closes what arithmetic closes. *)
Ltac split_lia := repeat split; try lia.

(** Destructs the outermost boolean test of a hypothesis or of the goal and
    turns the outcome into propositions. *)
Ltac case_bool :=
  match goal with
  | H : context [ if ?b then _ else _ ] |- _ =>
      match type of b with bool => let E := fresh "Hb" in destruct b eqn:E end
  | |- context [ if ?b then _ else _ ] =>
      match type of b with bool => let E := fresh "Hb" in destruct b eqn:E end
  end.

(** Reflects boolean comparisons in the context into [Z] propositions. *)
Ltac reflect_bools :=
  repeat match goal with
  | H : (_ =? _) = true |- _ => apply Z.eqb_eq in H
  | H : (_ =? _) = false |- _ => apply Z.eqb_neq in H
  | H : (_ <? _) = true |- _ => apply Z.ltb_lt in H
  | H : (_ <? _) = false |- _ => apply Z.ltb_ge in H
  | H : (_ <=? _) = true |- _ => apply Z.leb_le in H
  | H : (_ <=? _) = false |- _ => apply Z.leb_gt in H
  | H : (_ && _)%bool = true |- _ => apply andb_true_iff in H; destruct H
  | H : (_ || _)%bool = false |- _ => apply orb_false_iff in H; destruct H
  | H : negb _ = true |- _ => apply negb_true_iff in H
  | H : negb _ = false |- _ => apply negb_false_iff in H
  end.

Lemma gtb_false_le a b : (a >? b) = false ↔ a <= b.
Proof. rewrite Z.gtb_ltb. apply Z.ltb_ge. Qed.

Lemma gtb_true_lt a b : (a >? b) = true ↔ b < a.
Proof. rewrite Z.gtb_ltb. apply Z.ltb_lt. Qed.

(** ** Sums over lists *)

Definition sumZ (l : list Z) : Z := foldr Z.add 0 l.

Lemma sumZ_nil : sumZ [] = 0.
Proof. reflexivity. Qed.

Lemma sumZ_cons x l : sumZ (x :: l) = x + sumZ l.
Proof. reflexivity. Qed.

#[global] Arguments sumZ : simpl never.

Lemma sumZ_app l k : sumZ (l ++ k) = sumZ l + sumZ k.
Proof. induction l as [|x l IH]; simpl; rewrite ?sumZ_cons, ?sumZ_nil; lia. Qed.

#[export] Hint Rewrite sumZ_nil sumZ_cons sumZ_app : fg.

Ltac sum_simpl :=
  rewrite ?fmap_nil, ?fmap_cons, ?fmap_app, ?sumZ_nil, ?sumZ_cons, ?sumZ_app in *.

Lemma sumZ_permutation l k : l ≡ₚ k → sumZ l = sumZ k.
Proof. induction 1; sum_simpl; lia. Qed.

#[export] Instance sumZ_proper : Proper ((≡ₚ) ==> (=)) sumZ.
Proof. intros l k. apply sumZ_permutation. Qed.

Lemma sumZ_nonneg l : Forall (λ x, 0 <= x) l → 0 <= sumZ l.
Proof. induction 1; sum_simpl; lia. Qed.

Lemma sumZ_elem_le l x : Forall (λ y, 0 <= y) l → x ∈ l → x <= sumZ l.
Proof.
  intros Hl. induction Hl as [|y l Hy Hl IH]; intros Hx; [by apply elem_of_nil in Hx|].
  apply sumZ_nonneg in Hl. apply elem_of_cons in Hx as [->|Hx]; sum_simpl; [|specialize (IH Hx)]; lia.
Qed.

Lemma sumZ_insert l i x y : l !! i = Some y → sumZ (<[i:=x]> l) = sumZ l - y + x.
Proof.
  revert i. induction l as [|z l IH]; intros [|i] Hi; simplify_eq/=; sum_simpl; [lia|].
  rewrite (IH _ Hi). lia.
Qed.

Section sum_over.
  Context {A : Type}.
  Implicit Types (f g : A → Z) (l : list A).

Lemma sumZ_map_ext f g l : (∀ x, x ∈ l → f x = g x) → sumZ (f <$> l) = sumZ (g <$> l).
  Proof.
    induction l as [|x l IH]; intros H; [done|]. rewrite !fmap_cons, !sumZ_cons.
    rewrite (H x), IH by set_solver. done.
  Qed.

Lemma sumZ_map_add f g l : sumZ ((λ x, f x + g x) <$> l) = sumZ (f <$> l) + sumZ (g <$> l).
  Proof. induction l as [|x l IH]; sum_simpl; lia. Qed.

Lemma sumZ_map_sub f g l : sumZ ((λ x, f x - g x) <$> l) = sumZ (f <$> l) - sumZ (g <$> l).
  Proof. induction l as [|x l IH]; sum_simpl; lia. Qed.

Lemma sumZ_map_scale k f l : sumZ ((λ x, k * f x) <$> l) = k * sumZ (f <$> l).
  Proof. induction l as [|x l IH]; sum_simpl; lia. Qed.

Lemma sumZ_map_const k l : sumZ ((λ _, k) <$> l) = k * Z.of_nat (length l).
  Proof. induction l as [|x l IH]; sum_simpl; simpl; lia. Qed.

Lemma sumZ_map_le f g l : (∀ x, x ∈ l → f x <= g x) → sumZ (f <$> l) <= sumZ (g <$> l).
  Proof.
    induction l as [|x l IH]; intros H; [done|]. rewrite !fmap_cons, !sumZ_cons.
    pose proof (H x ltac:(set_solver)). pose proof (IH ltac:(set_solver)). lia.
  Qed.

Lemma sumZ_map_nonneg f l : (∀ x, x ∈ l → 0 <= f x) → 0 <= sumZ (f <$> l).
  Proof. intros H. apply sumZ_nonneg, Forall_fmap, Forall_forall, H. Qed.
End sum_over.

(** ** Lists whose elements carry a key *)

Lemma not_nil_elem {A} (l : list A) : l <> [] → ∃ x, x ∈ l.
Proof. destruct l as [|x l]; [done|]. exists x. apply list_elem_of_here. Qed.

Section keyed.
  Context {A : Type} (key : A → Z).

Lemma NoDup_key_eq l x y :
    NoDup (key <$> l) → x ∈ l → y ∈ l → key x = key y → x = y.
  Proof.
    intros Hnd Hx Hy Heq. apply list_elem_of_lookup_1 in Hx as [i Hi], Hy as [j Hj].
    assert (i = j) as ->; [|congruence].
    eapply (NoDup_lookup _ _ _ (key x) Hnd); rewrite list_lookup_fmap; [by rewrite Hi|].
    by rewrite Hj, Heq.
  Qed.

  (** The first match of a linear search. *)
Lemma find_some_key l k x :
    find (λ y, key y =? k) l = Some x → x ∈ l ∧ key x = k.
  Proof.
    intros H. apply find_some in H as [Hin Hk]. apply Z.eqb_eq in Hk.
    by apply list_elem_of_In in Hin.
  Qed.

Lemma find_key l x :
    NoDup (key <$> l) → x ∈ l → find (λ y, key y =? key x) l = Some x.
  Proof.
    intros Hnd Hx. destruct (find (λ y, key y =? key x) l) as [y|] eqn:E.
    - apply find_some_key in E as [Hy Hk]. f_equal. by eapply NoDup_key_eq.
    - eapply find_none in E; [|by apply list_elem_of_In]. apply Z.eqb_neq in E. done.
  Qed.

Lemma find_key_none l k : find (λ y, key y =? k) l = None ↔ k ∉ key <$> l.
  Proof.
    split.
    - intros E Hin. apply list_elem_of_fmap in Hin as (y & -> & Hy).
      eapply find_none in E; [|by apply list_elem_of_In]. apply Z.eqb_neq in E. done.
    - intros Hnin. destruct (find _ l) as [y|] eqn:E; [|done].
      apply find_some_key in E as [Hy <-]. exfalso. by apply Hnin, list_elem_of_fmap_2.
  Qed.
End keyed.

(** ** Executable sorting by a comparator

    [std::sort] leaves the elements in an order in which no later element
    precedes an earlier one.  Insertion sort realises that contract; where the
    comparator is a strict total order the result is the only one
    ([sort_by_unique]). *)

Section sort_by.
  Context {A : Type} (lt : A → A → bool).

Fixpoint insert_by (x : A) (l : list A) : list A :=
    match l with
    | [] => [x]
    | y :: l' => if lt y x then y :: insert_by x l' else x :: l
    end.

Definition sort_by (l : list A) : list A := foldr insert_by [] l.

Lemma insert_by_perm x l : insert_by x l ≡ₚ x :: l.
  Proof.
    induction l as [|y l IH]; simpl; [done|]. destruct (lt y x); [|done].
    rewrite IH. apply perm_swap.
  Qed.

Lemma sort_by_perm l : sort_by l ≡ₚ l.
  Proof. induction l as [|x l IH]; simpl; [done|]. rewrite insert_by_perm. by constructor. Qed.

Lemma sort_by_length l : length (sort_by l) = length l.
  Proof. apply Permutation_length, sort_by_perm. Qed.

Lemma elem_of_sort_by x l : x ∈ sort_by l ↔ x ∈ l.
  Proof. by rewrite sort_by_perm. Qed.

Lemma NoDup_sort_by l : NoDup l → NoDup (sort_by l).
  Proof. by rewrite sort_by_perm. Qed.
End sort_by.

(** Comparators of sort keys: strict weak orders, closed under refinement. *)
Class WeakOrder {A} (lt : A → A → bool) : Prop := {
  weak_asym x y : lt x y = true → lt y x = false;
  weak_negtrans x y z : lt y x = false → lt z y = false → lt z x = false }.

Lemma weak_order_lt {A} (f : A → Z) : WeakOrder (λ a b, f a <? f b).
Proof. split; intros *; rewrite ?Z.ltb_lt, ?Z.ltb_ge; lia. Qed.

(** Ascending, then descending, on a first key; ties go to the next comparator. *)
Lemma weak_order_asc {A} (f : A → Z) rest :
  WeakOrder rest → WeakOrder (λ a b, if negb (f a =? f b) then f a <? f b else rest a b).
Proof.
  intros [Ha Hn]. split.
  - intros x y. destruct (Z.eqb_spec (f x) (f y)) as [E|E], (Z.eqb_spec (f y) (f x)); simpl; try congruence.
    + apply Ha.
    + rewrite Z.ltb_lt, Z.ltb_ge. lia.
  - intros x y z. destruct (Z.eqb_spec (f y) (f x)), (Z.eqb_spec (f z) (f y)), (Z.eqb_spec (f z) (f x));
      simpl; try congruence; rewrite ?Z.ltb_ge; try lia. apply Hn.
Qed.

Lemma weak_order_desc {A} (f : A → Z) rest :
  WeakOrder rest → WeakOrder (λ a b, if negb (f a =? f b) then f a >? f b else rest a b).
Proof.
  intros [Ha Hn]. split.
  - intros x y. destruct (Z.eqb_spec (f x) (f y)) as [E|E], (Z.eqb_spec (f y) (f x)); simpl; try congruence.
    + apply Ha.
    + rewrite !Z.gtb_ltb, Z.ltb_lt, Z.ltb_ge. lia.
  - intros x y z. destruct (Z.eqb_spec (f y) (f x)), (Z.eqb_spec (f z) (f y)), (Z.eqb_spec (f z) (f x));
      simpl; try congruence; rewrite ?Z.gtb_ltb, ?Z.ltb_ge; try lia. apply Hn.
Qed.

(** Lexicographic comparators are strict weak orders; the sort is then sorted:
    no element is preceded by one that should come after it. *)
Section sort_by_sorted.
  Context {A : Type} (lt : A → A → bool) `{!WeakOrder lt}.

Definition not_after (x y : A) : Prop := lt y x = false.

Lemma insert_by_sorted x l :
    StronglySorted not_after l → StronglySorted not_after (insert_by lt x l).
  Proof.
    induction 1 as [|y l Hs IH Hy]; simpl; [repeat constructor|].
    destruct (lt y x) eqn:E.
    - constructor; [done|]. apply Forall_forall. intros z Hz.
      rewrite insert_by_perm in Hz. apply elem_of_cons in Hz as [->|Hz].
      + apply weak_asym, E.
      + rewrite Forall_forall in Hy. by apply Hy.
    - constructor; [by constructor|]. constructor; [done|].
      apply Forall_forall. intros z Hz. rewrite Forall_forall in Hy.
      eapply weak_negtrans; [exact E|by apply Hy].
  Qed.

Lemma sort_by_sorted l : StronglySorted not_after (sort_by lt l).
  Proof. induction l; simpl; [constructor|]. by apply insert_by_sorted. Qed.

  (** What precedes another element strictly comes earlier in the sorted list. *)
Lemma sort_by_before l x y :
    x ∈ l → y ∈ l → lt x y = true → ∃ l1 l2, sort_by lt l = l1 ++ x :: l2 ∧ y ∈ l2.
  Proof.
    intros Hx Hy Hlt. rewrite <-(elem_of_sort_by lt) in Hx, Hy.
    pose proof (sort_by_sorted l) as Hs. revert Hx Hy Hs. generalize (sort_by lt l) as k.
    induction k as [|z k IH]; intros Hx Hy Hs; [by apply elem_of_nil in Hx|].
    inversion Hs as [|? ? Hs' Hz]; subst. rewrite Forall_forall in Hz.
    apply elem_of_cons in Hx as [->|Hx].
    - exists [], k. split; [done|]. apply elem_of_cons in Hy as [->|Hy]; [|done].
      apply weak_asym in Hlt as Hlt'. congruence.
    - apply elem_of_cons in Hy as [->|Hy].
      + specialize (Hz x Hx). unfold not_after in Hz. congruence.
      + destruct (IH Hx Hy Hs') as (l1 & l2 & -> & Hin). by exists (z :: l1), l2.
  Qed.
End sort_by_sorted.

Lemma sort_by_unique {A} (lt : A → A → bool) (l k : list A) :
  (∀ x y, x ∈ l → y ∈ l → lt x y = false → lt y x = false → x = y) →
  StronglySorted (not_after lt) l → StronglySorted (not_after lt) k → l ≡ₚ k → l = k.
Proof.
  intros Htot Hl. revert k Htot. induction Hl as [|x l Hl IH Hx]; intros k Htot Hk Hp.
  { by apply Permutation_nil in Hp. }
  destruct k as [|y k]; [by symmetry in Hp; apply Permutation_nil_cons in Hp|].
  inversion Hk as [|? ? Hk' Hy]; subst. rewrite Forall_forall in Hx. rewrite Forall_forall in Hy.
  assert (x = y) as ->.
  { assert (x ∈ y :: k) as H1 by (rewrite <-Hp; set_solver).
    assert (y ∈ x :: l) as H2 by (rewrite Hp; set_solver).
    apply elem_of_cons in H1 as [->|H1]; [done|]. apply elem_of_cons in H2 as [->|H2]; [done|].
    apply Htot; [set_solver..| |]; [by apply Hy|by apply Hx]. }
  apply Permutation_cons_inv in Hp. f_equal. apply IH; [|done..]. set_solver.
Qed.

(** ** Strings *)

Lemma string_app_assoc (s t u : string) : (s +:+ t) +:+ u = s +:+ (t +:+ u).
Proof. induction s as [|a s IH]; [done|]. exact (f_equal (String a) IH). Qed.

Lemma string_app_nil (s : string) : s +:+ EmptyString = s.
Proof. induction s as [|a s IH]; [done|]. exact (f_equal (String a) IH). Qed.
