(* ===== verification/Status.v ===== *)
(** Status codes, the [Status]/[Result] carriers of
    [include/fairness_governor/core/status.hpp], and the error monad in which
    the fallible code of the runtime is written.

    A C++ function returning [Status] and filling an out parameter, and a
    function returning [Result<T>], are both modelled as [Result T]: on failure
    the out parameter is left alone, so only the status is returned. *)
From S2P Require Import Prelude.
#[local] Open Scope string_scope.
#[local] Open Scope list_scope.
#[local] Open Scope Z_scope.

Module StatusCode.
  (** [enum class StatusCode : std::uint16_t]. *)
Inductive t : Set :=
  | Ok
  | InvalidArgument | OutOfRange | NotFound | AlreadyExists | Duplicate
  | Conflict | NotInitialized | Unsupported | Internal
  | StaleGeneration | StaleEpoch | StaleIncarnation | StaleEvidence
  | EvidenceMissing | EvidenceContradictory | AuthorityMismatch | IncarnationMismatch
  | PolicyInvalid | PolicyGenerationMismatch | PolicyOvercommit | GroupCycle
  | GroupDepthExceeded | SubjectGenerationMismatch
  | ArithmeticOverflow | ArithmeticUnderflow | DivideByZero | LimitExceeded
  | IoError | CorruptRecord | UnsupportedFormat | Truncated | ChecksumMismatch
  | OversizedPayload | CommitRejected | RecoveryRequired
  | TransportError | FrameInvalid | FrameTooLarge | HandshakeRejected
  | SequenceViolation | LinkClosed | LinkBusy | IdleTimeout
  | ShuttingDown | Cancelled | Busy.

#[global] Instance eq_dec : EqDecision t.
Proof. solve_decision. Defined.

  (** The enumerator values, as [static_cast<std::uint16_t>] yields them. *)
Definition value (code : t) : Z :=
  match code with
  | Ok => 0 | InvalidArgument => 1 | OutOfRange => 2 | NotFound => 3 | AlreadyExists => 4
  | Duplicate => 5 | Conflict => 6 | NotInitialized => 7 | Unsupported => 8 | Internal => 9
  | StaleGeneration => 20 | StaleEpoch => 21 | StaleIncarnation => 22 | StaleEvidence => 23
  | EvidenceMissing => 24 | EvidenceContradictory => 25 | AuthorityMismatch => 26
  | IncarnationMismatch => 27
  | PolicyInvalid => 40 | PolicyGenerationMismatch => 41 | PolicyOvercommit => 42
  | GroupCycle => 43 | GroupDepthExceeded => 44 | SubjectGenerationMismatch => 45
  | ArithmeticOverflow => 60 | ArithmeticUnderflow => 61 | DivideByZero => 62
  | LimitExceeded => 63
  | IoError => 80 | CorruptRecord => 81 | UnsupportedFormat => 82 | Truncated => 83
  | ChecksumMismatch => 84 | OversizedPayload => 85 | CommitRejected => 86
  | RecoveryRequired => 87
  | TransportError => 100 | FrameInvalid => 101 | FrameTooLarge => 102
  | HandshakeRejected => 103 | SequenceViolation => 104 | LinkClosed => 105 | LinkBusy => 106
  | IdleTimeout => 107
  | ShuttingDown => 120 | Cancelled => 121 | Busy => 122
  end.

Definition all : list t :=
  [ Ok; InvalidArgument; OutOfRange; NotFound; AlreadyExists; Duplicate; Conflict;
    NotInitialized; Unsupported; Internal; StaleGeneration; StaleEpoch; StaleIncarnation;
    StaleEvidence; EvidenceMissing; EvidenceContradictory; AuthorityMismatch;
    IncarnationMismatch; PolicyInvalid; PolicyGenerationMismatch; PolicyOvercommit;
    GroupCycle; GroupDepthExceeded; SubjectGenerationMismatch; ArithmeticOverflow;
    ArithmeticUnderflow; DivideByZero; LimitExceeded; IoError; CorruptRecord;
    UnsupportedFormat; Truncated; ChecksumMismatch; OversizedPayload; CommitRejected;
    RecoveryRequired; TransportError; FrameInvalid; FrameTooLarge; HandshakeRejected;
    SequenceViolation; LinkClosed; LinkBusy; IdleTimeout; ShuttingDown; Cancelled; Busy ].

  (** The enumerator with a given value, when there is one.  A C++ cast from an
      integer outside the enumerator list yields a value no [case] names. *)
Definition of_value (raw : Z) : option t := list_find (λ c, value c = raw) all ≫= (λ p, Some p.2).

  (** [to_string(StatusCode)]. *)
Definition to_string (code : t) : string :=
  match code with
  | Ok => "OK"
  | InvalidArgument => "INVALID_ARGUMENT"
  | OutOfRange => "OUT_OF_RANGE"
  | NotFound => "NOT_FOUND"
  | AlreadyExists => "ALREADY_EXISTS"
  | Duplicate => "DUPLICATE"
  | Conflict => "CONFLICT"
  | NotInitialized => "NOT_INITIALIZED"
  | Unsupported => "UNSUPPORTED"
  | Internal => "INTERNAL"
  | StaleGeneration => "STALE_GENERATION"
  | StaleEpoch => "STALE_EPOCH"
  | StaleIncarnation => "STALE_INCARNATION"
  | StaleEvidence => "STALE_EVIDENCE"
  | EvidenceMissing => "EVIDENCE_MISSING"
  | EvidenceContradictory => "EVIDENCE_CONTRADICTORY"
  | AuthorityMismatch => "AUTHORITY_MISMATCH"
  | IncarnationMismatch => "INCARNATION_MISMATCH"
  | PolicyInvalid => "POLICY_INVALID"
  | PolicyGenerationMismatch => "POLICY_GENERATION_MISMATCH"
  | PolicyOvercommit => "POLICY_OVERCOMMIT"
  | GroupCycle => "GROUP_CYCLE"
  | GroupDepthExceeded => "GROUP_DEPTH_EXCEEDED"
  | SubjectGenerationMismatch => "SUBJECT_GENERATION_MISMATCH"
  | ArithmeticOverflow => "ARITHMETIC_OVERFLOW"
  | ArithmeticUnderflow => "ARITHMETIC_UNDERFLOW"
  | DivideByZero => "DIVIDE_BY_ZERO"
  | LimitExceeded => "LIMIT_EXCEEDED"
  | IoError => "IO_ERROR"
  | CorruptRecord => "CORRUPT_RECORD"
  | UnsupportedFormat => "UNSUPPORTED_FORMAT"
  | Truncated => "TRUNCATED"
  | ChecksumMismatch => "CHECKSUM_MISMATCH"
  | OversizedPayload => "OVERSIZED_PAYLOAD"
  | CommitRejected => "COMMIT_REJECTED"
  | RecoveryRequired => "RECOVERY_REQUIRED"
  | TransportError => "TRANSPORT_ERROR"
  | FrameInvalid => "FRAME_INVALID"
  | FrameTooLarge => "FRAME_TOO_LARGE"
  | HandshakeRejected => "HANDSHAKE_REJECTED"
  | SequenceViolation => "SEQUENCE_VIOLATION"
  | LinkClosed => "LINK_CLOSED"
  | LinkBusy => "LINK_BUSY"
  | IdleTimeout => "IDLE_TIMEOUT"
  | ShuttingDown => "SHUTTING_DOWN"
  | Cancelled => "CANCELLED"
  | Busy => "BUSY"
  end.

Lemma of_value_value code : of_value (value code) = Some code.
Proof. destruct code; vm_compute; reflexivity. Qed.

Lemma value_inj a b : value a = value b → a = b.
Proof. intros H. apply (f_equal of_value) in H. rewrite !of_value_value in H. congruence. Qed.

Lemma value_range code : 0 <= value code <= 122.
Proof. destruct code; simpl; lia. Qed.
End StatusCode.

(** [class Status]. *)
Record Status := mk_status { status_code : StatusCode.t; status_detail : string }.

#[export] Instance Status_eq_dec : EqDecision Status.
Proof. solve_decision. Defined.

Definition status_ok (s : Status) : bool := bool_decide (status_code s = StatusCode.Ok).

(** [Status::to_string]. *)
Definition status_to_string (s : Status) : string :=
  match status_detail s with
  | EmptyString => StatusCode.to_string (status_code s)
  | _ => StatusCode.to_string (status_code s) +:+ ": " +:+ status_detail s
  end.

(** [class Result]: either a value or a [Status]. *)
Inductive Result (A : Type) : Type :=
  | Value (value : A)
  | Failure (failure : Status).
Arguments Value {A} value.
Arguments Failure {A} failure.

(** [Result::ok] and [Result::code]. *)
Definition result_ok {A} (r : Result A) : bool := match r with Value _ => true | Failure _ => false end.
Definition result_code {A} (r : Result A) : StatusCode.t :=
  match r with Value _ => StatusCode.Ok | Failure s => status_code s end.

(** [return Status(code, detail)] in a fallible function. *)
Definition fail {A} (code : StatusCode.t) (detail : string) : Result A :=
  Failure (mk_status code detail).

Definition result_bind {A B} (m : Result A) (k : A → Result B) : Result B :=
  match m with Value a => k a | Failure s => Failure s end.

Notation "'let?' x := m 'in' k" := (result_bind m (λ x, k))
  (at level 10, x pattern, m at level 100, k at level 200) : fg_scope.
Notation "'reject' b 'with' c , d ';;' k" := (if b then fail c d else k)
  (at level 10, b at level 99, c at level 9, d at level 9, k at level 200, only parsing) : fg_scope.
#[global] Open Scope fg_scope.

(** A range-for loop whose body may return early with a failure. *)
Fixpoint fold_result {S A} (f : S → A → Result S) (s : S) (l : list A) : Result S :=
  match l with
  | [] => Value s
  | x :: l' => let? s' := f s x in fold_result f s' l'
  end.

Fixpoint for_each {A} (f : A → Result unit) (l : list A) : Result unit :=
  match l with
  | [] => Value tt
  | x :: l' => let? _ := f x in for_each f l'
  end.

(** A loop that rewrites every element of a vector in place. *)
Fixpoint map_result {A B} (f : A → Result B) (l : list A) : Result (list B) :=
  match l with
  | [] => Value []
  | x :: l' => let? y := f x in let? ys := map_result f l' in Value (y :: ys)
  end.

(** ** Reasoning about fallible code *)

#[export] Instance Value_inj A : Inj (=) (=) (@Value A).
Proof. by intros x y [= ->]. Qed.

Lemma result_bind_value {A B} (m : Result A) (k : A → Result B) b :
  result_bind m k = Value b ↔ ∃ a, m = Value a ∧ k a = Value b.
Proof.
  destruct m as [a|s]; simpl; split.
  - intros H. by exists a.
  - by intros (? & [= <-] & ?).
  - done.
  - by intros (? & ? & ?).
Qed.

Lemma reject_value {A} (b : bool) c d (k : Result A) x :
  (if b then fail c d else k) = Value x ↔ b = false ∧ k = Value x.
Proof. destruct b; naive_solver. Qed.

Lemma fail_value {A} c d (x : A) : fail c d = Value x ↔ False.
Proof. done. Qed.

(** Turns the guards of a successful run into propositions. *)
Create Rewrite HintDb guards.
#[export] Hint Rewrite @reject_value @fail_value negb_false_iff negb_true_iff Z.eqb_neq Z.eqb_eq
  Z.gtb_ltb Z.geb_leb Z.ltb_ge Z.ltb_lt Z.leb_gt Z.leb_le orb_false_iff orb_true_iff
  andb_true_iff : guards.

(** Takes a successful run apart: every [let?] yields the value it bound, every
    [reject] the guard it passed. *)
Ltac inv_result :=
  repeat match goal with
  | H : result_bind _ _ = Value _ |- _ =>
      let a := fresh "r" in let Ha := fresh "Hr" in
      apply result_bind_value in H as (a & Ha & H)
  | H : fail _ _ = Value _ |- _ => discriminate H
  | H : Failure _ = Value _ |- _ => discriminate H
  | H : Value _ = Value _ |- _ => apply (inj Value) in H
  | H : (if ?b then fail _ _ else _) = Value _ |- _ =>
      let E := fresh "Hg" in destruct b eqn:E; [discriminate H|]
  end.


Section loops.
  Context {S A : Type}.
  Implicit Types (l pre post : list A).

  (** Loop invariant rule: [I done s] relates the processed prefix to the state. *)
Lemma fold_result_inv (f : S → A → Result S) (I : list A → S → Prop) l s s' :
    I [] s →
    (∀ pre x post t t', l = pre ++ x :: post → I pre t → f t x = Value t' → I (pre ++ [x]) t') →
    fold_result f s l = Value s' → I l s'.
  Proof.
    intros H0 Hstep Hrun.
    assert (∀ post pre t, l = pre ++ post → I pre t → fold_result f t post = Value s' → I l s') as Hgen.
    { clear H0 Hrun s. intros post. induction post as [|x post IH]; intros pre t Hl Ht Hrun.
      - simplify_eq/=. by rewrite app_nil_r.
      - simpl in Hrun. inv_result. eapply (IH (pre ++ [x])); [by rewrite <-app_assoc| |done].
        by eapply Hstep. }
    by eapply (Hgen l []).
  Qed.

  (** A loop whose body always succeeds under its invariant succeeds. *)
Lemma fold_result_total (f : S → A → Result S) (I : list A → S → Prop) l s :
    I [] s →
    (∀ pre x post t, l = pre ++ x :: post → I pre t → ∃ t', f t x = Value t' ∧ I (pre ++ [x]) t') →
    ∃ s', fold_result f s l = Value s' ∧ I l s'.
  Proof.
    intros H0 Hstep.
    assert (∀ post pre t, l = pre ++ post → I pre t →
      ∃ s', fold_result f t post = Value s' ∧ I l s') as Hgen.
    { clear H0 s. intros post. induction post as [|x post IH]; intros pre t Hl Ht; simpl.
      - exists t. simplify_eq. by rewrite app_nil_r.
      - destruct (Hstep pre x post t Hl Ht) as (t' & -> & Ht'); simpl.
        apply (IH (pre ++ [x])); [by rewrite <-app_assoc|done]. }
    by apply (Hgen l []).
  Qed.

Lemma for_each_value (f : A → Result unit) l :
    for_each f l = Value tt ↔ Forall (λ x, f x = Value tt) l.
  Proof.
    induction l as [|x l IH]; simpl; [by split; [constructor|]|].
    rewrite Forall_cons, <-IH, result_bind_value. split.
    - intros ([] & ? & ?). done.
    - intros [??]. by exists tt.
  Qed.

Lemma map_result_value {B} (f : A → Result B) l k :
    map_result f l = Value k ↔ Forall2 (λ x y, f x = Value y) l k.
  Proof.
    revert k. induction l as [|x l IH]; intros k; simpl.
    - split; [intros [= <-]; constructor|]. by inversion 1.
    - rewrite result_bind_value. split.
      + intros (y & Hy & H). inv_result. subst. constructor; [done|]. by apply IH.
      + inversion 1 as [|? y ? k' Hy Hk]; subst. exists y. split; [done|].
        apply IH in Hk as ->. done.
  Qed.
End loops.

Lemma map_result_total {A B} (f : A → Result B) (P : A → B → Prop) l :
  (∀ x, x ∈ l → ∃ y, f x = Value y ∧ P x y) →
  ∃ k, map_result f l = Value k ∧ Forall2 P l k.
Proof.
  induction l as [|x l IH]; intros H; simpl; [by eexists|].
  destruct (H x) as (y & -> & Hy); [set_solver|]. simpl.
  destruct IH as (k & -> & Hk); [set_solver|]. simpl. exists (y :: k). by constructor; [|constructor].
Qed.
