(* ===== verification/Core.v ===== *)
(** Machine integers, bounded-domain limits, generations, checked arithmetic and
    the FNV-1a digest: [core/limits.hpp], [core/ids.hpp], [core/checked.hpp].

    A [w]-bit integer is a [Z]; arithmetic that can wrap is written with its
    wrap-around.  An [Id<Tag>] or [Generation<Tag>] is its [std::uint64_t] value;
    the tags only separate C++ types and leave no trace at run time. *)
From S2P Require Import Prelude Status.
#[local] Open Scope string_scope.
#[local] Open Scope list_scope.
#[local] Open Scope Z_scope.

(** ** Machine words *)

Definition U64_MAX : Z := 18446744073709551615.
Definition U32_MAX : Z := 4294967295.
Definition I64_MAX : Z := 9223372036854775807.
Definition I64_MIN : Z := -9223372036854775808.
Definition I32_MAX : Z := 2147483647.
Definition I32_MIN : Z := -2147483648.

Definition u8 (z : Z) : Prop := 0 <= z < 256.
Definition u16 (z : Z) : Prop := 0 <= z < 65536.
Definition u32 (z : Z) : Prop := 0 <= z < 4294967296.
Definition u64 (z : Z) : Prop := 0 <= z < 18446744073709551616.
Definition i32 (z : Z) : Prop := -2147483648 <= z <= 2147483647.
Definition i64 (z : Z) : Prop := -9223372036854775808 <= z <= 9223372036854775807.

#[export] Instance u8_dec z : Decision (u8 z). Proof. unfold u8. apply _. Defined.
#[export] Instance u16_dec z : Decision (u16 z). Proof. unfold u16. apply _. Defined.
#[export] Instance u32_dec z : Decision (u32 z). Proof. unfold u32. apply _. Defined.
#[export] Instance u64_dec z : Decision (u64 z). Proof. unfold u64. apply _. Defined.
#[export] Instance i32_dec z : Decision (i32 z). Proof. unfold i32. apply _. Defined.
#[export] Instance i64_dec z : Decision (i64 z). Proof. unfold i64. apply _. Defined.

(** Wrap-around of unsigned 32- and 64-bit arithmetic, and the two's complement
    reading of [static_cast<std::int64_t>] and [static_cast<std::int32_t>]. *)
Definition wrap32 (z : Z) : Z := z mod 4294967296.
Definition wrap64 (z : Z) : Z := z mod 18446744073709551616.
Definition to_i64 (z : Z) : Z := if z <=? I64_MAX then z else z - 18446744073709551616.
Definition to_i32 (z : Z) : Z := if z <=? I32_MAX then z else z - 4294967296.

Definition add64 (a b : Z) : Z := wrap64 (a + b).
Definition sub64 (a b : Z) : Z := wrap64 (a - b).
Definition mul64 (a b : Z) : Z := wrap64 (a * b).

(** Unfolds the word predicates and calls [lia]. *)
Ltac ulia :=
  unfold u8, u16, u32, u64, i32, i64, U64_MAX, U32_MAX, I64_MAX, I64_MIN, I32_MAX, I32_MIN in *;
  lia.

Lemma wrap64_small z : u64 z → wrap64 z = z.
Proof. intros H. apply Z.mod_small. ulia. Qed.

Lemma wrap64_range z : u64 (wrap64 z).
Proof. unfold wrap64, u64. apply Z.mod_pos_bound. lia. Qed.

Lemma add64_small a b : u64 (a + b) → add64 a b = a + b.
Proof. apply wrap64_small. Qed.

Lemma sub64_small a b : u64 (a - b) → sub64 a b = a - b.
Proof. apply wrap64_small. Qed.

Lemma mul64_small a b : u64 (a * b) → mul64 a b = a * b.
Proof. apply wrap64_small. Qed.

#[export] Hint Resolve wrap64_range : fg.

(** [static_cast<std::int64_t>] of a [u64] and back. *)
Lemma wrap64_to_i64 z : u64 z → wrap64 (to_i64 z) = z.
Proof.
  intros H. unfold to_i64, wrap64. case_bool; reflect_bools.
  - apply Z.mod_small. ulia.
  - replace (z - 18446744073709551616) with (z + (-1) * 18446744073709551616) by lia.
    rewrite Z.mod_add by lia. apply Z.mod_small. ulia.
Qed.

Lemma mod_neg_shift z m : - m <= z < 0 → z mod m = z + m.
Proof.
  intros H. rewrite <-(Z.mod_add z 1) by lia. rewrite Z.mul_1_l. apply Z.mod_small. lia.
Qed.

Lemma to_i64_wrap64 z : i64 z → to_i64 (wrap64 z) = z.
Proof.
  intros H. unfold to_i64, wrap64. destruct (Z.ltb_spec z 0).
  - rewrite mod_neg_shift by ulia. case_bool; reflect_bools; ulia.
  - rewrite Z.mod_small by ulia. case_bool; reflect_bools; ulia.
Qed.

Lemma to_i32_wrap32 z : i32 z → to_i32 (wrap32 z) = z.
Proof.
  intros H. unfold to_i32, wrap32. destruct (Z.ltb_spec z 0).
  - rewrite mod_neg_shift by ulia. case_bool; reflect_bools; ulia.
  - rewrite Z.mod_small by ulia. case_bool; reflect_bools; ulia.
Qed.

(** ** Limits *)

Definition kMaxServiceUnits : Z := 1099511627776.
Definition kMaxSubjects : Z := 4096.
Definition kMaxGroups : Z := 256.
Definition kMaxGroupDepth : nat := 8.
Definition kMaxShareWeight : Z := 2147483647.
Definition kMaxCarryUnits : Z := 281474976710656.
Definition kMaxCorrectiveIntents : Z := 8192.
Definition kMaxEvidenceRecords : Z := 4096.
Definition kMaxHistoryWindows : Z := 1024.
Definition kMaxDurablePayloadBytes : Z := 4194304.
Definition kMaxFramePayloadBytes : Z := 1048575.
Definition kMaxExplanationBytes : Z := 1048576.
Definition kBasisPointScale : Z := 10000.
Definition kMaxPriorityModifierBps : Z := 100000.

(** [container.size()] of a vector or a string. *)
Definition sizeZ {A} (l : list A) : Z := Z.of_nat (length l).
Definition str_size (s : string) : Z := Z.of_nat (String.length s).

(** ** Identities and generations *)

(** [Id::valid] and [Generation::valid]: 0 means absent. *)
Definition valid (value : Z) : bool := negb (value =? 0).

(** [Generation::next]: saturates rather than wrapping. *)
Definition generation_next (value : Z) : Z :=
  if value =? U64_MAX then value else add64 value 1.

Record Incarnation := mk_incarnation { inc_boot : Z; inc_ordinal : Z }.

#[export] Instance Incarnation_eq_dec : EqDecision Incarnation.
Proof. solve_decision. Defined.

Definition incarnation_valid (i : Incarnation) : bool := valid (inc_boot i) && negb (inc_ordinal i =? 0).
Definition incarnation_eqb (a b : Incarnation) : bool :=
  (inc_boot a =? inc_boot b) && (inc_ordinal a =? inc_ordinal b).

Lemma valid_spec v : valid v = true ↔ v ≠ 0.
Proof. unfold valid. rewrite negb_true_iff, Z.eqb_neq. done. Qed.

Lemma valid_false v : valid v = false ↔ v = 0.
Proof. unfold valid. rewrite negb_false_iff, Z.eqb_eq. done. Qed.

Lemma incarnation_eqb_eq a b : incarnation_eqb a b = true ↔ a = b.
Proof.
  unfold incarnation_eqb. rewrite andb_true_iff, !Z.eqb_eq. destruct a, b; simpl. naive_solver.
Qed.

Lemma generation_next_ge g : u64 g → g <= generation_next g ∧ u64 (generation_next g).
Proof.
  intros H. unfold generation_next. destruct (Z.eqb_spec g U64_MAX); [ulia|].
  rewrite add64_small; ulia.
Qed.

Lemma generation_next_succ g : u64 g → g <> U64_MAX → generation_next g = g + 1.
Proof.
  intros H Hne. unfold generation_next. apply Z.eqb_neq in Hne as E. rewrite E.
  apply add64_small. ulia.
Qed.

(** ** Checked arithmetic

    [out] is written only on success, so the result is an option. *)

Definition checked_add (a b : Z) : option Z :=
  if a >? sub64 U64_MAX b then None else Some (add64 a b).

Definition checked_mul (a b : Z) : option Z :=
  if negb (a =? 0) && (b >? U64_MAX / a) then None else Some (mul64 a b).

Definition checked_sub (a b : Z) : option Z :=
  if b >? a then None else Some (sub64 a b).

(** Signed: the guards precede the operation, so no signed overflow occurs. *)
Definition checked_add_signed (a b : Z) : option Z :=
  if (b >? 0) && (a >? I64_MAX - b) then None
  else if (b <? 0) && (a <? I64_MIN - b) then None
  else Some (a + b).

Definition checked_sub_signed (a b : Z) : option Z :=
  if b =? I64_MIN then None else checked_add_signed a (- b).

Definition checked_mul_signed (a b : Z) : option Z :=
  if (a =? 0) || (b =? 0) then Some 0
  else if (a =? -1) && (b =? I64_MIN) then None
  else if (b =? -1) && (a =? I64_MIN) then None
  else if a >? 0 then
    if b >? 0 then (if a >? Z.quot I64_MAX b then None else Some (a * b))
    else (if b <? Z.quot I64_MIN a then None else Some (a * b))
  else
    if b >? 0 then (if a <? Z.quot I64_MIN b then None else Some (a * b))
    else (if negb (a =? 0) && (b <? Z.quot I64_MAX a) then None else Some (a * b)).

(** [narrow<To>]: [signed] says whether [From] is signed, [to_max] is the
    largest value of [To]. *)
Definition narrow (signed : bool) (to_max value : Z) : option Z :=
  if signed && (value <? 0) then None
  else if wrap64 value >? to_max then None
  else Some value.

Definition magnitude (value : Z) : Z :=
  if value >=? 0 then value else add64 (- (value + 1)) 1.

Definition saturating_add (a b : Z) : Z :=
  match checked_add a b with None => U64_MAX | Some out => out end.

Lemma checked_add_spec a b :
  u64 a → u64 b → checked_add a b = if decide (u64 (a + b)) then Some (a + b) else None.
Proof.
  intros Ha Hb. unfold checked_add. rewrite sub64_small by ulia. rewrite Z.gtb_ltb.
  case_bool; reflect_bools; case_decide; try ulia; [done|]. by rewrite add64_small.
Qed.

Lemma checked_add_some a b c : u64 a → u64 b → checked_add a b = Some c → c = a + b ∧ u64 c.
Proof. intros Ha Hb. rewrite checked_add_spec by done. case_decide; naive_solver. Qed.

Lemma checked_add_fits a b : u64 a → u64 b → u64 (a + b) → checked_add a b = Some (a + b).
Proof. intros Ha Hb H. rewrite checked_add_spec by done. by rewrite decide_True. Qed.

Lemma checked_sub_spec a b :
  u64 a → u64 b → checked_sub a b = if decide (b <= a) then Some (a - b) else None.
Proof.
  intros Ha Hb. unfold checked_sub. rewrite Z.gtb_ltb.
  case_bool; reflect_bools; case_decide; try ulia; [done|]. by rewrite sub64_small by ulia.
Qed.

Lemma checked_mul_spec a b :
  u64 a → u64 b → checked_mul a b = if decide (u64 (a * b)) then Some (a * b) else None.
Proof.
  intros Ha Hb. unfold checked_mul. rewrite Z.gtb_ltb.
  destruct (Z.eqb_spec a 0) as [->|Hne]; cbn [negb andb].
  { rewrite decide_True by ulia. by rewrite mul64_small by ulia. }
  assert (0 < a) as Hpos by ulia.
  pose proof (Z.mul_succ_div_gt U64_MAX a Hpos). pose proof (Z.mul_div_le U64_MAX a Hpos).
  destruct (Z.ltb_spec (U64_MAX / a) b) as [Hlt|Hge]; case_decide as Hd; try done.
  - exfalso. unfold u64, U64_MAX in *. nia.
  - by rewrite mul64_small.
  - exfalso. apply Hd. unfold u64, U64_MAX in *. nia.
Qed.

Lemma checked_add_signed_spec a b :
  i64 a → i64 b → checked_add_signed a b = if decide (i64 (a + b)) then Some (a + b) else None.
Proof.
  intros Ha Hb. unfold checked_add_signed. rewrite !Z.gtb_ltb.
  repeat (case_bool; reflect_bools); case_decide; try done; exfalso;
    repeat match goal with H : (_ && _)%bool = false |- _ =>
      apply andb_false_iff in H as [H|H]; reflect_bools end; ulia.
Qed.

Lemma checked_sub_signed_spec a b :
  i64 a → i64 b →
  checked_sub_signed a b = if decide (b <> I64_MIN ∧ i64 (a - b)) then Some (a - b) else None.
Proof.
  intros Ha Hb. unfold checked_sub_signed. case_bool; reflect_bools.
  - case_decide as Hd; [|done]. by destruct Hd.
  - rewrite checked_add_signed_spec by ulia. replace (a + - b) with (a - b) by lia.
    repeat case_decide; naive_solver.
Qed.

(** The overflow tests of [checked_mul_signed], division turned into product. *)
Lemma div_ltb_mul m d x : 0 < d → (m / d <? x) = (m <? x * d).
Proof.
  intros Hd. pose proof (Z.mul_div_le m d Hd). pose proof (Z.mul_succ_div_gt m d Hd).
  destruct (Z.ltb_spec (m / d) x), (Z.ltb_spec m (x * d)); try done; nia.
Qed.

Lemma quot_max_pos d x : 0 < d → (Z.quot I64_MAX d <? x) = (I64_MAX <? x * d).
Proof. intros Hd. rewrite Z.quot_div_nonneg by ulia. by apply div_ltb_mul. Qed.

Lemma quot_min_pos d x : 0 < d → (x <? Z.quot I64_MIN d) = (x * d <? I64_MIN).
Proof.
  intros Hd. change I64_MIN with (Z.opp 9223372036854775808).
  rewrite Z.quot_opp_l, Z.quot_div_nonneg by lia.
  transitivity (9223372036854775808 / d <? - x).
  { destruct (Z.ltb_spec x (- (9223372036854775808 / d))), (Z.ltb_spec (9223372036854775808 / d) (- x)); lia. }
  rewrite div_ltb_mul by done.
  destruct (Z.ltb_spec 9223372036854775808 (- x * d)), (Z.ltb_spec (x * d) (Z.opp 9223372036854775808)); lia.
Qed.

Lemma quot_max_neg d x : d < 0 → (x <? Z.quot I64_MAX d) = (I64_MAX <? x * d).
Proof.
  intros Hd. replace d with (- (- d)) at 1 by lia. rewrite Z.quot_opp_r, Z.quot_div_nonneg by ulia.
  transitivity (I64_MAX / (- d) <? - x).
  { destruct (Z.ltb_spec x (- (I64_MAX / - d))), (Z.ltb_spec (I64_MAX / - d) (- x)); lia. }
  rewrite div_ltb_mul by lia. f_equal. lia.
Qed.

Lemma checked_mul_signed_spec a b :
  i64 a → i64 b → checked_mul_signed a b = if decide (i64 (a * b)) then Some (a * b) else None.
Proof.
  intros Ha Hb. unfold checked_mul_signed. rewrite !Z.gtb_ltb.
  destruct (Z.eqb_spec a 0) as [->|Ha0]; cbn [orb].
  { by rewrite decide_True by ulia. }
  destruct (Z.eqb_spec b 0) as [->|Hb0]; cbn [orb].
  { rewrite Z.mul_0_r. by rewrite decide_True by ulia. }
  destruct (Z.eqb_spec a (-1)) as [Ea|Ea], (Z.eqb_spec b I64_MIN) as [Eb|Eb],
    (Z.eqb_spec b (-1)) as [Fb|Fb], (Z.eqb_spec a I64_MIN) as [Fa|Fa]; cbn [andb];
    try (subst; by rewrite decide_False by ulia).
  all: destruct (Z.ltb_spec 0 a), (Z.ltb_spec 0 b); try ulia; cbn [negb andb];
    rewrite ?quot_max_pos, ?quot_min_pos, ?quot_max_neg by ulia.
  all: match goal with |- context [?x <? ?y] => destruct (Z.ltb_spec x y) end.
  all: case_decide; try done; unfold i64, I64_MAX, I64_MIN in *; exfalso; nia.
Qed.

Lemma magnitude_spec z : i64 z → magnitude z = Z.abs z ∧ u64 (magnitude z).
Proof.
  intros H. unfold magnitude. rewrite Z.geb_leb. case_bool; reflect_bools; [ulia|].
  rewrite add64_small by ulia. ulia.
Qed.

(** An accumulation loop that stops at the first overflow. *)
Fixpoint checked_total {A} (f : A → Z) (total : Z) (l : list A) : option Z :=
  match l with
  | [] => Some total
  | x :: l' => match checked_add total (f x) with
               | None => None
               | Some total' => checked_total f total' l'
               end
  end.

Lemma checked_total_spec {A} (f : A → Z) total l :
  u64 total → Forall (λ x, u64 (f x)) l →
  checked_total f total l =
    if decide (u64 (total + sumZ (f <$> l))) then Some (total + sumZ (f <$> l)) else None.
Proof.
  intros Ht Hl. revert total Ht. induction Hl as [|x l Hx Hl IH]; intros total Ht; simpl checked_total.
  { rewrite fmap_nil, sumZ_nil, Z.add_0_r. by rewrite decide_True. }
  rewrite fmap_cons, sumZ_cons, Z.add_assoc, checked_add_spec by done.
  assert (0 <= sumZ (f <$> l)).
  { apply sumZ_map_nonneg. intros y Hy. rewrite Forall_forall in Hl. specialize (Hl y Hy). ulia. }
  case_decide as Hu; [by apply IH|]. rewrite decide_False; [done|]. ulia.
Qed.

(** ** Decimal rendering: [to_decimal] *)

Definition digit_char (d : Z) : Ascii.ascii := Ascii.ascii_of_N (Z.to_N (48 + d)).

(** The loop of [to_decimal]: at most 20 digits fit the 21-byte buffer. *)
Fixpoint to_decimal_loop (fuel : nat) (value : Z) (buffer : string) : string :=
  match fuel with
  | O => buffer
  | S fuel' =>
      if value =? 0 then buffer
      else to_decimal_loop fuel' (value / 10) (String (digit_char (value mod 10)) buffer)
  end.

Definition to_decimal (value : Z) : string :=
  if value =? 0 then "0" else to_decimal_loop 21 value EmptyString.

Example to_decimal_max : to_decimal U64_MAX = "18446744073709551615"%string.
Proof. reflexivity. Qed.

(** ** Bit operations used as arithmetic *)

Lemma lor_shifted x b k : 0 <= k → 0 <= b < 2 ^ k → Z.lor (x * 2 ^ k) b = x * 2 ^ k + b.
Proof.
  intros Hk Hb. rewrite <-Z.add_lor_land. enough (Z.land (x * 2 ^ k) b = 0) by lia.
  apply Z.bits_inj'. intros i Hi. rewrite Z.land_spec, Z.bits_0.
  destruct (Z.ltb_spec i k).
  - by rewrite Z.mul_pow2_bits_low by done.
  - destruct (Z.eqb_spec b 0) as [->|]; [by rewrite Z.bits_0, andb_false_r|].
    rewrite (Z.bits_above_log2 b); [by rewrite andb_false_r|lia|].
    apply Z.log2_lt_pow2; [lia|]. apply Z.lt_le_trans with (2 ^ k); [lia|].
    apply Z.pow_le_mono_r; lia.
Qed.

Lemma land_mod z k : 0 <= k → Z.land z (2 ^ k - 1) = z mod 2 ^ k.
Proof. intros Hk. rewrite <-Z.land_ones by done. by rewrite Z.ones_equiv. Qed.
