(* ===== verification/U128.v ===== *)
(** Portable exact 128-bit multiply and divide: [core/u128.hpp].

    [mul_wide] and [div_wide] are written limb by limb and bit by bit with the
    wrap-around of every 64-bit operation; the theorems show that no wrap loses
    anything: the product, the quotient and the remainder are the exact ones. *)
From S2P Require Import Prelude Status Core.

(** ** Definitions *)

Record U128 := mk_u128 { lo : Z; hi : Z }.

(** The number a pair of halves stands for. *)
Definition u128_value (u : U128) : Z := hi u * 2 ^ 64 + lo u.
Definition u128_ok (u : U128) : Prop := u64 (lo u) ∧ u64 (hi u).

Definition u128_is_zero (u : U128) : bool := (lo u =? 0) && (hi u =? 0).
Definition fits_u64 (u : U128) : bool := hi u =? 0.

Definition mask32 : Z := 4294967295.

Definition mul_wide (a b : Z) : U128 :=
  let a_lo := Z.land a mask32 in
  let a_hi := Z.shiftr a 32 in
  let b_lo := Z.land b mask32 in
  let b_hi := Z.shiftr b 32 in
  let p0 := mul64 a_lo b_lo in
  let p1 := mul64 a_lo b_hi in
  let p2 := mul64 a_hi b_lo in
  let p3 := mul64 a_hi b_hi in
  let mid := add64 p1 (Z.shiftr p0 32) in
  let mid2 := add64 p2 (Z.land mid mask32) in
  let carry := add64 (Z.shiftr mid2 32) (Z.shiftr mid 32) in
  mk_u128 (Z.lor (wrap64 (Z.shiftl mid2 32)) (Z.land p0 mask32)) (add64 p3 carry).

Record Div128Result := mk_div128 { quotient : U128; remainder : Z; div_by_zero : bool }.

(** One iteration of the restoring division, for one bit position. *)
Definition div_step (numerator : U128) (denominator bit : Z) (st : U128 * Z) : U128 * Z :=
  let '(q, r) := st in
  let incoming :=
    if bit >=? 64 then negb (Z.land (Z.shiftr (hi numerator) (bit - 64)) 1 =? 0)
    else negb (Z.land (Z.shiftr (lo numerator) bit) 1 =? 0) in
  let carry_out := negb (Z.shiftr r 63 =? 0) in
  let r := Z.lor (wrap64 (Z.shiftl r 1)) (if incoming then 1 else 0) in
  if carry_out || (r >=? denominator) then
    let r := sub64 r denominator in
    if bit >=? 64 then (mk_u128 (lo q) (Z.lor (hi q) (Z.shiftl 1 (bit - 64))), r)
    else (mk_u128 (Z.lor (lo q) (Z.shiftl 1 bit)) (hi q), r)
  else (q, r).

(** [for (int bit = 127; bit >= 0; --bit)]: [bits] counts the bits still to do. *)
Fixpoint div_loop (numerator : U128) (denominator : Z) (bits : nat) (st : U128 * Z) : U128 * Z :=
  match bits with
  | O => st
  | S bit => div_loop numerator denominator bit (div_step numerator denominator (Z.of_nat bit) st)
  end.

Definition div_wide (numerator : U128) (denominator : Z) : Div128Result :=
  if denominator =? 0 then mk_div128 (mk_u128 0 0) 0 true
  else
    let '(q, r) := div_loop numerator denominator 128 (mk_u128 0 0, 0) in
    mk_div128 q r false.

Record MulDivResult := mk_muldiv {
  md_value : Z; md_remainder : Z; md_overflow : bool; md_divide_by_zero : bool }.

Definition md_ok (r : MulDivResult) : bool := negb (md_overflow r) && negb (md_divide_by_zero r).

Definition mul_div (value multiplier divisor : Z) : MulDivResult :=
  if divisor =? 0 then mk_muldiv 0 0 false true
  else
    let product := mul_wide value multiplier in
    let divided := div_wide product divisor in
    if negb (fits_u64 (quotient divided)) then mk_muldiv 0 0 true false
    else mk_muldiv (lo (quotient divided)) (remainder divided) false false.

Definition mul_div_is_exact (value multiplier divisor : Z) : bool :=
  let r := mul_div value multiplier divisor in md_ok r && (md_remainder r =? 0).

(** C++ division truncates toward zero. *)
Definition div_trunc (value divisor : Z) : Z := if divisor =? 0 then 0 else Z.quot value divisor.

(** ** Multiplication *)

Lemma limbs z : u64 z →
  Z.land z mask32 = z mod 2 ^ 32 ∧ Z.shiftr z 32 = z / 2 ^ 32 ∧
  0 <= z mod 2 ^ 32 < 2 ^ 32 ∧ 0 <= z / 2 ^ 32 < 2 ^ 32 ∧ z = 2 ^ 32 * (z / 2 ^ 32) + z mod 2 ^ 32.
Proof.
  intros Hz. unfold mask32. change 4294967295 with (2 ^ 32 - 1). rewrite land_mod by lia.
  rewrite Z.shiftr_div_pow2 by lia. unfold u64 in Hz.
  pose proof (Z.mod_pos_bound z (2 ^ 32) ltac:(lia)). pose proof (Z.div_mod z (2 ^ 32) ltac:(lia)).
  repeat split; lia.
Qed.

Lemma join_limbs m p :
  u64 m → u64 p →
  Z.lor (wrap64 (Z.shiftl m 32)) (Z.land p mask32) = (m mod 2 ^ 32) * 2 ^ 32 + p mod 2 ^ 32.
Proof.
  intros Hm Hp. destruct (limbs p Hp) as (-> & _ & ? & _). destruct (limbs m Hm) as (_ & _ & ? & ? & E).
  rewrite Z.shiftl_mul_pow2 by lia. unfold wrap64. change 18446744073709551616 with (2 ^ 32 * 2 ^ 32).
  rewrite Z.mul_mod_distr_r by lia. by apply lor_shifted.
Qed.

Lemma mul_wide_exact a b :
  u64 a → u64 b → u128_ok (mul_wide a b) ∧ u128_value (mul_wide a b) = a * b.
Proof.
  intros Ha Hb. unfold mul_wide.
  destruct (limbs a Ha) as (-> & -> & Hal & Hah & Ea). destruct (limbs b Hb) as (-> & -> & Hbl & Hbh & Eb).
  set (al := a mod 2 ^ 32) in *. set (ah := a / 2 ^ 32) in *.
  set (bl := b mod 2 ^ 32) in *. set (bh := b / 2 ^ 32) in *. clearbody al ah bl bh.
  change (2 ^ 32) with 4294967296 in *.
  assert (u64 (al * bl) ∧ u64 (al * bh) ∧ u64 (ah * bl) ∧ u64 (ah * bh)) as (H0 & H1 & H2 & H3)
    by (unfold u64; nia).
  rewrite !mul64_small by done.
  destruct (limbs _ H0) as (Em & -> & ? & ? & E0). change (2 ^ 32) with 4294967296 in *.
  assert (0 <= al * bh <= 4294967295 * 4294967295) by nia.
  assert (0 <= ah * bl <= 4294967295 * 4294967295) by nia.
  assert (0 <= ah * bh <= 4294967295 * 4294967295) by nia.
  assert (u64 (al * bh + al * bl / 4294967296)) as Hmid by (unfold u64; lia).
  rewrite (add64_small (al * bh)) by done.
  destruct (limbs _ Hmid) as (-> & -> & ? & ? & E1). change (2 ^ 32) with 4294967296 in *.
  remember (al * bh + al * bl / 4294967296) as mid eqn:Emid.
  assert (u64 (ah * bl + mid mod 4294967296)) as Hmid2 by (unfold u64; lia).
  rewrite (add64_small (ah * bl)) by done.
  rewrite join_limbs by done.
  destruct (limbs _ Hmid2) as (_ & -> & ? & ? & E2). change (2 ^ 32) with 4294967296 in *.
  remember (ah * bl + mid mod 4294967296) as mid2 eqn:Emid2.
  rewrite (add64_small (mid2 / 4294967296)) by (unfold u64; lia).
  assert (a * b = (ah * bh + (mid2 / 4294967296 + mid / 4294967296)) * 2 ^ 64
    + (mid2 mod 4294967296 * 4294967296 + (al * bl) mod 4294967296)) as E.
  { change (2 ^ 64) with (4294967296 * 4294967296). rewrite Ea, Eb.
    replace ((4294967296 * ah + al) * (4294967296 * bh + bl))
      with (4294967296 * 4294967296 * (ah * bh) + 4294967296 * (ah * bl + al * bh) + al * bl) by ring.
    lia. }
  assert (0 <= a * b < 2 ^ 128) by (unfold u64 in Ha, Hb; change (2 ^ 128) with (2 ^ 64 * 2 ^ 64); nia).
  assert (u64 (ah * bh + (mid2 / 4294967296 + mid / 4294967296))) as Hhi.
  { unfold u64. change 18446744073709551616 with (2 ^ 64). nia. }
  rewrite (add64_small (ah * bh)) by done.
  unfold u128_ok, u128_value; simpl lo; simpl hi. rewrite E. split; [|done]. split; [unfold u64; lia|done].
Qed.

(** ** Division *)

Lemma land_1 z : Z.land z 1 = z mod 2.
Proof. exact (land_mod z 1 ltac:(lia)). Qed.

Lemma incoming_bit num bit :
  u128_ok num → 0 <= bit < 128 →
  (if (if bit >=? 64 then negb (Z.land (Z.shiftr (hi num) (bit - 64)) 1 =? 0)
       else negb (Z.land (Z.shiftr (lo num) bit) 1 =? 0)) then 1 else 0)
  = (u128_value num / 2 ^ bit) mod 2.
Proof.
  intros [Hlo Hhi] Hb. rewrite Z.geb_leb.
  transitivity (if 64 <=? bit then (hi num / 2 ^ (bit - 64)) mod 2 else (lo num / 2 ^ bit) mod 2).
  { rewrite !land_1. destruct (Z.leb_spec 64 bit); rewrite Z.shiftr_div_pow2 by lia;
      match goal with |- context [?x mod 2] =>
        pose proof (Z.mod_pos_bound x 2 ltac:(lia)); destruct (Z.eqb_spec (x mod 2) 0); simpl; lia end. }
  unfold u128_value. destruct (Z.leb_spec 64 bit).
  - replace bit with (64 + (bit - 64)) at 2 by lia. rewrite Z.pow_add_r, <-Z.div_div by lia.
    rewrite Z.div_add_l, (Z.div_small (lo num)) by (unfold u64 in Hlo; lia). by rewrite Z.add_0_r.
  - replace (hi num * 2 ^ 64 + lo num) with (hi num * 2 ^ (63 - bit) * 2 * 2 ^ bit + lo num).
    2:{ replace 64 with ((63 - bit) + 1 + bit) by lia. rewrite !Z.pow_add_r by lia. lia. }
    rewrite Z.div_add_l by lia. rewrite Z.add_comm, Z.mod_add by lia. done.
Qed.

Lemma lor_bit y k :
  0 <= k < 64 → u64 (y * 2 ^ (k + 1)) →
  Z.lor (y * 2 ^ (k + 1)) (Z.shiftl 1 k) = y * 2 ^ (k + 1) + 2 ^ k ∧ u64 (y * 2 ^ (k + 1) + 2 ^ k).
Proof.
  intros Hk Hy. rewrite Z.shiftl_mul_pow2, Z.mul_1_l by lia.
  assert (2 ^ (k + 1) = 2 * 2 ^ k) as Hp by (rewrite Z.pow_add_r; lia).
  assert (0 < 2 ^ k) by lia. split; [apply lor_shifted; lia|].
  assert (18446744073709551616 = 2 ^ (63 - k) * (2 * 2 ^ k)) as E.
  { rewrite <-Hp, <-Z.pow_add_r by lia. replace (63 - k + (k + 1)) with 64 by lia. done. }
  unfold u64 in *. rewrite E in *. rewrite Hp in *.
  set (p := 2 ^ k) in *. set (m := 2 ^ (63 - k)) in *. clearbody p m.
  assert (y < m) by nia. nia.
Qed.

(** The halves of a multiple of a power of two. *)
Lemma halves_of_multiple q y k :
  u128_ok q → 64 <= k → u128_value q = y * 2 ^ k → lo q = 0 ∧ hi q = y * 2 ^ (k - 64).
Proof.
  intros [Hlo Hhi] Hk Hq. unfold u128_value in Hq.
  replace k with (64 + (k - 64)) in Hq by lia. rewrite Z.pow_add_r in Hq by lia.
  unfold u64 in Hlo. change (2 ^ 64) with 18446744073709551616 in Hq.
  set (p := 2 ^ (k - 64)) in *. clearbody p.
  assert (lo q = (y * p - hi q) * 18446744073709551616) by lia. lia.
Qed.

Lemma lo_of_multiple q y k :
  u128_ok q → 0 <= k <= 64 → u128_value q = y * 2 ^ k → ∃ z, lo q = z * 2 ^ k.
Proof.
  intros _ Hk Hq. unfold u128_value in Hq. exists (y - hi q * 2 ^ (64 - k)).
  replace 64 with ((64 - k) + k) in Hq by lia. rewrite Z.pow_add_r in Hq by lia. lia.
Qed.

Lemma set_quotient_bit q y bit :
  u128_ok q → 0 <= bit < 128 → u128_value q = y * 2 ^ (bit + 1) →
  let q' := if bit >=? 64 then mk_u128 (lo q) (Z.lor (hi q) (Z.shiftl 1 (bit - 64)))
            else mk_u128 (Z.lor (lo q) (Z.shiftl 1 bit)) (hi q) in
  u128_ok q' ∧ u128_value q' = u128_value q + 2 ^ bit.
Proof.
  intros Hok Hb Hq q'. subst q'. rewrite Z.geb_leb. destruct (Z.leb_spec 64 bit).
  - destruct (halves_of_multiple q y (bit + 1)) as [Hl Hh]; [done|lia|done|].
    destruct Hok as [Hok1 Hok2]. rewrite Hh in *.
    replace (bit + 1 - 64) with (bit - 64 + 1) in * by lia.
    destruct (lor_bit y (bit - 64)) as [-> Hr]; [lia|done|].
    unfold u128_ok, u128_value; simpl. rewrite Hh.
    replace (bit + 1 - 64) with (bit - 64 + 1) in * by lia. split; [done|].
    replace (2 ^ bit) with (2 ^ (bit - 64) * 2 ^ 64) by (rewrite <-Z.pow_add_r by lia; f_equal; lia). lia.
  - destruct (lo_of_multiple q y (bit + 1)) as [z Hz]; [done|lia|done|].
    destruct Hok as [Hok1 Hok2]. rewrite Hz in Hok1.
    destruct (lor_bit z bit) as [E Hr]; [lia|done|].
    unfold u128_ok, u128_value; simpl. rewrite Hz, E. split; [done|lia].
Qed.

Lemma shift_in_bit r b :
  u64 r → 0 <= b < 2 → Z.lor (wrap64 (Z.shiftl r 1)) b = (2 * r) mod 18446744073709551616 + b.
Proof.
  intros Hr Hb. rewrite Z.shiftl_mul_pow2 by lia. unfold wrap64. change (2 ^ 1) with 2.
  replace (r * 2) with (2 * r) by lia. change 18446744073709551616 with (2 * 9223372036854775808).
  rewrite Z.mul_mod_distr_l by lia. rewrite (Z.mul_comm 2). by apply (lor_shifted _ _ 1).
Qed.

Lemma div_step_spec num d bit q r y :
  u128_ok num → u64 d → 0 <= r < d → 0 <= bit < 128 →
  u128_ok q → u128_value q = y * 2 ^ (bit + 1) →
  let b := (u128_value num / 2 ^ bit) mod 2 in
  let '(q', r') := div_step num d bit (q, r) in
  ∃ c, u128_ok q' ∧ 0 <= r' < d ∧ u128_value q' = (2 * y + c) * 2 ^ bit ∧ 2 * r + b = c * d + r'.
Proof.
  intros Hnum Hd Hr Hb Hq Hy b. unfold div_step.
  set (inc := if bit >=? 64 then _ else _).
  assert ((if inc then 1 else 0) = b) as -> by by apply incoming_bit.
  assert (0 <= b < 2) as Hb2 by (apply Z.mod_pos_bound; lia). clearbody b.
  assert (2 ^ (bit + 1) = 2 * 2 ^ bit) as Hp by (rewrite Z.pow_add_r; lia).
  rewrite shift_in_bit by ulia. rewrite Z.shiftr_div_pow2, Z.geb_leb by lia.
  change (2 ^ 63) with 9223372036854775808.
  assert ((negb (r / 9223372036854775808 =? 0)
    || (d <=? (2 * r) mod 18446744073709551616 + b))%bool = (d <=? 2 * r + b)
    ∧ (d <= 2 * r + b → sub64 ((2 * r) mod 18446744073709551616 + b) d = 2 * r + b - d)
    ∧ (2 * r + b < d → (2 * r) mod 18446744073709551616 = 2 * r)) as (-> & Hsub & Hmod).
  { unfold u64 in Hd. unfold sub64, wrap64. destruct (Z.ltb_spec r 9223372036854775808).
    - rewrite (Z.mod_small (2 * r)), (Z.div_small r) by lia. simpl. split; [done|].
      split; [|done]. intros. apply Z.mod_small. lia.
    - assert (1 <= r / 9223372036854775808) by (apply Z.div_le_lower_bound; lia).
      rewrite (proj2 (Z.eqb_neq (r / _) 0)) by lia. rewrite (proj2 (Z.leb_le d (2 * r + b))) by lia.
      simpl. split; [done|].
      split; [|lia]. intros. symmetry. apply Z.mod_unique with (-1); [lia|].
      rewrite <-(Z.mod_unique (2 * r) 18446744073709551616 1 (2 * r - 18446744073709551616)) by lia. lia. }
  destruct (Z.leb_spec d (2 * r + b)).
  - rewrite Hsub by done.
    destruct (set_quotient_bit q y bit Hq Hb Hy) as [H1 H2].
    destruct (bit >=? 64); exists 1; (split; [done|]); rewrite H2; lia.
  - exists 0. split; [done|]. rewrite Hmod by done. rewrite Hy. lia.
Qed.

Lemma div_loop_spec num d bits q r y :
  u128_ok num → u64 d → (bits <= 128)%nat → 0 <= r < d →
  u128_ok q → u128_value q = y * 2 ^ Z.of_nat bits →
  u128_value num / 2 ^ Z.of_nat bits = y * d + r →
  let '(q', r') := div_loop num d bits (q, r) in
  u128_ok q' ∧ 0 <= r' < d ∧ u128_value num = u128_value q' * d + r'.
Proof.
  intros Hnum Hd. revert q r y. induction bits as [|bit IH]; intros q r y Hn Hr Hq Hy HN; cbn [div_loop].
  - change (Z.of_nat 0) with 0 in *. rewrite Z.pow_0_r, ?Z.div_1_r in *. rewrite Z.mul_1_r in Hy.
    subst y. done.
  - pose proof (div_step_spec num d (Z.of_nat bit) q r y Hnum Hd Hr ltac:(lia) Hq
      ltac:(rewrite Hy; f_equal; f_equal; lia)) as Hs. cbv zeta in Hs.
    destruct (div_step num d (Z.of_nat bit) (q, r)) as [q' r'].
    destruct Hs as (c & Hq' & Hr' & Hv & Hc). apply (IH q' r' (2 * y + c)); [lia|done..|].
    rewrite Nat2Z.inj_succ, Z.pow_succ_r, Z.mul_comm, <-Z.div_div in HN by lia.
    pose proof (Z.div_mod (u128_value num / 2 ^ Z.of_nat bit) 2 ltac:(lia)). nia.
Qed.

Lemma div_wide_exact num d :
  u128_ok num → u64 d → d <> 0 →
  let r := div_wide num d in
  div_by_zero r = false ∧ u128_ok (quotient r) ∧
  u128_value (quotient r) = u128_value num / d ∧ remainder r = u128_value num mod d.
Proof.
  intros Hnum Hd Hd0. unfold div_wide. destruct (Z.eqb_spec d 0); [done|].
  pose proof (div_loop_spec num d 128 (mk_u128 0 0) 0 0 Hnum Hd ltac:(lia)) as H.
  destruct (div_loop num d 128 (mk_u128 0 0, 0)) as [q r]; simpl.
  destruct H as (Hq & Hr & HN); [ulia|done|done| |].
  { change (2 ^ Z.of_nat 128) with (2 ^ 64 * 2 ^ 64). apply Z.div_small.
    destruct Hnum as [Hl Hh]. unfold u128_value, u64 in *. change (2 ^ 64) with 18446744073709551616. nia. }
  split; [done|]. split; [done|]. rewrite HN. split.
  - apply Z.div_unique with r; lia.
  - apply Z.mod_unique with (u128_value q); lia.
Qed.

(** ** [mul_div] is the exact floor of a 128-bit quotient *)

Lemma mul_div_spec v m d :
  u64 v → u64 m → u64 d →
  mul_div v m d =
    if d =? 0 then mk_muldiv 0 0 false true
    else if v * m / d <? 2 ^ 64 then mk_muldiv (v * m / d) ((v * m) mod d) false false
    else mk_muldiv 0 0 true false.
Proof.
  intros Hv Hm Hd. unfold mul_div. destruct (Z.eqb_spec d 0) as [|Hd0]; [done|].
  destruct (mul_wide_exact v m Hv Hm) as [Hok Hval].
  destruct (div_wide_exact (mul_wide v m) d Hok Hd Hd0) as (_ & [Hl Hh] & Hq & Hr).
  rewrite Hval in *. rewrite <-Hq, Hr. unfold fits_u64, u128_value, u64 in *.
  destruct (Z.eqb_spec (hi (quotient (div_wide (mul_wide v m) d))) 0) as [E|E]; simpl.
  - rewrite E. rewrite (proj2 (Z.ltb_lt _ _)) by lia. f_equal.
  - rewrite (proj2 (Z.ltb_ge _ _)) by lia. done.
Qed.

(** The form the allocator uses: a share of a whole never overflows. *)
Lemma mul_div_share whole w sum :
  u64 whole → 0 <= w <= sum → u64 sum → 0 < sum →
  mul_div whole w sum = mk_muldiv (whole * w / sum) ((whole * w) mod sum) false false ∧
  0 <= whole * w / sum <= whole.
Proof.
  intros Hw Hws Hs Hpos. rewrite mul_div_spec by ulia.
  assert (0 <= whole * w / sum <= whole) as Hb.
  { split; [apply Z.div_pos; unfold u64 in *; nia|].
    apply Z.div_le_upper_bound; unfold u64 in *; nia. }
  rewrite (proj2 (Z.eqb_neq _ _)) by lia.
  rewrite (proj2 (Z.ltb_lt _ _)) by (unfold u64 in *; lia). done.
Qed.
