(* ===== verification/Bytes.v ===== *)
(** Deterministic little-endian encoding and the FNV-1a digest:
    [core/bytes.hpp] and [fnv1a64] of [core/ids.hpp].

    A [ByteBuffer] is a list of bytes, each a [Z] in [0, 256).  A [ByteWriter]
    only appends, so a write is the list of bytes it appends.  A [ByteReader] is
    its unread suffix [data_ + offset_ .. data_ + size_); a read that would run
    past it fails. *)
From S2P Require Import Prelude Status Core.
#[local] Open Scope string_scope.
#[local] Open Scope list_scope.
#[local] Open Scope Z_scope.

Abbreviation ByteBuffer := (list Z) (only parsing).

Definition byte_list (bs : ByteBuffer) : Prop := Forall u8 bs.

(** ** Digest *)

Definition kFnvOffsetBasis : Z := 1469598103934665603.
Definition kFnvPrime : Z := 1099511628211.

(** One iteration: [hash ^= data[i]; hash *= 1099511628211]. *)
Definition fnv_step (hash byte : Z) : Z := mul64 (Z.lxor hash byte) kFnvPrime.

Definition fnv1a64 (data : ByteBuffer) (seed : Z) : Z := foldl fnv_step seed data.

Definition fnv1a64_continue (hash : Z) (data : ByteBuffer) : Z := fnv1a64 data hash.

Definition checksum64 (data : ByteBuffer) : Z := fnv1a64 data kFnvOffsetBasis.

(** ** Little-endian stores and loads *)

(** [store_le<T>] with [sizeof(T) = n], and [ByteWriter::u16/u32/u64]. *)
Definition store_le (n : nat) (value : Z) : ByteBuffer :=
  (λ i : nat, Z.land (Z.shiftr value (8 * Z.of_nat i)) 255) <$> seq 0 n.

(** [load_le<T>]: bytes are or-ed in at their shift. *)
Definition load_le (bytes : ByteBuffer) : Z :=
  foldl (λ value p, Z.lor value (Z.shiftl p.2 (8 * Z.of_nat p.1))) 0 (imap pair bytes).

(** ** ByteWriter *)

Definition w_u8 (v : Z) : ByteBuffer := [v].
Definition w_u16 (v : Z) : ByteBuffer := store_le 2 v.
Definition w_u32 (v : Z) : ByteBuffer := store_le 4 v.
Definition w_u64 (v : Z) : ByteBuffer := store_le 8 v.
Definition w_i64 (v : Z) : ByteBuffer := w_u64 (wrap64 v).

(** The bytes of a [std::string]. *)
Definition string_bytes (s : string) : ByteBuffer :=
  (λ c, Z.of_N (Ascii.N_of_ascii c)) <$> String.list_ascii_of_string s.
Definition bytes_string (bs : ByteBuffer) : string :=
  String.string_of_list_ascii ((λ b, Ascii.ascii_of_N (Z.to_N b)) <$> bs).

Definition w_blob (s : string) : ByteBuffer := w_u32 (wrap32 (str_size s)) ++ string_bytes s.

Definition w_bool (b : bool) : ByteBuffer := w_u8 (if b then 1 else 0).

(** ** ByteReader *)

Definition Reader (A : Type) : Type := ByteBuffer → option (A * ByteBuffer).

Definition reader_ret {A} (a : A) : Reader A := λ bs, Some (a, bs).
Definition reader_bind {A B} (m : Reader A) (k : A → Reader B) : Reader B :=
  λ bs, match m bs with Some (a, rest) => k a rest | None => None end.

Notation "'read' x := m 'in' k" := (reader_bind m (λ x, k))
  (at level 10, x pattern, m at level 100, k at level 200) : fg_scope.

(** [remaining() < n] is refused, otherwise [n] bytes are taken. *)
Definition r_take (n : nat) : Reader ByteBuffer := λ bs,
  if (length bs <? n)%nat then None else Some (take n bs, drop n bs).

Definition r_u8 : Reader Z := λ bs, match bs with [] => None | b :: rest => Some (b, rest) end.
Definition r_u16 : Reader Z := read b := r_take 2 in reader_ret (load_le b).
Definition r_u32 : Reader Z := read b := r_take 4 in reader_ret (load_le b).
Definition r_u64 : Reader Z := read b := r_take 8 in reader_ret (load_le b).
Definition r_i64 : Reader Z := read raw := r_u64 in reader_ret (to_i64 raw).

(** [blob]: a declared length above [max_size] is refused before it is used. *)
Definition r_blob (max_size : Z) : Reader string := λ bs,
  match r_u32 bs with
  | None => None
  | Some (length, rest) =>
      if length >? max_size then None
      else match r_take (Z.to_nat length) rest with
           | None => None
           | Some (b, rest) => Some (bytes_string b, rest)
           end
  end.

Definition r_skip (count : nat) : Reader unit := read _ := r_take count in reader_ret tt.
Definition reader_empty (bs : ByteBuffer) : bool := match bs with [] => true | _ => false end.

(** ** The digest detects every single-byte change *)

Lemma kFnvPrime_inverse h : u64 h → mul64 (mul64 h kFnvPrime) 14886173955864302971 = h.
Proof.
  intros Hh. unfold mul64, wrap64. rewrite Zmult_mod_idemp_l.
  replace (h * kFnvPrime * 14886173955864302971)
    with (h + (h * 887285111055) * 18446744073709551616) by (unfold kFnvPrime; ring).
  rewrite Z.mod_add by lia. apply Z.mod_small. done.
Qed.

Lemma lxor_u64 a b : u64 a → u64 b → u64 (Z.lxor a b).
Proof.
  intros Ha Hb. unfold u64 in *. split; [apply Z.lxor_nonneg; lia|].
  destruct (Z.eqb_spec (Z.lxor a b) 0) as [->|Hne]; [lia|].
  assert (0 <= Z.lxor a b) by (apply Z.lxor_nonneg; lia).
  change 18446744073709551616 with (2 ^ 64). apply Z.log2_lt_pow2; [lia|].
  pose proof (Z.log2_lxor a b ltac:(lia) ltac:(lia)).
  assert (∀ x, 0 <= x < 2 ^ 64 → Z.log2 x < 64) as Hlog.
  { intros x Hx. destruct (Z.eqb_spec x 0) as [->|]; [done|]. apply Z.log2_lt_pow2; lia. }
  pose proof (Hlog a Ha). pose proof (Hlog b Hb). lia.
Qed.

Lemma u8_u64 b : u8 b → u64 b.
Proof. ulia. Qed.

Lemma fnv_step_range h b : u64 (fnv_step h b).
Proof. apply wrap64_range. Qed.

Lemma fnv_step_inj h h' b b' :
  u64 h → u64 h' → u8 b → u8 b' → fnv_step h b = fnv_step h' b' → Z.lxor h b = Z.lxor h' b'.
Proof.
  intros Hh Hh' Hb Hb' H. unfold fnv_step in H.
  apply (f_equal (λ x, mul64 x 14886173955864302971)) in H.
  by rewrite !kFnvPrime_inverse in H by (apply lxor_u64; auto using u8_u64).
Qed.

Lemma fnv1a64_range data seed : u64 seed → u64 (fnv1a64 data seed).
Proof.
  revert seed. induction data as [|b data IH]; intros seed H; [done|]. apply IH, fnv_step_range.
Qed.

Lemma fnv1a64_app d1 d2 seed : fnv1a64 (d1 ++ d2) seed = fnv1a64 d2 (fnv1a64 d1 seed).
Proof. apply foldl_app. Qed.

Lemma fnv1a64_seed_inj data s s' :
  byte_list data → u64 s → u64 s' → fnv1a64 data s = fnv1a64 data s' → s = s'.
Proof.
  intros Hd. revert s s'. induction Hd as [|b data Hb Hd IH]; intros s s' Hs Hs' H; [done|].
  apply IH in H; [|apply fnv_step_range..]. apply fnv_step_inj in H; [|done..].
  apply (f_equal (λ x, Z.lxor x b)) in H.
  by rewrite !Z.lxor_assoc, Z.lxor_nilpotent, !Z.lxor_0_r in H.
Qed.

Lemma fnv1a64_single_byte pre b b' post seed :
  u64 seed → u8 b → u8 b' → byte_list post → b <> b' →
  fnv1a64 (pre ++ b :: post) seed <> fnv1a64 (pre ++ b' :: post) seed.
Proof.
  intros Hs Hb Hb' Hpost Hne. rewrite !fnv1a64_app. intros H. simpl in H.
  apply fnv1a64_seed_inj in H; [|done|apply fnv_step_range..].
  apply fnv_step_inj in H; [|by apply fnv1a64_range..|done|done].
  apply Hne. apply (f_equal (Z.lxor (fnv1a64 pre seed))) in H.
  by rewrite <-!Z.lxor_assoc, Z.lxor_nilpotent, !Z.lxor_0_l in H.
Qed.

(** ** Stores and loads are inverse *)

Fixpoint le_num (bs : ByteBuffer) : Z :=
  match bs with [] => 0 | b :: bs => b + 256 * le_num bs end.

Lemma le_num_bound bs : byte_list bs → 0 <= le_num bs < 2 ^ (8 * Z.of_nat (length bs)).
Proof.
  induction 1 as [|b bs Hb _ IH]; [simpl; lia|]. cbn [le_num length].
  replace (8 * Z.of_nat (S (length bs))) with (8 + 8 * Z.of_nat (length bs)) by lia.
  rewrite Z.pow_add_r by lia. change (2 ^ 8) with 256. unfold u8 in Hb. nia.
Qed.

Lemma store_le_S n v : store_le (S n) v = v mod 256 :: store_le n (v / 256).
Proof.
  unfold store_le. rewrite <-cons_seq, fmap_cons. f_equal.
  - change (8 * Z.of_nat 0) with 0. rewrite Z.shiftr_0_r. exact (land_mod v 8 ltac:(lia)).
  - rewrite <-fmap_S_seq, <-list_fmap_compose. apply list_fmap_ext. intros i x _. simpl.
    f_equal. change (v / 256) with (v / 2 ^ 8). rewrite <-Z.shiftr_div_pow2, Z.shiftr_shiftr by lia.
    f_equal. lia.
Qed.

Lemma length_store_le n v : length (store_le n v) = n.
Proof. unfold store_le. by rewrite length_fmap, length_seq. Qed.

Lemma store_le_bytes n v : byte_list (store_le n v).
Proof.
  revert v. induction n as [|n IH]; intros v; [constructor|]. rewrite store_le_S.
  constructor; [|apply IH]. unfold u8. apply Z.mod_pos_bound. lia.
Qed.

Lemma le_num_store_le n v : le_num (store_le n v) = v mod 2 ^ (8 * Z.of_nat n).
Proof.
  revert v. induction n as [|n IH]; intros v; [by rewrite Z.mod_1_r|].
  rewrite store_le_S. cbn [le_num]. rewrite IH.
  replace (8 * Z.of_nat (S n)) with (8 + 8 * Z.of_nat n) by lia.
  rewrite Z.pow_add_r by lia. change (2 ^ 8) with 256. rewrite Z.rem_mul_r by lia. done.
Qed.

Lemma store_le_le_num bs : byte_list bs → store_le (length bs) (le_num bs) = bs.
Proof.
  induction 1 as [|b bs Hb _ IH]; [done|]. cbn [length le_num]. rewrite store_le_S. unfold u8 in Hb.
  rewrite (Z.mul_comm 256), Z.mod_add, Z.mod_small, Z.div_add, Z.div_small, Z.add_0_l by lia.
  by rewrite IH.
Qed.

Lemma load_le_num bs : byte_list bs → load_le bs = le_num bs.
Proof.
  intros H. unfold load_le.
  enough (∀ acc k, 0 <= acc < 2 ^ (8 * Z.of_nat k) →
    foldl (λ value p, Z.lor value (Z.shiftl p.2 (8 * Z.of_nat p.1))) acc (imap (λ i b, (k + i, b)%nat) bs)
    = acc + 2 ^ (8 * Z.of_nat k) * le_num bs) as Hgen.
  { change (imap pair bs) with (imap (λ i b, (0 + i, b)%nat) bs).
    rewrite (Hgen 0 0%nat) by (simpl; lia). change (8 * Z.of_nat 0) with 0. lia. }
  induction H as [|b bs Hb _ IH]; intros acc k Hacc; [simpl; lia|].
  rewrite imap_cons. cbn [foldl fst snd le_num]. rewrite Nat.add_0_r.
  rewrite (imap_ext _ (λ i b, (S k + i, b)%nat)) by (intros; simpl; f_equal; lia).
  rewrite Z.shiftl_mul_pow2, Z.lor_comm, lor_shifted by lia.
  assert (2 ^ (8 * Z.of_nat (S k)) = 256 * 2 ^ (8 * Z.of_nat k)) as E.
  { replace (8 * Z.of_nat (S k)) with (8 + 8 * Z.of_nat k) by lia. rewrite Z.pow_add_r by lia. done. }
  rewrite IH; rewrite ?E; unfold u8 in Hb; [lia|nia].
Qed.

Lemma load_store_le n v : 0 <= v < 2 ^ (8 * Z.of_nat n) → load_le (store_le n v) = v.
Proof.
  intros Hv. rewrite load_le_num by apply store_le_bytes.
  rewrite le_num_store_le. by apply Z.mod_small.
Qed.

Lemma store_load_le bs : byte_list bs → store_le (length bs) (load_le bs) = bs.
Proof. intros H. rewrite load_le_num by done. by apply store_le_le_num. Qed.

Lemma load_le_range bs : byte_list bs → 0 <= load_le bs < 2 ^ (8 * Z.of_nat (length bs)).
Proof. intros H. rewrite load_le_num by done. by apply le_num_bound. Qed.

(** ** The interface between a writer and its reader

    [Decodes w r ok]: what [w] wrote of an admissible value, [r] reads back,
    leaving the rest.  [Canonical w r ok]: what [r] accepts is exactly what [w]
    writes, so no other byte string decodes to the same value. *)

Class Decodes {A} (w : A → ByteBuffer) (r : Reader A) (ok : A → Prop) : Prop :=
  decodes : ∀ a rest, ok a → r (w a ++ rest) = Some (a, rest).

Class Canonical {A} (w : A → ByteBuffer) (r : Reader A) (ok : A → Prop) : Prop :=
  canonical : ∀ bs a rest, byte_list bs → r bs = Some (a, rest) →
    ok a ∧ byte_list rest ∧ bs = w a ++ rest.

Lemma r_take_app n bs rest : length bs = n → r_take n (bs ++ rest) = Some (bs, rest).
Proof.
  intros <-. unfold r_take. rewrite (proj2 (Nat.ltb_ge _ _)) by (rewrite length_app; lia).
  by rewrite take_app_length, drop_app_length.
Qed.

Lemma r_take_some n bs b rest : r_take n bs = Some (b, rest) → length b = n ∧ bs = b ++ rest.
Proof.
  unfold r_take. destruct (Nat.ltb_spec (length bs) n); [done|]. intros [= <- <-].
  rewrite length_take, take_drop. split; [lia|done].
Qed.

Section fixed_width.
  Context (n : nat) (ok : Z → Prop).
  Hypothesis Hok : ∀ v, ok v ↔ 0 <= v < 2 ^ (8 * Z.of_nat n).
Let reader : Reader Z := read b := r_take n in reader_ret (load_le b).

Lemma fixed_width_decodes : Decodes (store_le n) reader ok.
  Proof.
    intros v rest Hv. unfold reader, reader_bind. rewrite r_take_app by apply length_store_le.
    unfold reader_ret. by rewrite load_store_le by by apply Hok.
  Qed.

Lemma fixed_width_canonical : Canonical (store_le n) reader ok.
  Proof.
    intros bs v rest Hbs. unfold reader, reader_bind.
    destruct (r_take n bs) as [[b rest']|] eqn:E; [|done]. intros [= <- <-].
    apply r_take_some in E as [Hl ->]. apply Forall_app in Hbs as [Hb Hr].
    rewrite Hok, <-Hl, store_load_le by done. split; [by apply load_le_range|done].
  Qed.
End fixed_width.

#[export] Instance u16_decodes : Decodes w_u16 r_u16 u16.
Proof. by apply fixed_width_decodes. Qed.
#[export] Instance u32_decodes : Decodes w_u32 r_u32 u32.
Proof. by apply fixed_width_decodes. Qed.
#[export] Instance u64_decodes : Decodes w_u64 r_u64 u64.
Proof. by apply fixed_width_decodes. Qed.
#[export] Instance u16_canonical : Canonical w_u16 r_u16 u16.
Proof. by apply fixed_width_canonical. Qed.
#[export] Instance u32_canonical : Canonical w_u32 r_u32 u32.
Proof. by apply fixed_width_canonical. Qed.
#[export] Instance u64_canonical : Canonical w_u64 r_u64 u64.
Proof. by apply fixed_width_canonical. Qed.

#[export] Instance u8_decodes : Decodes w_u8 r_u8 u8.
Proof. done. Qed.
#[export] Instance u8_canonical : Canonical w_u8 r_u8 u8.
Proof. intros [|b bs] a rest Hbs; [done|]. intros [= -> ->]. by inversion Hbs. Qed.

#[export] Instance i64_decodes : Decodes w_i64 r_i64 i64.
Proof.
  intros v rest Hv. unfold r_i64, reader_bind, w_i64.
  rewrite (decodes (ok := u64)) by apply wrap64_range. unfold reader_ret. by rewrite to_i64_wrap64.
Qed.

#[export] Instance i64_canonical : Canonical w_i64 r_i64 i64.
Proof.
  intros bs v rest Hbs. unfold r_i64, reader_bind, reader_ret.
  destruct (r_u64 bs) as [[raw rest']|] eqn:E; [|done]. intros [= <- <-].
  apply (canonical (w := w_u64) (ok := u64)) in E as (Hr & Hrest & ->); [|done].
  unfold w_i64. rewrite wrap64_to_i64 by done. split; [|done].
  unfold to_i64. case_bool; reflect_bools; ulia.
Qed.

(** *** Strings *)

Lemma string_bytes_bytes s : byte_list (string_bytes s).
Proof.
  unfold string_bytes, byte_list. apply Forall_fmap, Forall_forall. intros c _. simpl.
  pose proof (Ascii.N_ascii_bounded c). unfold u8. lia.
Qed.

Lemma length_list_ascii s : length (String.list_ascii_of_string s) = String.length s.
Proof. induction s; simpl; congruence. Qed.

Lemma length_string_bytes s : length (string_bytes s) = String.length s.
Proof. unfold string_bytes. by rewrite length_fmap, length_list_ascii. Qed.

Lemma bytes_string_bytes s : bytes_string (string_bytes s) = s.
Proof.
  unfold bytes_string, string_bytes. rewrite <-list_fmap_compose.
  rewrite <-(String.string_of_list_ascii_of_string s) at 2. f_equal.
  rewrite <-(list_fmap_id (String.list_ascii_of_string s)) at 2.
  apply list_fmap_ext. intros i c _. simpl. by rewrite N2Z.id, Ascii.ascii_N_embedding.
Qed.

Lemma string_bytes_string bs : byte_list bs → string_bytes (bytes_string bs) = bs.
Proof.
  intros H. unfold bytes_string, string_bytes. rewrite String.list_ascii_of_string_of_list_ascii.
  rewrite <-list_fmap_compose. rewrite <-(list_fmap_id bs) at 2.
  apply list_fmap_ext. intros i b Hb. simpl. pose proof (Forall_lookup_1 _ _ _ _ H Hb) as Hr. simpl in Hr.
  unfold u8 in Hr. rewrite Ascii.N_ascii_embedding by lia. lia.
Qed.

Lemma str_size_nonneg s : 0 <= str_size s.
Proof. unfold str_size. lia. Qed.

#[export] Instance blob_decodes max :
  Decodes w_blob (r_blob max) (λ s, str_size s <= max ∧ u32 (str_size s)).
Proof.
  intros s rest [Hmax Hs]. unfold w_blob, r_blob. rewrite <-app_assoc.
  assert (wrap32 (str_size s) = str_size s) as -> by (apply Z.mod_small; ulia).
  rewrite (decodes (ok := u32)) by done. rewrite Z.gtb_ltb.
  rewrite (proj2 (Z.ltb_ge _ _)) by lia.
  rewrite r_take_app by (rewrite length_string_bytes; unfold str_size; lia).
  by rewrite bytes_string_bytes.
Qed.

#[export] Instance blob_canonical max :
  Canonical w_blob (r_blob max) (λ s, str_size s <= max ∧ u32 (str_size s)).
Proof.
  intros bs s rest Hbs. unfold r_blob. destruct (r_u32 bs) as [[len r1]|] eqn:E1; [|done].
  apply (canonical (w := w_u32) (ok := u32)) in E1 as (Hlen & Hr1 & ->); [|done].
  rewrite Z.gtb_ltb. destruct (Z.ltb_spec max len); [done|].
  destruct (r_take (Z.to_nat len) r1) as [[b r2]|] eqn:E2; [|done]. intros [= <- <-].
  apply r_take_some in E2 as [Hl ->]. apply Forall_app in Hr1 as [Hb Hr2].
  assert (str_size (bytes_string b) = len) as Hsz.
  { unfold str_size. rewrite <-length_string_bytes, string_bytes_string by done. ulia. }
  unfold w_blob. rewrite Hsz, string_bytes_string by done.
  replace (wrap32 len) with len by (symmetry; apply Z.mod_small; ulia).
  rewrite <-app_assoc. done.
Qed.

(** *** Counted sequences: [for (i = 0; i < count; ++i)] of a record read *)

Fixpoint r_repeat {A} (count : nat) (r : Reader A) : Reader (list A) :=
  match count with
  | O => reader_ret []
  | S count' => read a := r in read l := r_repeat count' r in reader_ret (a :: l)
  end.

Definition w_list {A} (w : A → ByteBuffer) (l : list A) : ByteBuffer := concat (w <$> l).

Lemma r_repeat_decodes {A} (w : A → ByteBuffer) r ok `{!Decodes w r ok} l rest :
  Forall ok l → r_repeat (length l) r (w_list w l ++ rest) = Some (l, rest).
Proof.
  induction 1 as [|a l Ha Hl IH]; [done|]. cbn [length r_repeat]. unfold reader_bind.
  unfold w_list in *. cbn [fmap list_fmap concat]. rewrite <-app_assoc.
  rewrite (decodes (ok := ok)) by done. by rewrite IH.
Qed.

Lemma r_repeat_length {A} (r : Reader A) n bs l rest :
  r_repeat n r bs = Some (l, rest) → length l = n.
Proof.
  revert bs l. induction n as [|n IH]; intros bs l; cbn [r_repeat]; unfold reader_bind, reader_ret.
  - by intros [= <- _].
  - destruct (r bs) as [[a r1]|]; [|done]. destruct (r_repeat n r r1) as [[l' r2]|] eqn:E; [|done].
    intros [= <- <-]. simpl. f_equal. eauto.
Qed.

Lemma r_repeat_canonical {A} (w : A → ByteBuffer) r ok `{!Canonical w r ok} n bs l rest :
  byte_list bs → r_repeat n r bs = Some (l, rest) →
  Forall ok l ∧ byte_list rest ∧ bs = w_list w l ++ rest.
Proof.
  revert bs l. induction n as [|n IH]; intros bs l Hbs; cbn [r_repeat]; unfold reader_bind, reader_ret.
  - intros [= <- <-]. by split; [constructor|].
  - destruct (r bs) as [[a r1]|] eqn:E1; [|done].
    destruct (r_repeat n r r1) as [[l' r2]|] eqn:E2; [|done]. intros [= <- <-].
    apply (canonical (w := w) (ok := ok)) in E1 as (Ha & Hr1 & ->); [|done].
    apply IH in E2 as (Hl & Hr2 & ->); [|done]. unfold w_list. cbn [fmap list_fmap concat].
    rewrite <-app_assoc. split; [by constructor|done].
Qed.

Lemma byte_list_app a b : byte_list (a ++ b) ↔ byte_list a ∧ byte_list b.
Proof. apply Forall_app. Qed.
Lemma w_u8_bytes v : u8 v → byte_list (w_u8 v).
Proof. intros H. by apply Forall_singleton. Qed.
Lemma w_bool_bytes b : byte_list (w_bool b).
Proof. apply Forall_singleton. by destruct b. Qed.
Lemma w_blob_bytes s : byte_list (w_blob s).
Proof. apply byte_list_app. split; [apply store_le_bytes|apply string_bytes_bytes]. Qed.
Lemma w_list_bytes {A} (w : A → ByteBuffer) l : (∀ a, byte_list (w a)) → byte_list (w_list w l).
Proof. intros H. induction l as [|a l IH]; [constructor|]. apply byte_list_app. auto. Qed.

#[export] Hint Resolve store_le_bytes w_bool_bytes w_blob_bytes w_list_bytes string_bytes_bytes : fg.

#[global] Arguments store_le : simpl never.
#[global] Arguments w_u8 : simpl never.
#[global] Arguments w_u16 : simpl never.
#[global] Arguments w_u32 : simpl never.
#[global] Arguments w_u64 : simpl never.
#[global] Arguments w_i64 : simpl never.
#[global] Arguments w_blob : simpl never.
#[global] Arguments w_bool : simpl never.
