(* ===== verification/Fields.v ===== *)
(** Words at fixed offsets of a byte buffer, [load_le<T>(bytes + offset)]: what
    they read of a concatenation of stores, and what changing, cutting or
    checksumming the buffer does to them. *)
From S2P Require Import Prelude Core Bytes.
#[local] Open Scope Z_scope.

(** [load_le<T>(bytes + offset)]. *)
Definition field (offset width : nat) (bytes : ByteBuffer) : Z := load_le (take width (drop offset bytes)).

Lemma field_skip offset width (a l : ByteBuffer) :
  (length a <= offset)%nat → field offset width (a ++ l) = field (offset - length a) width l.
Proof. intros H. unfold field. by rewrite drop_app_ge. Qed.

Lemma field_here width (a l : ByteBuffer) : length a = width → field 0 width (a ++ l) = load_le a.
Proof. intros H. unfold field. rewrite drop_0, <-H. by rewrite take_app_length. Qed.

(** Closes the range of a word of [n] bytes. *)
Ltac word_range :=
  match goal with |- 0 <= _ < 2 ^ (8 * Z.of_nat ?n) =>
    let v := eval vm_compute in (2 ^ (8 * Z.of_nat n)) in change (2 ^ (8 * Z.of_nat n)) with v end;
  unfold u64, u32, u16 in *; lia.

(** Reads a field of a concatenation of fixed-width stores. *)
Ltac read_field :=
  repeat (rewrite field_skip by (unfold w_u16, w_u32, w_u64; rewrite length_store_le; lia);
          unfold w_u16, w_u32, w_u64; rewrite length_store_le; cbn [Nat.sub]);
  rewrite field_here by (unfold w_u16, w_u32, w_u64; apply length_store_le);
  unfold w_u16, w_u32, w_u64; rewrite load_store_le by word_range.

Lemma field_take offset width k l :
  (offset + width <= k)%nat → field offset width (take k l) = field offset width l.
Proof.
  intros H. unfold field. rewrite !take_drop_commute, take_take. by rewrite Nat.min_l by lia.
Qed.

Lemma field_insert_outside offset width i x l :
  (i < offset ∨ offset + width <= i)%nat → field offset width (<[i:=x]> l) = field offset width l.
Proof.
  intros [H|H]; unfold field.
  - by rewrite drop_insert_lt by lia.
  - rewrite !take_drop_commute. by rewrite take_insert_ge by lia.
Qed.

Lemma checksum_insert i b b' l tail :
  byte_list l → byte_list tail → l !! i = Some b → u8 b' → b <> b' →
  checksum64 (<[i:=b']> l ++ tail) <> checksum64 (l ++ tail).
Proof.
  intros Hl Ht Hi Hb' Hne. pose proof (lookup_lt_Some _ _ _ Hi) as Hlt.
  rewrite insert_take_drop by done. rewrite <-(take_drop_middle l i b Hi) at 3.
  rewrite <-!app_assoc. cbn [app]. intros H. symmetry in H. revert H.
  apply fnv1a64_single_byte; [unfold kFnvOffsetBasis; ulia|by eapply Forall_lookup in Hi|done| |done].
  apply byte_list_app. split; [by apply Forall_drop|done].
Qed.

Lemma field_inj offset width l l' :
  byte_list l → byte_list l' → (offset + width <= length l)%nat → length l' = length l →
  field offset width l' = field offset width l → take width (drop offset l') = take width (drop offset l).
Proof.
  intros Hl Hl' Hlen Hlen' H. unfold field in H.
  assert (∀ m, byte_list m → length m = length l →
    store_le width (load_le (take width (drop offset m))) = take width (drop offset m)) as Hs.
  { intros m Hm Hml. assert (length (take width (drop offset m)) = width) as E
      by (rewrite length_take, length_drop; lia).
    rewrite <-E at 1. apply store_load_le. by apply Forall_take, Forall_drop. }
  rewrite <-(Hs l), <-(Hs l'), H; done.
Qed.

