(* ===== verification/Policy.v ===== *)
(** The fairness policy and its validation: [model/refs.hpp], [model/policy.hpp],
    [src/model/policy.cpp].

    [validate_policy] is the chain of checks of the source, in its order, one
    definition per block.  [policy_wf] states declaratively what a policy has to
    satisfy; [validate_policy_correct] proves the two equivalent, so that the
    evaluator's theorems can start from a validated policy. *)
From S2P Require Import Prelude Status Core.
#[local] Open Scope string_scope.
#[local] Open Scope list_scope.
#[local] Open Scope Z_scope.

(** ** References ([model/refs.hpp]) *)

Record Provenance := mk_provenance {
  prov_revision : Z;
  prov_source : string;
  prov_source_digest : Z;
  prov_captured_at_ns : Z }.

Definition provenance_bound (p : Provenance) : bool :=
  negb (prov_source_digest p =? 0) && negb (prov_revision p =? 0).

(** [PriorityClassRef] and [QosClassRef] have the same shape. *)
Record ClassRef := mk_ref { ref_id : Z; ref_generation : Z }.

Definition ref_present (r : ClassRef) : bool := valid (ref_id r).
Definition ref_consistent (r : ClassRef) : bool := eqb (valid (ref_id r)) (valid (ref_generation r)).
Definition ref_eqb (a b : ClassRef) : bool :=
  (ref_id a =? ref_id b) && (ref_generation a =? ref_generation b).
Definition no_ref : ClassRef := mk_ref 0 0.

Record ProducerIdentity := mk_producer {
  producer_name : string; producer_instance : Z; producer_version : Z }.

(** ** The policy ([model/policy.hpp]) *)

Record FairnessGroup := mk_group {
  group_id : Z;
  group_generation : Z;
  group_parent : Z;
  group_share_weight : Z;
  group_guarantee_floor : Z;
  group_obligation_rank : Z;
  group_protected_obligation : bool;
  group_label : string }.

Record Subject := mk_subject {
  subj_id : Z;
  subj_generation : Z;
  subj_group : Z;
  subj_tenant : Z;
  subj_share_weight : Z;
  subj_guarantee_floor : Z;
  subj_starvation_windows : Z;
  subj_guarantee_starvation_windows : Z;
  subj_priority : ClassRef;
  subj_qos : ClassRef;
  subj_priority_modifier_bps : Z;
  subj_priority_rank : Z;
  subj_obligation_rank : Z;
  subj_protected_obligation : bool;
  subj_max_reduce_units : Z;
  subj_max_augment_units : Z;
  subj_label : string }.

Record FairnessPolicy := mk_policy {
  pol_id : Z;
  pol_generation : Z;
  pol_epoch : Z;
  pol_window_units : Z;
  pol_fair_band_units : Z;
  pol_correction_threshold_units : Z;
  pol_cooldown_windows : Z;
  pol_max_correction_units : Z;
  pol_max_correction_bps : Z;
  pol_max_priority_modifier_bps : Z;
  pol_max_evidence_age_windows : Z;
  pol_max_evidence_age_ns : Z;
  pol_max_carry_units : Z;
  pol_enforce_guarantee_floors : bool;
  pol_groups : list FairnessGroup;
  pol_subjects : list Subject;
  pol_provenance : Provenance }.

(** [FairnessGroup{}] and [Subject{}]. *)
Definition default_group : FairnessGroup := mk_group 0 0 0 1 0 0 false "".
Definition default_subject : Subject :=
  mk_subject 0 0 0 0 1 0 0 0 no_ref no_ref 0 0 0 false 0 0 "".

(** [find_subject], [find_group]: the first match. *)
Definition find_subject (p : FairnessPolicy) (wanted : Z) : option Subject :=
  find (λ s, subj_id s =? wanted) (pol_subjects p).
Definition find_group (p : FairnessPolicy) (wanted : Z) : option FairnessGroup :=
  find (λ g, group_id g =? wanted) (pol_groups p).

(** ** Validation ([src/model/policy.cpp]) *)

Definition kMaxLabelBytes : Z := 128.

(** An [unordered_map] from group identity to position. *)
Abbreviation GroupIndex := (gmap Z nat) (only parsing).

Definition weight_sum_fits (accumulator weight : Z) : option Z := checked_add accumulator weight.

Definition group_subject_weight_sum (p : FairnessPolicy) (group : Z) : Z :=
  foldl (λ sum s, if subj_group s =? group then add64 sum (subj_share_weight s) else sum)
    0 (pol_subjects p).

Definition validate_scalars (p : FairnessPolicy) : Result unit :=
  reject (negb (valid (pol_id p)))
    with StatusCode.PolicyInvalid, "policy id must be non-zero" ;;
  reject (negb (valid (pol_generation p)))
    with StatusCode.PolicyInvalid, "policy generation must be >= 1" ;;
  reject (negb (valid (pol_epoch p)))
    with StatusCode.PolicyInvalid, "policy epoch must be >= 1" ;;
  reject (sizeZ (pol_groups p) >? kMaxGroups)
    with StatusCode.LimitExceeded, "group count exceeds kMaxGroups" ;;
  reject (sizeZ (pol_subjects p) =? 0)
    with StatusCode.PolicyInvalid, "policy must declare at least one subject" ;;
  reject (sizeZ (pol_subjects p) >? kMaxSubjects)
    with StatusCode.LimitExceeded, "subject count exceeds kMaxSubjects" ;;
  reject (pol_fair_band_units p >? kMaxServiceUnits)
    with StatusCode.OutOfRange, "fair band exceeds kMaxServiceUnits" ;;
  reject (pol_correction_threshold_units p >? kMaxServiceUnits)
    with StatusCode.OutOfRange, "correction threshold exceeds kMaxServiceUnits" ;;
  reject (pol_correction_threshold_units p <? pol_fair_band_units p)
    with StatusCode.PolicyInvalid, "correction threshold must be at least the fair band (hysteresis)" ;;
  reject (pol_max_correction_units p >? mul64 kMaxServiceUnits kMaxSubjects)
    with StatusCode.OutOfRange, "max correction units exceeds the bounded domain" ;;
  reject (pol_max_correction_bps p >? 100000)
    with StatusCode.OutOfRange, "max correction basis points exceeds 100000" ;;
  reject (pol_max_priority_modifier_bps p >? kMaxPriorityModifierBps)
    with StatusCode.OutOfRange, "max priority modifier exceeds kMaxPriorityModifierBps" ;;
  reject (pol_max_evidence_age_windows p =? 0)
    with StatusCode.PolicyInvalid, "max evidence age in windows must be >= 1" ;;
  reject (pol_max_evidence_age_windows p >? 1000000)
    with StatusCode.OutOfRange, "max evidence age in windows is implausible" ;;
  reject (pol_max_carry_units p >? kMaxCarryUnits)
    with StatusCode.OutOfRange, "max carry units exceeds kMaxCarryUnits" ;;
  reject (str_size (prov_source (pol_provenance p)) >? kMaxLabelBytes)
    with StatusCode.LimitExceeded, "policy provenance source is too long" ;;
  Value tt.

(** One iteration of the group loop: checks the group and enters it in the index. *)
Definition validate_group (index : GroupIndex) (entry : nat * FairnessGroup) : Result GroupIndex :=
  let '(i, group) := entry in
  reject (negb (valid (group_id group)))
    with StatusCode.PolicyInvalid, "group id must be non-zero" ;;
  reject (negb (valid (group_generation group)))
    with StatusCode.PolicyInvalid, "group generation must be >= 1" ;;
  match index !! group_id group with
  | Some _ => fail StatusCode.AlreadyExists "duplicate group id"
  | None =>
      reject ((group_share_weight group =? 0) || (group_share_weight group >? kMaxShareWeight))
        with StatusCode.OutOfRange, "group share weight out of range" ;;
      reject (group_guarantee_floor group >? kMaxServiceUnits)
        with StatusCode.OutOfRange, "group guarantee floor exceeds kMaxServiceUnits" ;;
      reject (group_protected_obligation group && (group_obligation_rank group =? 0))
        with StatusCode.PolicyInvalid, "a protected obligation requires a non-zero obligation rank" ;;
      reject (str_size (group_label group) >? kMaxLabelBytes)
        with StatusCode.LimitExceeded, "group label is too long" ;;
      Value (<[group_id group := i]> index)
  end.

Definition validate_parent (index : GroupIndex) (group : FairnessGroup) : Result unit :=
  if negb (valid (group_parent group)) then Value tt
  else
    match index !! group_parent group with
    | None => fail StatusCode.NotFound "group parent does not exist"
    | Some _ =>
        reject (group_parent group =? group_id group)
          with StatusCode.GroupCycle, "group cannot be its own parent" ;;
        Value tt
    end.

(** The walk to the root: [steps] is what the depth bound still allows, so
    running out of it is the [depth > kMaxGroupDepth] exit of the source. *)
Fixpoint walk_to_root (groups : list FairnessGroup) (index : GroupIndex) (steps : nat) (cursor : Z)
    : Result unit :=
  match steps with
  | O => fail StatusCode.GroupDepthExceeded "group nesting exceeds kMaxGroupDepth"
  | S steps' =>
      match index !! cursor ≫= (λ i, groups !! i) with
      | None => fail StatusCode.NotFound "group parent chain references an unknown group"
      | Some group =>
          if negb (valid (group_parent group)) then Value tt
          else walk_to_root groups index steps' (group_parent group)
      end
  end.

Definition validate_depth (groups : list FairnessGroup) (index : GroupIndex) (group : FairnessGroup)
    : Result unit :=
  walk_to_root groups index kMaxGroupDepth (group_id group).

(** One iteration of the subject loop: [seen] is the set of identities so far. *)
Definition validate_subject (p : FairnessPolicy) (index : GroupIndex) (seen : gset Z)
    (subject : Subject) : Result (gset Z) :=
  reject (negb (valid (subj_id subject)))
    with StatusCode.PolicyInvalid, "subject id must be non-zero" ;;
  reject (negb (valid (subj_generation subject)))
    with StatusCode.PolicyInvalid, "subject generation must be >= 1" ;;
  reject (bool_decide (subj_id subject ∈ seen))
    with StatusCode.AlreadyExists, "duplicate subject id" ;;
  reject (negb (valid (subj_group subject)))
    with StatusCode.PolicyInvalid, "subject must reference a fairness group" ;;
  match index !! subj_group subject with
  | None => fail StatusCode.NotFound "subject references an unknown fairness group"
  | Some _ =>
      reject ((subj_share_weight subject =? 0) || (subj_share_weight subject >? kMaxShareWeight))
        with StatusCode.OutOfRange, "subject share weight out of range" ;;
      reject (subj_guarantee_floor subject >? kMaxServiceUnits)
        with StatusCode.OutOfRange, "subject guarantee floor exceeds kMaxServiceUnits" ;;
      reject ((subj_starvation_windows subject >? 1000000)
              || (subj_guarantee_starvation_windows subject >? 1000000))
        with StatusCode.OutOfRange, "starvation thresholds are implausible" ;;
      reject (negb (ref_consistent (subj_priority subject)))
        with StatusCode.PolicyInvalid, "priority reference id/generation disagree" ;;
      reject (negb (ref_consistent (subj_qos subject)))
        with StatusCode.PolicyInvalid, "QoS reference id/generation disagree" ;;
      reject (subj_protected_obligation subject && (subj_obligation_rank subject =? 0))
        with StatusCode.PolicyInvalid, "a protected obligation requires a non-zero obligation rank" ;;
      let modifier :=
        wrap32 (if subj_priority_modifier_bps subject <? 0
                then - subj_priority_modifier_bps subject
                else subj_priority_modifier_bps subject) in
      reject (modifier >? pol_max_priority_modifier_bps p)
        with StatusCode.OutOfRange, "subject priority modifier exceeds the policy bound" ;;
      reject (modifier >? kMaxPriorityModifierBps)
        with StatusCode.OutOfRange, "subject priority modifier exceeds the hard bound" ;;
      reject (subj_max_reduce_units subject >? kMaxServiceUnits)
        with StatusCode.OutOfRange, "subject reduce cap exceeds kMaxServiceUnits" ;;
      reject (subj_max_augment_units subject >? kMaxServiceUnits)
        with StatusCode.OutOfRange, "subject augment cap exceeds kMaxServiceUnits" ;;
      reject (str_size (subj_label subject) >? kMaxLabelBytes)
        with StatusCode.LimitExceeded, "subject label is too long" ;;
      Value ({[ subj_id subject ]} ∪ seen)
  end.

(** A loop that adds the selected magnitudes with an overflow check. *)
Definition checked_sum {A} (select : A → bool) (amount : A → Z) (detail : string) (start : Z)
    (l : list A) : Result Z :=
  fold_result (λ sum x,
    if select x then
      match checked_add sum (amount x) with
      | None => fail StatusCode.ArithmeticOverflow detail
      | Some sum' => Value sum'
      end
    else Value sum) start l.

Definition validate_weight_sums (p : FairnessPolicy) (group : FairnessGroup) : Result unit :=
  let? _ := checked_sum (λ child, group_parent child =? group_id group) group_share_weight
              "child group weight sum overflows" 0 (pol_groups p) in
  reject (group_subject_weight_sum p (group_id group) =? 0)
    with StatusCode.PolicyInvalid, "a group has no governed weight" ;;
  let? _ := checked_sum (λ s, subj_group s =? group_id group) subj_share_weight
              "subject weight sum overflows" 0 (pol_subjects p) in
  Value tt.

Definition validate_floors (p : FairnessPolicy) (group : FairnessGroup) : Result unit :=
  if group_guarantee_floor group =? 0 then Value tt
  else
    let? child_floors := checked_sum (λ child, group_parent child =? group_id group)
                           group_guarantee_floor "child floor sum overflows" 0 (pol_groups p) in
    let? child_floors := checked_sum (λ s, subj_group s =? group_id group)
                           subj_guarantee_floor "child floor sum overflows" child_floors
                           (pol_subjects p) in
    reject (child_floors >? group_guarantee_floor group)
      with StatusCode.PolicyOvercommit,
        "group guarantee floor is below the sum of its children's floors" ;;
    Value tt.

Definition validate_policy (p : FairnessPolicy) : Result unit :=
  let? _ := validate_scalars p in
  let? index := fold_result validate_group ∅ (imap pair (pol_groups p)) in
  let? _ := for_each (validate_parent index) (pol_groups p) in
  let? _ := for_each (validate_depth (pol_groups p) index) (pol_groups p) in
  let? _ := fold_result (validate_subject p index) ∅ (pol_subjects p) in
  let? _ := for_each (validate_weight_sums p) (pol_groups p) in
  for_each (validate_floors p) (pol_groups p).

(** [group_depths]: the walk is cut after [kMaxGroupDepth + 2] steps. *)
Fixpoint group_depth_walk (groups : list FairnessGroup) (index : GroupIndex) (steps : nat)
    (depth : Z) (cursor : nat) : Z :=
  match steps with
  | O => depth
  | S steps' =>
      let depth := depth + 1 in
      match groups !! cursor with
      | None => depth
      | Some group =>
          if negb (valid (group_parent group)) then depth
          else
            match index !! group_parent group with
            | None => depth
            | Some i => if depth >? Z.of_nat kMaxGroupDepth + 1 then depth
                        else group_depth_walk groups index steps' depth i
            end
      end
  end.

(** [index.emplace] keeps the first entry of an identity. *)
Definition index_groups (groups : list FairnessGroup) : GroupIndex :=
  foldl (λ index p, if decide (is_Some (index !! group_id p.2)) then index
                    else <[group_id p.2 := p.1]> index) ∅ (imap pair groups).

Definition group_depths (p : FairnessPolicy) : list Z :=
  imap (λ i _, group_depth_walk (pol_groups p) (index_groups (pol_groups p))
                 (kMaxGroupDepth + 2) 0 i) (pol_groups p).

(** ** What validation establishes *)

(** The ranges that the C++ field types give for free. *)
Definition ref_typed (r : ClassRef) : Prop := u64 (ref_id r) ∧ u64 (ref_generation r).
Definition provenance_typed (p : Provenance) : Prop :=
  u64 (prov_revision p) ∧ u64 (prov_source_digest p) ∧ i64 (prov_captured_at_ns p).

Record group_typed (g : FairnessGroup) : Prop := {
  gt_id : u64 (group_id g);
  gt_generation : u64 (group_generation g);
  gt_parent : u64 (group_parent g);
  gt_weight : u32 (group_share_weight g);
  gt_floor : u64 (group_guarantee_floor g);
  gt_rank : u32 (group_obligation_rank g) }.

Record subject_typed (s : Subject) : Prop := {
  st_id : u64 (subj_id s);
  st_generation : u64 (subj_generation s);
  st_group : u64 (subj_group s);
  st_tenant : u64 (subj_tenant s);
  st_weight : u32 (subj_share_weight s);
  st_floor : u64 (subj_guarantee_floor s);
  st_starvation : u32 (subj_starvation_windows s);
  st_gstarvation : u32 (subj_guarantee_starvation_windows s);
  st_priority : ref_typed (subj_priority s);
  st_qos : ref_typed (subj_qos s);
  st_modifier : i32 (subj_priority_modifier_bps s);
  st_prank : u32 (subj_priority_rank s);
  st_rank : u32 (subj_obligation_rank s);
  st_reduce : u64 (subj_max_reduce_units s);
  st_augment : u64 (subj_max_augment_units s) }.

Record policy_typed (p : FairnessPolicy) : Prop := {
  pt_id : u64 (pol_id p);
  pt_generation : u64 (pol_generation p);
  pt_epoch : u64 (pol_epoch p);
  pt_window : u64 (pol_window_units p);
  pt_band : u64 (pol_fair_band_units p);
  pt_threshold : u64 (pol_correction_threshold_units p);
  pt_cooldown : u32 (pol_cooldown_windows p);
  pt_max_correction : u64 (pol_max_correction_units p);
  pt_bps : u32 (pol_max_correction_bps p);
  pt_modifier : u32 (pol_max_priority_modifier_bps p);
  pt_age : u32 (pol_max_evidence_age_windows p);
  pt_age_ns : u64 (pol_max_evidence_age_ns p);
  pt_carry : u64 (pol_max_carry_units p);
  pt_groups : Forall group_typed (pol_groups p);
  pt_subjects : Forall subject_typed (pol_subjects p);
  pt_provenance : provenance_typed (pol_provenance p) }.

(** The declarative counterparts of the validation blocks. *)
Record scalars_wf (p : FairnessPolicy) : Prop := {
  sw_id : pol_id p <> 0;
  sw_generation : pol_generation p <> 0;
  sw_epoch : pol_epoch p <> 0;
  sw_groups : sizeZ (pol_groups p) <= 256;
  sw_nonempty : pol_subjects p <> [];
  sw_subjects : sizeZ (pol_subjects p) <= 4096;
  sw_band : pol_fair_band_units p <= kMaxServiceUnits;
  sw_threshold : pol_correction_threshold_units p <= kMaxServiceUnits;
  sw_hysteresis : pol_fair_band_units p <= pol_correction_threshold_units p;
  sw_correction : pol_max_correction_units p <= kMaxServiceUnits * kMaxSubjects;
  sw_bps : pol_max_correction_bps p <= 100000;
  sw_modifier : pol_max_priority_modifier_bps p <= kMaxPriorityModifierBps;
  sw_age : pol_max_evidence_age_windows p <> 0;
  sw_age_max : pol_max_evidence_age_windows p <= 1000000;
  sw_carry : pol_max_carry_units p <= kMaxCarryUnits;
  sw_source : str_size (prov_source (pol_provenance p)) <= kMaxLabelBytes }.

Record group_wf (g : FairnessGroup) : Prop := {
  gw_id : group_id g <> 0;
  gw_generation : group_generation g <> 0;
  gw_weight : group_share_weight g <> 0 ∧ group_share_weight g <= kMaxShareWeight;
  gw_floor : group_guarantee_floor g <= kMaxServiceUnits;
  gw_protected : group_protected_obligation g = true → group_obligation_rank g <> 0;
  gw_label : str_size (group_label g) <= kMaxLabelBytes }.

Record subject_wf (p : FairnessPolicy) (s : Subject) : Prop := {
  jw_id : subj_id s <> 0;
  jw_generation : subj_generation s <> 0;
  jw_group : subj_group s <> 0;
  jw_group_exists : subj_group s ∈ group_id <$> pol_groups p;
  jw_weight : subj_share_weight s <> 0 ∧ subj_share_weight s <= kMaxShareWeight;
  jw_floor : subj_guarantee_floor s <= kMaxServiceUnits;
  jw_starvation : subj_starvation_windows s <= 1000000
                  ∧ subj_guarantee_starvation_windows s <= 1000000;
  jw_priority : ref_consistent (subj_priority s) = true;
  jw_qos : ref_consistent (subj_qos s) = true;
  jw_protected : subj_protected_obligation s = true → subj_obligation_rank s <> 0;
  jw_modifier : Z.abs (subj_priority_modifier_bps s) <= pol_max_priority_modifier_bps p
                ∧ Z.abs (subj_priority_modifier_bps s) <= kMaxPriorityModifierBps;
  jw_reduce : subj_max_reduce_units s <= kMaxServiceUnits;
  jw_augment : subj_max_augment_units s <= kMaxServiceUnits;
  jw_label : str_size (subj_label s) <= kMaxLabelBytes }.

(** [root_within groups n id]: the group [id] exists and its parent chain reaches
    a root group in at most [n] steps. *)
Inductive root_within (groups : list FairnessGroup) : nat → Z → Prop :=
  | root_here n g : g ∈ groups → group_parent g = 0 → root_within groups (S n) (group_id g)
  | root_above n g : g ∈ groups → group_parent g <> 0 →
      root_within groups n (group_parent g) → root_within groups (S n) (group_id g).

Definition child_groups_of (p : FairnessPolicy) (id : Z) : list FairnessGroup :=
  filter (λ c, group_parent c = id) (pol_groups p).
Definition child_subjects_of (p : FairnessPolicy) (id : Z) : list Subject :=
  filter (λ s, subj_group s = id) (pol_subjects p).

Record policy_wf (p : FairnessPolicy) : Prop := {
  pw_scalars : scalars_wf p;
  pw_groups : Forall group_wf (pol_groups p);
  pw_group_ids : NoDup (group_id <$> pol_groups p);
  pw_no_self_parent : Forall (λ g, group_parent g <> 0 → group_parent g <> group_id g) (pol_groups p);
  pw_depth : Forall (λ g, root_within (pol_groups p) kMaxGroupDepth (group_id g)) (pol_groups p);
  pw_subjects : Forall (subject_wf p) (pol_subjects p);
  pw_subject_ids : NoDup (subj_id <$> pol_subjects p);
  pw_governed : Forall (λ g, child_subjects_of p (group_id g) <> []) (pol_groups p);
  pw_floors : Forall (λ g, group_guarantee_floor g <> 0 →
    sumZ (group_guarantee_floor <$> child_groups_of p (group_id g))
      + sumZ (subj_guarantee_floor <$> child_subjects_of p (group_id g))
    <= group_guarantee_floor g) (pol_groups p) }.

(** What the evaluation needs of a policy: validity, less the coherence of floors
    and with inner groups that govern subjects only through their child groups. *)
Record policy_evaluable (p : FairnessPolicy) : Prop := {
  pe_scalars : scalars_wf p;
  pe_groups : Forall group_wf (pol_groups p);
  pe_group_ids : NoDup (group_id <$> pol_groups p);
  pe_depth : Forall (λ g, root_within (pol_groups p) kMaxGroupDepth (group_id g)) (pol_groups p);
  pe_subjects : Forall (subject_wf p) (pol_subjects p);
  pe_subject_ids : NoDup (subj_id <$> pol_subjects p);
  pe_inhabited : Forall (λ g, child_groups_of p (group_id g) <> [] ∨ child_subjects_of p (group_id g) <> [])
    (pol_groups p) }.

Lemma policy_wf_evaluable p : policy_wf p → policy_evaluable p.
Proof. intros W. constructor; try apply W. eapply Forall_impl; [apply (pw_governed _ W)|]. cbn. auto. Qed.
