(* ===== verification/PolicyValid.v ===== *)
(** Correctness of policy validation: [validate_policy] of
    [src/model/policy.cpp] accepts exactly the well-formed policies.

    Each block of the validator is characterised by an equivalence; the final
    theorem composes them.  [policy_wf] is what every later component assumes of
    an installed policy. *)
From S2P Require Import Prelude Status Core Policy.
#[local] Open Scope Z_scope.

(** ** The group index *)

Definition index_from (k : nat) (groups : list FairnessGroup) (index : GroupIndex) : GroupIndex :=
  foldl (λ m p, <[group_id p.2 := p.1]> m) index (imap (λ i g, (k + i, g)%nat) groups).

Definition group_index (groups : list FairnessGroup) : GroupIndex := index_from 0 groups ∅.

Lemma index_from_cons k g groups index :
  index_from k (g :: groups) index = index_from (S k) groups (<[group_id g := k]> index).
Proof.
  unfold index_from. rewrite imap_cons. simpl. rewrite Nat.add_0_r. f_equal.
  apply imap_ext. intros. simpl. f_equal. lia.
Qed.

Lemma index_from_lookup k groups index id i :
  NoDup (group_id <$> groups) →
  index_from k groups index !! id = Some i ↔
    (∃ j g, groups !! j = Some g ∧ group_id g = id ∧ i = (k + j)%nat)
    ∨ (index !! id = Some i ∧ id ∉ group_id <$> groups).
Proof.
  revert k index. induction groups as [|g groups IH]; intros k index Hnd.
  { unfold index_from. simpl. set_solver. }
  rewrite fmap_cons, NoDup_cons in Hnd. destruct Hnd as [Hg Hnd].
  rewrite index_from_cons, IH, lookup_insert_Some, fmap_cons, not_elem_of_cons by done. split.
  - intros [(j & g' & Hj & Hid & ->)|[[[<- <-]|[Hne Hi]] Hnin]].
    + left. exists (S j), g'. simpl. split; [done|]. split; [done|lia].
    + left. exists 0%nat, g. simpl. split; [done|]. split; [done|lia].
    + right. done.
  - intros [([|j] & g' & Hj & Hid & ->)|[Hi [Hne Hnin]]]; simplify_eq/=.
    + right. split; [|done]. left. split; [done|lia].
    + left. exists j, g'. split; [done|]. split; [done|lia].
    + right. split; [|done]. right. done.
Qed.

(** The entry of an identity leads to the group that has it. *)
Lemma group_index_lookup groups id g :
  NoDup (group_id <$> groups) →
  group_index groups !! id ≫= (λ i, groups !! i) = Some g ↔ g ∈ groups ∧ group_id g = id.
Proof.
  intros Hnd. unfold group_index. rewrite bind_Some. split.
  - intros (i & Hi & Hg). rewrite index_from_lookup in Hi by done.
    destruct Hi as [(j & g' & Hj & <- & ->)|[Hi _]]; [|by rewrite lookup_empty in Hi].
    simpl in Hg. rewrite Hg in Hj. simplify_eq. split; [|done]. by eapply list_elem_of_lookup_2.
  - intros [Hg <-]. apply list_elem_of_lookup_1 in Hg as [j Hj]. exists j. split; [|done].
    apply index_from_lookup; [done|]. left. by exists j, g.
Qed.

Lemma group_index_is_some groups id :
  NoDup (group_id <$> groups) → is_Some (group_index groups !! id) ↔ id ∈ group_id <$> groups.
Proof.
  intros Hnd. rewrite list_elem_of_fmap. split.
  - intros [i Hi]. unfold group_index in Hi. rewrite index_from_lookup in Hi by done.
    destruct Hi as [(j & g' & Hj & <- & ->)|[Hi _]]; [|by rewrite lookup_empty in Hi].
    exists g'. split; [done|]. by eapply list_elem_of_lookup_2.
  - intros (g & -> & Hg). apply list_elem_of_lookup_1 in Hg as [j Hj].
    exists j. apply index_from_lookup; [done|]. left. by exists j, g.
Qed.

(** ** The blocks *)

Lemma validate_scalars_correct p :
  policy_typed p → validate_scalars p = Value tt ↔ scalars_wf p.
Proof.
  intros T. unfold validate_scalars. unfold valid. autorewrite with guards.
  change (mul64 kMaxServiceUnits kMaxSubjects) with (kMaxServiceUnits * kMaxSubjects).
  unfold kMaxGroups, kMaxSubjects at 1.
  assert (sizeZ (pol_subjects p) <> 0 ↔ pol_subjects p <> []) as ->
    by (unfold sizeZ; destruct (pol_subjects p); simpl; naive_solver lia).
  split.
  - intros. destruct_and?. by constructor.
  - intros []. by repeat split.
Qed.

Lemma protected_guard (b : bool) (rank : Z) :
  b && (rank =? 0) = false ↔ (b = true → rank <> 0).
Proof. destruct b; simpl; [rewrite Z.eqb_neq|]; naive_solver. Qed.

Lemma validate_group_correct index i g index' :
  validate_group index (i, g) = Value index' ↔
  group_wf g ∧ index !! group_id g = None ∧ index' = <[group_id g := i]> index.
Proof.
  unfold validate_group, valid. destruct (index !! group_id g) as [j|] eqn:E; autorewrite with guards.
  { naive_solver. }
  rewrite (inj_iff Value), protected_guard. split.
  - intros. destruct_and!. split_and!; [by constructor|done..].
  - intros ([] & _ & ->). destruct_and!. by split_and!.
Qed.

Lemma validate_groups_correct k groups index index' :
  fold_result validate_group index (imap (λ i g, (k + i, g)%nat) groups) = Value index' ↔
  Forall group_wf groups ∧ NoDup (group_id <$> groups) ∧
  (∀ g, g ∈ groups → index !! group_id g = None) ∧ index' = index_from k groups index.
Proof.
  revert k index. induction groups as [|g groups IH]; intros k index.
  { simpl. rewrite (inj_iff Value). unfold index_from. simpl. split; [|naive_solver].
    intros <-. split_and!; [constructor..|set_solver|done]. }
  rewrite imap_cons. cbn [fold_result]. rewrite Nat.add_0_r, result_bind_value.
  rewrite (imap_ext _ (λ i g, (S k + i, g)%nat)) by (intros; simpl; f_equal; lia).
  setoid_rewrite validate_group_correct. setoid_rewrite IH.
  rewrite index_from_cons, Forall_cons, fmap_cons, NoDup_cons. split.
  - intros (index1 & (Hwf & Hnone & ->) & HF & Hnd & Hfresh & ->). split_and!; try done.
    + intros Hin. apply list_elem_of_fmap in Hin as (g' & Hid & Hg').
      apply Hfresh in Hg'. rewrite Hid in Hg'. by rewrite lookup_insert_eq in Hg'.
    + intros g' Hg'. apply elem_of_cons in Hg' as [->|Hg']; [done|].
      apply Hfresh in Hg'. by apply lookup_insert_None in Hg' as [??].
  - intros ((Hwf & HF) & (Hg & Hnd) & Hfresh & ->). eexists. split_and!; try done.
    + apply Hfresh. set_solver.
    + intros g' Hg'. apply lookup_insert_None. split; [apply Hfresh; set_solver|].
      intros Heq. apply Hg. rewrite Heq. by apply list_elem_of_fmap_2.
Qed.

Lemma validate_parent_correct groups g :
  NoDup (group_id <$> groups) →
  validate_parent (group_index groups) g = Value tt ↔
  (group_parent g <> 0 →
   group_parent g ∈ group_id <$> groups ∧ group_parent g <> group_id g).
Proof.
  intros Hnd. unfold validate_parent, valid. rewrite negb_involutive.
  destruct (Z.eqb_spec (group_parent g) 0) as [E|E]; [naive_solver|].
  rewrite <-group_index_is_some by done.
  destruct (group_index groups !! group_parent g) as [i|] eqn:Ei.
  - autorewrite with guards. split.
    + intros [Hne _] _. by split; [eexists|].
    + intros H. by destruct H.
  - split; [done|]. intros H. destruct (H E) as [[? ?] _]. done.
Qed.

Lemma walk_to_root_correct groups steps cursor :
  NoDup (group_id <$> groups) →
  walk_to_root groups (group_index groups) steps cursor = Value tt ↔ root_within groups steps cursor.
Proof.
  intros Hnd. revert cursor. induction steps as [|steps IH]; intros cursor; simpl.
  { split; [done|]. inversion 1. }
  destruct (group_index groups !! cursor ≫= (λ i, groups !! i)) as [g|] eqn:E.
  - apply group_index_lookup in E as [Hg <-]; [|done]. unfold valid. rewrite negb_involutive.
    destruct (Z.eqb_spec (group_parent g) 0) as [E0|E0].
    + split; [|done]. intros _. by constructor.
    + rewrite IH. split; [by apply root_above|].
      inversion 1 as [? g' Hg' Hp Hs Hid|? g' Hg' Hp Hr Hs Hid]; subst.
      * assert (g' = g) as -> by (by eapply (NoDup_key_eq group_id)). done.
      * assert (g' = g) as -> by (by eapply (NoDup_key_eq group_id)). done.
  - split; [done|]. intros Hr.
    assert (∃ g, g ∈ groups ∧ group_id g = cursor) as (g & Hg).
    { inversion Hr; subst; eauto. }
    apply group_index_lookup in Hg; [|done]. congruence.
Qed.

Lemma wrap32_magnitude z : i32 z → wrap32 (if z <? 0 then - z else z) = Z.abs z.
Proof.
  intros H. assert ((if z <? 0 then - z else z) = Z.abs z) as -> by (case_bool; reflect_bools; lia).
  apply Z.mod_small. ulia.
Qed.

Lemma validate_subject_correct p seen s seen' :
  NoDup (group_id <$> pol_groups p) → subject_typed s →
  validate_subject p (group_index (pol_groups p)) seen s = Value seen' ↔
  subject_wf p s ∧ subj_id s ∉ seen ∧ seen' = {[ subj_id s ]} ∪ seen.
Proof.
  intros Hnd T. unfold validate_subject, valid.
  rewrite wrap32_magnitude by apply T.
  pose proof (group_index_is_some _ (subj_group s) Hnd) as Hidx.
  destruct (group_index (pol_groups p) !! subj_group s) as [i|]; autorewrite with guards.
  - rewrite (inj_iff Value), protected_guard, bool_decide_eq_false. split.
    + intros. destruct_and!. split_and!; try done. constructor; try done. by apply Hidx.
    + intros ([] & ? & ->). destruct_and!. by split_and!.
  - split; [naive_solver|]. intros (W & _). apply jw_group_exists, Hidx in W as [? ?]. done.
Qed.

Lemma validate_subjects_correct p seen l seen' :
  NoDup (group_id <$> pol_groups p) → Forall subject_typed l →
  fold_result (validate_subject p (group_index (pol_groups p))) seen l = Value seen' ↔
  Forall (subject_wf p) l ∧ NoDup (subj_id <$> l) ∧ (∀ s, s ∈ l → subj_id s ∉ seen) ∧
  seen' = list_to_set (subj_id <$> l) ∪ seen.
Proof.
  intros Hnd T. revert seen. induction T as [|s l Ts T IH]; intros seen.
  { simpl. rewrite (inj_iff Value), (left_id_L ∅ (∪)). split; [|naive_solver].
    intros <-. split_and!; [constructor..|set_solver|done]. }
  cbn [fold_result]. rewrite result_bind_value, Forall_cons, fmap_cons, NoDup_cons.
  setoid_rewrite validate_subject_correct; [|done..]. setoid_rewrite IH. split.
  - intros (seen1 & (Hwf & Hnin & ->) & HF & HND & Hfresh & ->). split_and!; try done.
    + intros Hin. apply list_elem_of_fmap in Hin as (s' & Hid & Hs'). apply Hfresh in Hs'. set_solver.
    + intros s' Hs'. apply elem_of_cons in Hs' as [->|Hs']; [done|]. apply Hfresh in Hs'. set_solver.
    + simpl. set_solver.
  - intros ((Hwf & HF) & (Hs & HND) & Hfresh & ->). eexists. split_and!; try done.
    + apply Hfresh. set_solver.
    + intros s' Hs'. apply not_elem_of_union. split; [|apply Hfresh; set_solver].
      intros Heq%elem_of_singleton. apply Hs. rewrite <-Heq. by apply list_elem_of_fmap_2.
    + simpl. set_solver.
Qed.

(** ** Checked accumulation *)

Section checked_sum.
  Context {A : Type} (P : A → Prop) `{!∀ x : A, Decision (P x)} (select : A → bool) (amount : A → Z).
  Hypothesis Hselect : ∀ x, select x = true ↔ P x.

  (** The loop succeeds exactly when the exact sum fits the machine word. *)
Lemma checked_sum_value detail start l s :
    u64 start → Forall (λ x, u64 (amount x)) l →
    checked_sum select amount detail start l = Value s ↔
    s = start + sumZ (amount <$> filter P l) ∧ u64 s.
  Proof.
    intros Hstart Hl. revert start Hstart. unfold checked_sum.
    induction Hl as [|x l Hx Hl IH]; intros start Hstart; cbn [fold_result].
    { rewrite (inj_iff Value). change (sumZ (amount <$> filter P [])) with 0.
      rewrite Z.add_0_r. naive_solver. }
    rewrite filter_cons. specialize (Hselect x).
    destruct (decide (P x)) as [HP|HP].
    - rewrite (proj2 Hselect HP). rewrite fmap_cons, sumZ_cons, checked_add_spec by done.
      assert (0 <= sumZ (amount <$> filter P l)).
      { apply sumZ_map_nonneg. intros y [_ Hy]%list_elem_of_filter.
        rewrite Forall_forall in Hl. specialize (Hl y Hy). ulia. }
      case_decide as Hu; simpl.
      + rewrite IH by done. by rewrite Z.add_assoc.
      + split; [done|]. intros [-> Hs]. ulia.
    - destruct (select x); [naive_solver|]. by apply IH.
  Qed.
End checked_sum.

Lemma sumZ_bounded {A} (f : A → Z) b l :
  (∀ x, x ∈ l → f x <= b) → sumZ (f <$> l) <= b * sizeZ l.
Proof.
  intros H. etransitivity; [by apply (sumZ_map_le f (λ _, b))|]. rewrite sumZ_map_const. done.
Qed.

Lemma filter_size_le {A} (P : A → Prop) `{!∀ x : A, Decision (P x)} (l : list A) :
  0 <= sizeZ (filter P l) <= sizeZ l.
Proof. unfold sizeZ. pose proof (length_filter P l). lia. Qed.

Section selected_sums.
  Context (p : FairnessPolicy) (T : policy_typed p) (Hs : scalars_wf p).
  Context (Hg : Forall group_wf (pol_groups p)) (Hj : Forall (subject_wf p) (pol_subjects p)).

Lemma groups_u64 : Forall (λ g, u64 (group_share_weight g) ∧ u64 (group_guarantee_floor g)) (pol_groups p).
  Proof.
    eapply Forall_impl; [apply T|]. intros g []. unfold u32, u64 in *. lia.
  Qed.

Lemma subjects_u64 : Forall (λ s, u64 (subj_share_weight s) ∧ u64 (subj_guarantee_floor s)) (pol_subjects p).
  Proof.
    eapply Forall_impl; [apply T|]. intros s []. unfold u32, u64 in *. lia.
  Qed.

  (** At most 256 groups and 4096 subjects of bounded magnitude never overflow. *)
Lemma child_group_sum_bound (f : FairnessGroup → Z) id :
    (∀ g, group_typed g → group_wf g → 0 <= f g <= kMaxServiceUnits) →
    0 <= sumZ (f <$> child_groups_of p id) <= kMaxServiceUnits * 256.
  Proof.
    intros Hf. assert (∀ g, g ∈ child_groups_of p id → 0 <= f g <= kMaxServiceUnits) as Hall.
    { intros g Hin. apply list_elem_of_filter in Hin as [_ Hin].
      apply Hf; [pose proof (pt_groups _ T) as HT; rewrite Forall_forall in HT; auto|].
      rewrite Forall_forall in Hg. auto. }
    split; [apply sumZ_map_nonneg; intros g Hin; apply Hall in Hin; lia|].
    etransitivity; [apply (sumZ_bounded f kMaxServiceUnits); intros g Hin; apply Hall in Hin; lia|].
    unfold child_groups_of. pose proof (filter_size_le (λ c, group_parent c = id) (pol_groups p)).
    pose proof (sw_groups _ Hs). unfold kMaxServiceUnits. lia.
  Qed.

Lemma child_subject_sum_bound (f : Subject → Z) id :
    (∀ s, subject_typed s → subject_wf p s → 0 <= f s <= kMaxServiceUnits) →
    0 <= sumZ (f <$> child_subjects_of p id) <= kMaxServiceUnits * 4096.
  Proof.
    intros Hf. assert (∀ s, s ∈ child_subjects_of p id → 0 <= f s <= kMaxServiceUnits) as Hall.
    { intros s Hin. apply list_elem_of_filter in Hin as [_ Hin].
      apply Hf; [pose proof (pt_subjects _ T) as HT; rewrite Forall_forall in HT; auto|].
      rewrite Forall_forall in Hj. auto. }
    split; [apply sumZ_map_nonneg; intros s Hin; apply Hall in Hin; lia|].
    etransitivity; [apply (sumZ_bounded f kMaxServiceUnits); intros s Hin; apply Hall in Hin; lia|].
    unfold child_subjects_of. pose proof (filter_size_le (λ s, subj_group s = id) (pol_subjects p)).
    pose proof (sw_subjects _ Hs). unfold kMaxServiceUnits. lia.
  Qed.
End selected_sums.

(** ** Weight sums and floors *)

Section governed.
  Context (p : FairnessPolicy) (T : policy_typed p) (Hs : scalars_wf p).
  Context (Hg : Forall group_wf (pol_groups p)) (Hj : Forall (subject_wf p) (pol_subjects p)).

Lemma child_group_sum_u64 (f : FairnessGroup → Z) id :
    (∀ g, group_typed g → group_wf g → 0 <= f g <= kMaxServiceUnits) →
    u64 (0 + sumZ (f <$> child_groups_of p id)).
  Proof.
    intros H. pose proof (child_group_sum_bound p T Hs Hg f id H).
    unfold kMaxServiceUnits, u64 in *. lia.
  Qed.

Lemma group_weight_range g : group_typed g → group_wf g → 0 <= group_share_weight g <= kMaxServiceUnits.
  Proof. intros [] []. unfold kMaxShareWeight, kMaxServiceUnits, u32 in *. lia. Qed.
Lemma group_floor_range g : group_typed g → group_wf g → 0 <= group_guarantee_floor g <= kMaxServiceUnits.
  Proof. intros [] []. unfold u64 in *. lia. Qed.
Lemma subject_weight_range s : subject_typed s → subject_wf p s → 0 < subj_share_weight s <= kMaxServiceUnits.
  Proof. intros [] []. unfold kMaxShareWeight, kMaxServiceUnits, u32 in *. lia. Qed.
Lemma subject_floor_range s : subject_typed s → subject_wf p s → 0 <= subj_guarantee_floor s <= kMaxServiceUnits.
  Proof. intros [] []. unfold u64 in *. lia. Qed.

  (** The 64-bit accumulation of the subject weights does not wrap. *)
Lemma group_subject_weight_sum_exact id :
    group_subject_weight_sum p id = sumZ (subj_share_weight <$> child_subjects_of p id).
  Proof.
    pose proof (child_subject_sum_bound p T Hs Hj subj_share_weight id) as Hb.
    specialize (Hb ltac:(intros s Hst Hsw; pose proof (subject_weight_range s Hst Hsw); lia)).
    unfold group_subject_weight_sum, child_subjects_of in *.
    assert (∀ l start, Forall (λ s, u64 (subj_share_weight s)) l → 0 <= start →
      u64 (start + sumZ (subj_share_weight <$> filter (λ s, subj_group s = id) l)) →
      foldl (λ sum s, if subj_group s =? id then add64 sum (subj_share_weight s) else sum) start l
      = start + sumZ (subj_share_weight <$> filter (λ s, subj_group s = id) l)) as Hgen.
    { induction l as [|s l IH]; intros start Hl Hpos Hu; [simpl; rewrite sumZ_nil; lia|].
      apply Forall_cons in Hl as [Hst Hl]. rewrite filter_cons in *. simpl foldl.
      case_decide as E; [apply Z.eqb_eq in E as E'|apply Z.eqb_neq in E as E']; rewrite E'.
      - rewrite fmap_cons, sumZ_cons, Z.add_assoc in *.
        assert (0 <= sumZ (subj_share_weight <$> filter (λ s, subj_group s = id) l)).
        { apply sumZ_map_nonneg. intros y [_ Hy]%list_elem_of_filter.
          rewrite Forall_forall in Hl. specialize (Hl y Hy). ulia. }
        rewrite add64_small by ulia. apply IH; [done|ulia|done].
      - by apply IH. }
    rewrite Hgen; [lia| |lia|unfold kMaxServiceUnits, u64 in *; lia].
    eapply Forall_impl; [by apply subjects_u64|]. naive_solver.
  Qed.

Lemma no_governed_weight id :
    group_subject_weight_sum p id <> 0 ↔ child_subjects_of p id <> [].
  Proof.
    rewrite group_subject_weight_sum_exact.
    assert (Forall (λ s, 0 < subj_share_weight s) (child_subjects_of p id)) as Hpos.
    { apply Forall_forall. intros s [_ Hin]%list_elem_of_filter. pose proof (pt_subjects _ T) as HT.
      rewrite Forall_forall in Hj, HT. pose proof (subject_weight_range s). naive_solver lia. }
    destruct Hpos as [|s l Hpos Hl]; [done|]. split; [done|]. intros _.
    rewrite fmap_cons, sumZ_cons.
    assert (0 <= sumZ (subj_share_weight <$> l)).
    { apply sumZ_map_nonneg. intros y Hy. rewrite Forall_forall in Hl. specialize (Hl y Hy). simpl in Hl. lia. }
    lia.
  Qed.

  (** The accumulation loops over the children of a group never overflow. *)
Lemma child_groups_checked f detail id :
    (∀ g, group_typed g → group_wf g → 0 <= f g <= kMaxServiceUnits) →
    checked_sum (λ c, group_parent c =? id) f detail 0 (pol_groups p)
    = Value (sumZ (f <$> child_groups_of p id)).
  Proof.
    intros Hf. apply (checked_sum_value (λ c, group_parent c = id) _ _ (λ c, Z.eqb_eq _ _)); [ulia| |].
    - apply Forall_forall. intros g Hin. pose proof (pt_groups _ T) as HT.
      rewrite Forall_forall in HT, Hg. specialize (Hf g (HT g Hin) (Hg g Hin)).
      unfold kMaxServiceUnits, u64 in *. lia.
    - split; [done|]. by apply child_group_sum_u64.
  Qed.

Lemma child_subjects_checked f detail start id :
    (∀ s, subject_typed s → subject_wf p s → 0 <= f s <= kMaxServiceUnits) →
    0 <= start <= kMaxServiceUnits * 256 →
    checked_sum (λ s, subj_group s =? id) f detail start (pol_subjects p)
    = Value (start + sumZ (f <$> child_subjects_of p id)).
  Proof.
    intros Hf Hstart. pose proof (child_subject_sum_bound p T Hs Hj f id Hf) as Hb.
    apply (checked_sum_value (λ s, subj_group s = id) _ _ (λ c, Z.eqb_eq _ _)).
    - unfold kMaxServiceUnits, u64 in *. lia.
    - apply Forall_forall. intros s Hin. pose proof (pt_subjects _ T) as HT.
      rewrite Forall_forall in HT, Hj. specialize (Hf s (HT s Hin) (Hj s Hin)).
      unfold kMaxServiceUnits, u64 in *. lia.
    - split; [done|]. unfold kMaxServiceUnits, u64 in *. lia.
  Qed.

Lemma validate_weight_sums_correct g :
    validate_weight_sums p g = Value tt ↔ child_subjects_of p (group_id g) <> [].
  Proof.
    rewrite <-no_governed_weight. unfold validate_weight_sums.
    rewrite child_groups_checked by apply group_weight_range.
    rewrite child_subjects_checked; [|intros s ??; pose proof (subject_weight_range s); intuition lia|].
    2:{ unfold kMaxServiceUnits. lia. }
    simpl. rewrite reject_value, Z.eqb_neq. naive_solver.
  Qed.

Lemma validate_floors_correct g :
    validate_floors p g = Value tt ↔
    (group_guarantee_floor g <> 0 →
     sumZ (group_guarantee_floor <$> child_groups_of p (group_id g))
       + sumZ (subj_guarantee_floor <$> child_subjects_of p (group_id g)) <= group_guarantee_floor g).
  Proof.
    unfold validate_floors. destruct (Z.eqb_spec (group_guarantee_floor g) 0) as [E|E]; [naive_solver|].
    rewrite child_groups_checked by apply group_floor_range. simpl.
    rewrite child_subjects_checked by (apply subject_floor_range || by apply child_group_sum_bound, group_floor_range).
    simpl. rewrite reject_value, Z.gtb_ltb, Z.ltb_ge. naive_solver.
  Qed.
End governed.

(** ** The whole validator *)

(** [validate_policy] accepts a policy exactly when it is well formed: every
    identity distinct and non-zero, every reference resolved, the group forest
    acyclic and at most eight deep, every group governing some weight, every
    floor covering its children's floors, every magnitude within its bound; and
    none of its overflow exits can be taken. *)
Lemma validate_policy_iff p :
  policy_typed p → validate_policy p = Value tt ↔ policy_wf p.
Proof.
  intros T. unfold validate_policy.
  change (imap pair (pol_groups p)) with (imap (λ i g, (0 + i, g)%nat) (pol_groups p)).
  split.
  - intros H.
    apply result_bind_value in H as ([] & Hsc & H).
    apply result_bind_value in H as (index & Hidx & H).
    apply result_bind_value in H as ([] & Hpar & H).
    apply validate_scalars_correct in Hsc; [|done].
    apply validate_groups_correct in Hidx as (Hg & Hnd & _ & ->).
    change (index_from 0 (pol_groups p) ∅) with (group_index (pol_groups p)) in *.
    apply result_bind_value in H as ([] & Hdep & H).
    apply result_bind_value in H as (seen & Hsub & H).
    apply validate_subjects_correct in Hsub as (Hj & Hjnd & _); [|done|by apply pt_subjects].
    apply result_bind_value in H as ([] & Hw & Hf).
    rewrite for_each_value in Hpar, Hdep, Hw, Hf. constructor; try done.
    + eapply Forall_impl; [exact Hpar|]. intros g Hp Hne.
      destruct (proj1 (validate_parent_correct _ g Hnd) Hp Hne). done.
    + eapply Forall_impl; [exact Hdep|]. intros g Hp. exact (proj1 (walk_to_root_correct _ _ _ Hnd) Hp).
    + eapply Forall_impl; [exact Hw|]. intros g. by apply validate_weight_sums_correct.
    + eapply Forall_impl; [exact Hf|]. intros g. by apply validate_floors_correct.
  - intros [Hsc Hg Hnd Hpar Hdep Hj Hjnd Hw Hf].
    apply result_bind_value. exists tt. split; [by apply validate_scalars_correct|].
    apply result_bind_value. exists (group_index (pol_groups p)). split.
    { apply validate_groups_correct. by split_and!. }
    apply result_bind_value. exists tt. split.
    { apply for_each_value, Forall_forall. intros g Hin. rewrite Forall_forall in Hpar, Hdep.
      apply validate_parent_correct; [done|]. intros Hne. split; [|by apply Hpar].
      pose proof (Hdep g Hin) as Hr. inversion Hr as [? g' Hg' Hp Hs Hid|? g' Hg' Hp Hr' Hs Hid].
      - assert (g' = g) as -> by (by eapply (NoDup_key_eq group_id)). done.
      - assert (g' = g) as -> by (by eapply (NoDup_key_eq group_id)).
        inversion Hr'; subst; by apply list_elem_of_fmap_2. }
    apply result_bind_value. exists tt. split.
    { apply for_each_value. eapply Forall_impl; [exact Hdep|]. intros g. by apply walk_to_root_correct. }
    apply result_bind_value. eexists. split.
    { apply validate_subjects_correct; [done|by apply pt_subjects|]. by split_and!. }
    apply result_bind_value. exists tt. split; apply for_each_value.
    + eapply Forall_impl; [exact Hw|]. intros g. by apply validate_weight_sums_correct.
    + eapply Forall_impl; [exact Hf|]. intros g. by apply validate_floors_correct.
Qed.
