(* ===== verification/Accounting.v ===== *)
(** The durable deficit/credit accounting: [model/accounting.hpp],
    [src/model/accounting.cpp].

    Each subject carries a deficit (owed service) or a surplus (credit).  The
    closure identity of the header comment, carry plus discarded units equals the
    sum of the window nets, is [sa_residual]; [apply_window_carry_some] shows that
    one window moves it by exactly the window's net, saturation included. *)
From S2P Require Import Prelude Status Core.
#[local] Open Scope Z_scope.

(** ** Data *)

Record SubjectAccounting := mk_subject_accounting {
  sa_id : Z;
  sa_generation : Z;
  sa_cumulative_deficit : Z;
  sa_cumulative_surplus : Z;
  sa_discarded_deficit : Z;
  sa_discarded_surplus : Z;
  sa_unserved_streak : Z;
  sa_below_floor_streak : Z;
  sa_windows_observed : Z;
  sa_total_served_units : Z;
  sa_last_correction_window : Z;
  sa_last_correction_generation : Z }.

#[export] Instance SubjectAccounting_eq_dec : EqDecision SubjectAccounting.
Proof. solve_decision. Defined.

(** [operator==]. *)
Definition subject_accounting_eqb (a b : SubjectAccounting) : bool :=
  (sa_id a =? sa_id b) && (sa_generation a =? sa_generation b)
  && (sa_cumulative_deficit a =? sa_cumulative_deficit b)
  && (sa_cumulative_surplus a =? sa_cumulative_surplus b)
  && (sa_discarded_deficit a =? sa_discarded_deficit b)
  && (sa_discarded_surplus a =? sa_discarded_surplus b)
  && (sa_unserved_streak a =? sa_unserved_streak b)
  && (sa_below_floor_streak a =? sa_below_floor_streak b)
  && (sa_windows_observed a =? sa_windows_observed b)
  && (sa_total_served_units a =? sa_total_served_units b)
  && (sa_last_correction_window a =? sa_last_correction_window b)
  && (sa_last_correction_generation a =? sa_last_correction_generation b).

Record FairnessAccounting := mk_accounting {
  acc_policy_id : Z;
  acc_policy_generation : Z;
  acc_epoch : Z;
  acc_generation : Z;
  acc_intervention_generation : Z;
  acc_last_window : Z;
  acc_last_window_generation : Z;
  acc_writer_boot : Z;
  acc_subjects : list SubjectAccounting }.

(** Default member initialisers: everything zero. *)
Definition empty_subject_accounting : SubjectAccounting :=
  mk_subject_accounting 0 0 0 0 0 0 0 0 0 0 0 0.
Definition empty_accounting : FairnessAccounting := mk_accounting 0 0 0 0 0 0 0 0 [].

(** [FairnessAccounting::find]: the first entry with the identity. *)
Definition accounting_find (a : FairnessAccounting) (wanted : Z) : option SubjectAccounting :=
  find (λ e, sa_id e =? wanted) (acc_subjects a).

Record CarryOutcome := mk_carry {
  co_cumulative_deficit : Z;
  co_cumulative_surplus : Z;
  co_discarded_deficit : Z;
  co_discarded_surplus : Z;
  co_deficit_units : Z;
  co_surplus_units : Z;
  co_credit_applied : Z;
  co_debit_applied : Z;
  co_saturated : bool }.

(** ** Operations *)

(** The two saturation blocks of [apply_window_carry]. *)
Definition saturate_deficit (max_carry : Z) (r : CarryOutcome) : option CarryOutcome :=
  if co_cumulative_deficit r >? max_carry then
    let excess := sub64 (co_cumulative_deficit r) max_carry in
    match checked_add (co_discarded_deficit r) excess with
    | None => None
    | Some discarded =>
        Some (mk_carry max_carry (co_cumulative_surplus r) discarded (co_discarded_surplus r)
                (co_deficit_units r) (co_surplus_units r) (co_credit_applied r)
                (co_debit_applied r) true)
    end
  else Some r.

Definition saturate_surplus (max_carry : Z) (r : CarryOutcome) : option CarryOutcome :=
  if co_cumulative_surplus r >? max_carry then
    let excess := sub64 (co_cumulative_surplus r) max_carry in
    match checked_add (co_discarded_surplus r) excess with
    | None => None
    | Some discarded =>
        Some (mk_carry (co_cumulative_deficit r) max_carry (co_discarded_deficit r) discarded
                (co_deficit_units r) (co_surplus_units r) (co_credit_applied r)
                (co_debit_applied r) true)
    end
  else Some r.

(** The branch on the sign of [net]. *)
Definition carry_net (current : SubjectAccounting) (net : Z) : option CarryOutcome :=
  if net >=? 0 then
    let remaining := wrap64 net in
    let credit := Z.min remaining (sa_cumulative_surplus current) in
    let surplus := sub64 (sa_cumulative_surplus current) credit in
    let remaining := sub64 remaining credit in
    match checked_add (sa_cumulative_deficit current) remaining with
    | None => None
    | Some carried =>
        Some (mk_carry carried surplus (sa_discarded_deficit current) (sa_discarded_surplus current)
                remaining 0 credit 0 false)
    end
  else
    let remaining := magnitude net in
    let debit := Z.min remaining (sa_cumulative_deficit current) in
    let deficit := sub64 (sa_cumulative_deficit current) debit in
    let remaining := sub64 remaining debit in
    match checked_add (sa_cumulative_surplus current) remaining with
    | None => None
    | Some carried =>
        Some (mk_carry deficit carried (sa_discarded_deficit current) (sa_discarded_surplus current)
                0 remaining 0 debit false)
    end.

Definition apply_window_carry (current : SubjectAccounting) (net max_carry : Z)
    : option CarryOutcome :=
  (carry_net current net ≫= saturate_deficit max_carry) ≫= saturate_surplus max_carry.

(** One entry of the closure loop: [None] is the [return false] of the guards. *)
Definition closes_step (residual : Z) (e : SubjectAccounting) : option Z :=
  if (sa_cumulative_deficit e >? I64_MAX) || (sa_cumulative_surplus e >? I64_MAX)
     || (sa_discarded_deficit e >? I64_MAX) || (sa_discarded_surplus e >? I64_MAX) then None
  else
    checked_add_signed residual (to_i64 (sa_cumulative_deficit e)) ≫= λ residual,
    checked_sub_signed residual (to_i64 (sa_cumulative_surplus e)) ≫= λ residual,
    checked_add_signed residual (to_i64 (sa_discarded_deficit e)) ≫= λ residual,
    checked_sub_signed residual (to_i64 (sa_discarded_surplus e)).

Fixpoint closes_loop (residual : Z) (l : list SubjectAccounting) : option Z :=
  match l with
  | [] => Some residual
  | e :: l' => closes_step residual e ≫= λ residual, closes_loop residual l'
  end.

Definition accounting_closes (a : FairnessAccounting) (expected_net_sum : Z) : bool :=
  match closes_loop 0 (acc_subjects a) with
  | None => false
  | Some residual => residual =? expected_net_sum
  end.

Definition accounting_deficit_total (a : FairnessAccounting) : option Z :=
  checked_total sa_cumulative_deficit 0 (acc_subjects a).

Definition accounting_surplus_total (a : FairnessAccounting) : option Z :=
  checked_total sa_cumulative_surplus 0 (acc_subjects a).

(** ** The closure identity *)

(** What a subject's account stands for: owed minus credited, live and discarded. *)
Definition sa_residual (e : SubjectAccounting) : Z :=
  sa_cumulative_deficit e - sa_cumulative_surplus e
  + sa_discarded_deficit e - sa_discarded_surplus e.

Definition co_residual (r : CarryOutcome) : Z :=
  co_cumulative_deficit r - co_cumulative_surplus r
  + co_discarded_deficit r - co_discarded_surplus r.

Record sa_typed (e : SubjectAccounting) : Prop := {
  at_id : u64 (sa_id e);
  at_generation : u64 (sa_generation e);
  at_deficit : u64 (sa_cumulative_deficit e);
  at_surplus : u64 (sa_cumulative_surplus e);
  at_discarded_deficit : u64 (sa_discarded_deficit e);
  at_discarded_surplus : u64 (sa_discarded_surplus e);
  at_unserved : u32 (sa_unserved_streak e);
  at_below : u32 (sa_below_floor_streak e);
  at_windows : u64 (sa_windows_observed e);
  at_served : u64 (sa_total_served_units e);
  at_correction_window : u64 (sa_last_correction_window e);
  at_correction_generation : u64 (sa_last_correction_generation e) }.

Record accounting_typed (a : FairnessAccounting) : Prop := {
  act_policy_id : u64 (acc_policy_id a);
  act_policy_generation : u64 (acc_policy_generation a);
  act_epoch : u64 (acc_epoch a);
  act_generation : u64 (acc_generation a);
  act_intervention : u64 (acc_intervention_generation a);
  act_window : u64 (acc_last_window a);
  act_window_generation : u64 (acc_last_window_generation a);
  act_boot : u64 (acc_writer_boot a);
  act_subjects : Forall sa_typed (acc_subjects a) }.

(** What the window's net is split into. *)
Record carry_spec (current : SubjectAccounting) (net max_carry : Z) (r : CarryOutcome) : Prop := {
  cs_residual : co_residual r = sa_residual current + net;
  cs_bounded : co_cumulative_deficit r <= max_carry ∧ co_cumulative_surplus r <= max_carry;
  cs_typed : u64 (co_cumulative_deficit r) ∧ u64 (co_cumulative_surplus r)
             ∧ u64 (co_discarded_deficit r) ∧ u64 (co_discarded_surplus r);
  cs_discarded_grow : sa_discarded_deficit current <= co_discarded_deficit r
                      ∧ sa_discarded_surplus current <= co_discarded_surplus r;
  cs_split : net = co_deficit_units r + co_credit_applied r - co_surplus_units r - co_debit_applied r;
  cs_recognised : 0 <= co_deficit_units r <= Z.max net 0 ∧ 0 <= co_surplus_units r <= Z.max (- net) 0;
  cs_saturated : co_saturated r = true ↔
    sa_discarded_deficit current < co_discarded_deficit r
    ∨ sa_discarded_surplus current < co_discarded_surplus r;
  cs_one_sided : sa_cumulative_deficit current = 0 ∨ sa_cumulative_surplus current = 0 →
    co_cumulative_deficit r = 0 ∨ co_cumulative_surplus r = 0 }.

Section carry.
  Context (current : SubjectAccounting) (net max_carry : Z).
  Hypotheses (Ht : sa_typed current) (Hnet : i64 net) (Hmax : u64 max_carry).

  (** The sign branch alone: exact, unless the carried side leaves the word. *)
Lemma carry_net_some r :
    carry_net current net = Some r →
    co_residual r = sa_residual current + net
    ∧ u64 (co_cumulative_deficit r) ∧ u64 (co_cumulative_surplus r)
    ∧ co_discarded_deficit r = sa_discarded_deficit current
    ∧ co_discarded_surplus r = sa_discarded_surplus current
    ∧ net = co_deficit_units r + co_credit_applied r - co_surplus_units r - co_debit_applied r
    ∧ (0 <= co_deficit_units r <= Z.max net 0 ∧ 0 <= co_surplus_units r <= Z.max (- net) 0)
    ∧ co_saturated r = false
    ∧ (sa_cumulative_deficit current = 0 ∨ sa_cumulative_surplus current = 0 →
       co_cumulative_deficit r = 0 ∨ co_cumulative_surplus r = 0).
  Proof.
    destruct Ht. unfold carry_net, co_residual, sa_residual.
    destruct (magnitude_spec net Hnet) as [Em Hm]. rewrite Z.geb_leb.
    destruct (Z.leb_spec 0 net).
    - rewrite wrap64_small by ulia. rewrite !sub64_small by ulia.
      destruct (checked_add _ _) as [c|] eqn:E; [|done]. intros [= <-].
      apply checked_add_some in E as [-> ?]; [|ulia..]. simpl. ulia.
    - rewrite Em in *. rewrite !sub64_small by ulia.
      destruct (checked_add _ _) as [c|] eqn:E; [|done]. intros [= <-].
      apply checked_add_some in E as [-> ?]; [|ulia..]. simpl. ulia.
  Qed.

Lemma apply_window_carry_some r :
    apply_window_carry current net max_carry = Some r → carry_spec current net max_carry r.
  Proof.
    unfold apply_window_carry. intros H. apply bind_Some in H as (r2 & H & H3).
    apply bind_Some in H as (r1 & H1 & H2).
    apply carry_net_some in H1 as (Hres & Hd & Hs & Edd & Eds & Hnet' & Hrec & Hsat & Hone).
    destruct Ht. unfold saturate_deficit in H2. unfold saturate_surplus in H3.
    unfold co_residual, sa_residual in *.
    destruct (co_cumulative_deficit r1 >? max_carry) eqn:G1;
      [apply gtb_true_lt in G1; rewrite sub64_small in H2 by ulia;
       destruct (checked_add _ _) as [c|] eqn:E1; [|done];
       apply checked_add_some in E1 as [-> ?]; [|ulia..]
      |apply gtb_false_le in G1]; injection H2 as <-; simpl in *;
    (destruct (co_cumulative_surplus r1 >? max_carry) eqn:G2;
      [apply gtb_true_lt in G2; rewrite sub64_small in H3 by ulia;
       destruct (checked_add (co_discarded_surplus r1) _) as [c|] eqn:E2; [|done];
       apply checked_add_some in E2 as [-> ?]; [|ulia..]
      |apply gtb_false_le in G2]; injection H3 as <-;
    constructor; unfold co_residual, sa_residual; simpl;
    try match goal with |- _ ↔ _ => split; [|try done] end; try ulia; rewrite Hsat; done).
  Qed.

  (** The only failures are overflows: with room in the words it returns. *)
Lemma apply_window_carry_total :
    u64 (sa_cumulative_deficit current + sa_discarded_deficit current + Z.max net 0) →
    u64 (sa_cumulative_surplus current + sa_discarded_surplus current + Z.max (- net) 0) →
    ∃ r, apply_window_carry current net max_carry = Some r.
  Proof.
    intros Hd Hs. destruct Ht. unfold apply_window_carry.
    assert (∃ r, carry_net current net = Some r
      ∧ u64 (co_cumulative_deficit r) ∧ u64 (co_cumulative_surplus r)
      ∧ u64 (co_cumulative_deficit r + co_discarded_deficit r)
      ∧ u64 (co_cumulative_surplus r + co_discarded_surplus r)
      ∧ u64 (co_discarded_deficit r) ∧ u64 (co_discarded_surplus r)) as (r & -> & Hr).
    { unfold carry_net. destruct (magnitude_spec net Hnet) as [Em Hm]. rewrite Z.geb_leb.
      destruct (Z.leb_spec 0 net).
      - rewrite wrap64_small by ulia. rewrite !sub64_small by ulia.
        rewrite checked_add_fits by ulia. eexists. split; [done|]. simpl. ulia.
      - rewrite Em in *. rewrite !sub64_small by ulia. rewrite checked_add_fits by ulia.
        eexists. split; [done|]. simpl. ulia. }
    simpl. destruct Hr as (? & ? & ? & ? & ? & ?). unfold saturate_deficit.
    destruct (co_cumulative_deficit r >? max_carry) eqn:G1.
    - apply gtb_true_lt in G1. rewrite sub64_small, checked_add_fits by ulia. simpl.
      unfold saturate_surplus. simpl. destruct (co_cumulative_surplus r >? max_carry) eqn:G2; [|by eexists].
      apply gtb_true_lt in G2. rewrite sub64_small, checked_add_fits by ulia. by eexists.
    - simpl. unfold saturate_surplus. destruct (co_cumulative_surplus r >? max_carry) eqn:G2; [|by eexists].
      apply gtb_true_lt in G2. rewrite sub64_small, checked_add_fits by ulia. by eexists.
  Qed.
End carry.

(** ** The closure check *)

Lemma to_i64_small z : 0 <= z <= I64_MAX → to_i64 z = z.
Proof. intros H. unfold to_i64. by rewrite (proj2 (Z.leb_le _ _)) by lia. Qed.

Lemma checked_add_signed_some a b c :
  i64 a → i64 b → checked_add_signed a b = Some c → c = a + b ∧ i64 c.
Proof. intros Ha Hb. rewrite checked_add_signed_spec by done. case_decide; naive_solver. Qed.

Lemma checked_sub_signed_some a b c :
  i64 a → i64 b → checked_sub_signed a b = Some c → c = a - b ∧ i64 c.
Proof. intros Ha Hb. rewrite checked_sub_signed_spec by done. case_decide; naive_solver. Qed.

Lemma closes_step_some residual e r :
  i64 residual → sa_typed e → closes_step residual e = Some r → r = residual + sa_residual e ∧ i64 r.
Proof.
  intros Hr []. unfold closes_step, sa_residual. case_bool; [done|].
  rewrite !orb_false_iff, !gtb_false_le in *. destruct_and!. rewrite !to_i64_small by ulia.
  intros Hrun. do 3 apply bind_Some in Hrun as (? & ? & Hrun).
  repeat match goal with
  | H : checked_add_signed _ _ = Some _ |- _ => apply checked_add_signed_some in H as [-> ?]; [|ulia..]
  | H : checked_sub_signed _ _ = Some _ |- _ => apply checked_sub_signed_some in H as [-> ?]; [|ulia..]
  end. ulia.
Qed.

Lemma closes_loop_some residual l r :
  i64 residual → Forall sa_typed l → closes_loop residual l = Some r →
  r = residual + sumZ (sa_residual <$> l).
Proof.
  intros Hr Hl. revert residual Hr. induction Hl as [|e l He Hl IH]; intros residual Hr; simpl closes_loop.
  { intros [= <-]. rewrite fmap_nil, sumZ_nil. lia. }
  intros H. apply bind_Some in H as (r1 & H1 & H). apply closes_step_some in H1 as [-> Hr1]; [|done..].
  apply IH in H as ->; [|done]. rewrite fmap_cons, sumZ_cons. lia.
Qed.

(** The gross amount an account moves, to bound the intermediate residuals. *)
Definition sa_gross (e : SubjectAccounting) : Z :=
  sa_cumulative_deficit e + sa_cumulative_surplus e + sa_discarded_deficit e + sa_discarded_surplus e.

Lemma closes_step_fits residual e :
  sa_typed e → Z.abs residual + sa_gross e <= I64_MAX →
  closes_step residual e = Some (residual + sa_residual e).
Proof.
  intros [] Hb. unfold closes_step, sa_residual, sa_gross in *.
  assert ((sa_cumulative_deficit e >? I64_MAX) || (sa_cumulative_surplus e >? I64_MAX)
     || (sa_discarded_deficit e >? I64_MAX) || (sa_discarded_surplus e >? I64_MAX) = false) as ->.
  { rewrite !orb_false_iff, !gtb_false_le. ulia. }
  rewrite !to_i64_small by ulia.
  rewrite checked_add_signed_spec, decide_True by ulia. simpl.
  rewrite checked_sub_signed_spec, decide_True by ulia. simpl.
  rewrite checked_add_signed_spec, decide_True by ulia. simpl.
  rewrite checked_sub_signed_spec, decide_True by ulia. f_equal. lia.
Qed.

Lemma closes_loop_fits residual l :
  Forall sa_typed l → Z.abs residual + sumZ (sa_gross <$> l) <= I64_MAX →
  closes_loop residual l = Some (residual + sumZ (sa_residual <$> l)).
Proof.
  intros Hl. revert residual. induction Hl as [|e l He Hl IH]; intros residual Hb; simpl closes_loop.
  { rewrite fmap_nil, sumZ_nil. f_equal. lia. }
  rewrite fmap_cons, sumZ_cons in *.
  assert (0 <= sumZ (sa_gross <$> l)).
  { apply sumZ_map_nonneg. intros y Hy. rewrite Forall_forall in Hl. destruct (Hl y Hy).
    unfold sa_gross. ulia. }
  rewrite closes_step_fits by (done || lia). simpl.
  assert (Z.abs (sa_residual e) <= sa_gross e) by (destruct He; unfold sa_residual, sa_gross; ulia).
  rewrite IH by lia. f_equal. lia.
Qed.

Lemma accounting_closes_sound a n :
  Forall sa_typed (acc_subjects a) → accounting_closes a n = true →
  sumZ (sa_residual <$> acc_subjects a) = n.
Proof.
  intros Hl. unfold accounting_closes. destruct (closes_loop 0 (acc_subjects a)) as [r|] eqn:E; [|done].
  intros H%Z.eqb_eq. apply closes_loop_some in E; [|ulia|done]. lia.
Qed.

Lemma accounting_closes_complete a n :
  Forall sa_typed (acc_subjects a) → sumZ (sa_gross <$> acc_subjects a) <= I64_MAX →
  accounting_closes a n = bool_decide (sumZ (sa_residual <$> acc_subjects a) = n).
Proof.
  intros Hl Hb. unfold accounting_closes. rewrite closes_loop_fits by (done || simpl; lia).
  simpl. case_bool_decide as E; [by apply Z.eqb_eq|by apply Z.eqb_neq].
Qed.

Lemma subject_accounting_eqb_eq a b : subject_accounting_eqb a b = true ↔ a = b.
Proof.
  unfold subject_accounting_eqb. rewrite !andb_true_iff, !Z.eqb_eq.
  destruct a, b; simpl. split; [|by intros [= -> -> -> -> -> -> -> -> -> -> -> ->]].
  intros. destruct_and!. congruence.
Qed.
