(* ===== verification/Evidence.v ===== *)
(** Dynamic service evidence: [model/evidence.hpp], [src/model/evidence.cpp].

    [validate_evidence] is the structural check every snapshot passes before the
    governor stages it; [validate_evidence_iff] states it declaratively.  The
    observation digest is independent of the order of the observations. *)
From S2P Require Import Prelude Status Core Bytes Policy Accounting.
#[local] Open Scope string_scope.
#[local] Open Scope list_scope.
#[local] Open Scope Z_scope.

(** ** Data *)

Record SubjectObservation := mk_observation {
  obs_id : Z;
  obs_generation : Z;
  obs_served_units : Z;
  obs_unserved_streak : Z;
  obs_below_floor_streak : Z;
  obs_priority : ClassRef;
  obs_qos : ClassRef }.

Record EvidenceSnapshot := mk_snapshot {
  ev_id : Z;
  ev_generation : Z;
  ev_window : Z;
  ev_window_generation : Z;
  ev_epoch : Z;
  ev_captured_at_ns : Z;
  ev_sequence : Z;
  ev_producer : ProducerIdentity;
  ev_provenance : Provenance;
  ev_declared_digest : Z;
  ev_observations : list SubjectObservation }.

(** [EvidenceSnapshot::find]. *)
Definition evidence_find (e : EvidenceSnapshot) (subject : Z) : option SubjectObservation :=
  find (λ o, obs_id o =? subject) (ev_observations e).

Definition kMaxStreakWindows : Z := 1000000.
Definition kMaxProducerNameBytes : Z := 128.
Definition kMaxProvenanceSourceBytes : Z := 128.

(** ** The observation digest *)

(** The 56 bytes of one observation. *)
Definition observation_bytes (o : SubjectObservation) : ByteBuffer :=
  store_le 8 (obs_id o) ++ store_le 8 (obs_generation o) ++ store_le 8 (obs_served_units o)
  ++ store_le 8 (obs_unserved_streak o) ++ store_le 8 (obs_below_floor_streak o)
  ++ store_le 8 (ref_id (obs_priority o)) ++ store_le 8 (ref_id (obs_qos o)).

Definition observation_digest (o : SubjectObservation) : Z :=
  fnv1a64 (observation_bytes o) kFnvOffsetBasis.

Definition compute_observation_digest (e : EvidenceSnapshot) : Z :=
  let '(sum, xored) :=
    foldl (λ acc o, (add64 acc.1 (observation_digest o), Z.lxor acc.2 (observation_digest o)))
      (0, 0) (ev_observations e) in
  Z.lxor (Z.lxor (mul64 sum 11400714819323198485) xored) kFnvOffsetBasis.

(** ** Validation *)

(** One observation: adds its service to the running total. *)
Definition validate_observation (total_served : Z) (o : SubjectObservation) : Result Z :=
  reject (negb (valid (obs_id o)))
    with StatusCode.InvalidArgument, "observation subject id must be non-zero" ;;
  reject (negb (valid (obs_generation o)))
    with StatusCode.InvalidArgument, "observation generation must be >= 1" ;;
  reject (obs_served_units o >? kMaxServiceUnits)
    with StatusCode.OutOfRange, "observed service exceeds kMaxServiceUnits" ;;
  reject ((obs_unserved_streak o >? kMaxStreakWindows)
          || (obs_below_floor_streak o >? kMaxStreakWindows))
    with StatusCode.OutOfRange, "observation streak is implausible" ;;
  reject (negb (ref_consistent (obs_priority o)))
    with StatusCode.InvalidArgument, "observation priority reference is incoherent" ;;
  reject (negb (ref_consistent (obs_qos o)))
    with StatusCode.InvalidArgument, "observation QoS reference is incoherent" ;;
  reject ((obs_served_units o >? 0) && negb (obs_unserved_streak o =? 0))
    with StatusCode.EvidenceContradictory,
      "an observation cannot be served and unserved in the same window" ;;
  match checked_add total_served (obs_served_units o) with
  | None => fail StatusCode.ArithmeticOverflow "total observed service overflows"
  | Some total => Value total
  end.

(** [std::adjacent_find(begin, end) != end]. *)
Fixpoint has_adjacent_equal (l : list Z) : bool :=
  match l with
  | x :: (y :: _) as l' => (x =? y) || has_adjacent_equal l'
  | _ => false
  end.

Definition validate_evidence (e : EvidenceSnapshot) : Result unit :=
  reject (negb (valid (ev_id e)))
    with StatusCode.InvalidArgument, "evidence snapshot id must be non-zero" ;;
  reject (negb (valid (ev_generation e)))
    with StatusCode.InvalidArgument, "evidence snapshot generation must be >= 1" ;;
  reject (negb (valid (ev_window e)))
    with StatusCode.InvalidArgument, "service window id must be non-zero" ;;
  reject (negb (valid (ev_window_generation e)))
    with StatusCode.InvalidArgument, "service window generation must be >= 1" ;;
  reject (negb (valid (ev_epoch e)))
    with StatusCode.InvalidArgument, "evidence epoch must be >= 1" ;;
  reject (sizeZ (ev_observations e) >? kMaxEvidenceRecords)
    with StatusCode.LimitExceeded, "observation count exceeds kMaxEvidenceRecords" ;;
  reject (str_size (producer_name (ev_producer e)) >? kMaxProducerNameBytes)
    with StatusCode.LimitExceeded, "producer name is too long" ;;
  reject (str_size (prov_source (ev_provenance e)) >? kMaxProvenanceSourceBytes)
    with StatusCode.LimitExceeded, "provenance source is too long" ;;
  reject (ev_captured_at_ns e <? 0)
    with StatusCode.InvalidArgument, "capture instant must not be negative" ;;
  let? _ := fold_result validate_observation 0 (ev_observations e) in
  reject (has_adjacent_equal (sort_by Z.ltb (obs_id <$> ev_observations e)))
    with StatusCode.Duplicate, "evidence declares the same subject twice" ;;
  reject (negb (ev_declared_digest e =? 0)
          && negb (compute_observation_digest e =? ev_declared_digest e))
    with StatusCode.EvidenceContradictory,
      "declared observation digest does not match the observation set" ;;
  Value tt.

(** ** What validation establishes *)

Record observation_typed (o : SubjectObservation) : Prop := {
  ot_id : u64 (obs_id o);
  ot_generation : u64 (obs_generation o);
  ot_served : u64 (obs_served_units o);
  ot_unserved : u32 (obs_unserved_streak o);
  ot_below : u32 (obs_below_floor_streak o);
  ot_priority : ref_typed (obs_priority o);
  ot_qos : ref_typed (obs_qos o) }.

Record evidence_typed (e : EvidenceSnapshot) : Prop := {
  et_id : u64 (ev_id e);
  et_generation : u64 (ev_generation e);
  et_window : u64 (ev_window e);
  et_window_generation : u64 (ev_window_generation e);
  et_epoch : u64 (ev_epoch e);
  et_captured : i64 (ev_captured_at_ns e);
  et_sequence : u64 (ev_sequence e);
  et_instance : u64 (producer_instance (ev_producer e));
  et_version : u64 (producer_version (ev_producer e));
  et_provenance : provenance_typed (ev_provenance e);
  et_digest : u64 (ev_declared_digest e);
  et_observations : Forall observation_typed (ev_observations e) }.

Record observation_wf (o : SubjectObservation) : Prop := {
  ow_id : obs_id o <> 0;
  ow_generation : obs_generation o <> 0;
  ow_served : obs_served_units o <= kMaxServiceUnits;
  ow_streaks : obs_unserved_streak o <= kMaxStreakWindows
               ∧ obs_below_floor_streak o <= kMaxStreakWindows;
  ow_priority : ref_consistent (obs_priority o) = true;
  ow_qos : ref_consistent (obs_qos o) = true;
  ow_coherent : 0 < obs_served_units o → obs_unserved_streak o = 0 }.

Record evidence_wf (e : EvidenceSnapshot) : Prop := {
  ew_id : ev_id e <> 0;
  ew_generation : ev_generation e <> 0;
  ew_window : ev_window e <> 0;
  ew_window_generation : ev_window_generation e <> 0;
  ew_epoch : ev_epoch e <> 0;
  ew_count : sizeZ (ev_observations e) <= kMaxEvidenceRecords;
  ew_producer : str_size (producer_name (ev_producer e)) <= kMaxProducerNameBytes;
  ew_source : str_size (prov_source (ev_provenance e)) <= kMaxProvenanceSourceBytes;
  ew_captured : 0 <= ev_captured_at_ns e;
  ew_observations : Forall observation_wf (ev_observations e);
  ew_distinct : NoDup (obs_id <$> ev_observations e);
  ew_digest : ev_declared_digest e <> 0 → compute_observation_digest e = ev_declared_digest e }.

(** ** The digest does not depend on the order *)

Lemma lxor_permutation l k acc :
  l ≡ₚ k → foldl Z.lxor acc l = foldl Z.lxor acc k.
Proof.
  intros H. revert acc. induction H as [|x l k _ IH|x y l|l k m _ IH1 _ IH2]; intros acc; simpl; auto.
  - f_equal. rewrite !Z.lxor_assoc. f_equal. apply Z.lxor_comm.
  - by rewrite IH1.
Qed.

Lemma digest_fold l s x :
  foldl (λ acc o, (add64 acc.1 (observation_digest o), Z.lxor acc.2 (observation_digest o))) (s, x) l
  = (foldl (λ a o, add64 a (observation_digest o)) s l, foldl Z.lxor x (observation_digest <$> l)).
Proof. revert s x. induction l as [|o l IH]; intros; simpl; [done|]. apply IH. Qed.

Lemma sum_fold l s :
  u64 s →
  foldl (λ a o, add64 a (observation_digest o)) s l = wrap64 (s + sumZ (observation_digest <$> l)).
Proof.
  revert s. induction l as [|o l IH]; intros s Hs; simpl foldl.
  { rewrite fmap_nil, sumZ_nil, Z.add_0_r, wrap64_small; done. }
  rewrite IH by apply wrap64_range. rewrite fmap_cons, sumZ_cons, Z.add_assoc.
  unfold add64, wrap64. by rewrite Zplus_mod_idemp_l.
Qed.

Lemma compute_observation_digest_perm e e' :
  ev_observations e ≡ₚ ev_observations e' →
  compute_observation_digest e = compute_observation_digest e'.
Proof.
  intros H. unfold compute_observation_digest. rewrite !digest_fold, !sum_fold by ulia.
  assert (observation_digest <$> ev_observations e ≡ₚ observation_digest <$> ev_observations e') as Hd
    by by rewrite H.
  by rewrite (sumZ_permutation _ _ Hd), (lxor_permutation _ _ 0 Hd).
Qed.

(** ** Validation is exact *)

Lemma has_adjacent_equal_sorted l :
  StronglySorted (not_after Z.ltb) l → has_adjacent_equal l = false ↔ NoDup l.
Proof.
  induction 1 as [|x l Hs IH Hx]; [simpl; split; [constructor|done]|].
  destruct l as [|y l]; [split; [intros; apply NoDup_singleton|done]|].
  cbn [has_adjacent_equal]. rewrite orb_false_iff, IH, (NoDup_cons x), Z.eqb_neq.
  apply Forall_cons in Hx as [Hxy Hx]. inversion Hs as [|? ? Hs' Hy]; subst.
  unfold not_after in *. apply Z.ltb_ge in Hxy. split.
  - intros [Hne HND]. split; [|done]. intros [->|Hin]%elem_of_cons; [done|].
    rewrite Forall_forall in Hy. apply Hy, Z.ltb_ge in Hin. lia.
  - intros [Hnin HND]. split; [|done]. intros ->. apply Hnin. by left.
Qed.

Lemma duplicate_check l : has_adjacent_equal (sort_by Z.ltb l) = false ↔ NoDup l.
Proof.
  rewrite has_adjacent_equal_sorted; [by rewrite sort_by_perm|].
  apply sort_by_sorted, (weak_order_lt (λ x, x)).
Qed.

Lemma coherent_guard a b : (0 <? a) && negb (b =? 0) = false ↔ (0 < a → b = 0).
Proof. rewrite andb_false_iff, Z.ltb_ge, negb_false_iff, Z.eqb_eq. lia. Qed.

Lemma validate_observation_value total o total' :
  u64 total → observation_typed o →
  validate_observation total o = Value total' ↔
  observation_wf o ∧ total' = total + obs_served_units o ∧ u64 total'.
Proof.
  intros Ht []. unfold validate_observation, valid. autorewrite with guards.
  rewrite checked_add_spec by done.
  rewrite coherent_guard.
  split.
  - intros H. destruct_and!. case_decide as Hu; [|done]. simplify_eq. split; [by constructor|done].
  - intros ([] & -> & Hu). rewrite decide_True by done. destruct_and!. by split_and!.
Qed.

Lemma validate_observations_value total l :
  u64 total → Forall observation_typed l →
  total + kMaxServiceUnits * sizeZ l <= U64_MAX →
  (∃ total', fold_result validate_observation total l = Value total') ↔ Forall observation_wf l.
Proof.
  intros Ht Hl. revert total Ht. induction Hl as [|o l Ho Hl IH]; intros total Ht Hb; cbn [fold_result].
  { split; [constructor|]. intros _. by eexists. }
  setoid_rewrite result_bind_value. setoid_rewrite validate_observation_value; [|done..].
  rewrite Forall_cons. assert (sizeZ (o :: l) = sizeZ l + 1) as E by (unfold sizeZ; simpl; lia).
  rewrite E in Hb. assert (0 <= sizeZ l) by (unfold sizeZ; lia). unfold kMaxServiceUnits in *.
  split.
  - intros (t' & t & (Hwf & -> & Hu) & Hrun). split; [done|].
    pose proof (ow_served o Hwf). unfold kMaxServiceUnits in *. apply (IH _ Hu); [lia|]. by eexists.
  - intros [Hwf HF]. pose proof (ow_served o Hwf). destruct Ho. unfold kMaxServiceUnits in *.
    assert (u64 (total + obs_served_units o)) as Hu by ulia.
    destruct (proj2 (IH _ Hu ltac:(lia)) HF) as [t' Ht']. by exists t', (total + obs_served_units o).
Qed.

Lemma validate_evidence_iff e : evidence_typed e → validate_evidence e = Value tt ↔ evidence_wf e.
Proof.
  intros T. unfold validate_evidence, valid. autorewrite with guards.
  rewrite result_bind_value.
  assert (∀ P, (∃ a, fold_result validate_observation 0 (ev_observations e) = Value a ∧ P) ↔
    (∃ a, fold_result validate_observation 0 (ev_observations e) = Value a) ∧ P) as Hsep by naive_solver.
  rewrite Hsep. autorewrite with guards. rewrite duplicate_check.
  assert (negb (ev_declared_digest e =? 0)
      && negb (compute_observation_digest e =? ev_declared_digest e) = false
    ↔ (ev_declared_digest e <> 0 → compute_observation_digest e = ev_declared_digest e)) as ->.
  { rewrite andb_false_iff, !negb_false_iff, !Z.eqb_eq.
    destruct (Z.eq_dec (ev_declared_digest e) 0); naive_solver. }
  assert (sizeZ (ev_observations e) <= kMaxEvidenceRecords →
    (∃ a, fold_result validate_observation 0 (ev_observations e) = Value a)
    ↔ Forall observation_wf (ev_observations e)) as Hobs.
  { intros Hc. apply validate_observations_value; [ulia|apply T|].
    unfold kMaxServiceUnits, kMaxEvidenceRecords, U64_MAX in *. lia. }
  split.
  - intros H. destruct_and!. constructor; try done. by apply Hobs.
  - intros []. split_and!; try done. by apply Hobs.
Qed.
