(* ===== verification/Outcome.v ===== *)
(** The outcome vocabulary and the decision record: [model/outcome.hpp].

    Data of the evaluator's answer: outcomes and their severity, reason codes,
    bounds, the authority vector, per-subject and per-group states, corrective
    intents and the decision itself. *)
From S2P Require Import Prelude Status Core Policy.
#[local] Open Scope string_scope.
#[local] Open Scope list_scope.
#[local] Open Scope Z_scope.

(** [enum class Outcome : std::uint8_t]. *)
Module Outcome.
Inductive t : Set :=
  | Fair
  | OverServed
  | UnderServed
  | StarvationRisk
  | CorrectionRequired
  | BlockedByStrongerObligation
  | Unknown
  | Stale.

#[global] Instance eq_dec : EqDecision t.
Proof. solve_decision. Defined.

Definition value (x : t) : Z :=
  match x with
  | Fair => 0
  | OverServed => 1
  | UnderServed => 2
  | StarvationRisk => 3
  | CorrectionRequired => 4
  | BlockedByStrongerObligation => 5
  | Unknown => 6
  | Stale => 7
  end.

Definition to_string (x : t) : string :=
  match x with
  | Fair => "FAIR"
  | OverServed => "OVER_SERVED"
  | UnderServed => "UNDER_SERVED"
  | StarvationRisk => "STARVATION_RISK"
  | CorrectionRequired => "CORRECTION_REQUIRED"
  | BlockedByStrongerObligation => "BLOCKED_BY_STRONGER_OBLIGATION"
  | Unknown => "UNKNOWN"
  | Stale => "STALE"
  end.

(** [outcome_rank]: the severity order of the aggregation. *)
Definition rank (x : t) : Z :=
  match x with
  | Fair => 0
  | OverServed => 1
  | UnderServed => 2
  | StarvationRisk => 3
  | CorrectionRequired => 4
  | BlockedByStrongerObligation => 5
  | Unknown => 6
  | Stale => 7
  end.

Lemma rank_inj a b : rank a = rank b → a = b.
Proof. by destruct a, b. Qed.
End Outcome.

(** [enum class ReasonCode : std::uint16_t]. *)
Module ReasonCode.
Inductive t : Set :=
  | None
  | WithinFairBand
  | WeightedShareDeficit
  | WeightedShareSurplus
  | GuaranteeFloorDeficit
  | GuaranteeFloorSurplus
  | StarvationUnserved
  | StarvationBelowFloor
  | EvidenceAbsent
  | EvidenceStaleGeneration
  | EvidenceStaleWindow
  | EvidenceStaleEpoch
  | EvidenceStaleAge
  | SubjectGenerationMismatch
  | PolicyGenerationMismatch
  | PriorityReferenceMismatch
  | CorrectiveBudgetExhausted
  | CorrectiveCooldown
  | ProtectedObligationHeld
  | SubjectCapReached
  | PolicyBoundReached
  | NoCorrectionAvailable
  | OvercommitDetected.

#[global] Instance eq_dec : EqDecision t.
Proof. solve_decision. Defined.

Definition value (x : t) : Z :=
  match x with
  | None => 0
  | WithinFairBand => 1
  | WeightedShareDeficit => 2
  | WeightedShareSurplus => 3
  | GuaranteeFloorDeficit => 4
  | GuaranteeFloorSurplus => 5
  | StarvationUnserved => 6
  | StarvationBelowFloor => 7
  | EvidenceAbsent => 8
  | EvidenceStaleGeneration => 9
  | EvidenceStaleWindow => 10
  | EvidenceStaleEpoch => 11
  | EvidenceStaleAge => 12
  | SubjectGenerationMismatch => 13
  | PolicyGenerationMismatch => 14
  | PriorityReferenceMismatch => 15
  | CorrectiveBudgetExhausted => 16
  | CorrectiveCooldown => 17
  | ProtectedObligationHeld => 18
  | SubjectCapReached => 19
  | PolicyBoundReached => 20
  | NoCorrectionAvailable => 21
  | OvercommitDetected => 22
  end.

Definition to_string (x : t) : string :=
  match x with
  | None => "NONE"
  | WithinFairBand => "WITHIN_FAIR_BAND"
  | WeightedShareDeficit => "WEIGHTED_SHARE_DEFICIT"
  | WeightedShareSurplus => "WEIGHTED_SHARE_SURPLUS"
  | GuaranteeFloorDeficit => "GUARANTEE_FLOOR_DEFICIT"
  | GuaranteeFloorSurplus => "GUARANTEE_FLOOR_SURPLUS"
  | StarvationUnserved => "STARVATION_UNSERVED"
  | StarvationBelowFloor => "STARVATION_BELOW_FLOOR"
  | EvidenceAbsent => "EVIDENCE_ABSENT"
  | EvidenceStaleGeneration => "EVIDENCE_STALE_GENERATION"
  | EvidenceStaleWindow => "EVIDENCE_STALE_WINDOW"
  | EvidenceStaleEpoch => "EVIDENCE_STALE_EPOCH"
  | EvidenceStaleAge => "EVIDENCE_STALE_AGE"
  | SubjectGenerationMismatch => "SUBJECT_GENERATION_MISMATCH"
  | PolicyGenerationMismatch => "POLICY_GENERATION_MISMATCH"
  | PriorityReferenceMismatch => "PRIORITY_REFERENCE_MISMATCH"
  | CorrectiveBudgetExhausted => "CORRECTIVE_BUDGET_EXHAUSTED"
  | CorrectiveCooldown => "CORRECTIVE_COOLDOWN"
  | ProtectedObligationHeld => "PROTECTED_OBLIGATION_HELD"
  | SubjectCapReached => "SUBJECT_CAP_REACHED"
  | PolicyBoundReached => "POLICY_BOUND_REACHED"
  | NoCorrectionAvailable => "NO_CORRECTION_AVAILABLE"
  | OvercommitDetected => "OVERCOMMIT_DETECTED"
  end.
End ReasonCode.

(** [enum class CorrectionBound : std::uint8_t]. *)
Module CorrectionBound.
Inductive t : Set :=
  | None
  | SubjectAugmentCap
  | SubjectReduceCap
  | PolicyTotalBudget
  | PolicyBasisPoints
  | ProtectedObligation
  | Cooldown
  | BudgetExhausted
  | DemandSatisfied
  | AuthorityMissing.

#[global] Instance eq_dec : EqDecision t.
Proof. solve_decision. Defined.

Definition value (x : t) : Z :=
  match x with
  | None => 0
  | SubjectAugmentCap => 1
  | SubjectReduceCap => 2
  | PolicyTotalBudget => 3
  | PolicyBasisPoints => 4
  | ProtectedObligation => 5
  | Cooldown => 6
  | BudgetExhausted => 7
  | DemandSatisfied => 8
  | AuthorityMissing => 9
  end.

Definition to_string (x : t) : string :=
  match x with
  | None => "NONE"
  | SubjectAugmentCap => "SUBJECT_AUGMENT_CAP"
  | SubjectReduceCap => "SUBJECT_REDUCE_CAP"
  | PolicyTotalBudget => "POLICY_TOTAL_BUDGET"
  | PolicyBasisPoints => "POLICY_BASIS_POINTS"
  | ProtectedObligation => "PROTECTED_OBLIGATION"
  | Cooldown => "COOLDOWN"
  | BudgetExhausted => "BUDGET_EXHAUSTED"
  | DemandSatisfied => "DEMAND_SATISFIED"
  | AuthorityMissing => "AUTHORITY_MISSING"
  end.
End CorrectionBound.

(** [enum class CorrectionDirection : std::uint8_t]. *)
Module CorrectionDirection.
Inductive t : Set :=
  | Augment
  | Reduce.

#[global] Instance eq_dec : EqDecision t.
Proof. solve_decision. Defined.

Definition value (x : t) : Z :=
  match x with
  | Augment => 0
  | Reduce => 1
  end.

Definition to_string (x : t) : string :=
  match x with
  | Augment => "AUGMENT"
  | Reduce => "REDUCE"
  end.
End CorrectionDirection.

Record AuthorityVector := mk_authority {
  av_policy_id : Z;
  av_policy_generation : Z;
  av_epoch : Z;
  av_evidence_id : Z;
  av_evidence_generation : Z;
  av_window : Z;
  av_window_generation : Z;
  av_accounting_generation : Z;
  av_governor : Incarnation;
  av_request_id : Z;
  av_attempt : Z }.

Record SubjectFairnessState := mk_subject_state {
  sf_id : Z;
  sf_generation : Z;
  sf_group : Z;
  sf_outcome : Outcome.t;
  sf_reason : ReasonCode.t;
  sf_has_authority : bool;
  sf_is_protected_obligation : bool;
  sf_obligation_rank : Z;
  sf_group_entitlement_units : Z;
  sf_entitlement_units : Z;
  sf_base_entitlement_units : Z;
  sf_guarantee_floor_units : Z;
  sf_priority_delta_units : Z;
  sf_applied_modifier_bps : Z;
  sf_modifier_clipped : bool;
  sf_served_units : Z;
  sf_deviation_units : Z;
  sf_deficit_units : Z;
  sf_surplus_units : Z;
  sf_cumulative_deficit_after : Z;
  sf_cumulative_surplus_after : Z;
  sf_unserved_streak : Z;
  sf_below_floor_streak : Z;
  sf_starvation_limit_windows : Z;
  sf_guarantee_starvation_limit_windows : Z;
  sf_proposed_augment_units : Z;
  sf_proposed_reduce_units : Z;
  sf_unsatisfied_demand_units : Z;
  sf_expected_priority : ClassRef;
  sf_observed_priority : ClassRef;
  sf_label : string }.

Record GroupFairnessState := mk_group_state {
  gf_id : Z;
  gf_generation : Z;
  gf_parent : Z;
  gf_depth : Z;
  gf_entitlement_units : Z;
  gf_served_units : Z;
  gf_deviation_units : Z;
  gf_is_protected_obligation : bool;
  gf_obligation_rank : Z;
  gf_guarantee_floor_units : Z;
  gf_withheld_correction : bool;
  gf_label : string }.

Record CorrectiveIntent := mk_intent {
  ci_id : Z;
  ci_generation : Z;
  ci_direction : CorrectionDirection.t;
  ci_subject : Z;
  ci_subject_generation : Z;
  ci_group : Z;
  ci_units : Z;
  ci_bound : CorrectionBound.t;
  ci_reason : ReasonCode.t;
  ci_from_starvation : bool;
  ci_from_protected_obligation : bool;
  ci_obligation_rank : Z }.

Record CorrectionSummary := mk_correction {
  cor_reducible_pool_units : Z;
  cor_demand_units : Z;
  cor_authorized_budget_units : Z;
  cor_augment_units : Z;
  cor_reduce_units : Z;
  cor_withheld_units : Z;
  cor_unsatisfied_demand_units : Z;
  cor_cooldown_suppressed : Z;
  cor_bounded_by_policy_total : bool;
  cor_bounded_by_policy_bps : bool;
  cor_protected_obligation_blocked : bool;
  cor_authority_missing : bool }.

Record DiagnosticNote := mk_note {
  note_code : StatusCode.t;
  note_reason : ReasonCode.t;
  note_subject : Z;
  note_detail : string }.

Record OutcomeCounts := mk_counts {
  cnt_fair : Z;
  cnt_over_served : Z;
  cnt_under_served : Z;
  cnt_starvation_risk : Z;
  cnt_correction_required : Z;
  cnt_blocked_by_stronger_obligation : Z;
  cnt_unknown : Z;
  cnt_stale : Z }.

Record FairnessDecision := mk_decision {
  fd_authority : AuthorityVector;
  fd_outcome : Outcome.t;
  fd_counts : OutcomeCounts;
  fd_subjects : list SubjectFairnessState;
  fd_groups : list GroupFairnessState;
  fd_intents : list CorrectiveIntent;
  fd_correction : CorrectionSummary;
  fd_notes : list DiagnosticNote;
  fd_content_digest : Z }.

(** [AuthorityVector::operator==]. *)
Definition authority_eqb (a b : AuthorityVector) : bool :=
  (av_policy_id a =? av_policy_id b) && (av_policy_generation a =? av_policy_generation b)
  && (av_epoch a =? av_epoch b) && (av_evidence_id a =? av_evidence_id b)
  && (av_evidence_generation a =? av_evidence_generation b) && (av_window a =? av_window b)
  && (av_window_generation a =? av_window_generation b)
  && (av_accounting_generation a =? av_accounting_generation b)
  && incarnation_eqb (av_governor a) (av_governor b)
  && (av_request_id a =? av_request_id b) && (av_attempt a =? av_attempt b).

(** [FairnessDecision::is_authoritative_for]: the incarnation and the request
    identity are not compared. *)
Definition is_authoritative_for (d : FairnessDecision) (live : AuthorityVector) : bool :=
  let a := fd_authority d in
  (av_policy_id a =? av_policy_id live) && (av_policy_generation a =? av_policy_generation live)
  && (av_epoch a =? av_epoch live) && (av_evidence_id a =? av_evidence_id live)
  && (av_evidence_generation a =? av_evidence_generation live) && (av_window a =? av_window live)
  && (av_window_generation a =? av_window_generation live)
  && (av_accounting_generation a =? av_accounting_generation live).

(** [OutcomeCounts::total]. *)
Definition counts_total (c : OutcomeCounts) : Z :=
  wrap32 (cnt_fair c + cnt_over_served c + cnt_under_served c + cnt_starvation_risk c
          + cnt_correction_required c + cnt_blocked_by_stronger_obligation c
          + cnt_unknown c + cnt_stale c).

(** Default member initialisers. *)
Definition no_counts : OutcomeCounts := mk_counts 0 0 0 0 0 0 0 0.
Definition no_correction : CorrectionSummary := mk_correction 0 0 0 0 0 0 0 0 false false false false.
Definition no_authority : AuthorityVector :=
  mk_authority 0 0 0 0 0 0 0 0 (mk_incarnation 0 0) 0 0.

Lemma authority_eqb_eq a b : authority_eqb a b = true ↔ a = b.
Proof.
  unfold authority_eqb. rewrite !andb_true_iff, !Z.eqb_eq, incarnation_eqb_eq.
  destruct a, b; simpl. split; [|by intros [= -> -> -> -> -> -> -> -> -> -> ->]].
  intros. destruct_and!. congruence.
Qed.
