(* ===== verification/Allocation.v ===== *)
(** The exact allocation primitive: [effective_share_weight] and
    [allocate_whole] of [src/eval/engine.cpp], lines 330-527, with the types of
    [eval/governor.hpp].

    The parallel vectors of the source are lists indexed by position; an order
    of competitors is a list of positions sorted by the source's comparator. *)
From S2P Require Import Prelude Status Core U128.
#[local] Open Scope string_scope.
#[local] Open Scope list_scope.
#[local] Open Scope Z_scope.

(** ** Data *)

Record AllocationInput := mk_input {
  ai_key : Z; ai_weight : Z; ai_floor : Z; ai_obligation_rank : Z }.

Definition default_input : AllocationInput := mk_input 0 1 0 0.

Record AllocationResult := mk_allocation {
  ar_allocations : list Z;
  ar_floor_binding : list bool;
  ar_overcommit : bool;
  ar_overcommit_shortfall : Z }.

(** [vector[i]] of a vector known to be long enough. *)
Definition at_ (l : list Z) (i : nat) : Z := nth i l 0.

(** ** The modifier-adjusted weight *)

Definition effective_share_weight (weight modifier_bps : Z) : Z :=
  let factor := kBasisPointScale + modifier_bps in
  let scale := if factor <=? 0 then 1 else factor in
  let product := mul_wide weight scale in
  if negb (fits_u64 product) || (lo product =? 0) then 1 else lo product.

(** ** Loops over a priority order *)

(** Grants every position of [order] at most its [cap] while something remains;
    [update old grant] is the new value of the position.  [stop] is the loop's
    early exit on an exhausted budget. *)
Fixpoint drain (stop : bool) (cap : nat → Z) (update : Z → Z → Z) (order : list nat)
    (remaining : Z) (values : list Z) : list Z * Z :=
  match order with
  | [] => (values, remaining)
  | i :: order' =>
      if stop && (remaining =? 0) then (values, remaining)
      else
        let grant := Z.min (cap i) remaining in
        drain stop cap update order' (sub64 remaining grant)
          (alter (λ old, update old grant) i values)
  end.

(** [for (k = 0; k < units; ++k) allocation[order[k]] += 1]. *)
Definition bump_first (units : Z) (order : list nat) (allocation : list Z) : list Z :=
  foldl (λ values i, alter (λ v, add64 v 1) i values) allocation (take (Z.to_nat units) order).

(** ** Steps of [allocate_whole] *)

Definition add_weight (weight_sum : Z) (child : AllocationInput) : Result Z :=
  reject (ai_weight child =? 0) with StatusCode.OutOfRange, "share weight must be >= 1" ;;
  match checked_add weight_sum (ai_weight child) with
  | None => fail StatusCode.ArithmeticOverflow "share weight sum overflows"
  | Some sum => Value sum
  end.

(** The share loop: shares, residues and their running total. *)
Definition add_share (whole weight_sum : Z) (st : list Z * list Z * Z) (child : AllocationInput)
    : Result (list Z * list Z * Z) :=
  let '(share, residue, assigned) := st in
  let computed := mul_div whole (ai_weight child) weight_sum in
  reject (negb (md_ok computed))
    with StatusCode.ArithmeticOverflow, "weighted share overflowed" ;;
  match checked_add assigned (md_value computed) with
  | None => fail StatusCode.ArithmeticOverflow "assigned total overflows"
  | Some assigned =>
      Value (share ++ [md_value computed], residue ++ [md_remainder computed], assigned)
  end.

(** The floor balance: what floors lack and what shares have above them. *)
Definition add_balance (st : Z * Z) (entry : AllocationInput * Z) : Result (Z * Z) :=
  let '(need, slack) := st in
  let '(child, share) := entry in
  if ai_floor child >? share then
    match checked_add need (sub64 (ai_floor child) share) with
    | None => fail StatusCode.ArithmeticOverflow "floor shortfall overflows"
    | Some need => Value (need, slack)
    end
  else
    match checked_add slack (sub64 share (ai_floor child)) with
    | None => fail StatusCode.ArithmeticOverflow "floor slack overflows"
    | Some slack => Value (need, slack)
    end.

Section allocate.
  Context (children : list AllocationInput) (whole : Z).

Definition child_at (i : nat) : AllocationInput := nth i children default_input.

  (** Donors give in order of slack, then weaker obligation, then identity. *)
Definition donor_before (share : list Z) (a b : nat) : bool :=
    let slack_a := sub64 (at_ share a) (ai_floor (child_at a)) in
    let slack_b := sub64 (at_ share b) (ai_floor (child_at b)) in
    if negb (slack_a =? slack_b) then slack_a >? slack_b
    else if negb (ai_obligation_rank (child_at a) =? ai_obligation_rank (child_at b)) then
      ai_obligation_rank (child_at a) <? ai_obligation_rank (child_at b)
    else ai_key (child_at a) <? ai_key (child_at b).

  (** Floors are met in order of obligation, then size, then identity. *)
Definition floor_before (a b : nat) : bool :=
    if negb (ai_obligation_rank (child_at a) =? ai_obligation_rank (child_at b)) then
      ai_obligation_rank (child_at a) >? ai_obligation_rank (child_at b)
    else if negb (ai_floor (child_at a) =? ai_floor (child_at b)) then
      ai_floor (child_at a) >? ai_floor (child_at b)
    else ai_key (child_at a) <? ai_key (child_at b).

  (** Rounding units go by largest remainder, then identity. *)
Definition residue_before (residue : list Z) (a b : nat) : bool :=
    if negb (at_ residue a =? at_ residue b) then at_ residue a >? at_ residue b
    else ai_key (child_at a) <? ai_key (child_at b).

  (** The middle branch: the slack covers the floors. *)
Definition reallocate_floors (share : list Z) (need : Z) : Result (list Z * list bool) :=
    let count := length children in
    let donors := filter (λ i, at_ share i >? ai_floor (child_at i)) (seq 0 count) in
    let donors := sort_by (donor_before share) donors in
    let '(allocation, remaining) :=
      drain true (λ i, sub64 (at_ share i) (ai_floor (child_at i))) sub64 donors need share in
    let raised := imap (λ i v, if ai_floor (child_at i) >? at_ share i
                               then ai_floor (child_at i) else v) allocation in
    let binding := imap (λ i child, ai_floor child >? at_ share i) children in
    reject (negb (remaining =? 0))
      with StatusCode.Internal, "floor reallocation did not close" ;;
    Value (raised, binding).

  (** The loop of the overcommit branch that shares what floors left over. *)
Definition add_extra (available weight_sum : Z) (st : list Z * list Z * Z)
    (entry : AllocationInput * Z) : Result (list Z * list Z * Z) :=
    let '(allocation, residue, extra_assigned) := st in
    let '(child, granted) := entry in
    let computed := mul_div available (ai_weight child) weight_sum in
    reject (negb (md_ok computed))
      with StatusCode.ArithmeticOverflow, "overcommit share overflowed" ;;
    match checked_add extra_assigned (md_value computed) with
    | None => fail StatusCode.ArithmeticOverflow "overcommit total overflows"
    | Some extra_assigned =>
        Value (allocation ++ [add64 granted (md_value computed)],
               residue ++ [md_remainder computed], extra_assigned)
    end.

Definition add_shortfall (shortfall : Z) (entry : AllocationInput * Z) : Result Z :=
    let '(child, allocated) := entry in
    if ai_floor child >? allocated then
      match checked_add shortfall (sub64 (ai_floor child) allocated) with
      | None => fail StatusCode.ArithmeticOverflow "overcommit shortfall overflows"
      | Some shortfall => Value shortfall
      end
    else Value shortfall.

  (** The last branch: the floors exceed what the shares can give. *)
Definition allocate_overcommit (share : list Z) (weight_sum : Z)
    : Result (list Z * list bool * Z) :=
    let count := length children in
    let order := sort_by floor_before (seq 0 count) in
    let '(granted, available) :=
      drain false (λ i, ai_floor (child_at i)) (λ _ grant, grant) order whole
        (replicate count 0) in
    let? (allocation, residue, extra_assigned) :=
      fold_result (add_extra available weight_sum) ([], [], 0) (zip children granted) in
    let extra_left := sub64 available extra_assigned in
    reject (extra_left >=? Z.of_nat count + 1)
      with StatusCode.Internal, "overcommit rounding residue exceeded the bound" ;;
    let allocation :=
      bump_first extra_left (sort_by (residue_before residue) (seq 0 count)) allocation in
    let? shortfall := fold_result add_shortfall 0 (zip children allocation) in
    let binding := imap (λ i child, negb (ai_floor child >? at_ allocation i)
                                    && (ai_floor child >? at_ share i)) children in
    Value (allocation, binding, shortfall).

Definition allocate_whole : Result AllocationResult :=
    let count := length children in
    reject (count =? 0)%nat
      with StatusCode.InvalidArgument, "allocation requires at least one competitor" ;;
    reject (Z.of_nat count >? kMaxSubjects + kMaxGroups)
      with StatusCode.LimitExceeded, "allocation competitor count exceeds the bound" ;;
    let? weight_sum := fold_result add_weight 0 children in
    let? (share, residue, assigned) :=
      fold_result (add_share whole weight_sum) ([], [], 0) children in
    reject (assigned >? whole)
      with StatusCode.Internal, "weighted shares exceeded the whole" ;;
    let leftover := sub64 whole assigned in
    let? (need, slack) := fold_result add_balance (0, 0) (zip children share) in
    let? (allocation, binding, overcommit, shortfall) :=
      if need =? 0 then Value (share, replicate count false, false, 0)
      else if need <=? slack then
        let? (allocation, binding) := reallocate_floors share need in
        Value (allocation, binding, false, 0)
      else
        let? (allocation, binding, shortfall) := allocate_overcommit share weight_sum in
        Value (allocation, binding, true, shortfall) in
    reject (negb overcommit && (leftover >? 0) && (leftover >=? Z.of_nat count + 1))
      with StatusCode.Internal, "rounding residue exceeded the competitor count" ;;
    let allocation :=
      if negb overcommit && (leftover >? 0)
      then bump_first leftover (sort_by (residue_before residue) (seq 0 count)) allocation
      else allocation in
    match checked_total (λ v, v) 0 allocation with
    | None => fail StatusCode.ArithmeticOverflow "allocation total overflows"
    | Some total =>
        reject (negb (total =? whole))
          with StatusCode.Internal, "allocation did not close over the whole" ;;
        Value (mk_allocation allocation binding overcommit shortfall)
    end.
End allocate.

Example allocate_thirds :
  ar_allocations <$> match allocate_whole [mk_input 1 1 0 0; mk_input 2 1 0 0; mk_input 3 1 0 0] 10
                     with Value r => Some r | Failure _ => None end = Some [4; 3; 3].
Proof. reflexivity. Qed.
