(* ===== verification/AllocationSpec.v ===== *)
(** Correctness of the exact allocation primitive.

    The positions of the source's vectors are summed over ([sum_over]); the
    grant loops are shown to be the greedy assignment of their order; the main
    lemmas state that on well-formed competitors [allocate_whole] returns, that
    its allocations sum to the whole exactly, and which branch gives what. *)
From S2P Require Import Prelude Status Core U128 Allocation.
#[local] Open Scope Z_scope.

(** ** Vectors as functions of the position *)

Definition sum_over (order : list nat) (f : nat → Z) : Z := sumZ (f <$> order).

Lemma at_lookup l i : at_ l i = default 0 (l !! i).
Proof. unfold at_. revert i. induction l as [|x l IH]; intros [|i]; simpl; auto. Qed.

Lemma at_some l i v : l !! i = Some v → at_ l i = v.
Proof. intros H. by rewrite at_lookup, H. Qed.

Lemma at_cons_S x l i : at_ (x :: l) (S i) = at_ l i.
Proof. done. Qed.

Lemma sum_over_seq l : sum_over (seq 0 (length l)) (at_ l) = sumZ l.
Proof.
  unfold sum_over. f_equal. apply list_eq. intros i. rewrite list_lookup_fmap.
  destruct (decide (i < length l)%nat) as [Hi|Hi].
  - rewrite lookup_seq_lt by done. simpl. rewrite at_lookup.
    destruct (lookup_lt_is_Some_2 l i Hi) as [x ->]. done.
  - rewrite lookup_seq_ge by lia. simpl. symmetry. apply lookup_ge_None. lia.
Qed.

Lemma sum_over_ext order f g : (∀ i, i ∈ order → f i = g i) → sum_over order f = sum_over order g.
Proof. apply sumZ_map_ext. Qed.

Lemma sum_over_perm order order' f : order ≡ₚ order' → sum_over order f = sum_over order' f.
Proof. intros H. unfold sum_over. by rewrite H. Qed.

Lemma sum_over_nonneg order f : (∀ i, i ∈ order → 0 <= f i) → 0 <= sum_over order f.
Proof. apply sumZ_map_nonneg. Qed.

Lemma sum_over_add order f g : sum_over order (λ i, f i + g i) = sum_over order f + sum_over order g.
Proof. apply sumZ_map_add. Qed.

Lemma sum_over_sub order f g : sum_over order (λ i, f i - g i) = sum_over order f - sum_over order g.
Proof. apply sumZ_map_sub. Qed.

Lemma at_alter f i j l :
  (i < length l)%nat → at_ (alter f i l) j = if decide (i = j) then f (at_ l j) else at_ l j.
Proof.
  intros Hi. rewrite !at_lookup. case_decide as E.
  - subst. rewrite list_lookup_alter_eq.
    destruct (lookup_lt_is_Some_2 l j Hi) as [x Hx]. rewrite Hx. done.
  - by rewrite list_lookup_alter_ne.
Qed.

(** A sum that counts a function only on some positions. *)
Lemma sum_over_restrict order full f :
  NoDup order → NoDup full → order ⊆ full →
  sum_over full (λ i, if decide (i ∈ order) then f i else 0) = sum_over order f.
Proof.
  intros Ho Hf Hsub.
  assert (full ≡ₚ order ++ filter (λ i, i ∉ order) full) as Hp.
  { transitivity (filter (λ i, i ∈ order) full ++ filter (λ i, i ∉ order) full).
    - clear. induction full as [|x full IH]; [done|]. rewrite !filter_cons.
      destruct (decide (x ∈ order)), (decide (x ∉ order)); try done; simpl; [by constructor|].
      rewrite IH at 1. apply Permutation_middle.
    - f_equiv. apply NoDup_Permutation; [by apply NoDup_filter|done|]. intros x.
      rewrite list_elem_of_filter. set_solver. }
  rewrite (sum_over_perm _ _ _ Hp). unfold sum_over. rewrite fmap_app, sumZ_app.
  rewrite (sumZ_map_ext _ f order) by (intros x Hx; by rewrite decide_True).
  rewrite (sumZ_map_ext _ (λ _, 0) (filter _ full)), sumZ_map_const; [lia|].
  intros x [Hx _]%list_elem_of_filter. by rewrite decide_False.
Qed.

(** ** The greedy assignment *)

(** What position [i] receives when [remaining] is handed out along [order]. *)
Fixpoint greedy (cap : nat → Z) (order : list nat) (remaining : Z) (i : nat) : Z :=
  match order with
  | [] => 0
  | j :: order' =>
      let grant := Z.min (cap j) remaining in
      if decide (j = i) then grant else greedy cap order' (remaining - grant) i
  end.

(** Restricts a bound on the positions of an order to a part of it. *)
Ltac sub_order :=
  let k := fresh in let Hk := fresh in
  intros k Hk; match goal with H : ∀ j, j ∈ _ → 0 <= _ |- _ => apply H; set_solver end.

Section greedy.
  Context (cap : nat → Z).
  Implicit Types order : list nat.

Lemma greedy_range order remaining i :
    (∀ j, j ∈ order → 0 <= cap j) → 0 <= remaining →
    0 <= greedy cap order remaining i <= (if decide (i ∈ order) then cap i else 0)
    ∧ greedy cap order remaining i <= remaining.
  Proof.
    revert remaining. induction order as [|j order IH]; intros remaining Hcap Hr; cbn [greedy].
    { rewrite decide_False by set_solver. lia. }
    pose proof (Hcap j ltac:(set_solver)). destruct (decide (j = i)) as [E|E].
    - subst. rewrite decide_True by set_solver. lia.
    - destruct (IH (remaining - Z.min (cap j) remaining)) as [H1 H2]; [sub_order|lia|].
      assert (i ∈ j :: order ↔ i ∈ order) as Hiff by set_solver.
      destruct (decide (i ∈ order)); [rewrite decide_True by tauto|rewrite decide_False by tauto]; lia.
  Qed.

Lemma greedy_zero order i : (∀ j, j ∈ order → 0 <= cap j) → greedy cap order 0 i = 0.
  Proof. intros H. pose proof (greedy_range order 0 i H ltac:(lia)). lia. Qed.

Lemma greedy_notin order remaining i : i ∉ order → greedy cap order remaining i = 0.
  Proof.
    revert remaining. induction order as [|j order IH]; intros remaining Hi; cbn [greedy]; [done|].
    rewrite decide_False by set_solver. apply IH. set_solver.
  Qed.

  (** Everything asked for is granted, up to the budget. *)
Lemma greedy_sum order remaining :
    NoDup order → (∀ j, j ∈ order → 0 <= cap j) → 0 <= remaining →
    sum_over order (greedy cap order remaining) = Z.min remaining (sum_over order cap).
  Proof.
    intros Hnd. revert remaining. induction Hnd as [|j order Hj Hnd IH]; intros remaining Hcap Hr.
    { unfold sum_over. simpl. rewrite sumZ_nil. lia. }
    unfold sum_over in *. rewrite !fmap_cons, !sumZ_cons. cbn [greedy]. rewrite decide_True by done.
    pose proof (Hcap j ltac:(set_solver)).
    rewrite (sumZ_map_ext _ (greedy cap order (remaining - Z.min (cap j) remaining))).
    2:{ intros i Hi. rewrite decide_False by (intros ->; done). done. }
    rewrite IH by (sub_order || lia).
    assert (0 <= sumZ (cap <$> order)) by (apply sumZ_map_nonneg; sub_order). lia.
  Qed.

  (** A position short of its cap means that the budget ran out. *)
Lemma greedy_unmet order remaining j :
    (∀ k, k ∈ order → 0 <= cap k) → j ∈ order → greedy cap order remaining j < cap j →
    remaining <= sum_over order cap.
  Proof.
    revert remaining. induction order as [|k order IH]; intros remaining Hcap Hj; cbn [greedy].
    { by apply elem_of_nil in Hj. }
    unfold sum_over in *. rewrite fmap_cons, sumZ_cons. pose proof (Hcap k ltac:(set_solver)).
    assert (0 <= sumZ (cap <$> order)) by (apply sumZ_map_nonneg; sub_order).
    destruct (decide (k = j)) as [->|Hne]; [lia|]. intros Hlt.
    apply elem_of_cons in Hj as [->|Hj]; [done|]. apply IH in Hlt; [lia|sub_order|done].
  Qed.

  (** The order is a priority: what comes later gets nothing unless the earlier
      position got all it may. *)
Lemma greedy_priority order1 j order2 remaining i :
    NoDup (order1 ++ j :: order2) → (∀ k, k ∈ order1 ++ j :: order2 → 0 <= cap k) → 0 <= remaining →
    i ∈ order2 → 0 < greedy cap (order1 ++ j :: order2) remaining i →
    greedy cap (order1 ++ j :: order2) remaining j = cap j.
  Proof.
    revert remaining. induction order1 as [|k order1 IH]; intros remaining Hnd Hcap Hr Hi; cbn [greedy app].
    - simpl in *. apply NoDup_cons in Hnd as [Hj Hnd].
      rewrite (decide_True (P := j = j)) by done.
      rewrite decide_False by (intros ->; done). intros Hpos.
      pose proof (Hcap j ltac:(set_solver)).
      pose proof (greedy_range order2 (remaining - Z.min (cap j) remaining) i ltac:(sub_order) ltac:(lia)).
      lia.
    - simpl in *. apply NoDup_cons in Hnd as [Hk Hnd].
      rewrite !decide_False by (intros ->; apply Hk; set_solver).
      pose proof (Hcap k ltac:(set_solver)). apply IH; [done|sub_order|lia|done].
  Qed.
End greedy.

(** [drain] computes the greedy assignment. *)
Lemma drain_spec stop cap update order remaining values :
  NoDup order →
  (∀ i, i ∈ order → (i < length values)%nat ∧ 0 <= cap i ∧ update (at_ values i) 0 = at_ values i) →
  u64 remaining →
  let result := drain stop cap update order remaining values in
  length result.1 = length values ∧
  result.2 = remaining - Z.min remaining (sum_over order cap) ∧
  (∀ i, at_ result.1 i = if decide (i ∈ order) then update (at_ values i) (greedy cap order remaining i)
                         else at_ values i).
Proof.
  intros Hnd. revert remaining values.
  induction Hnd as [|j order Hj Hnd IH]; intros remaining values Hin Hr; cbn [drain].
  { unfold sum_over. rewrite fmap_nil, sumZ_nil. simpl fst; simpl snd.
    split; [done|]. split; [ulia|]. done. }
  assert (∀ k, k ∈ j :: order → 0 <= cap k) as Hcap by (intros k Hk; by apply Hin).
  assert (0 <= sum_over (j :: order) cap) as Hsum by by apply sum_over_nonneg.
  destruct (stop && (remaining =? 0)) eqn:Estop.
  { apply andb_true_iff in Estop as [_ Hz]. apply Z.eqb_eq in Hz as ->. simpl fst; simpl snd.
    split; [done|]. split; [lia|]. intros i. rewrite greedy_zero by done.
    case_decide; [|done]. symmetry. by apply Hin. }
  destruct (Hin j) as (Hlen & Hcj & Hupd); [set_solver|].
  set (grant := Z.min (cap j) remaining). rewrite sub64_small by (subst grant; ulia).
  destruct (IH (remaining - grant) (alter (λ old, update old grant) j values)) as (H1 & H2 & H3).
  - intros i Hi. assert (i <> j) as Hne by (intros ->; done).
    rewrite length_alter, at_alter, decide_False by (done || congruence). apply Hin. set_solver.
  - subst grant. ulia.
  - rewrite length_alter in H1. split; [done|].
    assert (0 <= sum_over order cap) by (apply sum_over_nonneg; sub_order).
    unfold sum_over in *. rewrite fmap_cons, sumZ_cons in *.
    split; [subst grant; lia|]. intros i. rewrite H3, at_alter by done. cbn [greedy].
    destruct (decide (j = i)) as [->|Hne].
    + rewrite (decide_False (P := i ∈ order)) by done. rewrite decide_True by set_solver. done.
    + assert (i ∈ j :: order ↔ i ∈ order) as Hiff by set_solver.
      destruct (decide (i ∈ order)); [rewrite decide_True by tauto|rewrite decide_False by tauto]; done.
Qed.

(** ** Rounding units *)

Lemma bump_first_spec units order allocation :
  NoDup order → (∀ i, i ∈ order → (i < length allocation)%nat) →
  (∀ i, i ∈ order → 0 <= at_ allocation i < U64_MAX) →
  length (bump_first units order allocation) = length allocation ∧
  (∀ i, at_ (bump_first units order allocation) i
        = at_ allocation i + if decide (i ∈ take (Z.to_nat units) order) then 1 else 0).
Proof.
  unfold bump_first. intros Hnd Hlen Hb.
  assert (NoDup (take (Z.to_nat units) order)) as Hnd' by (eapply sublist_NoDup; [done|apply sublist_take]).
  assert (∀ i, i ∈ take (Z.to_nat units) order → i ∈ order) as Hsub
    by (intros i Hi; eapply elem_of_submseteq; [exact Hi|apply sublist_submseteq, sublist_take]).
  assert (∀ i, i ∈ take (Z.to_nat units) order →
    (i < length allocation)%nat ∧ 0 <= at_ allocation i < U64_MAX) as Hin by auto.
  clear Hnd Hlen Hb Hsub. revert allocation Hin.
  induction Hnd' as [|j l Hj Hnd IH]; intros allocation Hin; simpl foldl.
  { split; [done|]. intros i. rewrite decide_False by set_solver. lia. }
  destruct (Hin j) as [Hlen Hbj]; [set_solver|].
  destruct (IH (alter (λ v, add64 v 1) j allocation)) as [H1 H2].
  { intros i Hi. assert (i <> j) by (intros ->; done).
    rewrite length_alter, at_alter, decide_False by (done || congruence). apply Hin. set_solver. }
  rewrite length_alter in H1. split; [done|]. intros i. rewrite H2, at_alter by done.
  destruct (decide (j = i)) as [->|Hne].
  - rewrite decide_False, decide_True by (done || set_solver). rewrite add64_small by ulia. lia.
  - assert (i ∈ j :: l ↔ i ∈ l) as Hiff by set_solver.
    destruct (decide (i ∈ l)); [rewrite decide_True by tauto|rewrite decide_False by tauto]; lia.
Qed.

Lemma sumZ_at l k g :
  length l = k → (∀ i, (i < k)%nat → at_ l i = g i) → sumZ l = sum_over (seq 0 k) g.
Proof.
  intros <- H. rewrite <-sum_over_seq. apply sum_over_ext. intros i Hi%elem_of_seq. apply H. lia.
Qed.

Lemma at_le_sum l i : (∀ j, (j < length l)%nat → 0 <= at_ l j) → (i < length l)%nat → at_ l i <= sumZ l.
Proof.
  intros Hl Hi. destruct (lookup_lt_is_Some_2 l i Hi) as [x Hx].
  rewrite at_lookup, Hx. simpl. apply sumZ_elem_le; [|by eapply list_elem_of_lookup_2].
  apply Forall_lookup. intros j y Hy. pose proof (Hl j ltac:(by eapply lookup_lt_Some)) as H.
  by rewrite at_lookup, Hy in H.
Qed.

(** Handing out [units] rounding units raises the total by exactly that. *)
Lemma bump_first_closes units order allocation :
  order ≡ₚ seq 0 (length allocation) → 0 <= units <= Z.of_nat (length allocation) →
  (∀ i, (i < length allocation)%nat → 0 <= at_ allocation i) →
  sumZ allocation + units <= U64_MAX →
  length (bump_first units order allocation) = length allocation ∧
  sumZ (bump_first units order allocation) = sumZ allocation + units ∧
  (∀ i, at_ (bump_first units order allocation) i
        = at_ allocation i + if decide (i ∈ take (Z.to_nat units) order) then 1 else 0).
Proof.
  intros Hp Hu H0 Hb. destruct (Z.eq_dec units 0) as [->|Hne].
  { unfold bump_first. simpl. split; [done|]. split; [lia|]. intros i. lia. }
  assert (NoDup order) as Hnd by (rewrite Hp; apply NoDup_seq).
  assert (∀ i, i ∈ order → (i < length allocation)%nat) as Hin
    by (intros i Hi; rewrite Hp in Hi; apply elem_of_seq in Hi; lia).
  destruct (bump_first_spec units order allocation Hnd Hin) as [H1 H2].
  { intros i Hi%Hin. pose proof (at_le_sum allocation i H0 Hi). specialize (H0 i Hi). lia. }
  split; [done|]. split; [|done].
  rewrite (sumZ_at _ _ _ H1 (λ i _, H2 i)), sum_over_add, sum_over_seq. f_equal.
  rewrite (sum_over_restrict _ _ (λ _, 1)); [| |apply NoDup_seq|].
  - unfold sum_over. rewrite sumZ_map_const, length_take.
    rewrite (Permutation_length Hp), length_seq. lia.
  - eapply sublist_NoDup; [done|apply sublist_take].
  - intros i Hi. rewrite <-Hp. eapply elem_of_submseteq; [exact Hi|apply sublist_submseteq, sublist_take].
Qed.

(** ** Well-formed competitors *)

Record inputs_ok (children : list AllocationInput) : Prop := {
  io_nonempty : children <> [];
  io_count : sizeZ children <= kMaxSubjects + kMaxGroups;
  io_weights : Forall (λ c, 0 < ai_weight c) children;
  io_weight_sum : sumZ (ai_weight <$> children) <= U64_MAX;
  io_floors : Forall (λ c, 0 <= ai_floor c) children;
  io_floor_sum : sumZ (ai_floor <$> children) <= U64_MAX }.

(** The plain weighted share and the remainder it leaves. *)
Definition share_of (whole weight_sum : Z) (c : AllocationInput) : Z :=
  whole * ai_weight c / weight_sum.
Definition residue_of (whole weight_sum : Z) (c : AllocationInput) : Z :=
  (whole * ai_weight c) mod weight_sum.

Lemma add_weight_loop l sum :
  Forall (λ c, 0 < ai_weight c) l → 0 <= sum → sum + sumZ (ai_weight <$> l) <= U64_MAX →
  fold_result add_weight sum l = Value (sum + sumZ (ai_weight <$> l)).
Proof.
  intros Hl. revert sum. induction Hl as [|c l Hc Hl IH]; intros sum Hs Hb; cbn [fold_result].
  { rewrite fmap_nil, sumZ_nil. f_equal. lia. }
  rewrite fmap_cons, sumZ_cons in *.
  assert (0 <= sumZ (ai_weight <$> l)).
  { apply sumZ_map_nonneg. intros x Hx. rewrite Forall_forall in Hl. specialize (Hl x Hx). simpl in Hl. lia. }
  unfold add_weight at 1. rewrite (proj2 (Z.eqb_neq _ _)) by lia.
  rewrite checked_add_fits by ulia. simpl. rewrite IH by lia. f_equal. lia.
Qed.

(** The shares of any amount lose less than one unit per competitor. *)
Section shares.
  Context (children : list AllocationInput) (W : Z).
  Hypothesis HW : W = sumZ (ai_weight <$> children).
  Hypothesis Hpos : Forall (λ c, 0 < ai_weight c) children.
  Hypothesis Hne : children <> [].

Lemma weight_sum_pos : 0 < W.
  Proof.
    rewrite HW. destruct Hpos as [|c l Hc Hl]; [done|]. rewrite fmap_cons, sumZ_cons.
    assert (0 <= sumZ (ai_weight <$> l)); [|lia].
    apply sumZ_map_nonneg. intros x Hx. rewrite Forall_forall in Hl. specialize (Hl x Hx). simpl in Hl. lia.
  Qed.

Lemma weight_le_sum c : c ∈ children → 0 < ai_weight c <= W.
  Proof.
    intros Hc. rewrite Forall_forall in Hpos. split; [by apply Hpos|]. rewrite HW.
    apply sumZ_elem_le; [|by apply list_elem_of_fmap_2].
    apply Forall_fmap, Forall_forall. intros x Hx. specialize (Hpos x Hx). simpl in *. lia.
  Qed.

Lemma shares_leave amount :
    0 <= amount →
    0 <= amount - sumZ (share_of amount W <$> children) < sizeZ children.
  Proof.
    intros Ha. pose proof weight_sum_pos as HWpos.
    assert (amount * W = W * sumZ (share_of amount W <$> children)
      + sumZ (residue_of amount W <$> children)) as E.
    { rewrite HW at 1. rewrite <-!sumZ_map_scale, <-sumZ_map_add. apply sumZ_map_ext.
      intros c _. unfold share_of, residue_of. apply Z.div_mod. lia. }
    assert (0 <= sumZ (residue_of amount W <$> children) <= (W - 1) * sizeZ children) as Hr.
    { split; [apply sumZ_map_nonneg; intros c _; apply Z.mod_pos_bound; lia|].
      unfold sizeZ. rewrite <-(sumZ_map_const (W - 1)). apply sumZ_map_le. intros c _. unfold residue_of.
      pose proof (Z.mod_pos_bound (amount * ai_weight c) W). lia. }
    assert (0 < sizeZ children) by (unfold sizeZ; destruct children; [done|simpl; lia]).
    set (S := sumZ (share_of amount W <$> children)) in *. clearbody S. nia.
  Qed.

Lemma share_nonneg amount c : 0 <= amount → c ∈ children → 0 <= share_of amount W c.
  Proof.
    intros Ha Hc. apply weight_le_sum in Hc. apply Z.div_pos; [nia|]. apply weight_sum_pos.
  Qed.

Lemma share_le_sum amount c :
    0 <= amount → c ∈ children → share_of amount W c <= sumZ (share_of amount W <$> children).
  Proof.
    intros Ha Hc. apply sumZ_elem_le; [|by apply list_elem_of_fmap_2].
    apply Forall_fmap, Forall_forall. intros x Hx. simpl. by apply share_nonneg.
  Qed.

  (** The share loop computes every share and residue and never fails. *)
Lemma add_share_loop whole :
    u64 whole → u64 W →
    fold_result (add_share whole W) ([], [], 0) children
    = Value (share_of whole W <$> children, residue_of whole W <$> children,
             sumZ (share_of whole W <$> children)).
  Proof.
    intros Hw HWu. pose proof weight_sum_pos as HWpos.
    pose proof (shares_leave whole ltac:(ulia)) as Hleave.
    assert (∀ pre l, children = pre ++ l →
      fold_result (add_share whole W)
        (share_of whole W <$> pre, residue_of whole W <$> pre, sumZ (share_of whole W <$> pre)) l
      = Value (share_of whole W <$> children, residue_of whole W <$> children,
               sumZ (share_of whole W <$> children))) as Hgen; [|by apply (Hgen [])].
    intros pre l. revert pre. induction l as [|c l IH]; intros pre Hch; cbn [fold_result].
    { rewrite app_nil_r in Hch. by rewrite <-Hch. }
    assert (c ∈ children) as Hc by (rewrite Hch; set_solver).
    pose proof (weight_le_sum c Hc) as Hcw.
    destruct (mul_div_share whole (ai_weight c) W) as [Hmd Hb]; [done|lia|done|done|].
    unfold add_share at 1. rewrite Hmd. unfold md_ok. cbn [md_overflow md_divide_by_zero negb andb md_value md_remainder].
    assert (∀ l', l' ⊆ children → 0 <= sumZ (share_of whole W <$> l')) as Hnn.
    { intros l' Hl'. apply sumZ_map_nonneg. intros x Hx. apply share_nonneg; [ulia|by apply Hl']. }
    pose proof (Hnn pre ltac:(rewrite Hch; set_solver)).
    pose proof (Hnn l ltac:(rewrite Hch; set_solver)).
    assert (sumZ (share_of whole W <$> children)
      = sumZ (share_of whole W <$> pre) + (share_of whole W c + sumZ (share_of whole W <$> l))) as E.
    { rewrite Hch, fmap_app, sumZ_app, fmap_cons, sumZ_cons. done. }
    change (whole * ai_weight c / W) with (share_of whole W c) in *.
    change ((whole * ai_weight c) mod W) with (residue_of whole W c).
    rewrite checked_add_fits by ulia.
    cbn [result_bind]. specialize (IH (pre ++ [c])).
    rewrite !fmap_app, !fmap_cons, !fmap_nil, sumZ_app, sumZ_cons, sumZ_nil, Z.add_0_r in IH.
    apply IH. by rewrite <-app_assoc.
  Qed.
End shares.

(** ** The floor balance *)

Definition lack (e : AllocationInput * Z) : Z := Z.max 0 (ai_floor e.1 - e.2).
Definition spare (e : AllocationInput * Z) : Z := Z.max 0 (e.2 - ai_floor e.1).

Lemma add_balance_loop l need slack :
  Forall (λ e, u64 (ai_floor e.1) ∧ u64 e.2) l → 0 <= need → 0 <= slack →
  need + sumZ (lack <$> l) <= U64_MAX → slack + sumZ (spare <$> l) <= U64_MAX →
  fold_result add_balance (need, slack) l = Value (need + sumZ (lack <$> l), slack + sumZ (spare <$> l)).
Proof.
  intros Hl. revert need slack. induction Hl as [|[c s] l [Hf Hs] Hl IH]; intros need slack Hn Hsl Hb1 Hb2;
    cbn [fold_result].
  { rewrite !fmap_nil, sumZ_nil. do 2 f_equal; lia. }
  rewrite !fmap_cons, !sumZ_cons in *.
  assert (0 <= sumZ (lack <$> l)) by (apply sumZ_map_nonneg; intros; unfold lack; lia).
  assert (0 <= sumZ (spare <$> l)) by (apply sumZ_map_nonneg; intros; unfold spare; lia).
  assert (lack (c, s) = Z.max 0 (ai_floor c - s) ∧ spare (c, s) = Z.max 0 (s - ai_floor c)) as [E1 E2]
    by done.
  rewrite E1, E2 in *. simpl in Hf, Hs.
  unfold add_balance at 1. rewrite Z.gtb_ltb. destruct (Z.ltb_spec s (ai_floor c)).
  - rewrite sub64_small, checked_add_fits by ulia. simpl result_bind.
    rewrite IH by ulia. do 2 f_equal; lia.
  - rewrite sub64_small, checked_add_fits by ulia. simpl result_bind.
    rewrite IH by ulia. do 2 f_equal; lia.
Qed.

Lemma add_shortfall_loop l shortfall :
  Forall (λ e, u64 (ai_floor e.1) ∧ u64 e.2) l → 0 <= shortfall →
  shortfall + sumZ (lack <$> l) <= U64_MAX →
  fold_result add_shortfall shortfall l = Value (shortfall + sumZ (lack <$> l)).
Proof.
  intros Hl. revert shortfall. induction Hl as [|[c s] l [Hf Hs] Hl IH]; intros shortfall Hn Hb;
    cbn [fold_result].
  { rewrite !fmap_nil, sumZ_nil. f_equal; lia. }
  rewrite !fmap_cons, !sumZ_cons in *.
  assert (0 <= sumZ (lack <$> l)) by (apply sumZ_map_nonneg; intros; unfold lack; lia).
  assert (lack (c, s) = Z.max 0 (ai_floor c - s)) as E1 by done. rewrite E1 in *. simpl in Hf, Hs.
  unfold add_shortfall at 1. rewrite Z.gtb_ltb. destruct (Z.ltb_spec s (ai_floor c)).
  - rewrite sub64_small, checked_add_fits by ulia. simpl result_bind.
    rewrite IH by ulia. f_equal; lia.
  - simpl result_bind. rewrite IH by ulia. f_equal; lia.
Qed.

(** ** Positions of the competitors *)

Lemma child_at_elem children i : (i < length children)%nat → child_at children i ∈ children.
Proof. intros Hi. unfold child_at. apply list_elem_of_In, nth_In. done. Qed.

Lemma child_at_lookup children i c : children !! i = Some c → child_at children i = c.
Proof. unfold child_at. revert i. induction children as [|x l IH]; intros [|i] H; simplify_eq/=; auto. Qed.

Lemma at_fmap (f : AllocationInput → Z) children i :
  (i < length children)%nat → at_ (f <$> children) i = f (child_at children i).
Proof.
  intros Hi. rewrite at_lookup, list_lookup_fmap.
  destruct (lookup_lt_is_Some_2 children i Hi) as [c Hc]. rewrite Hc, (child_at_lookup _ _ _ Hc). done.
Qed.

Lemma sum_children (f : AllocationInput → Z) children :
  sumZ (f <$> children) = sum_over (seq 0 (length children)) (λ i, f (child_at children i)).
Proof. apply sumZ_at; [by rewrite length_fmap|]. intros i. apply at_fmap. Qed.

Lemma at_imap (g : nat → Z → Z) l i : (i < length l)%nat → at_ (imap g l) i = g i (at_ l i).
Proof.
  intros Hi. rewrite !at_lookup, list_lookup_imap.
  destruct (lookup_lt_is_Some_2 l i Hi) as [x ->]. done.
Qed.

Lemma at_replicate n i : at_ (replicate n 0) i = 0.
Proof.
  rewrite at_lookup. destruct (replicate n 0 !! i) eqn:E; [|done].
  by apply lookup_replicate in E as [-> _].
Qed.

Lemma zip_fmap_r {A B} (f : A → B) (l : list A) : zip l (f <$> l) = (λ x, (x, f x)) <$> l.
Proof. induction l as [|x l IH]; simpl; [done|]. f_equal. apply IH. Qed.

(** A sum over two parallel vectors, by position. *)
Lemma sum_zip (g : AllocationInput * Z → Z) children l :
  length l = length children →
  sumZ (g <$> zip children l)
  = sum_over (seq 0 (length children)) (λ i, g (child_at children i, at_ l i)).
Proof.
  revert l. induction children as [|c children IH]; intros [|v l] Hl; try done.
  injection Hl as Hl. cbn [zip zip_with length]. rewrite fmap_cons, sumZ_cons, (IH l Hl).
  unfold sum_over. rewrite <-cons_seq, fmap_cons, sumZ_cons, <-fmap_S_seq, <-list_fmap_compose. done.
Qed.

Lemma zip_elem children (l : list Z) e :
  e ∈ zip children l →
  ∃ i, (i < length children)%nat ∧ e = (child_at children i, at_ l i).
Proof.
  intros Hin. apply list_elem_of_lookup_1 in Hin as [i Hi].
  apply lookup_zip_with_Some in Hi as (c & s & -> & Hc & Hs). exists i.
  split; [by eapply lookup_lt_Some|]. rewrite (child_at_lookup _ _ _ Hc), at_lookup, Hs. done.
Qed.

Lemma at_fmap_zip (f : AllocationInput * Z → Z) children l i :
  length l = length children → (i < length children)%nat →
  at_ (f <$> zip children l) i = f (child_at children i, at_ l i).
Proof.
  intros Hl Hi. destruct (lookup_lt_is_Some_2 children i Hi) as [c Hc].
  destruct (lookup_lt_is_Some_2 l i ltac:(lia)) as [v Hv].
  assert (zip children l !! i = Some (c, v)) as Hz by (apply lookup_zip_with_Some; eauto).
  rewrite !at_lookup, list_lookup_fmap, Hz, Hv, (child_at_lookup _ _ _ Hc). done.
Qed.

(** ** The branches of [allocate_whole] *)

Section branches.
  Context (children : list AllocationInput) (whole : Z).
  Hypothesis Hok : inputs_ok children.
  Hypothesis Hwhole : u64 whole.

Let count : nat := length children.
Let W : Z := sumZ (ai_weight <$> children).
Let share : list Z := share_of whole W <$> children.
Let floor (i : nat) : Z := ai_floor (child_at children i).

Lemma W_u64 : u64 W.
  Proof.
    pose proof (weight_sum_pos children W eq_refl (io_weights _ Hok) (io_nonempty _ Hok)).
    pose proof (io_weight_sum _ Hok). subst W. ulia.
  Qed.

Lemma floor_range i : (i < count)%nat → u64 (floor i).
  Proof.
    intros Hi. pose proof (child_at_elem _ _ Hi) as Hin. pose proof (io_floors _ Hok) as Hf.
    rewrite Forall_forall in Hf. specialize (Hf _ Hin). simpl in Hf.
    assert (ai_floor (child_at children i) <= sumZ (ai_floor <$> children)).
    { apply sumZ_elem_le; [|by apply list_elem_of_fmap_2].
      apply Forall_fmap, Forall_forall. intros x Hx. pose proof (io_floors _ Hok) as Hf'.
      rewrite Forall_forall in Hf'. by apply Hf'. }
    pose proof (io_floor_sum _ Hok). subst floor. simpl. ulia.
  Qed.

Lemma share_range i : (i < count)%nat → 0 <= at_ share i <= whole.
  Proof.
    intros Hi. subst share. rewrite at_fmap by done. pose proof (child_at_elem _ _ Hi) as Hin.
    pose proof (shares_leave children W eq_refl (io_weights _ Hok) (io_nonempty _ Hok) whole ltac:(ulia)).
    pose proof (share_le_sum children W eq_refl (io_weights _ Hok) (io_nonempty _ Hok) whole _ ltac:(ulia) Hin).
    pose proof (share_nonneg children W eq_refl (io_weights _ Hok) (io_nonempty _ Hok) whole _ ltac:(ulia) Hin).
    lia.
  Qed.

Let need : Z := sum_over (seq 0 count) (λ i, Z.max 0 (floor i - at_ share i)).
Let slack : Z := sum_over (seq 0 count) (λ i, Z.max 0 (at_ share i - floor i)).

Lemma need_range : 0 <= need <= U64_MAX.
  Proof.
    split; [apply sum_over_nonneg; intros; lia|].
    etransitivity; [|apply (io_floor_sum _ Hok)]. rewrite sum_children. apply sumZ_map_le.
    intros i Hi%elem_of_seq. pose proof (share_range i ltac:(lia)). pose proof (floor_range i ltac:(lia)).
    subst floor. ulia.
  Qed.

Lemma slack_range : 0 <= slack <= whole.
  Proof.
    split; [apply sum_over_nonneg; intros; lia|].
    pose proof (shares_leave children W eq_refl (io_weights _ Hok) (io_nonempty _ Hok) whole ltac:(ulia)).
    transitivity (sumZ share); [|subst share; lia].
    rewrite <-sum_over_seq. assert (length share = count) as -> by (subst share; by rewrite length_fmap).
    apply sumZ_map_le. intros i Hi%elem_of_seq. pose proof (floor_range i ltac:(lia)).
    pose proof (share_range i ltac:(lia)). ulia.
  Qed.

Lemma balance_value :
    fold_result add_balance (0, 0) (zip children share) = Value (need, slack).
  Proof.
    assert (length share = length children) as Hlen by by (subst share; rewrite length_fmap).
    rewrite add_balance_loop; rewrite ?sum_zip by done; try lia.
    - done.
    - apply Forall_forall. intros e (i & Hi & ->)%zip_elem.
      pose proof (floor_range i Hi). pose proof (share_range i Hi). split; [done|simpl; ulia].
    - pose proof need_range as Hn. unfold lack. simpl. subst need floor count. lia.
    - pose proof slack_range as Hs. unfold spare. simpl. subst slack floor count. ulia.
  Qed.

Lemma filter_seq_order (P : nat → bool) lt i :
    i ∈ sort_by lt (filter (λ i, P i) (seq 0 count)) ↔ (i < count)%nat ∧ P i = true.
  Proof.
    rewrite elem_of_sort_by, list_elem_of_filter, elem_of_seq. rewrite Is_true_true. split; [|split; [|lia]]; intuition lia.
  Qed.

  (** Donors cover the floors exactly when the slack does; nobody is taken below
      its own floor, and what is taken is what the floors lacked. *)
  (** The competitors whose share is above their floor, and what each can give. *)
Let donors : list nat :=
    sort_by (donor_before children share) (filter (λ i, at_ share i >? ai_floor (child_at children i)) (seq 0 count)).
Let donor_cap (i : nat) : Z := sub64 (at_ share i) (ai_floor (child_at children i)).

Lemma donors_nodup : NoDup donors.
  Proof. apply NoDup_sort_by, list.NoDup_filter, NoDup_seq. Qed.

Lemma donor_iff i : i ∈ donors ↔ (i < count)%nat ∧ floor i < at_ share i.
  Proof.
    unfold donors. rewrite (filter_seq_order (λ i, at_ share i >? ai_floor (child_at children i))).
    by rewrite gtb_true_lt.
  Qed.

Lemma donors_within : donors ⊆ seq 0 count.
  Proof. intros i [Hi _]%donor_iff. apply elem_of_seq. lia. Qed.

Lemma donor_cap_value i : i ∈ donors → donor_cap i = at_ share i - floor i ∧ 0 <= donor_cap i.
  Proof.
    intros [Hi Hlt]%donor_iff. unfold donor_cap. change (ai_floor (child_at children i)) with (floor i).
    pose proof (share_range i Hi). pose proof (floor_range i Hi). rewrite sub64_small by ulia. ulia.
  Qed.

Lemma donors_slack : sum_over donors donor_cap = slack.
  Proof.
    rewrite <-(sum_over_restrict donors (seq 0 count)); [|apply donors_nodup|apply NoDup_seq|apply donors_within].
    apply sum_over_ext. intros i Hi%elem_of_seq. case_decide as Hd.
    - destruct (donor_cap_value i Hd) as [-> ?]. apply donor_iff in Hd. lia.
    - rewrite donor_iff in Hd. lia.
  Qed.

  (** What a donor gives. *)
Let given (i : nat) : Z := if decide (i ∈ donors) then greedy donor_cap donors need i else 0.

Lemma given_range i : 0 <= given i ∧ (i ∈ donors → given i <= at_ share i - floor i).
  Proof.
    unfold given. pose proof need_range. case_decide as Hd; [|split; [lia|done]].
    pose proof (greedy_range donor_cap donors need i ltac:(intros j Hj; by apply donor_cap_value) ltac:(lia)) as [Hg _].
    rewrite decide_True in Hg by done. destruct (donor_cap_value i Hd) as [E _]. lia.
  Qed.

Lemma given_sum : need <= slack → sum_over (seq 0 count) given = need.
  Proof.
    intros Hns. pose proof need_range. unfold given.
    rewrite (sum_over_restrict donors); [|apply donors_nodup|apply NoDup_seq|apply donors_within].
    rewrite greedy_sum by (apply donors_nodup || lia || intros j Hj; by apply donor_cap_value).
    rewrite donors_slack. lia.
  Qed.

  (** The drain takes from every donor what it gives, and closes. *)
Lemma donors_drained : need <= slack →
    ∃ alloc, drain true donor_cap sub64 donors need share = (alloc, 0) ∧ length alloc = count
      ∧ ∀ i, (i < count)%nat → at_ alloc i = at_ share i - given i.
  Proof.
    intros Hns. pose proof need_range as Hn.
    assert (length share = count) as Hlen by (subst share; by rewrite length_fmap).
    pose proof (drain_spec true donor_cap sub64 donors need share donors_nodup) as Hdrain.
    destruct (drain true donor_cap sub64 donors need share) as [alloc remaining].
    destruct Hdrain as (Hl & Hrem & Hat).
    { intros i Hi. split; [apply donor_iff in Hi; lia|]. split; [by apply donor_cap_value|].
      apply donor_iff in Hi as [Hi _]. pose proof (share_range i Hi). rewrite sub64_small by ulia. lia. }
    { ulia. }
    simpl in Hl, Hrem, Hat. rewrite donors_slack, Z.min_l in Hrem by done.
    exists alloc. split; [f_equal; lia|]. split; [lia|]. intros i Hi. rewrite Hat.
    destruct (given_range i) as [Hg0 Hg]. unfold given in *. case_decide as Hd; [|lia].
    pose proof (share_range i Hi). pose proof (floor_range i Hi). specialize (Hg Hd). apply sub64_small. ulia.
  Qed.

Lemma reallocate_value :
    need <= slack →
    ∃ alloc binding, reallocate_floors children share need = Value (alloc, binding) ∧
      length alloc = count ∧ length binding = count ∧ sumZ alloc = sumZ share ∧
      (∀ i, (i < count)%nat → floor i <= at_ alloc i).
  Proof.
    intros Hns. unfold reallocate_floors. fold count donors. fold donor_cap.
    assert (length share = count) as Hlen by (subst share; by rewrite length_fmap).
    destruct (donors_drained Hns) as (alloc & -> & Hl & Hat). simpl.
    set (raise := λ (i : nat) (v : Z), if ai_floor (child_at children i) >? at_ share i
                                       then ai_floor (child_at children i) else v).
    assert (∀ i, (i < count)%nat → at_ (imap raise alloc) i
      = at_ share i + Z.max 0 (floor i - at_ share i) - given i) as Hraise.
    { intros i Hi. rewrite at_imap by lia. unfold raise. change (ai_floor (child_at children i)) with (floor i).
      destruct (floor i >? at_ share i) eqn:E.
      - apply gtb_true_lt in E. unfold given. rewrite decide_False by (rewrite donor_iff; lia). lia.
      - apply gtb_false_le in E. rewrite Hat by done. lia. }
    do 2 eexists. split; [done|]. rewrite !length_imap. split; [lia|]. split; [done|]. split.
    - assert (length (imap raise alloc) = count) as Hlr by (rewrite length_imap; lia).
      rewrite (sumZ_at _ _ _ Hlr Hraise), sum_over_sub, sum_over_add, (given_sum Hns).
      change (sum_over (seq 0 count) (λ i, Z.max 0 (floor i - at_ share i))) with need.
      rewrite <-Hlen at 1. rewrite sum_over_seq. lia.
    - intros i Hi. rewrite Hraise by done. destruct (given_range i) as [_ Hg].
      destruct (decide (i ∈ donors)) as [Hd|Hd]; [specialize (Hg Hd); lia|].
      unfold given. rewrite decide_False by done. lia.
  Qed.

  (** The loop over what the floors left, [available], to share out. *)
Lemma add_extra_loop available l :
    u64 available → l.*1 = children → Forall (λ e, 0 <= e.2) l → sumZ (snd <$> l) + available <= U64_MAX →
    fold_result (add_extra available W) ([], [], 0) l
    = Value ((λ e, e.2 + share_of available W e.1) <$> l, (λ e, residue_of available W e.1) <$> l,
             sumZ (share_of available W <$> children)).
  Proof.
    intros Ha Hl Hpos Hsum. pose proof W_u64 as HWu.
    pose proof (weight_sum_pos children W eq_refl (io_weights _ Hok) (io_nonempty _ Hok)) as HWpos.
    pose proof (shares_leave children W eq_refl (io_weights _ Hok) (io_nonempty _ Hok) available ltac:(ulia)) as Hleave.
    set (f := λ e : AllocationInput * Z, e.2 + share_of available W e.1).
    set (g := λ e : AllocationInput * Z, residue_of available W e.1).
    set (h := λ e : AllocationInput * Z, share_of available W e.1).
    assert (sumZ (share_of available W <$> children) = sumZ (h <$> l)) as Eh.
    { rewrite <-Hl, <-list_fmap_compose. done. }
    assert (∀ e, e ∈ l → 0 < ai_weight e.1 <= W ∧ 0 <= h e) as Hw.
    { intros e He. assert (e.1 ∈ children) as Hc by (rewrite <-Hl; by apply list_elem_of_fmap_2).
      split; [by apply (weight_le_sum children W eq_refl (io_weights _ Hok))|].
      apply (share_nonneg children W eq_refl (io_weights _ Hok) (io_nonempty _ Hok)); [ulia|done]. }
    rewrite Eh in *.
    assert (∀ pre post, l = pre ++ post →
      fold_result (add_extra available W) (f <$> pre, g <$> pre, sumZ (h <$> pre)) post
      = Value (f <$> l, g <$> l, sumZ (h <$> l))) as Hgen; [|by apply (Hgen [])].
    intros pre post. revert pre. induction post as [|e post IH]; intros pre Hpp; cbn [fold_result].
    { rewrite app_nil_r in Hpp. by rewrite <-Hpp. }
    assert (e ∈ l) as He by (rewrite Hpp; set_solver). destruct (Hw e He) as [Hwe Hhe].
    destruct e as [c v]. simpl in Hwe.
    destruct (mul_div_share available (ai_weight c) W) as [Hmd Hb]; [done|lia|done|done|].
    unfold add_extra at 1. rewrite Hmd. unfold md_ok.
    cbn [md_overflow md_divide_by_zero negb andb md_value md_remainder].
    change (available * ai_weight c / W) with (h (c, v)) in *.
    change ((available * ai_weight c) mod W) with (g (c, v)).
    assert (0 <= sumZ (h <$> pre) ∧ 0 <= sumZ (h <$> post) ∧ 0 <= sumZ (snd <$> pre)
            ∧ 0 <= sumZ (snd <$> post) ∧ 0 <= v) as (? & ? & ? & ? & ?).
    { rewrite Forall_forall in Hpos. split_and!;
        try (apply sumZ_map_nonneg; intros x Hx; assert (x ∈ l) by (rewrite Hpp; set_solver); naive_solver).
      by apply (Hpos (c, v)). }
    rewrite Hpp in Hleave, Hsum. rewrite fmap_app, sumZ_app, fmap_cons, sumZ_cons in Hleave, Hsum.
    simpl snd in Hsum. rewrite checked_add_fits by ulia. rewrite add64_small by ulia.
    cbn [result_bind]. specialize (IH (pre ++ [(c, v)])).
    rewrite !fmap_app, !fmap_cons, !fmap_nil, sumZ_app, sumZ_cons, sumZ_nil, Z.add_0_r in IH.
    apply IH. by rewrite <-app_assoc.
  Qed.

Lemma floor_before_weak : WeakOrder (floor_before children).
  Proof.
    exact (weak_order_desc (λ i, ai_obligation_rank (child_at children i)) _
             (weak_order_desc (λ i, ai_floor (child_at children i)) _
                (weak_order_lt (λ i, ai_key (child_at children i))))).
  Qed.

Let order : list nat := sort_by (floor_before children) (seq 0 count).

Lemma order_elem i : i ∈ order ↔ (i < count)%nat.
  Proof. unfold order. rewrite elem_of_sort_by, elem_of_seq. lia. Qed.

Lemma order_nodup : NoDup order.
  Proof. apply NoDup_sort_by, NoDup_seq. Qed.

Lemma floor_cap j : j ∈ order → 0 <= floor j.
  Proof. intros Hj%order_elem. pose proof (floor_range j Hj). ulia. Qed.

  (** The floors are granted greedily in order of obligation. *)
Lemma overcommit_grants :
    ∃ granted available,
      drain false floor (λ _ grant, grant) order whole (replicate count 0) = (granted, available) ∧
      length granted = count ∧ 0 <= available <= whole ∧ sumZ granted = whole - available ∧
      (∀ i, (i < count)%nat → at_ granted i = greedy floor order whole i
                              ∧ 0 <= greedy floor order whole i <= floor i) ∧
      (∀ j, (j < count)%nat → greedy floor order whole j < floor j → available = 0).
  Proof.
    pose proof (drain_spec false floor (λ _ g, g) order whole (replicate count 0) order_nodup) as Hdrain.
    destruct (drain false floor (λ _ g, g) order whole (replicate count 0)) as [granted available].
    destruct Hdrain as (Hl & Hav & Hat); [|done|].
    { intros i Hi. rewrite length_replicate, at_replicate. apply order_elem in Hi as Hi'.
      auto using floor_cap. }
    simpl in Hl, Hav, Hat. rewrite length_replicate in Hl.
    assert (0 <= sum_over order floor) as Hfs by (apply sum_over_nonneg; apply floor_cap).
    pose proof (greedy_sum floor order whole order_nodup floor_cap ltac:(ulia)) as Hsum.
    assert (∀ i, (i < count)%nat → at_ granted i = greedy floor order whole i) as Hg.
    { intros i Hi. by rewrite Hat, decide_True by by apply order_elem. }
    assert (∀ i, (i < count)%nat → 0 <= greedy floor order whole i <= floor i) as Hr.
    { intros i Hi. pose proof (greedy_range floor order whole i floor_cap ltac:(ulia)) as [H _].
      rewrite decide_True in H by by apply order_elem. done. }
    exists granted, available. split; [done|]. split; [done|]. split; [ulia|]. split; [|split].
    - rewrite (sumZ_at _ count _ Hl Hg), <-(sum_over_perm order) by apply sort_by_perm. lia.
    - intros i Hi. auto.
    - intros j Hj Hlt. apply order_elem in Hj. apply greedy_unmet in Hlt; [lia|apply floor_cap|done].
  Qed.

  (** A weaker obligation gets no floor while a stronger one is short. *)
Lemma overcommit_obligation i j :
    (i < count)%nat → (j < count)%nat →
    ai_obligation_rank (child_at children i) < ai_obligation_rank (child_at children j) →
    greedy floor order whole j < floor j → greedy floor order whole i = 0.
  Proof.
    intros Hi Hj Hrank Hlt.
    destruct (@sort_by_before _ _ floor_before_weak (seq 0 count) j i) as (l1 & l2 & Hord & Hin).
    { apply elem_of_seq. lia. }
    { apply elem_of_seq. lia. }
    { unfold floor_before. rewrite (proj2 (Z.eqb_neq _ _)) by lia. apply Z.gtb_lt. lia. }
    fold order in Hord. pose proof order_nodup as Hnd. pose proof floor_cap as Hcap. rewrite Hord in *.
    pose proof (greedy_range floor (l1 ++ j :: l2) whole i Hcap ltac:(ulia)) as [[H0 _] _].
    destruct (Z.eq_dec (greedy floor (l1 ++ j :: l2) whole i) 0) as [|Hne]; [done|].
    rewrite (greedy_priority floor l1 j l2 whole i) in Hlt; [lia|done|done|ulia|done|lia].
  Qed.

  (** What is left over is shared by weight and nothing is lost. *)
  (** What is shared out beyond the floors leaves less than one unit each. *)
Lemma extra_facts available :
    0 <= available <= U64_MAX →
    let extra := sumZ (share_of available W <$> children) in
    0 <= extra ∧ 0 <= available - extra < Z.of_nat count
    ∧ ∀ i, (i < count)%nat → 0 <= share_of available W (child_at children i) <= extra.
  Proof.
    intros Hav extra.
    pose proof (shares_leave children W eq_refl (io_weights _ Hok) (io_nonempty _ Hok) available ltac:(lia)) as Hleave.
    assert (∀ i, (i < count)%nat → 0 <= share_of available W (child_at children i) <= extra) as Hsh.
    { intros i Hi. apply child_at_elem in Hi as Hc. split.
      - apply (share_nonneg children W eq_refl (io_weights _ Hok) (io_nonempty _ Hok)); [lia|done].
      - apply (share_le_sum children W eq_refl (io_weights _ Hok) (io_nonempty _ Hok)); [lia|done]. }
    split; [|split; [exact Hleave|exact Hsh]].
    unfold extra. rewrite sum_children. apply sum_over_nonneg. intros i Hi%elem_of_seq. apply Hsh. subst count. lia.
  Qed.

  (** A weaker obligation gets nothing while a stronger one lacks. *)
Lemma extra_none available i : available = 0 → share_of available W (child_at children i) = 0.
  Proof.
    intros ->. unfold share_of. rewrite Z.mul_0_l, Z.div_0_l; [done|].
    pose proof (weight_sum_pos children W eq_refl (io_weights _ Hok) (io_nonempty _ Hok)). lia.
  Qed.

  (** The shortfall, summed over allocations above what was granted. *)
Lemma shortfall_value alloc :
    length alloc = count →
    (∀ i, (i < count)%nat → greedy floor order whole i <= at_ alloc i <= whole) →
    (∀ i, (i < count)%nat → 0 <= greedy floor order whole i) →
    fold_result add_shortfall 0 (zip children alloc)
    = Value (sum_over (seq 0 count) (λ i, Z.max 0 (floor i - at_ alloc i))).
  Proof.
    intros Hal Hga Hg0. rewrite add_shortfall_loop; [| |lia|]; rewrite ?sum_zip by lia.
    - by rewrite Z.add_0_l.
    - apply Forall_forall. intros e (i & Hi & ->)%zip_elem. simpl. specialize (Hga i Hi). specialize (Hg0 i Hi).
      pose proof (floor_range i Hi). split; [done|ulia].
    - unfold lack. simpl. transitivity (sumZ (ai_floor <$> children)); [|apply (io_floor_sum _ Hok)].
      rewrite sum_children, Z.add_0_l. apply sumZ_map_le. intros i Hi%elem_of_seq.
      assert (i < count)%nat as Hi' by (subst count; lia). specialize (Hga i Hi'). specialize (Hg0 i Hi').
      pose proof (floor_range i Hi'). subst floor. ulia.
  Qed.

Lemma overcommit_value :
    ∃ alloc binding shortfall,
      allocate_overcommit children whole share W = Value (alloc, binding, shortfall) ∧
      length alloc = count ∧ length binding = count ∧ sumZ alloc = whole ∧
      (∀ i, (i < count)%nat → 0 <= at_ alloc i) ∧
      shortfall = sum_over (seq 0 count) (λ i, Z.max 0 (floor i - at_ alloc i)) ∧
      (∀ i j, (i < count)%nat → (j < count)%nat →
         ai_obligation_rank (child_at children i) < ai_obligation_rank (child_at children j) →
         at_ alloc j < floor j → at_ alloc i = 0).
  Proof.
    unfold allocate_overcommit. fold count order. change (λ i, ai_floor (child_at children i)) with floor.
    destruct overcommit_grants as (granted & available & -> & Hl & Hav & Hgs & Hg & Hshort).
    assert (snd <$> zip children granted = granted) as Hzs by (apply snd_zip; subst count; lia).
    assert ((zip children granted).*1 = children) as Hzf by (apply fst_zip; subst count; lia).
    rewrite add_extra_loop; [|ulia|done| |rewrite Hzs; ulia].
    2:{ apply Forall_forall. intros e (i & Hi & ->)%zip_elem. simpl. destruct (Hg i Hi) as [-> ?]. lia. }
    simpl result_bind at 1. destruct (extra_facts available ltac:(ulia)) as (He0 & Hleave & Hsh).
    set (extra := sumZ (share_of available W <$> children)) in *. rewrite sub64_small by ulia.
    assert ((available - extra >=? Z.of_nat count + 1) = false) as -> by (rewrite Z.geb_leb, Z.leb_gt; lia).
    set (residue := _ <$> zip children granted). set (base := _ <$> zip children granted).
    set (rorder := sort_by (residue_before children residue) (seq 0 count)).
    assert (length base = count) as Hbl by (unfold base; rewrite length_fmap, length_zip; subst count; lia).
    assert (∀ i, (i < count)%nat → at_ base i = at_ granted i + share_of available W (child_at children i)) as Hbase.
    { intros i Hi. unfold base. by rewrite at_fmap_zip. }
    assert (sumZ base = whole - available + extra) as Hbs.
    { rewrite (sumZ_at _ count _ Hbl Hbase), sum_over_add, <-Hl, sum_over_seq, Hgs, Hl.
      unfold extra. rewrite sum_children. done. }
    assert (∀ i, (i < count)%nat → 0 <= at_ base i) as Hb0.
    { intros i Hi. rewrite Hbase by done. destruct (Hg i Hi) as [-> ?]. specialize (Hsh i Hi). lia. }
    destruct (bump_first_closes (available - extra) rorder base) as (Hal & Has & Hat);
      rewrite ?Hbl; try done; [apply sort_by_perm|lia|ulia|].
    set (alloc := bump_first _ _ _) in *.
    assert (∀ i, (i < count)%nat → at_ granted i <= at_ alloc i <= whole) as Hga.
    { intros i Hi. split; [rewrite Hat, Hbase by done; specialize (Hsh i Hi); destruct (decide _); lia|].
      transitivity (sumZ alloc); [|lia]. apply at_le_sum; [|lia]. intros j Hj. rewrite Hat.
      specialize (Hb0 j ltac:(lia)). destruct (decide _); lia. }
    rewrite (shortfall_value alloc); [|lia|intros i Hi; destruct (Hg i Hi) as [<- _]; by apply Hga|intros i Hi; apply (Hg i Hi)].
    do 3 eexists. split; [done|]. split; [lia|]. split; [by rewrite length_imap|]. split; [lia|].
    split; [|split; [done|]].
    - intros i Hi. specialize (Hga i Hi). destruct (Hg i Hi) as [E ?]. lia.
    - intros i j Hi Hj Hrank Hlt. pose proof (Hga j Hj). destruct (Hg j Hj) as [Ej ?].
      assert (greedy floor order whole j < floor j) as Hlt' by lia. pose proof (Hshort j Hj Hlt') as Hnone.
      rewrite Hat, Hbase, (extra_none available i Hnone) by done. destruct (Hg i Hi) as [-> _].
      rewrite (overcommit_obligation i j Hi Hj Hrank Hlt'). assert (extra = 0) as -> by lia. rewrite Hnone. simpl. lia.
  Qed.
End branches.

(** ** The whole function *)

(** What the floors lack, and what the shares have above them. *)
Definition floor_need (children : list AllocationInput) (whole : Z) : Z :=
  let W := sumZ (ai_weight <$> children) in
  sumZ ((λ c, Z.max 0 (ai_floor c - share_of whole W c)) <$> children).
Definition floor_slack (children : list AllocationInput) (whole : Z) : Z :=
  let W := sumZ (ai_weight <$> children) in
  sumZ ((λ c, Z.max 0 (share_of whole W c - ai_floor c)) <$> children).

Record allocation_spec (children : list AllocationInput) (whole : Z) (r : AllocationResult) : Prop := {
  as_length : length (ar_allocations r) = length children;
  as_binding : length (ar_floor_binding r) = length children;
  as_conserves : sumZ (ar_allocations r) = whole;
  as_range : ∀ i, (i < length children)%nat → 0 <= at_ (ar_allocations r) i <= whole;
  as_overcommit : ar_overcommit r = bool_decide (floor_slack children whole < floor_need children whole);
  as_floors : ar_overcommit r = false →
    ∀ i, (i < length children)%nat → ai_floor (child_at children i) <= at_ (ar_allocations r) i;
  as_quota : floor_need children whole = 0 →
    ∀ i, (i < length children)%nat →
      let share := share_of whole (sumZ (ai_weight <$> children)) (child_at children i) in
      share <= at_ (ar_allocations r) i <= share + 1;
  as_shortfall : ar_overcommit_shortfall r
    = sum_over (seq 0 (length children))
        (λ i, Z.max 0 (ai_floor (child_at children i) - at_ (ar_allocations r) i));
  as_obligation : ar_overcommit r = true →
    ∀ i j, (i < length children)%nat → (j < length children)%nat →
      ai_obligation_rank (child_at children i) < ai_obligation_rank (child_at children j) →
      at_ (ar_allocations r) j < ai_floor (child_at children j) → at_ (ar_allocations r) i = 0 }.

Section whole.
  Context (children : list AllocationInput) (whole : Z).
  Hypothesis Hok : inputs_ok children.
  Hypothesis Hwhole : u64 whole.

Let W : Z := sumZ (ai_weight <$> children).
Let share : list Z := share_of whole W <$> children.

Lemma share_facts :
    length share = length children ∧ 0 <= whole - sumZ share < sizeZ children ∧
    (∀ i, (i < length children)%nat →
       at_ share i = share_of whole W (child_at children i) ∧ 0 <= at_ share i <= whole) ∧
    floor_need children whole
      = sum_over (seq 0 (length children)) (λ i, Z.max 0 (ai_floor (child_at children i) - at_ share i)) ∧
    floor_slack children whole
      = sum_over (seq 0 (length children)) (λ i, Z.max 0 (at_ share i - ai_floor (child_at children i))).
  Proof.
    assert (∀ i, (i < length children)%nat → at_ share i = share_of whole W (child_at children i)) as Hat.
    { intros i Hi. unfold share. by rewrite at_fmap. }
    split; [by unfold share; rewrite length_fmap|].
    split; [apply shares_leave; try done; [apply Hok|apply Hok|ulia]|].
    split; [intros i Hi; split; [by apply Hat|by apply share_range]|].
    unfold floor_need, floor_slack. fold W. split; rewrite sum_children; apply sum_over_ext;
      intros i Hi%elem_of_seq; rewrite Hat by lia; done.
  Qed.

  (** The final rounding step and the closure check, for any vector that sums to
      the shares. *)
Lemma round_value alloc :
    length alloc = length children → sumZ alloc = sumZ share →
    (∀ i, (i < length children)%nat → 0 <= at_ alloc i) →
    let leftover := sub64 whole (sumZ share) in
    let residue := residue_of whole W <$> children in
    let final := if negb false && (leftover >? 0)
      then bump_first leftover (sort_by (residue_before children residue) (seq 0 (length children))) alloc
      else alloc in
    negb false && (leftover >? 0) && (leftover >=? Z.of_nat (length children) + 1) = false ∧
    checked_total (λ v, v) 0 final = Some whole ∧ length final = length children ∧ sumZ final = whole ∧
    (∀ i, at_ alloc i <= at_ final i <= at_ alloc i + 1).
  Proof.
    intros Hl Hs H0 leftover residue final.
    destruct share_facts as (_ & Hleave & Hsh & _). unfold sizeZ in Hleave.
    assert (0 <= sumZ share).
    { rewrite <-Hs. apply sumZ_nonneg, Forall_lookup. intros i v Hv.
      pose proof (H0 i) as Hi. rewrite at_lookup, Hv in Hi. apply Hi. rewrite <-Hl. by eapply lookup_lt_Some. }
    assert (leftover = whole - sumZ share) as Elo by (apply sub64_small; ulia).
    assert (length final = length children ∧ sumZ final = whole ∧
      (∀ i, at_ alloc i <= at_ final i <= at_ alloc i + 1)) as (H1 & H2 & H3).
    { unfold final. destruct (leftover >? 0) eqn:E; simpl.
      - destruct (bump_first_closes leftover
          (sort_by (residue_before children residue) (seq 0 (length children))) alloc) as (B1 & B2 & B3);
          rewrite ?Hl; [apply sort_by_perm|lia|done|ulia|].
        split; [lia|]. split; [lia|]. intros i. rewrite B3. destruct (decide _); lia.
      - apply gtb_false_le in E. split; [done|]. split; [lia|]. intros; lia. }
    split; [|split; [|done]].
    - rewrite Z.geb_leb. destruct (leftover >? 0); simpl; [apply Z.leb_gt; lia|done].
    - assert (∀ j, (j < length final)%nat → 0 <= at_ final j) as Hf0.
      { intros j Hj. specialize (H3 j). specialize (H0 j ltac:(lia)). lia. }
      assert (Forall (λ v, u64 v) final) as Hf.
      { apply Forall_lookup. intros i v Hv. pose proof (lookup_lt_Some _ _ _ Hv) as Hi.
        apply at_some in Hv as <-.
        pose proof (at_le_sum final i Hf0 Hi). specialize (Hf0 i Hi). ulia. }
      rewrite checked_total_spec by (done || ulia). rewrite list_fmap_id, H2, Z.add_0_l.
      by rewrite decide_True.
  Qed.

  (** Within the whole, when nothing is negative. *)
Lemma within_whole alloc :
    length alloc = length children → (∀ i, (i < length children)%nat → 0 <= at_ alloc i) → sumZ alloc = whole →
    ∀ i, (i < length children)%nat → 0 <= at_ alloc i <= whole.
  Proof.
    intros Hl H0 Hs i Hi. split; [by apply H0|]. rewrite <-Hs. apply at_le_sum; [|lia]. intros j Hj. apply H0. lia.
  Qed.

  (** No need, no floor above its share. *)
Lemma needless_floors i :
    floor_need children whole = 0 → (i < length children)%nat → ai_floor (child_at children i) <= at_ share i.
  Proof.
    intros Hn0 Hi. destruct share_facts as (_ & _ & _ & Hneed & _). rewrite Hn0 in Hneed.
    pose proof (sumZ_elem_le ((λ i, Z.max 0 (ai_floor (child_at children i) - at_ share i)) <$> seq 0 (length children))
      (Z.max 0 (ai_floor (child_at children i) - at_ share i))) as Hle.
    unfold sum_over in Hneed. rewrite <-Hneed in Hle.
    enough (Z.max 0 (ai_floor (child_at children i) - at_ share i) <= 0) by lia. apply Hle.
    - apply Forall_fmap, Forall_forall. intros j _. simpl. lia.
    - apply (list_elem_of_fmap_2 (λ i, Z.max 0 (ai_floor (child_at children i) - at_ share i))).
      apply elem_of_seq. lia.
  Qed.

  (** The contract of an allocation that was rounded from one above the floors. *)
Lemma rounded_spec alloc final binding :
    length final = length children → length binding = length children → sumZ final = whole →
    (∀ i, at_ alloc i <= at_ final i <= at_ alloc i + 1) →
    (∀ i, (i < length children)%nat → 0 <= ai_floor (child_at children i) <= at_ alloc i) →
    floor_need children whole <= floor_slack children whole →
    (floor_need children whole = 0 → alloc = share) →
    allocation_spec children whole (mk_allocation final binding false 0).
  Proof.
    intros Hl Hlb Hs H3 Hf Hns Hsame. destruct share_facts as (_ & _ & Hsh & _).
    constructor; cbn [ar_allocations ar_floor_binding ar_overcommit ar_overcommit_shortfall]; try done.
    - apply within_whole; [done| |done]. intros i Hi. specialize (H3 i). specialize (Hf i Hi). lia.
    - rewrite bool_decide_eq_false_2; [done|lia].
    - intros _ i Hi. specialize (H3 i). specialize (Hf i Hi). lia.
    - intros Hn i Hi. rewrite (Hsame Hn) in H3. specialize (H3 i). destruct (Hsh i Hi) as [E _]. fold W. cbv zeta. lia.
    - unfold sum_over. rewrite (sumZ_map_ext _ (λ _, 0)), sumZ_map_const; [lia|].
      intros i Hi%elem_of_seq. specialize (H3 i). specialize (Hf i ltac:(lia)). lia.
  Qed.

  (** On well-formed competitors the allocation exists and meets its contract. *)
Lemma allocate_whole_value :
    ∃ r, allocate_whole children whole = Value r ∧ allocation_spec children whole r.
  Proof.
    unfold allocate_whole. pose proof (io_nonempty _ Hok) as Hne. pose proof (io_count _ Hok) as Hcount.
    assert ((length children =? 0)%nat = false) as -> by (destruct children; done).
    assert ((Z.of_nat (length children) >? kMaxSubjects + kMaxGroups) = false) as -> by by apply gtb_false_le.
    rewrite add_weight_loop by (apply Hok || done). simpl result_bind at 1. rewrite Z.add_0_l. fold W.
    pose proof (W_u64 children Hok) as HWu. fold W in HWu.
    rewrite add_share_loop by (apply Hok || done). simpl result_bind at 1. fold share.
    destruct share_facts as (Hlen & Hleave & Hsh & Hneed & Hslack).
    assert ((sumZ share >? whole) = false) as -> by (apply gtb_false_le; lia).
    pose proof (balance_value children whole Hok Hwhole) as Hbal. cbv zeta in Hbal. fold W share in Hbal.
    rewrite Hbal, <-Hneed, <-Hslack. clear Hbal. simpl result_bind at 1.
    assert (0 <= floor_slack children whole) as Hs0 by (rewrite Hslack; apply sum_over_nonneg; intros; lia).
    destruct (Z.eqb_spec (floor_need children whole) 0) as [Hn0|Hn0];
      [|destruct (Z.leb_spec (floor_need children whole) (floor_slack children whole)) as [Hns|Hns]].
    - cbn [result_bind].
      destruct (round_value share Hlen eq_refl (λ i Hi, proj1 (proj2 (Hsh i Hi)))) as (-> & -> & H1 & H2 & H3).
      rewrite Z.eqb_refl. eexists. split; [done|].
      apply (rounded_spec share); [done|by rewrite length_replicate|done|done| |lia|done].
      intros i Hi. pose proof (floor_range children Hok i Hi). pose proof (needless_floors i Hn0 Hi). ulia.
    - pose proof (reallocate_value children whole Hok Hwhole) as Hre. cbv zeta beta in Hre.
      fold W share in Hre. rewrite <-Hneed, <-Hslack in Hre.
      destruct Hre as (alloc & binding & -> & Hl & Hlb & Hs & Hf); [done|]. cbn [result_bind].
      assert (∀ i, (i < length children)%nat → 0 <= ai_floor (child_at children i) <= at_ alloc i) as Hfl.
      { intros i Hi. pose proof (floor_range children Hok i Hi). specialize (Hf i Hi). ulia. }
      destruct (round_value alloc Hl Hs) as (-> & -> & H1 & H2 & H3); [intros i Hi; specialize (Hfl i Hi); lia|].
      rewrite Z.eqb_refl. eexists. split; [done|]. by apply (rounded_spec alloc).
    - pose proof (overcommit_value children whole Hok Hwhole) as Hov. cbv zeta beta in Hov. fold W share in Hov.
      destruct Hov as (alloc & binding & shortfall & -> & Hl & Hlb & Hs & Ha0 & Esh & Hobl).
      cbn [result_bind negb andb]. pose proof (within_whole alloc Hl Ha0 Hs) as Hrange.
      rewrite checked_total_spec; [|ulia|].
      2:{ apply Forall_lookup. intros i v Hv. pose proof (lookup_lt_Some _ _ _ Hv) as Hi.
          apply at_some in Hv as <-. pose proof (Hrange i ltac:(lia)). ulia. }
      rewrite list_fmap_id, Hs, Z.add_0_l, decide_True, Z.eqb_refl by done. eexists. split; [done|].
      constructor; cbn [ar_allocations ar_floor_binding ar_overcommit ar_overcommit_shortfall]; try done.
      by rewrite bool_decide_eq_true_2.
  Qed.
End whole.
