(* ===== verification/Distributor.v ===== *)
(** The top-down distribution of a whole over the group forest: [PassState] and
    [Distributor] of [src/eval/engine.cpp], lines 45-303.

    [nodes], [subject_base], [subject_effective] and [subject_floor_binding] are
    vectors indexed like [policy.groups] and [policy.subjects].  The recursion of
    [scatter] carries the number of levels it may still descend; [build] refuses
    forests deeper than [kMaxGroupDepth], so that bound is never what stops it. *)
From S2P Require Import Prelude Status Core U128 Policy Allocation.
#[local] Open Scope string_scope.
#[local] Open Scope list_scope.
#[local] Open Scope Z_scope.

Definition composite_key (is_group : bool) (id : Z) : Z :=
  if is_group then id else Z.lor id (Z.shiftl 1 63).

Record PassState := mk_pass { ps_overcommit : bool; ps_overcommit_shortfall : Z }.

Record GroupNode := mk_node {
  gn_parent_node : nat;
  gn_has_parent : bool;
  gn_depth : Z;
  gn_allocation : Z;
  gn_base_allocation : Z;
  gn_served : Z;
  gn_child_groups : list nat;
  gn_child_subjects : list nat }.

Definition default_node : GroupNode := mk_node 0 false 1 0 0 0 [] [].

Record Distributor := mk_distributor {
  d_nodes : list GroupNode;
  d_by_id : gmap Z nat;
  d_subject_base : list Z;
  d_subject_effective : list Z;
  d_subject_floor_binding : list bool;
  d_roots : list nat;
  d_base_pass : PassState;
  d_effective_pass : PassState }.

Definition node_at (nodes : list GroupNode) (i : nat) : GroupNode := nth i nodes default_node.

(** ** [build] *)

Definition index_group (by_id : gmap Z nat) (entry : nat * FairnessGroup) : Result (gmap Z nat) :=
  let '(i, group) := entry in
  reject (negb (valid (group_id group)))
    with StatusCode.PolicyInvalid, "group id must be non-zero" ;;
  match by_id !! group_id group with
  | Some _ => fail StatusCode.AlreadyExists "duplicate group id"
  | None => Value (<[group_id group := i]> by_id)
  end.

Definition set_parent (parent : nat) (n : GroupNode) : GroupNode :=
  mk_node parent true (gn_depth n) (gn_allocation n) (gn_base_allocation n) (gn_served n)
    (gn_child_groups n) (gn_child_subjects n).
Definition add_child_group (child : nat) (n : GroupNode) : GroupNode :=
  mk_node (gn_parent_node n) (gn_has_parent n) (gn_depth n) (gn_allocation n)
    (gn_base_allocation n) (gn_served n) (gn_child_groups n ++ [child]) (gn_child_subjects n).
Definition add_child_subject (child : nat) (n : GroupNode) : GroupNode :=
  mk_node (gn_parent_node n) (gn_has_parent n) (gn_depth n) (gn_allocation n)
    (gn_base_allocation n) (gn_served n) (gn_child_groups n) (gn_child_subjects n ++ [child]).
Definition set_depth (depth : Z) (n : GroupNode) : GroupNode :=
  mk_node (gn_parent_node n) (gn_has_parent n) depth (gn_allocation n)
    (gn_base_allocation n) (gn_served n) (gn_child_groups n) (gn_child_subjects n).
Definition set_served (served : Z) (n : GroupNode) : GroupNode :=
  mk_node (gn_parent_node n) (gn_has_parent n) (gn_depth n) (gn_allocation n)
    (gn_base_allocation n) served (gn_child_groups n) (gn_child_subjects n).

Definition link_group (by_id : gmap Z nat) (nodes : list GroupNode) (entry : nat * FairnessGroup)
    : Result (list GroupNode) :=
  let '(i, group) := entry in
  if negb (valid (group_parent group)) then Value nodes
  else
    match by_id !! group_parent group with
    | None => fail StatusCode.NotFound "group parent does not exist"
    | Some parent => Value (alter (add_child_group i) parent (alter (set_parent parent) i nodes))
    end.

(** [while (nodes[cursor].has_parent)]: [steps] is how often [depth] may still
    grow before it exceeds [kMaxGroupDepth]. *)
Fixpoint node_depth (nodes : list GroupNode) (steps : nat) (depth : Z) (cursor : nat) : Result Z :=
  if gn_has_parent (node_at nodes cursor) then
    match steps with
    | O => fail StatusCode.GroupDepthExceeded "group nesting exceeds kMaxGroupDepth"
    | S steps' => node_depth nodes steps' (depth + 1) (gn_parent_node (node_at nodes cursor))
    end
  else Value depth.

Definition link_subject (by_id : gmap Z nat) (nodes : list GroupNode) (entry : nat * Subject)
    : Result (list GroupNode) :=
  let '(s, subject) := entry in
  match by_id !! subj_group subject with
  | None => fail StatusCode.NotFound "subject references an unknown fairness group"
  | Some g => Value (alter (add_child_subject s) g nodes)
  end.

Definition no_pass : PassState := mk_pass false 0.

Definition build (p : FairnessPolicy) : Result Distributor :=
  let? by_id := fold_result index_group ∅ (imap pair (pol_groups p)) in
  let? nodes := fold_result (link_group by_id) (replicate (length (pol_groups p)) default_node)
                  (imap pair (pol_groups p)) in
  let? depths := map_result (node_depth nodes (kMaxGroupDepth - 1) 1) (seq 0 (length nodes)) in
  let nodes := zip_with set_depth depths nodes in
  reject (sizeZ (pol_groups p) =? 0)
    with StatusCode.PolicyInvalid, "policy must declare at least one group" ;;
  reject (foldl Z.max 0 depths =? 0)
    with StatusCode.PolicyInvalid, "policy must declare at least one group" ;;
  let? nodes := fold_result (link_subject by_id) nodes (imap pair (pol_subjects p)) in
  let roots := filter (λ i, negb (gn_has_parent (node_at nodes i))) (seq 0 (length nodes)) in
  reject (sizeZ roots =? 0)
    with StatusCode.PolicyInvalid, "policy must declare at least one root group" ;;
  let zeros := replicate (length (pol_subjects p)) 0 in
  Value (mk_distributor nodes by_id zeros zeros (replicate (length (pol_subjects p)) false) roots
           no_pass no_pass).

(** ** [inputs_for] *)

Definition group_at (p : FairnessPolicy) (i : nat) : FairnessGroup := nth i (pol_groups p) default_group.
Definition subject_at (p : FairnessPolicy) (i : nat) : Subject := nth i (pol_subjects p) default_subject.

Definition group_input (p : FairnessPolicy) (child : nat) : AllocationInput :=
  let group := group_at p child in
  mk_input (composite_key true (group_id group))
    (effective_share_weight (group_share_weight group) 0)
    (group_guarantee_floor group) (group_obligation_rank group).

Definition subject_input (p : FairnessPolicy) (use_modifier : bool) (child : nat) : AllocationInput :=
  let subject := subject_at p child in
  mk_input (composite_key false (subj_id subject))
    (if use_modifier
     then effective_share_weight (subj_share_weight subject) (subj_priority_modifier_bps subject)
     else effective_share_weight (subj_share_weight subject) 0)
    (subj_guarantee_floor subject) (subj_obligation_rank subject).

Definition inputs_for (p : FairnessPolicy) (node : GroupNode) (use_modifier : bool)
    : list AllocationInput :=
  (group_input p <$> gn_child_groups node)
  ++ (subject_input p use_modifier <$> gn_child_subjects node).

(** ** [scatter] and [distribute] *)

(** What one pass writes: node allocations, subject allocations, floor flags. *)
Record PassVectors := mk_vectors {
  pv_node : list Z;
  pv_subject : list Z;
  pv_binding : list bool;
  pv_pass : PassState }.

(** [pass.overcommit = true; checked_add(pass.overcommit_shortfall, ...)]. *)
Definition note_overcommit (pass : PassState) (result : AllocationResult) : Result PassState :=
  if ar_overcommit result then
    match checked_add (ps_overcommit_shortfall pass) (ar_overcommit_shortfall result) with
    | None => fail StatusCode.ArithmeticOverflow "overcommit shortfall overflows"
    | Some shortfall => Value (mk_pass true shortfall)
    end
  else Value pass.

(** The loops [nodes[child].allocation = result.allocations[cursor]; ++cursor]. *)
Definition write_all {A} (targets : list nat) (values : list A) (vector : list A) : list A :=
  foldl (λ v entry, <[entry.1 := entry.2]> v) vector (zip targets values).

Definition write_result (use_modifier : bool) (node : GroupNode) (result : AllocationResult)
    (pass : PassState) (v : PassVectors) : PassVectors :=
  let k := length (gn_child_groups node) in
  mk_vectors
    (write_all (gn_child_groups node) (take k (ar_allocations result)) (pv_node v))
    (write_all (gn_child_subjects node) (drop k (ar_allocations result)) (pv_subject v))
    (if use_modifier
     then write_all (gn_child_subjects node) (drop k (ar_floor_binding result)) (pv_binding v)
     else pv_binding v)
    pass.

Fixpoint scatter (p : FairnessPolicy) (nodes : list GroupNode) (use_modifier : bool) (levels : nat)
    (node_index : nat) (whole : Z) (v : PassVectors) : Result PassVectors :=
  match levels with
  | O => fail StatusCode.GroupDepthExceeded "group nesting exceeds kMaxGroupDepth"
  | S levels' =>
      let node := node_at nodes node_index in
      let inputs := inputs_for p node use_modifier in
      if (length inputs =? 0)%nat then Value v
      else
        let? result := allocate_whole inputs whole in
        let? pass := note_overcommit (pv_pass v) result in
        fold_result
          (λ v child, scatter p nodes use_modifier levels' child (at_ (pv_node v) child) v)
          (write_result use_modifier node result pass v) (gn_child_groups node)
  end.

(** One pass of [distribute], over the roots. *)
Definition distribute_pass (p : FairnessPolicy) (nodes : list GroupNode) (roots : list nat)
    (use_modifier : bool) (whole : Z) (v : PassVectors) : Result PassVectors :=
  let? result := allocate_whole (group_input p <$> roots) whole in
  let? pass := note_overcommit (pv_pass v) result in
  fold_result
    (λ v root, scatter p nodes use_modifier kMaxGroupDepth root (at_ (pv_node v) root) v)
    (mk_vectors (write_all roots (ar_allocations result) (pv_node v)) (pv_subject v)
       (pv_binding v) pass)
    roots.

Definition set_allocation (allocation : Z) (n : GroupNode) : GroupNode :=
  mk_node (gn_parent_node n) (gn_has_parent n) (gn_depth n) allocation
    (gn_base_allocation n) (gn_served n) (gn_child_groups n) (gn_child_subjects n).
Definition set_base_allocation (allocation : Z) (n : GroupNode) : GroupNode :=
  mk_node (gn_parent_node n) (gn_has_parent n) (gn_depth n) (gn_allocation n)
    allocation (gn_served n) (gn_child_groups n) (gn_child_subjects n).

(** Pass 0 without the modifiers, pass 1 with them. *)
Definition distribute (p : FairnessPolicy) (whole : Z) (d : Distributor) : Result Distributor :=
  let? base := distribute_pass p (d_nodes d) (d_roots d) false whole
    (mk_vectors (gn_base_allocation <$> d_nodes d) (d_subject_base d) (d_subject_floor_binding d)
       (d_base_pass d)) in
  let? effective := distribute_pass p (d_nodes d) (d_roots d) true whole
    (mk_vectors (gn_allocation <$> d_nodes d) (d_subject_effective d) (pv_binding base)
       (d_effective_pass d)) in
  let nodes := zip_with set_base_allocation (pv_node base)
                 (zip_with set_allocation (pv_node effective) (d_nodes d)) in
  Value (mk_distributor nodes (d_by_id d) (pv_subject base) (pv_subject effective)
           (pv_binding effective) (d_roots d) (pv_pass base) (pv_pass effective)).

(** ** Roll-ups *)

(** Adds [amount] along the parent chain of [cursor], the node itself included. *)
Fixpoint add_up_chain (nodes : list GroupNode) (levels : nat) (cursor : nat) (amount : Z)
    (totals : list Z) : list Z :=
  match levels with
  | O => totals
  | S levels' =>
      let totals := alter (λ t, add64 t amount) cursor totals in
      if gn_has_parent (node_at nodes cursor)
      then add_up_chain nodes levels' (gn_parent_node (node_at nodes cursor)) amount totals
      else totals
  end.

Definition accumulate_served (served : list Z) (nodes : list GroupNode) : list GroupNode :=
  let totals :=
    foldl (λ totals i,
      let total := foldl (λ t s, add64 t (at_ served s)) 0 (gn_child_subjects (node_at nodes i)) in
      add_up_chain nodes kMaxGroupDepth i total totals)
      (replicate (length nodes) 0) (seq 0 (length nodes)) in
  zip_with set_served totals nodes.

Fixpoint subtree_has_protected (p : FairnessPolicy) (nodes : list GroupNode) (levels : nat)
    (node_index : nat) : bool :=
  match levels with
  | O => false
  | S levels' =>
      if group_protected_obligation (group_at p node_index) then true
      else existsb (subtree_has_protected p nodes levels') (gn_child_groups (node_at nodes node_index))
  end.

(** The tie-break keys of two subjects coincide when their identities differ in
    the top bit only. *)
Example composite_key_collision : composite_key false 5 = composite_key false (5 + 2 ^ 63).
Proof. reflexivity. Qed.
