(* ===== verification/DistributorSpec.v ===== *)
(** Correctness of the distribution over the group forest.

    A [Forest] states what [build] makes of a valid policy: every node is the
    child of at most one node, one level below it.  Over a forest, [scatter]
    settles every node: what its children hold is exactly what [allocate_whole]
    makes of what it holds itself.  Conservation over the subjects follows. *)
From S2P Require Import Prelude Status Core U128 Policy PolicyValid Allocation AllocationSpec Distributor.
#[local] Open Scope Z_scope.

(** ** The modifier-adjusted weight *)

(** Never zero, whatever the modifier; exact whenever the product fits a word. *)
Lemma effective_share_weight_exact weight modifier :
  u64 weight → 0 < weight → weight * Z.max 1 (kBasisPointScale + modifier) <= U64_MAX →
  i64 (kBasisPointScale + modifier) →
  effective_share_weight weight modifier = weight * Z.max 1 (kBasisPointScale + modifier).
Proof.
  intros Hw Hpos Hfit Hi. unfold effective_share_weight.
  set (f := kBasisPointScale + modifier) in *.
  assert ((if f <=? 0 then 1 else f) = Z.max 1 f) as -> by (destruct (Z.leb_spec f 0); lia).
  assert (0 < weight * Z.max 1 f) as Hp by (apply Z.mul_pos_pos; lia).
  destruct (mul_wide_exact weight (Z.max 1 f)) as [[Hl Hh] E]; [done|ulia|].
  unfold u128_value in E. unfold fits_u64.
  generalize dependent (mul_wide weight (Z.max 1 f)). intros product Hl Hh E.
  assert (hi product = 0) as E0 by (unfold u64, U64_MAX in *; lia).
  rewrite E0 in E |- *. destruct (Z.eqb_spec (lo product) 0); cbn [Z.eqb negb orb]; lia.
Qed.

Lemma effective_share_weight_range weight modifier :
  0 < weight <= kMaxShareWeight → Z.abs modifier <= kMaxPriorityModifierBps →
  0 < effective_share_weight weight modifier <= kMaxShareWeight * 110000.
Proof.
  intros Hw Hm. unfold kMaxShareWeight, kMaxPriorityModifierBps in *.
  assert (1 <= Z.max 1 (kBasisPointScale + modifier) <= 110000) as Hf by (unfold kBasisPointScale; lia).
  assert (0 < weight * Z.max 1 (kBasisPointScale + modifier) <= 2147483647 * 110000) as Hp.
  { split; [apply Z.mul_pos_pos; lia|apply Z.mul_le_mono_nonneg; lia]. }
  rewrite effective_share_weight_exact; [done|unfold u64, U64_MAX; lia|lia|unfold U64_MAX; lia|].
  unfold kBasisPointScale, i64, I64_MIN, I64_MAX in *. lia.
Qed.

(** ** Writing a result back *)

Lemma write_all_cons {A} t (x : A) targets values vector :
  write_all (t :: targets) (x :: values) vector = write_all targets values (<[t := x]> vector).
Proof. done. Qed.

Lemma write_all_length {A} targets (values vector : list A) :
  length (write_all targets values vector) = length vector.
Proof.
  unfold write_all. revert vector. induction (zip targets values) as [|[t x] l IH]; intros vector; simpl; [done|].
  by rewrite IH, length_insert.
Qed.

Lemma write_all_frame {A} targets (values vector : list A) j :
  j ∉ targets → write_all targets values vector !! j = vector !! j.
Proof.
  revert values vector. induction targets as [|t targets IH]; intros values vector Hj; [done|].
  destruct values as [|x values]; [done|]. rewrite write_all_cons, IH by set_solver.
  apply list_lookup_insert_ne. set_solver.
Qed.

(** Reading the targets back yields the values written. *)
Lemma write_all_read {A} (d : A) targets values vector :
  NoDup targets → length values = length targets → (∀ t, t ∈ targets → (t < length vector)%nat) →
  (λ t, default d (write_all targets values vector !! t)) <$> targets = values.
Proof.
  intros Hnd. revert values vector. induction Hnd as [|t targets Ht Hnd IH]; intros values vector Hl Hlt.
  { by destruct values. }
  destruct values as [|x values]; [done|]. simpl in Hl. rewrite write_all_cons, fmap_cons. f_equal.
  - rewrite write_all_frame, list_lookup_insert_eq by (done || (apply Hlt; set_solver)). done.
  - apply IH; [lia|]. intros u Hu. rewrite length_insert. apply Hlt. set_solver.
Qed.

(** ** Forests *)

(** The things a node hands its amount to: child groups, then child subjects. *)
Definition node_items (nodes : list GroupNode) (i : nat) : list (nat + nat) :=
  (inl <$> gn_child_groups (node_at nodes i)) ++ (inr <$> gn_child_subjects (node_at nodes i)).

Record Forest (nodes : list GroupNode) (n m : nat) (depth : nat → nat) : Prop := {
  fo_length : length nodes = n;
  fo_group i j : (i < n)%nat → j ∈ gn_child_groups (node_at nodes i) → (j < n)%nat ∧ depth j = S (depth i);
  fo_subject i s : (i < n)%nat → s ∈ gn_child_subjects (node_at nodes i) → (s < m)%nat;
  fo_parent i i' x : (i < n)%nat → (i' < n)%nat →
    x ∈ node_items nodes i → x ∈ node_items nodes i' → i = i';
  fo_nodup i : (i < n)%nat → NoDup (node_items nodes i);
  fo_depth i : (i < n)%nat → (1 <= depth i <= kMaxGroupDepth)%nat }.

(** Everything strictly below a node, down to [levels]. *)
Fixpoint items_below (nodes : list GroupNode) (levels : nat) (i : nat) : list (nat + nat) :=
  match levels with
  | O => []
  | S levels' =>
      node_items nodes i
      ++ (gn_child_groups (node_at nodes i) ≫= items_below nodes levels')
  end.

Lemma elem_of_node_items nodes i x :
  x ∈ node_items nodes i ↔
    match x with
    | inl j => j ∈ gn_child_groups (node_at nodes i)
    | inr s => s ∈ gn_child_subjects (node_at nodes i)
    end.
Proof.
  unfold node_items. rewrite elem_of_app, !list_elem_of_fmap.
  destruct x; naive_solver.
Qed.

Section forest.
  Context {nodes : list GroupNode} {n m : nat} {depth : nat → nat}.
  Hypothesis Hf : Forest nodes n m depth.

(** [x] is in the subtree of the node [i], whatever the number of levels. *)
Inductive under (i : nat) : nat + nat → Prop :=
  | under_here x : x ∈ node_items nodes i → under i x
  | under_step j x : j ∈ gn_child_groups (node_at nodes i) → under j x → under i x.

Lemma items_below_under levels i x : x ∈ items_below nodes levels i → under i x.
Proof.
  revert i. induction levels as [|levels IH]; intros i; cbn [items_below]; [by intros ?%elem_of_nil|].
  intros [Hx|(j & Hx & Hj)%list_elem_of_bind]%elem_of_app; [by constructor|].
  eapply under_step; [done|by apply IH].
Qed.

Lemma under_range i x : (i < n)%nat → under i x →
  match x with inl j => (j < n)%nat ∧ (depth i < depth j)%nat | inr s => (s < m)%nat end.
Proof.
  intros Hi Hx. induction Hx as [i x Hx|i j x Hj Hx IH].
  - apply elem_of_node_items in Hx. destruct x as [j|s].
    + destruct (fo_group _ _ _ _ Hf i j Hi Hx). lia.
    + by apply (fo_subject _ _ _ _ Hf i s Hi).
  - destruct (fo_group _ _ _ _ Hf i j Hi Hj) as [Hj' E]. specialize (IH Hj').
    destruct x; [lia|done].
Qed.

Lemma under_trans i j x : under i (inl j) → x ∈ node_items nodes j → under i x.
Proof.
  intros H. remember (inl j) as y eqn:Ey. induction H as [i y Hy|i k y Hk Hy IH]; subst.
  - intros Hx. apply elem_of_node_items in Hy. by eapply under_step; [|constructor].
  - intros Hx. eapply under_step; [done|by apply IH].
Qed.

(** The last node of the descent is the only parent. *)
Lemma under_last i x : (i < n)%nat → under i x →
  ∃ k, (k < n)%nat ∧ x ∈ node_items nodes k ∧ (k = i ∨ under i (inl k)).
Proof.
  intros Hi Hx. induction Hx as [i x Hx|i j x Hj Hx IH]; [by exists i; auto|].
  destruct (fo_group _ _ _ _ Hf i j Hi Hj) as [Hj' _].
  destruct (IH Hj') as (k & Hk & Hin & Hor). exists k. split_and!; [done..|]. right.
  destruct Hor as [->|Hu]; [by constructor; apply elem_of_node_items|by eapply under_step].
Qed.

(** Subtrees of different nodes of one depth are disjoint. *)
Lemma under_disjoint i i' x :
  (i < n)%nat → (i' < n)%nat → depth i = depth i' → under i x → under i' x → i = i'.
Proof.
  intros Hi Hi' Hd. revert x.
  assert (∀ d x, match x with inl j => depth j = d | inr _ => d = 9%nat end →
    under i x → under i' x → i = i') as H.
  { intros d. induction (lt_wf d) as [d _ IH]. intros x Hx H1 H2.
    destruct (under_last i x Hi H1) as (k & Hk & Hin & Hor).
    destruct (under_last i' x Hi' H2) as (k' & Hk' & Hin' & Hor').
    pose proof (fo_parent _ _ _ _ Hf _ _ _ Hk Hk' Hin Hin') as <-.
    assert ((depth k < d)%nat) as Hlt.
    { apply elem_of_node_items in Hin. destruct x as [j|s].
      - destruct (fo_group _ _ _ _ Hf k j Hk Hin). lia.
      - pose proof (fo_depth _ _ _ _ Hf k Hk). unfold kMaxGroupDepth in *. lia. }
    destruct Hor as [->|Hu], Hor' as [E|Hu']; [done|..].
    - pose proof (under_range _ _ Hi' Hu') as [_ ?]. lia.
    - subst. pose proof (under_range _ _ Hi Hu) as [_ ?]. lia.
    - by apply (IH (depth k) Hlt (inl k)). }
  intros [j|s]; [by eapply H|by apply (H 9%nat)].
Qed.

Lemma items_below_nodup levels i : (i < n)%nat → NoDup (items_below nodes levels i).
Proof.
  revert i. induction levels as [|levels IH]; intros i Hi; cbn [items_below]; [constructor|].
  pose proof (fo_nodup _ _ _ _ Hf i Hi) as Hnd. apply NoDup_app. split; [done|]. split.
  - intros x Hx (j & Hxj & Hj)%list_elem_of_bind. apply items_below_under in Hxj.
    destruct (fo_group _ _ _ _ Hf i j Hi Hj) as [Hjn Hd].
    destruct (under_last j x Hjn Hxj) as (k & Hk & Hin & Hor).
    pose proof (fo_parent _ _ _ _ Hf _ _ _ Hk Hi Hin Hx) as ->.
    destruct Hor as [E|Hu]; [subst; lia|]. pose proof (under_range _ _ Hjn Hu) as [_ ?]. lia.
  - assert (NoDup (gn_child_groups (node_at nodes i))) as Hg.
    { apply NoDup_app in Hnd as [Hnd _]. by apply NoDup_fmap_1 in Hnd. }
    assert (∀ j, j ∈ gn_child_groups (node_at nodes i) → (j < n)%nat ∧ depth j = S (depth i)) as Hc
      by (intros; by apply (fo_group _ _ _ _ Hf)).
    clear Hnd Hi. induction Hg as [|c l Hcl Hg IHl]; [constructor|].
    rewrite bind_cons. apply NoDup_app. destruct (Hc c) as [Hcn Hcd]; [set_solver|].
    split; [by apply IH|]. split; [|apply IHl; set_solver].
    intros x Hx (j & Hxj & Hj)%list_elem_of_bind. apply items_below_under in Hx, Hxj.
    destruct (Hc j) as [Hjn Hjd]; [set_solver|]. apply Hcl.
    assert (c = j) as -> by (eapply under_disjoint; [done..| |done|done]; lia). done.
Qed.
End forest.

(** ** One pass over a forest *)

Definition item_input (p : FairnessPolicy) (use_modifier : bool) (x : nat + nat) : AllocationInput :=
  match x with inl j => group_input p j | inr s => subject_input p use_modifier s end.

Definition item_floor (p : FairnessPolicy) (x : nat + nat) : Z :=
  match x with
  | inl j => group_guarantee_floor (group_at p j)
  | inr s => subj_guarantee_floor (subject_at p s)
  end.

(** What a thing holds after the writes so far. *)
Definition held (v : PassVectors) (x : nat + nat) : Z :=
  match x with inl j => at_ (pv_node v) j | inr s => at_ (pv_subject v) s end.

Lemma inputs_for_items p nodes i use_modifier :
  inputs_for p (node_at nodes i) use_modifier = item_input p use_modifier <$> node_items nodes i.
Proof. unfold inputs_for, node_items. by rewrite fmap_app, <-!list_fmap_compose. Qed.

(** Node [i] has handed [amount] to its children the way [allocate_whole] says. *)
Definition settled (p : FairnessPolicy) (nodes : list GroupNode) (use_modifier : bool) (v : PassVectors)
    (i : nat) (amount : Z) : Prop :=
  ∃ r, allocate_whole (item_input p use_modifier <$> node_items nodes i) amount = Value r
    ∧ allocation_spec (item_input p use_modifier <$> node_items nodes i) amount r
    ∧ ar_allocations r = held v <$> node_items nodes i
    ∧ (ar_overcommit r = true → ps_overcommit (pv_pass v) = true)
    ∧ u64 amount.

(** The writes between [v] and [v'] hit only the things of [l]. *)
Definition same_outside (l : list (nat + nat)) (v v' : PassVectors) : Prop :=
  ∀ x, x ∉ l → held v' x = held v x.

Section pass.
  Context (p : FairnessPolicy) (use_modifier : bool).
  Context {nodes : list GroupNode} {n m : nat} {depth : nat → nat}.
  Hypothesis Hf : Forest nodes n m depth.
  Hypothesis Hin : ∀ i, (i < n)%nat → inputs_ok (item_input p use_modifier <$> node_items nodes i).
  Hypothesis Hfloor : ∀ x, 0 <= item_floor p x.

Definition shaped (v : PassVectors) : Prop :=
  length (pv_node v) = n ∧ length (pv_subject v) = m ∧ length (pv_binding v) = m.

Definition shortfall (v : PassVectors) : Z := ps_overcommit_shortfall (pv_pass v).

Definition floors (l : list (nat + nat)) : Z := sumZ (item_floor p <$> l).

Lemma floors_nonneg l : 0 <= floors l.
Proof. apply sumZ_map_nonneg. auto. Qed.

(** What a pass over the things of [l] does to the pass state. *)
Definition grown (l : list (nat + nat)) (v v' : PassVectors) : Prop :=
  shortfall v <= shortfall v' <= shortfall v + floors l
  ∧ (ps_overcommit (pv_pass v) = true → ps_overcommit (pv_pass v') = true).

Lemma item_floor_input x : ai_floor (item_input p use_modifier x) = item_floor p x.
Proof. by destruct x. Qed.

Lemma shortfall_bounded items amount r :
  allocation_spec (item_input p use_modifier <$> items) amount r →
  0 <= ar_overcommit_shortfall r <= floors items.
Proof.
  intros [Hlen _ _ Hrange _ _ _ Esh _]. rewrite Esh. split.
  - apply sum_over_nonneg. intros; lia.
  - unfold floors. rewrite length_fmap in *. rewrite <-(sum_over_seq (item_floor p <$> items)).
    rewrite length_fmap. apply sumZ_map_le. intros k Hk%elem_of_seq.
    specialize (Hrange k ltac:(lia)).
    destruct (lookup_lt_is_Some_2 items k) as [x Hx]; [lia|].
    assert (child_at (item_input p use_modifier <$> items) k = item_input p use_modifier x) as ->.
    { unfold child_at. apply nth_lookup_Some. by rewrite list_lookup_fmap, Hx. }
    rewrite item_floor_input, (at_lookup (item_floor p <$> items)), list_lookup_fmap, Hx. simpl. specialize (Hfloor x). lia.
Qed.

Lemma note_overcommit_grows pass r bound :
  0 <= ar_overcommit_shortfall r <= bound → 0 <= ps_overcommit_shortfall pass →
  ps_overcommit_shortfall pass + bound <= U64_MAX →
  ∃ pass', note_overcommit pass r = Value pass'
    ∧ ps_overcommit_shortfall pass <= ps_overcommit_shortfall pass' <= ps_overcommit_shortfall pass + bound
    ∧ (ps_overcommit pass = true ∨ ar_overcommit r = true → ps_overcommit pass' = true).
Proof.
  intros Hr Hp Hb. unfold note_overcommit. destruct (ar_overcommit r).
  - rewrite checked_add_fits by ulia. eexists. split; [done|]. simpl. split; [lia|done].
  - eexists. split; [done|]. split; [lia|]. naive_solver.
Qed.

Lemma settled_frame v v' l i amount :
  settled p nodes use_modifier v i amount → same_outside l v v' →
  (∀ x, x ∈ node_items nodes i → x ∉ l) →
  (ps_overcommit (pv_pass v) = true → ps_overcommit (pv_pass v') = true) →
  settled p nodes use_modifier v' i amount.
Proof.
  intros (r & Hr & Hspec & Ha & Hov & Hu) Hout Hdis Hmono. exists r. split_and!; [done..| |auto|done].
  rewrite Ha. apply list_fmap_ext. intros k x Hx. symmetry. apply Hout, Hdis. by eapply list_elem_of_lookup_2.
Qed.

Lemma write_result_held i r pass v :
  (i < n)%nat → shaped v → length (ar_allocations r) = length (node_items nodes i) →
  let v1 := write_result use_modifier (node_at nodes i) r pass v in
  shaped v1 ∧ same_outside (node_items nodes i) v v1 ∧ pv_pass v1 = pass
  ∧ held v1 <$> node_items nodes i = ar_allocations r.
Proof.
  intros Hi (Hn & Hm & Hb) Hl v1. pose proof (fo_nodup _ _ _ _ Hf i Hi) as Hnd.
  apply NoDup_app in Hnd as (Hg%NoDup_fmap_1 & _ & Hs%NoDup_fmap_1).
  unfold node_items in Hl. rewrite length_app, !length_fmap in Hl.
  set (k := length (gn_child_groups (node_at nodes i))) in *.
  split; [|split; [|split; [done|]]].
  - unfold shaped, v1. simpl. rewrite !write_all_length. split; [done|]. split; [done|].
    destruct use_modifier; [by rewrite write_all_length|done].
  - intros x Hx. unfold v1, held, write_result. rewrite elem_of_node_items in Hx.
    destruct x; simpl; rewrite !at_lookup, write_all_frame by done; reflexivity.
  - unfold node_items. rewrite fmap_app, <-!list_fmap_compose.
    rewrite <-(take_drop k (ar_allocations r)). f_equal.
    + transitivity ((λ t, default 0 (write_all (gn_child_groups (node_at nodes i))
        (take k (ar_allocations r)) (pv_node v) !! t)) <$> gn_child_groups (node_at nodes i)).
      { apply list_fmap_ext. intros ? ? _. simpl. apply at_lookup. }
      apply write_all_read; [done|rewrite length_take; lia|].
      intros t Ht. rewrite Hn. by apply (fo_group _ _ _ _ Hf i).
    + transitivity ((λ t, default 0 (write_all (gn_child_subjects (node_at nodes i))
        (drop k (ar_allocations r)) (pv_subject v) !! t)) <$> gn_child_subjects (node_at nodes i)).
      { apply list_fmap_ext. intros ? ? _. simpl. apply at_lookup. }
      apply write_all_read; [done|rewrite length_drop; lia|].
      intros t Ht. rewrite Hm. by apply (fo_subject _ _ _ _ Hf i).
Qed.

(** The contract of [scatter] at a depth. *)
Definition subtree_settled (levels i : nat) (amount : Z) (v : PassVectors) : Prop :=
  settled p nodes use_modifier v i amount ∧
  (∀ j, inl j ∈ items_below nodes levels i → settled p nodes use_modifier v j (held v (inl j))).

Definition scatters (levels : nat) : Prop := ∀ i whole v,
  (i < n)%nat → (9 <= depth i + levels)%nat → shaped v → u64 whole →
  0 <= shortfall v → shortfall v + floors (items_below nodes levels i) <= U64_MAX →
  ∃ v', scatter p nodes use_modifier levels i whole v = Value v'
    ∧ shaped v' ∧ same_outside (items_below nodes levels i) v v'
    ∧ grown (items_below nodes levels i) v v' ∧ subtree_settled levels i whole v'.

Lemma subtree_settled_frame levels i amount v v' l :
  subtree_settled levels i amount v → same_outside l v v' →
  (∀ x, under (nodes := nodes) i x → x ∉ l) →
  (ps_overcommit (pv_pass v) = true → ps_overcommit (pv_pass v') = true) →
  subtree_settled levels i amount v'.
Proof.
  intros [Hs Hb] Hout Hdis Hmono. split.
  - eapply settled_frame; [done..| |done]. intros x Hx. apply Hdis. by constructor.
  - intros j Hj. apply items_below_under in Hj as Hu. rewrite Hout by by apply Hdis.
    eapply settled_frame; [by apply Hb|done| |done].
    intros x Hx. apply Hdis. by eapply under_trans.
Qed.

(** The loop over siblings, given the contract one level down. *)
Lemma siblings_settle levels cs v d :
  scatters levels → NoDup cs → shaped v →
  (∀ c, c ∈ cs → (c < n)%nat ∧ depth c = d ∧ u64 (held v (inl c))) → (9 <= d + levels)%nat →
  0 <= shortfall v → shortfall v + floors (cs ≫= items_below nodes levels) <= U64_MAX →
  ∃ v', fold_result (λ v c, scatter p nodes use_modifier levels c (at_ (pv_node v) c) v) v cs = Value v'
    ∧ shaped v' ∧ same_outside (cs ≫= items_below nodes levels) v v'
    ∧ grown (cs ≫= items_below nodes levels) v v'
    ∧ (∀ c, c ∈ cs → held v' (inl c) = held v (inl c) ∧ subtree_settled levels c (held v' (inl c)) v').
Proof.
  intros IH Hnd. revert v. induction Hnd as [|c cs Hc Hnd IHcs]; intros v Hv Hcs Hd H0 Hb.
  { exists v. split; [done|]; split; [done|]; split; [by intros ? _|]; split; [unfold grown, floors; simpl; sum_simpl; split; [lia|done]|]. intros c Hc. set_solver. }
  cbn [fold_result]. rewrite bind_cons in *. unfold floors in *. rewrite fmap_app, sumZ_app in *.
  pose proof (floors_nonneg (cs ≫= items_below nodes levels)) as Hp1.
  pose proof (floors_nonneg (items_below nodes levels c)) as Hp2. unfold floors in Hp1, Hp2.
  destruct (Hcs c) as (Hcn & Hcd & Hcu); [set_solver|].
  destruct (IH c (at_ (pv_node v) c) v) as (v1 & -> & Hv1 & Hout1 & [Hg1 Hm1] & Hs1);
    [done|lia|done|done|done|unfold floors; lia|].
  assert (∀ c', c' ∈ c :: cs → held v1 (inl c') = held v (inl c')) as Hkeep.
  { intros c' Hc'. apply Hout1. intros Hu%items_below_under. destruct (Hcs c' Hc') as (Hcn' & Hcd' & _).
    pose proof (under_range Hf _ _ Hcn Hu) as [_ ?]. lia. }
  cbn [result_bind]. unfold floors in Hg1.
  destruct (IHcs v1) as (v2 & -> & Hv2 & Hout2 & [Hg2 Hm2] & Hs2); [done| |done|lia|unfold floors; lia|].
  { intros c' Hc'. rewrite Hkeep by set_solver. apply Hcs. set_solver. }
  unfold floors in Hg2. exists v2. split; [done|]. split; [done|]. split.
  { intros x Hx. rewrite Hout2, Hout1 by set_solver. done. }
  split; [unfold grown, floors; rewrite fmap_app, sumZ_app; split; [lia|auto]|].
  assert (held v2 (inl c) = held v1 (inl c)) as E2.
  { apply Hout2. intros (c' & Hu%items_below_under & Hc')%list_elem_of_bind.
    destruct (Hcs c') as (Hcn' & Hcd' & _); [set_solver|].
    pose proof (under_range Hf _ _ Hcn' Hu) as [_ ?]. lia. }
  intros c' [->|Hc']%elem_of_cons.
  - rewrite E2, (Hkeep c) by set_solver. split; [done|]. change (at_ (pv_node v) c) with (held v (inl c)) in Hs1.
    eapply subtree_settled_frame; [exact Hs1|exact Hout2| |exact Hm2].
    intros x Hx (c' & Hu%items_below_under & Hc')%list_elem_of_bind.
    destruct (Hcs c') as (Hcn' & Hcd' & _); [set_solver|].
    assert (c = c') by (eapply (under_disjoint Hf); [done|done|lia|done|done]). congruence.
  - destruct (Hs2 c' Hc') as [E Hs]. rewrite <-(Hkeep c') by set_solver. done.
Qed.

Lemma held_items v items c r amount :
  held v <$> items = ar_allocations r →
  allocation_spec (item_input p use_modifier <$> items) amount r → u64 amount →
  c ∈ items → u64 (held v c).
Proof.
  intros Hh [Hlen _ _ Hrange _ _ _ _ _] Hu Hc. rewrite length_fmap in *.
  apply list_elem_of_lookup_1 in Hc as [k Hk]. pose proof (lookup_lt_Some _ _ _ Hk) as Hlt.
  specialize (Hrange k Hlt). rewrite <-Hh, at_lookup, list_lookup_fmap, Hk in Hrange. simpl in Hrange. ulia.
Qed.

Lemma scatter_settles levels : scatters levels.
Proof.
  induction levels as [|levels IH]; intros i whole v Hi Hd Hv Hwhole H0 Hb.
  { pose proof (fo_depth _ _ _ _ Hf i Hi). unfold kMaxGroupDepth in *. lia. }
  cbn [scatter items_below] in *. rewrite inputs_for_items.
  pose proof (Hin i Hi) as Hok. pose proof (io_nonempty _ Hok) as Hne.
  assert ((length (item_input p use_modifier <$> node_items nodes i) =? 0)%nat = false) as ->
    by by destruct (item_input p use_modifier <$> node_items nodes i).
  destruct (allocate_whole_value _ whole Hok Hwhole) as (r & Hr & Hspec). rewrite Hr. cbn [result_bind].
  unfold floors in Hb. rewrite fmap_app, sumZ_app in Hb.
  pose proof (floors_nonneg (gn_child_groups (node_at nodes i) ≫= items_below nodes levels)) as Hp.
  pose proof (shortfall_bounded _ _ _ Hspec) as Hsh. unfold floors in Hp, Hsh.
  destruct (note_overcommit_grows (pv_pass v) r _ Hsh H0) as (pass & -> & Hpass & Hov);
    [unfold shortfall in *; lia|]. cbn [result_bind].
  destruct (write_result_held i r pass v Hi Hv) as (Hv1 & Hout1 & Hp1 & Hheld).
  { rewrite (as_length _ _ _ Hspec), length_fmap. done. }
  set (v1 := write_result use_modifier (node_at nodes i) r pass v) in *.
  assert (shortfall v1 = ps_overcommit_shortfall pass) as Es by (unfold shortfall; by rewrite Hp1).
  destruct (siblings_settle levels (gn_child_groups (node_at nodes i)) v1 (S (depth i)) IH)
    as (v2 & -> & Hv2 & Hout2 & [Hg2 Hm2] & Hs2); [| |intros c Hc|lia|unfold shortfall in *; lia|
      unfold floors, shortfall in *; lia|].
  { pose proof (fo_nodup _ _ _ _ Hf i Hi) as Hnd. apply NoDup_app in Hnd as [Hnd _].
    by apply NoDup_fmap_1 in Hnd. }
  { done. }
  { destruct (fo_group _ _ _ _ Hf i c Hi Hc) as [??]. split_and!; [done..|].
    eapply held_items; [exact Hheld|exact Hspec|done|by apply elem_of_node_items]. }
  assert (same_outside (node_items nodes i ++ (gn_child_groups (node_at nodes i) ≫= items_below nodes levels)) v v2)
    as Hout.
  { intros x Hx. rewrite Hout2, Hout1 by set_solver. done. }
  exists v2. split; [done|]. split; [done|]. split; [done|]. split; [split|split].
  - unfold floors, shortfall in *. rewrite fmap_app, sumZ_app. lia.
  - rewrite Hp1 in Hm2. auto.
  - exists r. split_and!; [done..| | |done].
    + rewrite <-Hheld. apply list_fmap_ext. intros k x Hx%list_elem_of_lookup_2. symmetry. apply Hout2.
      intros (c & Hu%items_below_under & Hc)%list_elem_of_bind.
      destruct (fo_group _ _ _ _ Hf i c Hi Hc) as [Hcn Hcd].
      destruct (under_last Hf c x Hcn Hu) as (k' & Hk' & Hin' & Hor).
      pose proof (fo_parent _ _ _ _ Hf _ _ _ Hk' Hi Hin' Hx) as ->.
      destruct Hor as [->|Hu']; [lia|]. pose proof (under_range Hf _ _ Hcn Hu') as [_ ?]. lia.
    + rewrite Hp1 in Hm2. auto.
  - intros j [Hj|(c & Hj & Hc)%list_elem_of_bind]%elem_of_app.
    + apply elem_of_node_items in Hj. by apply Hs2.
    + by apply (Hs2 c Hc).
Qed.
End pass.

(** ** The roots, and conservation over the subjects *)

Record Rooted (nodes : list GroupNode) (n m : nat) (depth : nat → nat) (roots : list nat) : Prop := {
  ro_nodup : NoDup roots;
  ro_root r : r ∈ roots → (r < n)%nat ∧ depth r = 1%nat;
  ro_group i : (i < n)%nat → i ∈ roots ∨ ∃ k, (k < n)%nat ∧ i ∈ gn_child_groups (node_at nodes k);
  ro_subject s : (s < m)%nat → ∃ k, (k < n)%nat ∧ s ∈ gn_child_subjects (node_at nodes k) }.

Section rooted.
  Context {nodes : list GroupNode} {n m : nat} {depth : nat → nat} {roots : list nat}.
  Hypothesis Hf : Forest nodes n m depth.
  Hypothesis Hr : Rooted nodes n m depth roots.

Lemma under_items_below levels i x :
  (i < n)%nat → (9 <= depth i + levels)%nat → under (nodes := nodes) i x → x ∈ items_below nodes levels i.
Proof.
  revert i. induction levels as [|levels IH]; intros i Hi Hd Hx.
  { pose proof (fo_depth _ _ _ _ Hf i Hi). unfold kMaxGroupDepth in *. lia. }
  cbn [items_below]. apply elem_of_app. inversion Hx as [? Hx'|j ? Hj Hx']; subst; [by left|right].
  destruct (fo_group _ _ _ _ Hf i j Hi Hj). apply list_elem_of_bind. exists j.
  split; [|done]. apply IH; [done|lia|done].
Qed.

(** Every group is a root or below one; every subject is below one. *)
Lemma rooted_group i : (i < n)%nat →
  i ∈ roots ∨ ∃ r, r ∈ roots ∧ inl i ∈ items_below nodes kMaxGroupDepth r.
Proof.
  intros Hi. cut (∃ r, r ∈ roots ∧ (i = r ∨ under (nodes := nodes) r (inl i))).
  { intros (r & Hin & [->|Hu]); [by left|right]. exists r. split; [done|].
    destruct (ro_root _ _ _ _ _ Hr r Hin). apply under_items_below; [done|unfold kMaxGroupDepth; lia|done]. }
  remember (depth i) as d eqn:Ed. revert i Hi Ed. induction (lt_wf d) as [d _ IH]. intros i Hi ->.
  destruct (ro_group _ _ _ _ _ Hr i Hi) as [Hin|(k & Hk & Hik)]; [by exists i; auto|].
  destruct (fo_group _ _ _ _ Hf k i Hk Hik) as [_ Hd].
  destruct (IH (depth k) ltac:(lia) k Hk eq_refl) as (r & Hin & Hor). exists r. split; [done|]. right.
  destruct Hor as [->|Hu]; [by constructor; apply elem_of_node_items|].
  eapply under_trans; [done|by apply elem_of_node_items].
Qed.

Lemma rooted_subject s : (s < m)%nat → ∃ r, r ∈ roots ∧ inr s ∈ items_below nodes kMaxGroupDepth r.
Proof.
  intros Hs. destruct (ro_subject _ _ _ _ _ Hr s Hs) as (k & Hk & Hsk).
  assert (∀ r, r ∈ roots → under (nodes := nodes) r (inr s) → inr s ∈ items_below nodes kMaxGroupDepth r) as Hlev.
  { intros r Hin Hu. destruct (ro_root _ _ _ _ _ Hr r Hin).
    apply under_items_below; [done|unfold kMaxGroupDepth; lia|done]. }
  destruct (rooted_group k Hk) as [Hin|(r & Hin & Hu%items_below_under)].
  - exists k. split; [done|]. apply Hlev; [done|]. constructor. by apply elem_of_node_items.
  - exists r. split; [done|]. apply Hlev; [done|]. eapply under_trans; [done|by apply elem_of_node_items].
Qed.

Definition all_items : list (nat + nat) :=
  (inl <$> roots) ++ (roots ≫= items_below nodes kMaxGroupDepth).

Lemma all_items_nodup : NoDup all_items.
Proof.
  unfold all_items. apply NoDup_app. split.
  { apply NoDup_fmap_2; [apply _|apply Hr]. }
  split.
  - intros x (r & -> & Hin)%list_elem_of_fmap (r' & Hu%items_below_under & Hin')%list_elem_of_bind.
    destruct (ro_root _ _ _ _ _ Hr r Hin), (ro_root _ _ _ _ _ Hr r' Hin').
    pose proof (under_range Hf r' (inl r)) as Hrange. simpl in Hrange. specialize (Hrange ltac:(done) Hu). lia.
  - pose proof (ro_nodup _ _ _ _ _ Hr) as Hnd.
    assert (∀ r, r ∈ roots → (r < n)%nat ∧ depth r = 1%nat) as Hroot by apply Hr.
    clear Hr. induction Hnd as [|r l Hrl Hnd IH]; [constructor|]. rewrite bind_cons.
    destruct (Hroot r) as [Hrn Hrd]; [set_solver|]. apply NoDup_app.
    split; [by apply (items_below_nodup Hf)|]. split; [|apply IH; set_solver].
    intros x Hx (r' & Hxr' & Hin')%list_elem_of_bind. apply items_below_under in Hx, Hxr'.
    destruct (Hroot r') as [??]; [set_solver|]. apply Hrl.
    assert (r = r') as -> by (eapply (under_disjoint Hf); [done..| |done|done]; lia). done.
Qed.

Lemma all_items_range x : x ∈ all_items →
  match x with inl j => (j < n)%nat | inr s => (s < m)%nat end.
Proof.
  unfold all_items. intros [(r & -> & Hin)%list_elem_of_fmap|(r & Hu%items_below_under & Hin)%list_elem_of_bind]
    %elem_of_app.
  - by apply (ro_root _ _ _ _ _ Hr).
  - destruct (ro_root _ _ _ _ _ Hr r Hin) as [Hrn _]. pose proof (under_range Hf _ _ Hrn Hu). destruct x; naive_solver.
Qed.

(** A non-negative quantity of the groups and subjects of the forest. *)
Lemma all_items_sum (f : nat + nat → Z) :
  (∀ x, 0 <= f x) →
  sumZ (f <$> all_items) <= sum_over (seq 0 n) (λ j, f (inl j)) + sum_over (seq 0 m) (λ s, f (inr s)).
Proof.
  intros H0. set (full := (inl <$> seq 0 n) ++ (inr <$> seq 0 m) : list (nat + nat)).
  transitivity (sumZ (f <$> full)).
  2:{ unfold full, sum_over. rewrite fmap_app, sumZ_app, <-!list_fmap_compose. reflexivity. }
  assert (all_items ⊆+ full) as Hsub.
  { apply NoDup_submseteq; [apply all_items_nodup|]. intros x Hx%all_items_range. unfold full.
    apply elem_of_app. rewrite !list_elem_of_fmap. setoid_rewrite elem_of_seq.
    destruct x as [j|s]; [left; exists j|right; exists s]; split; [done|lia|done|lia]. }
  apply submseteq_Permutation in Hsub as [rest ->]. rewrite fmap_app, sumZ_app.
  pose proof (sumZ_map_nonneg f rest ltac:(auto)). lia.
Qed.

Definition the_subject (x : nat + nat) : option nat := match x with inl _ => None | inr s => Some s end.
Definition subjects_of (l : list (nat + nat)) : list nat := omap the_subject l.

Lemma subjects_of_app l k : subjects_of (l ++ k) = subjects_of l ++ subjects_of k.
Proof. apply omap_app. Qed.

Lemma subjects_of_inl l : subjects_of (inl <$> l) = [].
Proof. unfold subjects_of. by induction l. Qed.

Lemma subjects_of_inr l : subjects_of (inr <$> l) = l.
Proof. unfold subjects_of. induction l as [|s l IH]; [done|]. cbn. by f_equal. Qed.

Lemma subjects_of_bind {A} (f : A → list (nat + nat)) l :
  subjects_of (l ≫= f) = l ≫= (λ a, subjects_of (f a)).
Proof. induction l as [|a l IH]; [done|]. by rewrite !bind_cons, subjects_of_app, IH. Qed.

Lemma elem_of_subjects_of l s : s ∈ subjects_of l ↔ inr s ∈ l.
Proof.
  unfold subjects_of. rewrite list_elem_of_omap. split.
  - intros ([j|s'] & Hin & E); simplify_eq/=. done.
  - intros Hin. by exists (inr s).
Qed.

Lemma subjects_of_nodup l : NoDup l → NoDup (subjects_of l).
Proof.
  induction 1 as [|x l Hx Hnd IH]; [constructor|]. destruct x as [j|s]; [done|].
  cbn. constructor; [|done]. intros Hs. apply Hx. by apply elem_of_subjects_of.
Qed.

(** Each subject of the policy is below exactly one root. *)
Lemma subjects_partition : (roots ≫= λ r, subjects_of (items_below nodes kMaxGroupDepth r)) ≡ₚ seq 0 m.
Proof.
  apply NoDup_Permutation.
  - rewrite <-subjects_of_bind. pose proof all_items_nodup as Hnd. unfold all_items in Hnd.
    apply NoDup_app in Hnd as (_ & _ & Hnd). by apply subjects_of_nodup.
  - apply NoDup_seq.
  - intros s. rewrite list_elem_of_bind, elem_of_seq. setoid_rewrite elem_of_subjects_of. split.
    + intros (r & Hs & Hin). pose proof (all_items_range (inr s)) as H. simpl in H. split; [lia|].
      apply H. unfold all_items. apply elem_of_app. right. apply list_elem_of_bind. eauto.
    + intros [_ Hs]. destruct (rooted_subject s Hs) as (r & ? & ?). eauto.
Qed.
End rooted.

(** ** The pass over the roots *)

(** A finished pass: the roots share the whole, every node its own amount. *)
Record pass_settled (p : FairnessPolicy) (nodes : list GroupNode) (roots : list nat)
    (use_modifier : bool) (n : nat) (whole : Z) (v : PassVectors) : Prop := {
  pd_roots : ∃ r, allocate_whole (group_input p <$> roots) whole = Value r
    ∧ allocation_spec (group_input p <$> roots) whole r
    ∧ ar_allocations r = (λ i, held v (inl i)) <$> roots
    ∧ (ar_overcommit r = true → ps_overcommit (pv_pass v) = true);
  pd_nodes : ∀ i, (i < n)%nat → settled p nodes use_modifier v i (held v (inl i)) }.

Section whole_pass.
  Context (p : FairnessPolicy) (use_modifier : bool).
  Context {nodes : list GroupNode} {n m : nat} {depth : nat → nat} {roots : list nat}.
  Hypothesis Hf : Forest nodes n m depth.
  Hypothesis Hr : Rooted nodes n m depth roots.
  Hypothesis Hin : ∀ i, (i < n)%nat → inputs_ok (item_input p use_modifier <$> node_items nodes i).
  Hypothesis Hroots : inputs_ok (group_input p <$> roots).
  Hypothesis Hfloor : ∀ x, 0 <= item_floor p x.
  Hypothesis Hfloors : sum_over (seq 0 n) (λ j, item_floor p (inl j))
    + sum_over (seq 0 m) (λ s, item_floor p (inr s)) <= U64_MAX.

Lemma distribute_pass_settles whole v :
  u64 whole → shaped (n := n) (m := m) v → pv_pass v = no_pass →
  ∃ v', distribute_pass p nodes roots use_modifier whole v = Value v'
    ∧ shaped (n := n) (m := m) v' ∧ pass_settled p nodes roots use_modifier n whole v'.
Proof.
  intros Hwhole Hv Hp0. unfold distribute_pass.
  destruct (allocate_whole_value _ whole Hroots Hwhole) as (r & Hrun & Hspec). rewrite Hrun. cbn [result_bind].
  assert (group_input p <$> roots = item_input p use_modifier <$> (inl <$> roots)) as Eg
    by by rewrite <-list_fmap_compose.
  rewrite Eg in Hspec.
  pose proof (shortfall_bounded p use_modifier Hfloor _ _ _ Hspec) as Hsh.
  pose proof (all_items_sum Hf Hr (item_floor p) Hfloor) as Hall.
  unfold all_items in Hall. rewrite fmap_app, sumZ_app in Hall. unfold floors in Hsh.
  pose proof (floors_nonneg p Hfloor (roots ≫= items_below nodes kMaxGroupDepth)) as Hp. unfold floors in Hp.
  destruct (note_overcommit_grows (pv_pass v) r _ Hsh) as (pass & -> & Hpass & Hov);
    [by rewrite Hp0|rewrite Hp0; simpl; lia|]. rewrite Hp0 in Hpass. simpl in Hpass. cbn [result_bind].
  pose proof (as_length _ _ _ Hspec) as Hlen. rewrite !length_fmap in Hlen.
  set (v1 := mk_vectors (write_all roots (ar_allocations r) (pv_node v)) (pv_subject v) (pv_binding v) pass).
  assert ((λ i, held v1 (inl i)) <$> roots = ar_allocations r) as Hheld.
  { transitivity ((λ t, default 0 (write_all roots (ar_allocations r) (pv_node v) !! t)) <$> roots).
    { apply list_fmap_ext. intros ? ? _. simpl. apply at_lookup. }
    apply write_all_read; [apply Hr|done|]. intros t Ht. destruct Hv as [-> _].
    by apply (ro_root _ _ _ _ _ Hr). }
  destruct (siblings_settle p use_modifier Hf Hin Hfloor kMaxGroupDepth roots v1 1
      (scatter_settles p use_modifier Hf Hin Hfloor _)) as (v2 & -> & Hv2 & Hout2 & [Hg2 Hm2] & Hs2).
  - apply Hr.
  - unfold shaped, v1 in *. simpl. by rewrite write_all_length.
  - intros c Hc. destruct (ro_root _ _ _ _ _ Hr c Hc). split_and!; [done..|].
    eapply (held_items p use_modifier v1 (inl <$> roots)); [|exact Hspec|done|by apply list_elem_of_fmap_2].
    by rewrite <-list_fmap_compose.
  - unfold kMaxGroupDepth. lia.
  - unfold shortfall, v1. cbn [pv_pass]. lia.
  - unfold shortfall, floors, v1. cbn [pv_pass]. lia.
  - exists v2. split; [done|]. split; [done|]. split.
    + exists r. split_and!; [done|by rewrite Eg| |auto]. rewrite <-Hheld.
      apply list_fmap_ext. intros k c Hc%list_elem_of_lookup_2. symmetry. by apply Hs2.
    + intros i Hi. destruct (rooted_group Hf Hr i Hi) as [Hroot|(r' & Hroot & Hu)]; by apply Hs2 in Hroot as [_ [??]]; auto.
Qed.

End whole_pass.

Section conservation.
  Context (p : FairnessPolicy) (use_modifier : bool).
  Context {nodes : list GroupNode} {n m : nat} {depth : nat → nat} {roots : list nat}.
  Hypothesis Hf : Forest nodes n m depth.
  Hypothesis Hr : Rooted nodes n m depth roots.

(** What a subtree's subjects hold together is what its node holds. *)
Lemma subtree_conserves v levels i :
  (∀ k, (k < n)%nat → settled p nodes use_modifier v k (held v (inl k))) →
  (i < n)%nat → (9 <= depth i + levels)%nat →
  sumZ ((λ s, held v (inr s)) <$> subjects_of (items_below nodes levels i)) = held v (inl i).
Proof.
  intros Hs. revert i. induction levels as [|levels IH]; intros i Hi Hd.
  { pose proof (fo_depth _ _ _ _ Hf i Hi). unfold kMaxGroupDepth in *. lia. }
  destruct (Hs i Hi) as (r & _ & Hspec & Ha & _ & _).
  pose proof (as_conserves _ _ _ Hspec) as Hc. rewrite Ha in Hc. unfold node_items in Hc.
  rewrite fmap_app, sumZ_app, <-!list_fmap_compose in Hc.
  cbn [items_below]. unfold node_items. rewrite !subjects_of_app, subjects_of_inl, subjects_of_inr, subjects_of_bind.
  cbn [app]. rewrite fmap_app, sumZ_app.
  enough (sumZ ((λ s, held v (inr s)) <$> (gn_child_groups (node_at nodes i)
      ≫= λ a, subjects_of (items_below nodes levels a)))
    = sumZ (held v ∘ inl <$> gn_child_groups (node_at nodes i))) as ->.
  { rewrite <-Hc. apply Z.add_comm. }
  assert (∀ c, c ∈ gn_child_groups (node_at nodes i) → (c < n)%nat ∧ depth c = S (depth i)) as Hcs
    by (intros; by apply (fo_group _ _ _ _ Hf)).
  clear Hc Ha Hspec. induction (gn_child_groups (node_at nodes i)) as [|c l IHl]; [done|].
  rewrite bind_cons, fmap_app, sumZ_app, fmap_cons, sumZ_cons. f_equal; [|apply IHl; set_solver].
  destruct (Hcs c) as [??]; [set_solver|]. apply IH; [done|lia].
Qed.

(** The subjects share the whole exactly. *)
Lemma pass_conserves whole v :
  pass_settled p nodes roots use_modifier n whole v →
  sum_over (seq 0 m) (λ s, held v (inr s)) = whole.
Proof.
  intros [(r & _ & Hspec & Ha & _) Hn]. pose proof (as_conserves _ _ _ Hspec) as <-.
  rewrite <-(sum_over_perm _ _ _ (subjects_partition Hf Hr)), Ha. unfold sum_over.
  pose proof (ro_root _ _ _ _ _ Hr) as Hroot. revert Hroot. generalize roots as l.
  induction l as [|c l IHl]; intros Hroot; [done|].
  rewrite bind_cons, fmap_app, sumZ_app, fmap_cons, sumZ_cons. f_equal; [|apply IHl; set_solver].
  destruct (Hroot c) as [??]; [set_solver|]. apply subtree_conserves; [done|done|unfold kMaxGroupDepth; lia].
Qed.
End conservation.
