(* ===== verification/BuildSpec.v ===== *)
(** [build] on a valid policy: it returns, and what it returns is a rooted
    forest whose every node has well-formed competitors; [distribute] on it then
    conserves the whole at every node and over the subjects. *)
From S2P Require Import Prelude Status Core U128 Policy PolicyValid Allocation AllocationSpec Distributor DistributorSpec.
#[local] Open Scope Z_scope.

(** ** Loops over an indexed list *)

Lemma imap_pair_split {A} (l : list A) pre x post :
  imap pair l = pre ++ x :: post → l !! length pre = Some x.2 ∧ x.1 = length pre.
Proof.
  intros H. assert (imap pair l !! length pre = Some x) as Hl by (rewrite H; by apply list_lookup_middle).
  rewrite list_lookup_imap in Hl. destruct (l !! length pre) as [a|] eqn:E; [|done].
  by injection Hl as <-.
Qed.

(** A loop that turns [state k] into [state (k + 1)] at the [k]-th element. *)
Lemma fold_indexed {A S} (f : S → nat * A → Result S) (l : list A) (state : nat → S) :
  (∀ k a, l !! k = Some a → f (state k) (k, a) = Value (state (Datatypes.S k))) →
  fold_result f (state 0%nat) (imap pair l) = Value (state (length l)).
Proof.
  intros Hstep.
  destruct (fold_result_total f (λ pre s, s = state (length pre)) (imap pair l) (state 0%nat)) as (s' & Hr & ->).
  - done.
  - intros pre x post t Hl ->. apply imap_pair_split in Hl as [Ha Hx]. destruct x as [k a]; simpl in *; subst.
    exists (state (Datatypes.S (length pre))). rewrite length_app, Nat.add_comm. auto.
  - by rewrite Hr, length_imap.
Qed.

Lemma filter_ext_elem {A} (P Q : A → Prop) `{!∀ x, Decision (P x), !∀ x, Decision (Q x)} (l : list A) :
  (∀ x, x ∈ l → P x ↔ Q x) → filter P l = filter Q l.
Proof.
  induction l as [|x l IH]; intros Hl; [done|]. rewrite !filter_cons, IH by set_solver.
  rewrite (decide_ext (P x) (Q x)) by (apply Hl; set_solver). done.
Qed.

Section build.
  Context (p : FairnessPolicy).
  Hypothesis T : policy_typed p.
  Hypothesis W : policy_evaluable p.

Notation n := (length (pol_groups p)).
Notation m := (length (pol_subjects p)).

Definition by_id : gmap Z nat := group_index (pol_groups p).

Lemma by_id_lookup id i : by_id !! id = Some i ↔ ∃ g, pol_groups p !! i = Some g ∧ group_id g = id.
Proof.
  unfold by_id, group_index. rewrite index_from_lookup by apply W. rewrite lookup_empty. split.
  - intros [(j & g & ? & ? & ->)|[? _]]; [|done]. by exists g.
  - intros (g & ? & ?). left. by exists i, g.
Qed.

Lemma index_groups_value : fold_result index_group ∅ (imap pair (pol_groups p)) = Value by_id.
Proof.
  unfold by_id, group_index.
  assert (∀ k groups index, Forall group_wf groups → NoDup (group_id <$> groups) →
    (∀ g, g ∈ groups → index !! group_id g = None) →
    fold_result index_group index (imap (λ i g, (k + i, g)%nat) groups) = Value (index_from k groups index)) as H.
  { intros k groups. revert k. induction groups as [|g groups IH]; intros k index Hwf Hnd Hnone; [done|].
    apply Forall_cons in Hwf as [Hg Hwf]. rewrite fmap_cons, NoDup_cons in Hnd. destruct Hnd as [Hnin Hnd].
    rewrite imap_cons, index_from_cons. cbn [fold_result index_group].
    rewrite Nat.add_0_r, (proj2 (valid_spec _)) by apply Hg. cbn [negb]. rewrite Hnone by set_solver. cbn [result_bind].
    rewrite <-IH; [|done|done|].
    - f_equal. apply imap_ext. intros. simpl. f_equal. lia.
    - intros g' Hg'. rewrite lookup_insert_ne; [apply Hnone; set_solver|].
      intros E. apply Hnin. rewrite E. by apply list_elem_of_fmap_2. }
  apply (H 0%nat); [apply W|apply W|done].
Qed.

(** ** Closed forms *)

(** The position of a group's parent, and of a subject's group. *)
Definition parent_ix (i : nat) : option nat :=
  if valid (group_parent (group_at p i)) then by_id !! group_parent (group_at p i) else None.
Definition subject_ix (s : nat) : option nat := by_id !! subj_group (subject_at p s).

Definition node_form (depth : nat → Z) (k l : nat) (j : nat) : GroupNode :=
  mk_node (if decide (j < k)%nat then default O (parent_ix j) else O)
    (bool_decide (j < k)%nat && bool_decide (is_Some (parent_ix j))) (depth j) 0 0 0
    (filter (λ i, parent_ix i = Some j) (seq 0 k)) (filter (λ s, subject_ix s = Some j) (seq 0 l)).

Definition nodes_form (depth : nat → Z) (k l : nat) : list GroupNode := node_form depth k l <$> seq 0 n.

Lemma nodes_form_lookup depth k l j :
  nodes_form depth k l !! j = if decide (j < n)%nat then Some (node_form depth k l j) else None.
Proof.
  unfold nodes_form. rewrite list_lookup_fmap. case_decide.
  - by rewrite lookup_seq_lt.
  - by rewrite lookup_seq_ge by lia.
Qed.

Lemma node_at_form depth k l j : (j < n)%nat → node_at (nodes_form depth k l) j = node_form depth k l j.
Proof. intros Hj. unfold node_at. apply nth_lookup_Some. by rewrite nodes_form_lookup, decide_True. Qed.

Lemma group_at_lookup i g : pol_groups p !! i = Some g → group_at p i = g.
Proof. apply nth_lookup_Some. Qed.
Lemma subject_at_lookup i s : pol_subjects p !! i = Some s → subject_at p i = s.
Proof. apply nth_lookup_Some. Qed.

Lemma filter_seq_S (P : nat → Prop) `{!∀ x, Decision (P x)} k :
  filter P (seq 0 (S k)) = filter P (seq 0 k) ++ (if decide (P k) then [k] else []).
Proof.
  rewrite seq_S, filter_app, Nat.add_0_l, filter_cons. by destruct (decide (P k)).
Qed.

Lemma parent_ix_lt i j : parent_ix i = Some j → (j < n)%nat.
Proof.
  unfold parent_ix. case_bool; [|done]. intros (g & Hg & _)%by_id_lookup. by eapply lookup_lt_Some.
Qed.

Lemma link_group_step depth k g :
  pol_groups p !! k = Some g →
  link_group by_id (nodes_form depth k 0) (k, g) = Value (nodes_form depth (S k) 0).
Proof.
  intros Hg. pose proof (group_at_lookup _ _ Hg) as E. pose proof (lookup_lt_Some _ _ _ Hg) as Hk.
  cbn [link_group].
  assert (parent_ix k = None → nodes_form depth k 0 = nodes_form depth (S k) 0) as Hnone.
  { intros Hp. apply list_fmap_ext. intros _ j _. unfold node_form.
    rewrite filter_seq_S. rewrite (decide_False (P := parent_ix k = Some j)) by congruence.
    rewrite app_nil_r. destruct (decide (j = k)) as [->|Hne].
    - rewrite decide_False, decide_True by lia. rewrite Hp. simpl.
      by rewrite ?andb_false_r.
    - rewrite (decide_ext (j < k)%nat (j < S k)%nat) by lia.
      by rewrite (bool_decide_ext (j < k)%nat (j < S k)%nat) by lia. }
  destruct (valid (group_parent g)) eqn:Ev; cbn [negb].
  2:{ f_equal. apply Hnone. unfold parent_ix. by rewrite E, Ev. }
  destruct (by_id !! group_parent g) as [parent|] eqn:Ep.
  2:{ exfalso. apply valid_spec in Ev. pose proof (pe_depth _ W) as Hd. rewrite Forall_forall in Hd.
      specialize (Hd g ltac:(by eapply list_elem_of_lookup_2)).
      inversion Hd as [? g' Hg' Hp' Hs Hid|? g' Hg' Hp' Hr Hs Hid];
        assert (g' = g) as -> by (eapply (NoDup_key_eq group_id); [apply W|done| |done]; by eapply list_elem_of_lookup_2);
        [done|].
      assert (is_Some (by_id !! group_parent g)) as [? ?]; [|congruence].
      apply group_index_is_some; [apply W|]. inversion Hr; subst; by apply list_elem_of_fmap_2. }
  f_equal. assert (parent_ix k = Some parent) as Epk by (unfold parent_ix; by rewrite E, Ev).
  apply list_eq. intros j. destruct (decide (j < n)%nat) as [Hj|Hj].
  2:{ rewrite !(lookup_ge_None_2 _ j); [done| |]; rewrite ?length_alter; unfold nodes_form;
        rewrite length_fmap, length_seq; lia. }
  assert (nodes_form depth (S k) 0 !! j = Some (node_form depth (S k) 0 j)) as -> by by rewrite nodes_form_lookup, decide_True.
  assert (alter (set_parent parent) k (nodes_form depth k 0) !! j
    = Some (if decide (j = k) then set_parent parent (node_form depth k 0 j) else node_form depth k 0 j)) as Ha.
  { case_decide as D; [subst; rewrite list_lookup_alter_eq|rewrite list_lookup_alter_ne by congruence];
      rewrite nodes_form_lookup, decide_True by done; done. }
  assert (alter (add_child_group k) parent (alter (set_parent parent) k (nodes_form depth k 0)) !! j
    = Some ((if decide (j = parent) then add_child_group k else id)
        (if decide (j = k) then set_parent parent (node_form depth k 0 j) else node_form depth k 0 j))) as ->.
  { destruct (decide (j = parent)) as [->|D]; [rewrite list_lookup_alter_eq|rewrite list_lookup_alter_ne by congruence];
      rewrite Ha; done. }
  f_equal. unfold node_form. rewrite filter_seq_S, Epk.
  assert ((if decide (j < S k)%nat then default 0%nat (parent_ix j) else 0%nat)
    = if decide (j = k) then parent else if decide (j < k)%nat then default 0%nat (parent_ix j) else 0%nat) as ->.
  { destruct (decide (j = k)) as [->|D]; [by rewrite decide_True, Epk by lia|].
    by rewrite (decide_ext (j < S k)%nat (j < k)%nat) by lia. }
  assert (bool_decide (j < S k)%nat && bool_decide (is_Some (parent_ix j))
    = if decide (j = k) then true else bool_decide (j < k)%nat && bool_decide (is_Some (parent_ix j))) as ->.
  { destruct (decide (j = k)) as [->|D]; [by rewrite !bool_decide_eq_true_2 by (lia || by rewrite Epk)|].
    by rewrite (bool_decide_ext (j < S k)%nat (j < k)%nat) by lia. }
  rewrite (decide_ext (Some parent = Some j) (j = parent)) by (split; congruence).
  destruct (decide (j = parent)), (decide (j = k)); cbn; rewrite ?app_nil_r; reflexivity.
Qed.

Lemma link_subject_step depth k s :
  pol_subjects p !! k = Some s →
  link_subject by_id (nodes_form depth n k) (k, s) = Value (nodes_form depth n (S k)).
Proof.
  intros Hs. pose proof (subject_at_lookup _ _ Hs) as E. cbn [link_subject].
  destruct (by_id !! subj_group s) as [g|] eqn:Eg.
  2:{ exfalso. pose proof (pe_subjects _ W) as Hj. rewrite Forall_forall in Hj.
      specialize (Hj s ltac:(by eapply list_elem_of_lookup_2)).
      apply jw_group_exists, (group_index_is_some (pol_groups p)) in Hj as [? ?]; [|apply W].
      unfold by_id in Eg. congruence. }
  f_equal. assert (subject_ix k = Some g) as Ek by (unfold subject_ix; by rewrite E).
  apply list_eq. intros j. destruct (decide (j < n)%nat) as [Hj|Hj].
  2:{ rewrite !(lookup_ge_None_2 _ j); [done| |]; rewrite ?length_alter; unfold nodes_form;
        rewrite length_fmap, length_seq; lia. }
  rewrite nodes_form_lookup, decide_True by done.
  destruct (decide (j = g)) as [->|D]; [rewrite list_lookup_alter_eq|rewrite list_lookup_alter_ne by congruence];
    rewrite nodes_form_lookup, decide_True by done; apply (f_equal Some); unfold node_form;
    rewrite (filter_seq_S (λ s, subject_ix s = Some _)), Ek.
  - by rewrite (decide_True (P := Some g = Some g)).
  - rewrite (decide_False (P := Some g = Some j)) by congruence. by rewrite app_nil_r.
Qed.

(** ** Depths *)

(** The number of groups from [i] up to its root, looking at most [fuel] up. *)
Fixpoint chain (fuel : nat) (i : nat) : nat :=
  match fuel with
  | O => O
  | S fuel' => S (match parent_ix i with Some j => chain fuel' j | None => O end)
  end.

Definition depth_of (i : nat) : nat := chain kMaxGroupDepth i.

Lemma root_within_chain steps i g :
  pol_groups p !! i = Some g → root_within (pol_groups p) steps (group_id g) →
  (1 <= chain steps i <= steps)%nat
  ∧ (∀ fuel, (steps <= fuel)%nat → chain fuel i = chain steps i)
  ∧ (∀ j, parent_ix i = Some j → ∃ g', pol_groups p !! j = Some g'
       ∧ root_within (pol_groups p) (Nat.pred steps) (group_id g')).
Proof.
  revert i g. induction steps as [|steps IH]; intros i g Hg Hr; [by inversion Hr|].
  assert (∀ g', g' ∈ pol_groups p → group_id g' = group_id g → g' = g) as Huniq.
  { intros g' Hin Hid. eapply (NoDup_key_eq group_id); [apply W|done| |done]. by eapply list_elem_of_lookup_2. }
  cbn [chain]. unfold parent_ix. rewrite (group_at_lookup _ _ Hg).
  inversion Hr as [? g' Hg' Hp Hs Hid|? g' Hg' Hp Hr' Hs Hid]; apply Huniq in Hid; try done; subst.
  - rewrite (proj2 (valid_false _)) by done. split; [lia|]. split; [|done].
    intros [|fuel] Hfu; [lia|]. cbn [chain]. unfold parent_ix.
    by rewrite (group_at_lookup _ _ Hg), (proj2 (valid_false _)) by done.
  - rewrite (proj2 (valid_spec _)) by done.
    assert (∃ gp, gp ∈ pol_groups p ∧ group_id gp = group_parent g) as (gp & Hgp & Egp)
      by (inversion Hr'; subst; eauto).
    apply list_elem_of_lookup_1 in Hgp as [j Hj].
    assert (by_id !! group_parent g = Some j) as Ej by (apply by_id_lookup; eauto).
    rewrite Ej. rewrite <-Egp in Hr'. destruct (IH j gp Hj Hr') as (Hc & Hst & _).
    split; [lia|]. split; [|intros ? [= <-]; eauto].
    intros [|fuel] Hfu; [lia|]. cbn [chain]. unfold parent_ix.
    rewrite (group_at_lookup _ _ Hg), (proj2 (valid_spec _)) by done. rewrite Ej, Hst by lia. done.
Qed.

Lemma group_root_within i g : pol_groups p !! i = Some g → root_within (pol_groups p) kMaxGroupDepth (group_id g).
Proof.
  intros Hg. pose proof (pe_depth _ W) as Hd. rewrite Forall_forall in Hd. apply Hd. by eapply list_elem_of_lookup_2.
Qed.

Lemma depth_of_range i : (i < n)%nat → (1 <= depth_of i <= kMaxGroupDepth)%nat.
Proof.
  intros [g Hg]%lookup_lt_is_Some_2. by destruct (root_within_chain _ _ _ Hg (group_root_within _ _ Hg)).
Qed.

Lemma depth_of_child i j : (j < n)%nat → parent_ix j = Some i → depth_of j = S (depth_of i).
Proof.
  intros [g Hg]%lookup_lt_is_Some_2 Hp.
  destruct (root_within_chain _ _ _ Hg (group_root_within _ _ Hg)) as (_ & _ & Hpar).
  destruct (Hpar i Hp) as (g' & Hg' & Hr'). unfold depth_of, kMaxGroupDepth in *. cbn [Nat.pred] in Hr'.
  cbn [chain]. rewrite Hp. fold (chain 8 i). f_equal.
  destruct (root_within_chain _ _ _ Hg' Hr') as (_ & Hst & _). rewrite (Hst 8%nat) by lia. done.
Qed.

Lemma node_depth_value steps d i g :
  pol_groups p !! i = Some g → root_within (pol_groups p) (S steps) (group_id g) →
  node_depth (nodes_form (λ _, 1) n 0) steps d i = Value (d + Z.of_nat (chain (S steps) i) - 1).
Proof.
  revert d i g. induction steps as [|steps IH]; intros d i g Hg Hr;
    destruct (root_within_chain _ _ _ Hg Hr) as (Hc & _ & Hpar);
    pose proof (lookup_lt_Some _ _ _ Hg) as Hi; cbn [node_depth];
    rewrite node_at_form by done; cbn [node_form gn_has_parent gn_parent_node];
    rewrite (bool_decide_eq_true_2 (i < n)%nat) by done; cbn [andb].
  - destruct (parent_ix i) as [j|] eqn:Ep.
    + destruct (Hpar j eq_refl) as (g' & _ & Hr'). inversion Hr'.
    + rewrite bool_decide_eq_false_2 by (by intros [? ?]). cbn [chain]. rewrite Ep. f_equal. lia.
  - destruct (parent_ix i) as [j|] eqn:Ep.
    + rewrite bool_decide_eq_true_2 by done. destruct (Hpar j eq_refl) as (g' & Hg' & Hr'). cbn [Nat.pred] in Hr'.
      rewrite decide_True by done. cbn [default]. rewrite (IH _ _ _ Hg' Hr').
      destruct (root_within_chain _ _ _ Hg' Hr') as (Hc' & _).
      assert (chain (S (S steps)) i = S (chain (S steps) j)) as -> by (cbn [chain]; by rewrite Ep).
      f_equal. lia.
    + rewrite bool_decide_eq_false_2 by (by intros [? ?]). cbn [chain]. rewrite Ep. f_equal. lia.
Qed.

(** ** The built distributor *)

Definition root_list : list nat := filter (λ i, parent_ix i = None) (seq 0 n).
Definition built_nodes : list GroupNode := nodes_form (λ j, Z.of_nat (depth_of j)) n m.

Definition built : Distributor :=
  mk_distributor built_nodes by_id (replicate m 0) (replicate m 0) (replicate m false) root_list no_pass no_pass.

Lemma depths_value :
  map_result (node_depth (nodes_form (λ _, 1) n 0) (kMaxGroupDepth - 1) 1)
    (seq 0 (length (nodes_form (λ _, 1) n 0)))
  = Value ((λ j, Z.of_nat (depth_of j)) <$> seq 0 n).
Proof.
  unfold nodes_form at 2. rewrite length_fmap, length_seq. apply map_result_value.
  apply Forall2_fmap_r, Forall_Forall2_diag, Forall_forall. intros i Hi%elem_of_seq.
  destruct (lookup_lt_is_Some_2 (pol_groups p) i) as [g Hg]; [lia|].
  rewrite (node_depth_value _ _ _ _ Hg (group_root_within _ _ Hg)).
  f_equal. change (1 + Z.of_nat (depth_of i) - 1 = Z.of_nat (depth_of i)). lia.
Qed.

Lemma root_list_elem i : i ∈ root_list ↔ (i < n)%nat ∧ parent_ix i = None.
Proof. unfold root_list. rewrite list_elem_of_filter, elem_of_seq. intuition lia. Qed.

Lemma roots_value depth l :
  filter (λ i, negb (gn_has_parent (node_at (nodes_form depth n l) i))) (seq 0 n) = root_list.
Proof.
  unfold root_list. apply filter_ext_elem. intros i Hi%elem_of_seq.
  rewrite node_at_form by lia. cbn [node_form gn_has_parent]. rewrite bool_decide_eq_true_2 by lia.
  cbn [andb]. rewrite Is_true_true, negb_true_iff, bool_decide_eq_false. rewrite eq_None_not_Some. done.
Qed.

Lemma root_list_nonempty : root_list <> [].
Proof.
  pose proof (sw_nonempty _ (pe_scalars _ W)) as Hne.
  destruct (pol_subjects p) as [|s l] eqn:Es; [done|].
  pose proof (pe_subjects _ W) as Hj. rewrite Forall_forall in Hj.
  specialize (Hj s ltac:(rewrite Es; set_solver)). apply jw_group_exists, list_elem_of_fmap in Hj as (g & _ & Hg).
  pose proof (pe_depth _ W) as Hd. rewrite Forall_forall in Hd. specialize (Hd g Hg).
  assert (∃ k r, pol_groups p !! k = Some r ∧ group_parent r = 0) as (k & r & Hk & Hr).
  { clear -Hd. induction Hd as [k r Hr Hp|k r Hr Hp _ IH]; [|done].
    apply list_elem_of_lookup_1 in Hr as [i Hi]. by exists i, r. }
  intros E. assert (k ∈ root_list) as Hin; [|rewrite E in Hin; set_solver].
  apply root_list_elem. split; [by eapply lookup_lt_Some|]. unfold parent_ix.
  by rewrite (group_at_lookup _ _ Hk), (proj2 (valid_false _)).
Qed.

Lemma foldl_max_ge l a : a <= foldl Z.max a l ∧ (∀ x, x ∈ l → x <= foldl Z.max a l).
Proof.
  revert a. induction l as [|y l IH]; intros a; simpl; [set_solver by lia|].
  destruct (IH (Z.max a y)) as [H1 H2]. split; [lia|].
  intros x [->|Hx]%elem_of_cons; [lia|auto].
Qed.

Lemma build_value : build p = Value built.
Proof.
  unfold build. rewrite index_groups_value. cbn [result_bind].
  assert (replicate n default_node = nodes_form (λ _, 1) 0 0) as ->.
  { unfold nodes_form. apply list_eq. intros j. rewrite list_lookup_fmap.
    destruct (decide (j < n)%nat); [rewrite lookup_replicate_2, lookup_seq_lt by done; done|].
    rewrite lookup_seq_ge by lia. apply lookup_ge_None. rewrite length_replicate. lia. }
  rewrite (fold_indexed _ _ (λ k, nodes_form (λ _, 1) k 0)) by apply link_group_step. cbn [result_bind].
  rewrite depths_value. cbn [result_bind].
  pose proof (root_list_nonempty) as Hne.
  assert (n ≠ 0%nat) as Hn.
  { intros E. apply Hne. unfold root_list. by rewrite E. }
  assert ((sizeZ (pol_groups p) =? 0) = false) as -> by (apply Z.eqb_neq; unfold sizeZ; lia).
  assert ((foldl Z.max 0 ((λ j, Z.of_nat (depth_of j)) <$> seq 0 n) =? 0) = false) as ->.
  { apply Z.eqb_neq. destruct (foldl_max_ge ((λ j, Z.of_nat (depth_of j)) <$> seq 0 n) 0) as [_ H].
    specialize (H (Z.of_nat (depth_of 0))).
    assert (Z.of_nat (depth_of 0) ∈ (λ j, Z.of_nat (depth_of j)) <$> seq 0 n) as Hin.
    { apply (list_elem_of_fmap_2 (λ j, Z.of_nat (depth_of j))). apply elem_of_seq. lia. }
    specialize (H Hin). pose proof (depth_of_range 0 ltac:(lia)). lia. }
  assert (zip_with set_depth ((λ j, Z.of_nat (depth_of j)) <$> seq 0 n) (nodes_form (λ _, 1) n 0)
    = nodes_form (λ j, Z.of_nat (depth_of j)) n 0) as ->.
  { unfold nodes_form. rewrite zip_with_fmap_l, zip_with_fmap_r.
    generalize (seq 0 n). intros l. induction l as [|j l IH]; [done|]. cbn. by f_equal. }
  rewrite (fold_indexed _ _ (λ k, nodes_form (λ j, Z.of_nat (depth_of j)) n k)) by apply link_subject_step.
  cbn [result_bind].
  assert (length (nodes_form (λ j, Z.of_nat (depth_of j)) n m) = n) as ->
    by (unfold nodes_form; by rewrite length_fmap, length_seq).
  rewrite roots_value.
  assert ((sizeZ root_list =? 0) = false) as ->; [|done].
  apply Z.eqb_neq. unfold sizeZ. destruct root_list; [done|simpl; lia].
Qed.

(** ** It is a rooted forest *)

Lemma built_children i : (i < n)%nat →
  gn_child_groups (node_at built_nodes i) = filter (λ j, parent_ix j = Some i) (seq 0 n)
  ∧ gn_child_subjects (node_at built_nodes i) = filter (λ s, subject_ix s = Some i) (seq 0 m).
Proof. intros Hi. unfold built_nodes. by rewrite node_at_form. Qed.

Lemma elem_of_built_items i x : (i < n)%nat →
  x ∈ node_items built_nodes i ↔
    match x with
    | inl j => (j < n)%nat ∧ parent_ix j = Some i
    | inr s => (s < m)%nat ∧ subject_ix s = Some i
    end.
Proof.
  intros Hi. destruct (built_children i Hi) as [Eg Es].
  rewrite elem_of_node_items. destruct x; rewrite ?Eg, ?Es, list_elem_of_filter, elem_of_seq; intuition lia.
Qed.

Lemma subject_ix_lt s i : subject_ix s = Some i → (i < n)%nat.
Proof. intros (g & Hg & _)%by_id_lookup. by eapply lookup_lt_Some. Qed.

Lemma built_forest : Forest built_nodes n m depth_of.
Proof.
  constructor.
  - unfold built_nodes, nodes_form. by rewrite length_fmap, length_seq.
  - intros i j Hi Hj. apply (elem_of_built_items i (inl j)) in Hi as Hiff.
    rewrite elem_of_node_items in Hiff. apply Hiff in Hj as [Hj Hp]. split; [done|]. by apply depth_of_child.
  - intros i s Hi Hs. apply (elem_of_built_items i (inr s)) in Hi as Hiff.
    rewrite elem_of_node_items in Hiff. by apply Hiff in Hs as [? _].
  - intros i i' x Hi Hi'. rewrite !elem_of_built_items by done. destruct x; intros [_ ?] [_ ?]; congruence.
  - intros i Hi. destruct (built_children i Hi) as [Eg Es]. unfold node_items. rewrite Eg, Es.
    apply NoDup_app. split_and!; [|set_solver|]; apply NoDup_fmap_2; try apply _; apply NoDup_filter, NoDup_seq.
  - apply depth_of_range.
Qed.

Lemma built_rooted : Rooted built_nodes n m depth_of root_list.
Proof.
  constructor.
  - apply NoDup_filter, NoDup_seq.
  - intros r [Hr Hp]%root_list_elem. split; [done|]. unfold depth_of, kMaxGroupDepth. cbn [chain]. by rewrite Hp.
  - intros i Hi. destruct (parent_ix i) as [k|] eqn:E; [right|left; by apply root_list_elem].
    pose proof (parent_ix_lt _ _ E) as Hk. exists k. split; [done|].
    pose proof (elem_of_built_items k (inl i) Hk) as Hiff. rewrite elem_of_node_items in Hiff. by apply Hiff.
  - intros s Hs. destruct (lookup_lt_is_Some_2 _ _ Hs) as [x Hx].
    pose proof (pe_subjects _ W) as Hj. rewrite Forall_forall in Hj.
    specialize (Hj x ltac:(by eapply list_elem_of_lookup_2)).
    apply jw_group_exists, (group_index_is_some (pol_groups p)) in Hj as [k Ek]; [|apply W].
    assert (subject_ix s = Some k) as E by (unfold subject_ix; by rewrite (subject_at_lookup _ _ Hx)).
    pose proof (subject_ix_lt _ _ E) as Hk. exists k. split; [done|].
    pose proof (elem_of_built_items k (inr s) Hk) as Hiff. rewrite elem_of_node_items in Hiff. by apply Hiff.
Qed.

(** ** Its competitors are well formed *)

Lemma group_at_facts j : (j < n)%nat → group_typed (group_at p j) ∧ group_wf (group_at p j).
Proof.
  intros [g Hg]%lookup_lt_is_Some_2. rewrite (group_at_lookup _ _ Hg).
  pose proof (pt_groups _ T) as HT. pose proof (pe_groups _ W) as HW. rewrite Forall_forall in HT, HW.
  split; [apply HT|apply HW]; by eapply list_elem_of_lookup_2.
Qed.

Lemma subject_at_facts s : (s < m)%nat → subject_typed (subject_at p s) ∧ subject_wf p (subject_at p s).
Proof.
  intros [x Hx]%lookup_lt_is_Some_2. rewrite (subject_at_lookup _ _ Hx).
  pose proof (pt_subjects _ T) as HT. pose proof (pe_subjects _ W) as HW. rewrite Forall_forall in HT, HW.
  split; [apply HT|apply HW]; by eapply list_elem_of_lookup_2.
Qed.

(** In or out of range, floors are service units. *)
Lemma item_floor_range x : 0 <= item_floor p x <= kMaxServiceUnits.
Proof.
  destruct x as [j|s]; cbn [item_floor].
  - destruct (decide (j < n)%nat) as [Hj|Hj].
    + destruct (group_at_facts j Hj) as [[] []]. ulia.
    + unfold group_at. rewrite nth_overflow by lia. done.
  - destruct (decide (s < m)%nat) as [Hs|Hs].
    + destruct (subject_at_facts s Hs) as [[] []]. ulia.
    + unfold subject_at. rewrite nth_overflow by lia. done.
Qed.

Definition in_range (x : nat + nat) : Prop :=
  match x with inl j => (j < n)%nat | inr s => (s < m)%nat end.

Lemma item_weight_range use_modifier x :
  in_range x → 0 < ai_weight (item_input p use_modifier x) <= kMaxShareWeight * 110000.
Proof.
  destruct x as [j|s]; cbn [in_range item_input group_input subject_input ai_weight]; intros Hx.
  - destruct (group_at_facts j Hx) as [[] []]. apply effective_share_weight_range; [ulia|done].
  - destruct (subject_at_facts s Hx) as [[] []].
    destruct use_modifier; apply effective_share_weight_range; (ulia || done || naive_solver).
Qed.

Lemma n_bound : Z.of_nat n <= 256.
Proof. apply W. Qed.
Lemma m_bound : Z.of_nat m <= 4096.
Proof. apply W. Qed.

Lemma items_ok use_modifier items :
  items <> [] → (∀ x, x ∈ items → in_range x) → sizeZ items <= 4352 →
  inputs_ok (item_input p use_modifier <$> items).
Proof.
  intros Hne Hrange Hsize. constructor.
  - by destruct items.
  - unfold sizeZ in *. rewrite length_fmap. unfold kMaxSubjects, kMaxGroups. lia.
  - apply Forall_fmap, Forall_forall. intros x Hx. by apply item_weight_range, Hrange.
  - rewrite <-list_fmap_compose.
    pose proof (sumZ_bounded (ai_weight ∘ item_input p use_modifier) (kMaxShareWeight * 110000) items) as Hb.
    specialize (Hb ltac:(intros x Hx; by apply item_weight_range, Hrange)).
    unfold kMaxShareWeight, U64_MAX, sizeZ in *. lia.
  - apply Forall_fmap, Forall_forall. intros x Hx. cbn. rewrite item_floor_input. apply item_floor_range.
  - rewrite <-list_fmap_compose.
    pose proof (sumZ_bounded (ai_floor ∘ item_input p use_modifier) kMaxServiceUnits items) as Hb.
    specialize (Hb ltac:(intros x Hx; cbn; rewrite item_floor_input; apply item_floor_range)).
    unfold kMaxServiceUnits, U64_MAX, sizeZ in *. lia.
Qed.

Lemma built_inputs_ok use_modifier i :
  (i < n)%nat → inputs_ok (item_input p use_modifier <$> node_items built_nodes i).
Proof.
  intros Hi. apply items_ok.
  - destruct (lookup_lt_is_Some_2 _ _ Hi) as [g Hg].
    pose proof (pe_inhabited _ W) as Hinh. rewrite Forall_forall in Hinh.
    assert (∃ x, x ∈ node_items built_nodes i) as [x Hx]; [|by intros Hnil; rewrite Hnil in Hx; set_solver].
    destruct (Hinh g ltac:(by eapply list_elem_of_lookup_2)) as [Hc|Hc].
    + apply not_nil_elem in Hc as [g' Hg']. apply list_elem_of_filter in Hg' as [Hid Hg'].
      apply list_elem_of_lookup_1 in Hg' as [k Hk]. exists (inl k). apply elem_of_built_items; [done|].
      split; [by eapply lookup_lt_Some|]. unfold parent_ix. rewrite (group_at_lookup _ _ Hk), Hid.
      pose proof (pe_groups _ W) as Hwf. rewrite Forall_forall in Hwf.
      rewrite (proj2 (valid_spec _)) by (apply (Hwf g); by eapply list_elem_of_lookup_2).
      apply by_id_lookup. by exists g.
    + apply not_nil_elem in Hc as [s Hs]. apply list_elem_of_filter in Hs as [Hid Hs].
      apply list_elem_of_lookup_1 in Hs as [k Hk]. exists (inr k). apply elem_of_built_items; [done|].
      split; [by eapply lookup_lt_Some|]. unfold subject_ix. rewrite (subject_at_lookup _ _ Hk).
      apply by_id_lookup. by exists g.
  - intros x Hx%elem_of_built_items; [|done]. by destruct x; destruct Hx.
  - destruct (built_children i Hi) as [Eg Es]. unfold node_items, sizeZ.
    rewrite length_app, !length_fmap, Eg, Es.
    pose proof (length_filter (λ j, parent_ix j = Some i) (seq 0 n)) as H1.
    pose proof (length_filter (λ s, subject_ix s = Some i) (seq 0 m)) as H2.
    rewrite length_seq in H1, H2. pose proof n_bound. pose proof m_bound. lia.
Qed.

Lemma root_inputs_ok : inputs_ok (group_input p <$> root_list).
Proof.
  assert (group_input p <$> root_list = item_input p false <$> (inl <$> root_list)) as ->
    by by rewrite <-list_fmap_compose.
  apply items_ok.
  - pose proof root_list_nonempty. by destruct root_list.
  - intros x (r & -> & Hr)%list_elem_of_fmap. by apply root_list_elem in Hr as [? _].
  - unfold sizeZ. rewrite length_fmap. pose proof (length_filter (λ i, parent_ix i = None) (seq 0 n)) as H1.
    rewrite length_seq in H1. unfold root_list. pose proof n_bound. lia.
Qed.

Lemma built_floors :
  sum_over (seq 0 n) (λ j, item_floor p (inl j)) + sum_over (seq 0 m) (λ s, item_floor p (inr s)) <= U64_MAX.
Proof.
  pose proof (sumZ_bounded (λ j, item_floor p (inl j)) kMaxServiceUnits (seq 0 n)
    (λ j _, proj2 (item_floor_range (inl j)))) as H1.
  pose proof (sumZ_bounded (λ s, item_floor p (inr s)) kMaxServiceUnits (seq 0 m)
    (λ s _, proj2 (item_floor_range (inr s)))) as H2.
  unfold sum_over, sizeZ in *. rewrite length_seq in H1, H2. pose proof n_bound. pose proof m_bound.
  unfold kMaxServiceUnits, U64_MAX in *. lia.
Qed.

(** ** Distribution *)

(** The vectors of a pass, as the distributor holds them afterwards. *)
Definition base_vectors (d : Distributor) : PassVectors :=
  mk_vectors (gn_base_allocation <$> d_nodes d) (d_subject_base d) (d_subject_floor_binding d) (d_base_pass d).
Definition effective_vectors (d : Distributor) : PassVectors :=
  mk_vectors (gn_allocation <$> d_nodes d) (d_subject_effective d) (d_subject_floor_binding d)
    (d_effective_pass d).

(** The distributor after [distribute]: the links of [built], and two settled
    passes. *)
Record distributed (whole : Z) (d : Distributor) : Prop := {
  ds_links : d_by_id d = by_id ∧ d_roots d = root_list ∧ length (d_nodes d) = n
    ∧ (∀ i, node_items (d_nodes d) i = node_items built_nodes i)
    ∧ (∀ i, (i < n)%nat → gn_has_parent (node_at (d_nodes d) i) = gn_has_parent (node_at built_nodes i)
        ∧ gn_parent_node (node_at (d_nodes d) i) = gn_parent_node (node_at built_nodes i));
  ds_lengths : length (d_subject_base d) = m ∧ length (d_subject_effective d) = m
    ∧ length (d_subject_floor_binding d) = m;
  ds_base : pass_settled p built_nodes root_list false n whole (base_vectors d);
  ds_effective : pass_settled p built_nodes root_list true n whole (effective_vectors d) }.

Lemma pass_settled_ext use_modifier whole v v' :
  pv_node v = pv_node v' → pv_subject v = pv_subject v' → pv_pass v = pv_pass v' →
  pass_settled p built_nodes root_list use_modifier n whole v →
  pass_settled p built_nodes root_list use_modifier n whole v'.
Proof.
  intros En Es Ep. destruct v as [vn vs vb vp], v' as [vn' vs' vb' vp']; simpl in *; subst.
  intros [Hr Hn]. constructor; [exact Hr|exact Hn].
Qed.

Lemma merged_nodes base effective nodes :
  length base = length nodes → length effective = length nodes →
  let merged := zip_with set_base_allocation base (zip_with set_allocation effective nodes) in
  length merged = length nodes
  ∧ gn_base_allocation <$> merged = base ∧ gn_allocation <$> merged = effective
  ∧ (∀ i, node_items merged i = node_items nodes i)
  ∧ (∀ i, gn_has_parent (node_at merged i) = gn_has_parent (node_at nodes i)
      ∧ gn_parent_node (node_at merged i) = gn_parent_node (node_at nodes i)).
Proof.
  revert effective nodes. induction base as [|b base IH]; intros effective nodes Hb He.
  { destruct nodes; [|done]. destruct effective; [|done]. done. }
  destruct nodes as [|nd nodes]; [done|]. destruct effective as [|e effective]; [done|].
  simpl in Hb, He. destruct (IH effective nodes) as (H1 & H2 & H3 & H4 & H5); [lia|lia|].
  cbn [zip_with length]. split; [simpl; lia|]. rewrite !fmap_cons. split; [by f_equal|]. split; [by f_equal|].
  split; intros [|i]; [done|apply H4|done|apply H5].
Qed.

(** On a valid policy [distribute] returns, and both passes are settled. *)
Lemma distribute_value whole :
  u64 whole → ∃ d, distribute p whole built = Value d ∧ distributed whole d.
Proof.
  intros Hwhole. unfold distribute. cbn [built d_nodes d_roots d_subject_base d_subject_effective
    d_subject_floor_binding d_base_pass d_effective_pass d_by_id].
  assert (length built_nodes = n) as Hlen by apply built_forest.
  assert (∀ x, 0 <= item_floor p x) as H0 by apply item_floor_range.
  destruct (distribute_pass_settles p false built_forest built_rooted (built_inputs_ok false) root_inputs_ok H0
    built_floors whole (mk_vectors (gn_base_allocation <$> built_nodes) (replicate m 0) (replicate m false) no_pass))
    as (base & -> & (Hb1 & Hb2 & Hb3) & Hbase); [done| |done|].
  { unfold shaped. cbn. by rewrite length_fmap, !length_replicate. }
  cbn [result_bind].
  destruct (distribute_pass_settles p true built_forest built_rooted (built_inputs_ok true) root_inputs_ok H0
    built_floors whole (mk_vectors (gn_allocation <$> built_nodes) (replicate m 0) (pv_binding base) no_pass))
    as (eff & -> & (He1 & He2 & He3) & Heff); [done| |done|].
  { unfold shaped. cbn. by rewrite length_fmap, length_replicate. }
  cbn [result_bind]. eexists. split; [done|].
  destruct (merged_nodes (pv_node base) (pv_node eff) built_nodes) as (M1 & M2 & M3 & M4 & M5); [congruence..|].
  constructor; cbn [d_nodes d_roots d_subject_base d_subject_effective d_subject_floor_binding d_base_pass
    d_effective_pass d_by_id].
  - split_and!; [done|done|congruence|done|]. intros i _. apply M5.
  - done.
  - eapply pass_settled_ext; [| | |exact Hbase]; [cbn; by rewrite M2|done|done].
  - eapply pass_settled_ext; [| | |exact Heff]; [cbn; by rewrite M3|done|done].
Qed.

Lemma distributed_conserves whole d :
  distributed whole d → sumZ (d_subject_base d) = whole ∧ sumZ (d_subject_effective d) = whole.
Proof.
  intros [_ (Hb & He & _) Hbase Heff].
  pose proof (pass_conserves p false built_forest built_rooted whole _ Hbase) as H1.
  pose proof (pass_conserves p true built_forest built_rooted whole _ Heff) as H2.
  rewrite <-!sum_over_seq, Hb, He. done.
Qed.

(** With no overcommit reported, every subject and group holds its floor. *)
Lemma settled_floors use_modifier v i amount x :
  settled p built_nodes use_modifier v i amount → ps_overcommit (pv_pass v) = false →
  x ∈ node_items built_nodes i → item_floor p x <= held v x.
Proof.
  intros (r & _ & Hspec & Ha & Hov & _) Hno Hx. apply list_elem_of_lookup_1 in Hx as [k Hk].
  pose proof (lookup_lt_Some _ _ _ Hk) as Hlt.
  assert (ar_overcommit r = false) as Hr by (destruct (ar_overcommit r); [specialize (Hov eq_refl); congruence|done]).
  pose proof (as_floors _ _ _ Hspec Hr k) as Hf. rewrite length_fmap, Ha in Hf. specialize (Hf Hlt).
  rewrite at_lookup, list_lookup_fmap, Hk in Hf. cbn in Hf.
  assert (child_at (item_input p use_modifier <$> node_items built_nodes i) k = item_input p use_modifier x) as E.
  { unfold child_at. apply nth_lookup_Some. by rewrite list_lookup_fmap, Hk. }
  rewrite E, item_floor_input in Hf. done.
Qed.

Lemma distributed_floors whole d s :
  distributed whole d → ps_overcommit (d_effective_pass d) = false → (s < m)%nat →
  subj_guarantee_floor (subject_at p s) <= at_ (d_subject_effective d) s.
Proof.
  intros [_ _ _ [_ Hn]] Hno Hs. destruct (ro_subject _ _ _ _ _ built_rooted s Hs) as (k & Hk & Hin).
  apply (settled_floors true _ k _ (inr s) (Hn k Hk) Hno). by apply elem_of_node_items.
Qed.

Lemma distributed_range whole d s :
  u64 whole → distributed whole d → (s < m)%nat →
  0 <= at_ (d_subject_effective d) s <= whole ∧ 0 <= at_ (d_subject_base d) s <= whole.
Proof.
  intros Hu Hd Hs. destruct (distributed_conserves _ _ Hd) as [Sb Se]. destruct Hd as [_ (Lb & Le & _) [_ Nb] [_ Ne]].
  destruct (ro_subject _ _ _ _ _ built_rooted s Hs) as (k & Hk & Hin).
  assert (∀ use_modifier v t, (∀ i, (i < n)%nat → settled p built_nodes use_modifier v i (held v (inl i))) →
    (t < m)%nat → 0 <= held v (inr t)) as H0.
  { intros um v t Hn Ht. destruct (ro_subject _ _ _ _ _ built_rooted t Ht) as (k' & Hk' & Hin').
    destruct (Hn k' Hk') as (r & _ & Hspec & Ha & _ & Hu').
    apply (held_items p um v (node_items built_nodes k') (inr t) r _ (eq_sym Ha) Hspec Hu').
    by apply elem_of_node_items. }
  assert (∀ l t, (∀ j, (j < m)%nat → 0 <= at_ l j) → length l = m → sumZ l = whole → (t < m)%nat →
    0 <= at_ l t <= whole) as Hb.
  { intros l t Hl Hlen <- Ht. split; [by apply Hl|]. apply at_le_sum; [|lia]. intros j Hj. apply Hl. lia. }
  split; apply Hb; try done.
  - intros j Hj. by apply (H0 true _ j Ne).
  - intros j Hj. by apply (H0 false _ j Nb).
Qed.
End build.
