(* ===== verification/Codec.v ===== *)
(** The strict bounded codecs: [src/persist/codec.cpp].

    An encoder is the byte string it appends.  A decoder reads fields in the
    source's order; a failed read is the block's [Truncated] exit.  The digests
    hash the encodings. *)
From S2P Require Import Prelude Status Core Bytes Policy Accounting Evidence Outcome.
#[local] Open Scope string_scope.
#[local] Open Scope list_scope.
#[local] Open Scope Z_scope.

Definition kFormatVersion : Z := 1.
Definition kMaxEncodedStringBytes : Z := 256.
Definition kMaxEncodedRecords : Z := 65536.

(** [if (!reads(...)) return Status(code, detail)]. *)
Definition read_or {A} (code : StatusCode.t) (detail : string) (r : Reader A) (bs : ByteBuffer)
    : Result (A * ByteBuffer) :=
  match r bs with
  | None => fail code detail
  | Some x => Value x
  end.

(** ** Shared pieces *)

Definition write_provenance (p : Provenance) : ByteBuffer :=
  w_u64 (prov_revision p) ++ w_blob (prov_source p) ++ w_u64 (prov_source_digest p)
  ++ w_i64 (prov_captured_at_ns p).

Definition read_provenance : Reader Provenance :=
  read revision := r_u64 in
  read source := r_blob kMaxEncodedStringBytes in
  read source_digest := r_u64 in
  read captured_at_ns := r_i64 in
  reader_ret (mk_provenance revision source source_digest captured_at_ns).

(** [write_priority]/[write_qos] and their readers. *)
Definition write_ref (r : ClassRef) : ByteBuffer := w_u64 (ref_id r) ++ w_u64 (ref_generation r).
Definition read_ref : Reader ClassRef :=
  read id := r_u64 in
  read generation := r_u64 in
  reader_ret (mk_ref id generation).

(** A byte flag: any non-zero byte reads as true. *)
Definition read_flag : Reader bool := read flag := r_u8 in reader_ret (negb (flag =? 0)).

Definition digest_bytes (bytes : ByteBuffer) : Z := checksum64 bytes.

(** ** Policy *)

Definition write_group (g : FairnessGroup) : ByteBuffer :=
  w_u64 (group_id g) ++ w_u64 (group_generation g) ++ w_u64 (group_parent g)
  ++ w_u32 (group_share_weight g) ++ w_u64 (group_guarantee_floor g)
  ++ w_u32 (group_obligation_rank g) ++ w_bool (group_protected_obligation g)
  ++ w_blob (group_label g).

Definition write_subject (s : Subject) : ByteBuffer :=
  w_u64 (subj_id s) ++ w_u64 (subj_generation s) ++ w_u64 (subj_group s) ++ w_u64 (subj_tenant s)
  ++ w_u32 (subj_share_weight s) ++ w_u64 (subj_guarantee_floor s)
  ++ w_u32 (subj_starvation_windows s) ++ w_u32 (subj_guarantee_starvation_windows s)
  ++ write_ref (subj_priority s) ++ write_ref (subj_qos s)
  ++ w_u32 (wrap32 (subj_priority_modifier_bps s)) ++ w_u32 (subj_priority_rank s)
  ++ w_u32 (subj_obligation_rank s) ++ w_bool (subj_protected_obligation s)
  ++ w_u64 (subj_max_reduce_units s) ++ w_u64 (subj_max_augment_units s)
  ++ w_blob (subj_label s).

(** The scalar fields, from the identity to the floor flag. *)
Definition write_policy_fields (p : FairnessPolicy) : ByteBuffer :=
  w_u64 (pol_id p) ++ w_u64 (pol_generation p) ++ w_u64 (pol_epoch p) ++ w_u64 (pol_window_units p)
  ++ w_u64 (pol_fair_band_units p) ++ w_u64 (pol_correction_threshold_units p)
  ++ w_u32 (pol_cooldown_windows p) ++ w_u64 (pol_max_correction_units p)
  ++ w_u32 (pol_max_correction_bps p) ++ w_u32 (pol_max_priority_modifier_bps p)
  ++ w_u32 (pol_max_evidence_age_windows p) ++ w_u64 (pol_max_evidence_age_ns p)
  ++ w_u64 (pol_max_carry_units p) ++ w_bool (pol_enforce_guarantee_floors p).

Definition encode_policy (p : FairnessPolicy) : ByteBuffer :=
  w_u16 kFormatVersion ++ write_policy_fields p ++ write_provenance (pol_provenance p)
  ++ w_u32 (wrap32 (sizeZ (pol_groups p))) ++ w_list write_group (pol_groups p)
  ++ w_u32 (wrap32 (sizeZ (pol_subjects p))) ++ w_list write_subject (pol_subjects p).

Definition read_group : Reader FairnessGroup :=
  read id := r_u64 in
  read generation := r_u64 in
  read parent := r_u64 in
  read share_weight := r_u32 in
  read guarantee_floor := r_u64 in
  read obligation_rank := r_u32 in
  read protected_obligation := read_flag in
  read label := r_blob kMaxEncodedStringBytes in
  reader_ret (mk_group id generation parent share_weight guarantee_floor obligation_rank
                protected_obligation label).

Definition read_subject : Reader Subject :=
  read id := r_u64 in
  read generation := r_u64 in
  read group := r_u64 in
  read tenant := r_u64 in
  read share_weight := r_u32 in
  read guarantee_floor := r_u64 in
  read starvation_windows := r_u32 in
  read guarantee_starvation_windows := r_u32 in
  read priority := read_ref in
  read qos := read_ref in
  read modifier := r_u32 in
  read priority_rank := r_u32 in
  read obligation_rank := r_u32 in
  read protected_obligation := read_flag in
  read max_reduce_units := r_u64 in
  read max_augment_units := r_u64 in
  read label := r_blob kMaxEncodedStringBytes in
  reader_ret (mk_subject id generation group tenant share_weight guarantee_floor starvation_windows
                guarantee_starvation_windows priority qos (to_i32 modifier) priority_rank
                obligation_rank protected_obligation max_reduce_units max_augment_units label).

(** Reads the scalar fields into a policy; its contents come later. *)
Definition read_policy_fields
    : Reader (list FairnessGroup → list Subject → Provenance → FairnessPolicy) :=
  read id := r_u64 in
  read generation := r_u64 in
  read epoch := r_u64 in
  read window_units := r_u64 in
  read fair_band_units := r_u64 in
  read correction_threshold_units := r_u64 in
  read cooldown_windows := r_u32 in
  read max_correction_units := r_u64 in
  read max_correction_bps := r_u32 in
  read max_priority_modifier_bps := r_u32 in
  read max_evidence_age_windows := r_u32 in
  read max_evidence_age_ns := r_u64 in
  read max_carry_units := r_u64 in
  read enforce_guarantee_floors := read_flag in
  reader_ret (mk_policy id generation epoch window_units fair_band_units correction_threshold_units
                cooldown_windows max_correction_units max_correction_bps max_priority_modifier_bps
                max_evidence_age_windows max_evidence_age_ns max_carry_units
                enforce_guarantee_floors).

Definition decode_policy (bytes : ByteBuffer) : Result FairnessPolicy :=
  reject (sizeZ bytes >? kMaxDurablePayloadBytes)
    with StatusCode.OversizedPayload, "policy payload exceeds the durable bound" ;;
  let? (version, bs) := read_or StatusCode.Truncated "policy header truncated" r_u16 bytes in
  reject (negb (version =? kFormatVersion))
    with StatusCode.UnsupportedFormat, "unsupported policy format version" ;;
  let? (policy, bs) :=
    read_or StatusCode.Truncated "policy fields truncated" read_policy_fields bs in
  let? (provenance, bs) :=
    read_or StatusCode.Truncated "policy provenance truncated" read_provenance bs in
  let? (group_count, bs) := read_or StatusCode.Truncated "policy group count invalid" r_u32 bs in
  reject (group_count >? kMaxGroups)
    with StatusCode.LimitExceeded, "policy group count invalid" ;;
  let? (groups, bs) :=
    read_or StatusCode.Truncated "policy group record truncated"
      (r_repeat (Z.to_nat group_count) read_group) bs in
  let? (subject_count, bs) := read_or StatusCode.Truncated "policy subject count invalid" r_u32 bs in
  reject (subject_count >? kMaxSubjects)
    with StatusCode.LimitExceeded, "policy subject count invalid" ;;
  let? (subjects, bs) :=
    read_or StatusCode.Truncated "policy subject record truncated"
      (r_repeat (Z.to_nat subject_count) read_subject) bs in
  reject (negb (reader_empty bs))
    with StatusCode.CorruptRecord, "policy record has trailing bytes" ;;
  let policy := policy groups subjects provenance in
  let? _ := validate_policy policy in
  Value policy.

(** ** Accounting *)

Definition write_entry (e : SubjectAccounting) : ByteBuffer :=
  w_u64 (sa_id e) ++ w_u64 (sa_generation e) ++ w_u64 (sa_cumulative_deficit e)
  ++ w_u64 (sa_cumulative_surplus e) ++ w_u64 (sa_discarded_deficit e)
  ++ w_u64 (sa_discarded_surplus e) ++ w_u32 (sa_unserved_streak e)
  ++ w_u32 (sa_below_floor_streak e) ++ w_u64 (sa_windows_observed e)
  ++ w_u64 (sa_total_served_units e) ++ w_u64 (sa_last_correction_window e)
  ++ w_u64 (sa_last_correction_generation e).

Definition encode_accounting (a : FairnessAccounting) : ByteBuffer :=
  w_u16 kFormatVersion ++ w_u64 (acc_policy_id a) ++ w_u64 (acc_policy_generation a)
  ++ w_u64 (acc_epoch a) ++ w_u64 (acc_generation a) ++ w_u64 (acc_intervention_generation a)
  ++ w_u64 (acc_last_window a) ++ w_u64 (acc_last_window_generation a)
  ++ w_u64 (acc_writer_boot a) ++ w_u32 (wrap32 (sizeZ (acc_subjects a)))
  ++ w_list write_entry (acc_subjects a).

Definition read_entry : Reader SubjectAccounting :=
  read id := r_u64 in
  read generation := r_u64 in
  read cumulative_deficit := r_u64 in
  read cumulative_surplus := r_u64 in
  read discarded_deficit := r_u64 in
  read discarded_surplus := r_u64 in
  read unserved_streak := r_u32 in
  read below_floor_streak := r_u32 in
  read windows_observed := r_u64 in
  read total_served_units := r_u64 in
  read window := r_u64 in
  read intervention := r_u64 in
  reader_ret (mk_subject_accounting id generation cumulative_deficit cumulative_surplus
                discarded_deficit discarded_surplus unserved_streak below_floor_streak
                windows_observed total_served_units window intervention).

Definition read_accounting_fields : Reader ((list SubjectAccounting → FairnessAccounting) * Z) :=
  read policy_id := r_u64 in
  read policy_generation := r_u64 in
  read epoch := r_u64 in
  read generation := r_u64 in
  read intervention_generation := r_u64 in
  read last_window := r_u64 in
  read last_window_generation := r_u64 in
  read writer_boot := r_u64 in
  read count := r_u32 in
  reader_ret (mk_accounting policy_id policy_generation epoch generation intervention_generation
                last_window last_window_generation writer_boot, count).

(** The record loop, its checks interleaved with the reads. *)
Fixpoint decode_entries (count : nat) (seen : gset Z) (bs : ByteBuffer)
    : Result (list SubjectAccounting * ByteBuffer) :=
  match count with
  | O => Value ([], bs)
  | S count' =>
      let? (entry, bs) :=
        read_or StatusCode.Truncated "accounting subject record truncated" read_entry bs in
      reject ((sa_cumulative_deficit entry >? kMaxCarryUnits)
              || (sa_cumulative_surplus entry >? kMaxCarryUnits))
        with StatusCode.OutOfRange, "accounting carry exceeds the durable bound" ;;
      reject ((sa_unserved_streak entry >? 1000000) || (sa_below_floor_streak entry >? 1000000))
        with StatusCode.OutOfRange, "accounting streak exceeds the bound" ;;
      reject (bool_decide (sa_id entry ∈ seen))
        with StatusCode.Duplicate, "accounting declares the same subject twice" ;;
      let? (entries, bs) := decode_entries count' ({[ sa_id entry ]} ∪ seen) bs in
      Value (entry :: entries, bs)
  end.

Definition decode_accounting (bytes : ByteBuffer) : Result FairnessAccounting :=
  reject (sizeZ bytes >? kMaxDurablePayloadBytes)
    with StatusCode.OversizedPayload, "accounting payload exceeds the durable bound" ;;
  let? (version, bs) := read_or StatusCode.Truncated "accounting header truncated" r_u16 bytes in
  reject (negb (version =? kFormatVersion))
    with StatusCode.UnsupportedFormat, "unsupported accounting format version" ;;
  let? (header, bs) :=
    read_or StatusCode.Truncated "accounting fields truncated" read_accounting_fields bs in
  let '(accounting, count) := header in
  reject (count >? kMaxEncodedRecords)
    with StatusCode.LimitExceeded, "accounting subject count exceeds the bound" ;;
  let? (entries, bs) := decode_entries (Z.to_nat count) ∅ bs in
  reject (negb (reader_empty bs))
    with StatusCode.CorruptRecord, "accounting record has trailing bytes" ;;
  Value (accounting entries).

(** ** Evidence *)

Definition write_observation (o : SubjectObservation) : ByteBuffer :=
  w_u64 (obs_id o) ++ w_u64 (obs_generation o) ++ w_u64 (obs_served_units o)
  ++ w_u32 (obs_unserved_streak o) ++ w_u32 (obs_below_floor_streak o)
  ++ write_ref (obs_priority o) ++ write_ref (obs_qos o).

Definition encode_evidence (e : EvidenceSnapshot) : ByteBuffer :=
  w_u16 kFormatVersion ++ w_u64 (ev_id e) ++ w_u64 (ev_generation e) ++ w_u64 (ev_window e)
  ++ w_u64 (ev_window_generation e) ++ w_u64 (ev_epoch e) ++ w_i64 (ev_captured_at_ns e)
  ++ w_u64 (ev_sequence e) ++ w_blob (producer_name (ev_producer e))
  ++ w_u64 (producer_instance (ev_producer e)) ++ w_u64 (producer_version (ev_producer e))
  ++ write_provenance (ev_provenance e) ++ w_u64 (ev_declared_digest e)
  ++ w_u32 (wrap32 (sizeZ (ev_observations e))) ++ w_list write_observation (ev_observations e).

Definition read_observation : Reader SubjectObservation :=
  read id := r_u64 in
  read generation := r_u64 in
  read served_units := r_u64 in
  read unserved_streak := r_u32 in
  read below_floor_streak := r_u32 in
  read priority := read_ref in
  read qos := read_ref in
  reader_ret (mk_observation id generation served_units unserved_streak below_floor_streak
                priority qos).

Definition read_evidence_fields : Reader ((list SubjectObservation → EvidenceSnapshot) * Z) :=
  read id := r_u64 in
  read generation := r_u64 in
  read window := r_u64 in
  read window_generation := r_u64 in
  read epoch := r_u64 in
  read captured_at_ns := r_i64 in
  read sequence := r_u64 in
  read name := r_blob kMaxEncodedStringBytes in
  read instance := r_u64 in
  read version := r_u64 in
  read provenance := read_provenance in
  read declared_digest := r_u64 in
  read count := r_u32 in
  reader_ret (mk_snapshot id generation window window_generation epoch captured_at_ns sequence
                (mk_producer name instance version) provenance declared_digest, count).

Definition decode_evidence (bytes : ByteBuffer) : Result EvidenceSnapshot :=
  reject (sizeZ bytes >? kMaxDurablePayloadBytes)
    with StatusCode.OversizedPayload, "evidence payload exceeds the bound" ;;
  let? (version, bs) := read_or StatusCode.Truncated "evidence header truncated" r_u16 bytes in
  reject (negb (version =? kFormatVersion))
    with StatusCode.UnsupportedFormat, "unsupported evidence format version" ;;
  let? (header, bs) :=
    read_or StatusCode.Truncated "evidence fields truncated" read_evidence_fields bs in
  let '(snapshot, count) := header in
  reject (count >? kMaxEvidenceRecords)
    with StatusCode.LimitExceeded, "evidence observation count exceeds the bound" ;;
  let? (observations, bs) :=
    read_or StatusCode.Truncated "evidence observation truncated"
      (r_repeat (Z.to_nat count) read_observation) bs in
  reject (negb (reader_empty bs))
    with StatusCode.CorruptRecord, "evidence record has trailing bytes" ;;
  let snapshot := snapshot observations in
  let? _ := validate_evidence snapshot in
  Value snapshot.

(** ** Digests *)

Definition policy_digest (p : FairnessPolicy) : Z := digest_bytes (encode_policy p).
Definition evidence_digest (e : EvidenceSnapshot) : Z := digest_bytes (encode_evidence e).

Definition write_subject_state (s : SubjectFairnessState) : ByteBuffer :=
  w_u64 (sf_id s) ++ w_u64 (sf_generation s) ++ w_u64 (sf_group s)
  ++ w_u8 (Outcome.value (sf_outcome s)) ++ w_u16 (ReasonCode.value (sf_reason s))
  ++ w_bool (sf_has_authority s) ++ w_u64 (sf_entitlement_units s)
  ++ w_u64 (sf_base_entitlement_units s) ++ w_u64 (sf_group_entitlement_units s)
  ++ w_u64 (sf_served_units s) ++ w_i64 (sf_deviation_units s) ++ w_u64 (sf_deficit_units s)
  ++ w_u64 (sf_surplus_units s) ++ w_u64 (sf_cumulative_deficit_after s)
  ++ w_u64 (sf_cumulative_surplus_after s) ++ w_u32 (sf_unserved_streak s)
  ++ w_u32 (sf_below_floor_streak s) ++ w_u64 (sf_proposed_augment_units s)
  ++ w_u64 (sf_proposed_reduce_units s) ++ w_u64 (sf_unsatisfied_demand_units s)
  ++ w_i64 (sf_priority_delta_units s) ++ w_u32 (wrap32 (sf_applied_modifier_bps s)).

Definition write_group_state (g : GroupFairnessState) : ByteBuffer :=
  w_u64 (gf_id g) ++ w_u64 (gf_generation g) ++ w_u64 (gf_entitlement_units g)
  ++ w_u64 (gf_served_units g) ++ w_i64 (gf_deviation_units g) ++ w_bool (gf_withheld_correction g).

Definition write_intent (i : CorrectiveIntent) : ByteBuffer :=
  w_u64 (ci_id i) ++ w_u64 (ci_generation i) ++ w_u8 (CorrectionDirection.value (ci_direction i))
  ++ w_u64 (ci_subject i) ++ w_u64 (ci_units i) ++ w_u8 (CorrectionBound.value (ci_bound i))
  ++ w_u16 (ReasonCode.value (ci_reason i)) ++ w_bool (ci_from_starvation i).

Definition decision_bytes (d : FairnessDecision) : ByteBuffer :=
  let a := fd_authority d in
  let c := fd_correction d in
  w_u64 (av_policy_id a) ++ w_u64 (av_policy_generation a) ++ w_u64 (av_epoch a)
  ++ w_u64 (av_evidence_id a) ++ w_u64 (av_evidence_generation a) ++ w_u64 (av_window a)
  ++ w_u64 (av_window_generation a) ++ w_u64 (av_accounting_generation a)
  ++ w_u64 (av_request_id a) ++ w_u32 (av_attempt a) ++ w_u8 (Outcome.value (fd_outcome d))
  ++ w_list write_subject_state (fd_subjects d) ++ w_list write_group_state (fd_groups d)
  ++ w_list write_intent (fd_intents d)
  ++ w_u64 (cor_reducible_pool_units c) ++ w_u64 (cor_demand_units c)
  ++ w_u64 (cor_authorized_budget_units c) ++ w_u64 (cor_augment_units c)
  ++ w_u64 (cor_reduce_units c) ++ w_u64 (cor_withheld_units c)
  ++ w_u64 (cor_unsatisfied_demand_units c) ++ w_bool (cor_protected_obligation_blocked c)
  ++ w_bool (cor_authority_missing c).

Definition decision_digest (d : FairnessDecision) : Z := digest_bytes (decision_bytes d).
