(* ===== verification/CodecSpec.v ===== *)
(** The codecs are inverse: what an encoder wrote of a legal object, the decoder
    reads back as that object, and whatever a decoder accepts is legal. *)
From S2P Require Import Prelude Status Core Bytes Policy PolicyValid Accounting Evidence Outcome Codec.
#[local] Open Scope Z_scope.

(** ** Stepping a reader over what a writer wrote *)

Lemma reader_step {A B} (w : A → ByteBuffer) (r : Reader A) (ok : A → Prop) `{!Decodes w r ok}
    (k : A → Reader B) a rest :
  ok a → reader_bind r k (w a ++ rest) = k a rest.
Proof. intros H. unfold reader_bind. by rewrite (decodes (ok := ok)). Qed.

#[export] Instance flag_decodes : Decodes w_bool read_flag (λ _, True).
Proof. intros [] rest _; done. Qed.

(** Discharges the range side conditions of [reader_step]. *)
Ltac read_side :=
  first [done | assumption | split; assumption
        | split; [unfold kMaxEncodedStringBytes in *; lia | unfold u32; lia]].

Ltac read_fields :=
  rewrite <-?app_assoc;
  repeat match goal with
  | |- context [ reader_bind ?r ?k (?w ?a ++ ?rest) ] => rewrite (reader_step w r _ k a rest) by read_side; cbv beta
  end;
  unfold reader_ret.

(** A string the codec can carry. *)
Definition short (s : string) : Prop := str_size s <= kMaxEncodedStringBytes.

Lemma short_blob s : short s → str_size s <= kMaxEncodedStringBytes ∧ u32 (str_size s).
Proof. unfold short, kMaxEncodedStringBytes. pose proof (str_size_nonneg s). ulia. Qed.

Lemma label_short s : str_size s <= kMaxLabelBytes → short s.
Proof. unfold short, kMaxEncodedStringBytes, kMaxLabelBytes. lia. Qed.

#[export] Instance ref_decodes : Decodes write_ref read_ref ref_typed.
Proof. intros r rest [? ?]. unfold write_ref, read_ref. read_fields. by destruct r. Qed.

#[export] Instance provenance_decodes :
  Decodes write_provenance read_provenance (λ p, provenance_typed p ∧ short (prov_source p)).
Proof.
  intros p rest [(? & ? & ?) Hs%short_blob]. unfold write_provenance, read_provenance.
  read_fields. by destruct p.
Qed.

#[export] Instance group_decodes :
  Decodes write_group read_group (λ g, group_typed g ∧ short (group_label g)).
Proof.
  intros g rest [[] Hs%short_blob]. unfold write_group, read_group. read_fields. by destruct g.
Qed.

#[export] Instance subject_decodes :
  Decodes write_subject read_subject (λ s, subject_typed s ∧ short (subj_label s)).
Proof.
  intros s rest [[] Hs%short_blob]. unfold write_subject, read_subject.
  assert (u32 (wrap32 (subj_priority_modifier_bps s))) by (apply Z.mod_pos_bound; lia).
  read_fields. rewrite to_i32_wrap32 by done. by destruct s.
Qed.

#[export] Instance entry_decodes : Decodes write_entry read_entry sa_typed.
Proof. intros e rest []. unfold write_entry, read_entry. read_fields. by destruct e. Qed.

#[export] Instance observation_decodes : Decodes write_observation read_observation observation_typed.
Proof. intros o rest []. unfold write_observation, read_observation. read_fields. by destruct o. Qed.

(** ** Block by block *)

Lemma read_or_step {A} code detail (w : A → ByteBuffer) (r : Reader A) (ok : A → Prop)
    `{!Decodes w r ok} a rest :
  ok a → read_or code detail r (w a ++ rest) = Value (a, rest).
Proof. intros H. unfold read_or. by rewrite (decodes (ok := ok)). Qed.

Lemma read_or_repeat {A} code detail (w : A → ByteBuffer) (r : Reader A) (ok : A → Prop)
    `{!Decodes w r ok} l rest :
  Forall ok l → read_or code detail (r_repeat (Z.to_nat (sizeZ l)) r) (w_list w l ++ rest) = Value (l, rest).
Proof.
  intros H. unfold read_or, sizeZ. rewrite Nat2Z.id.
  by rewrite (r_repeat_decodes w r ok l rest H).
Qed.

(** Reads the next value of a block, leaving its range as a second goal. *)
Ltac read_block :=
  match goal with
  | |- context [ read_or ?c ?d ?r (?w ?a ++ ?rest) ] => rewrite (read_or_step c d w r _ a rest)
  end.
Ltac read_list :=
  match goal with
  | |- context [ read_or ?c ?d (r_repeat _ ?r) (w_list ?w ?l ++ ?rest) ] =>
      rewrite (read_or_repeat c d w r _ l rest)
  end.

Lemma wrap32_size {A} (l : list A) : sizeZ l <= U32_MAX → u32 (sizeZ l) ∧ wrap32 (sizeZ l) = sizeZ l.
Proof.
  intros H. assert (u32 (sizeZ l)) as Hu by (unfold sizeZ in *; ulia).
  split; [done|]. by apply Z.mod_small.
Qed.

Lemma policy_fields_decode p rest :
  policy_typed p →
  read_policy_fields (write_policy_fields p ++ rest)
  = Some (mk_policy (pol_id p) (pol_generation p) (pol_epoch p) (pol_window_units p)
            (pol_fair_band_units p) (pol_correction_threshold_units p) (pol_cooldown_windows p)
            (pol_max_correction_units p) (pol_max_correction_bps p) (pol_max_priority_modifier_bps p)
            (pol_max_evidence_age_windows p) (pol_max_evidence_age_ns p) (pol_max_carry_units p)
            (pol_enforce_guarantee_floors p), rest).
Proof.
  intros []. unfold write_policy_fields, read_policy_fields. by read_fields.
Qed.

(** *** Sizes: an encoded legal object fits the durable bound *)

Lemma length_blob s : length (w_blob s) = (4 + String.length s)%nat.
Proof. unfold w_blob, w_u32. by rewrite length_app, length_store_le, length_string_bytes. Qed.

Lemma length_w_list_le {A} (w : A → ByteBuffer) (b : Z) l :
  (∀ a, a ∈ l → sizeZ (w a) <= b) → sizeZ (w_list w l) <= b * sizeZ l.
Proof.
  unfold w_list, sizeZ. induction l as [|a l IH]; intros H; [simpl; lia|].
  cbn [fmap list_fmap concat length]. rewrite length_app.
  pose proof (H a ltac:(set_solver)). specialize (IH ltac:(set_solver)). lia.
Qed.

Ltac size_of_fields :=
  unfold sizeZ; rewrite ?length_app, ?length_blob; unfold w_u16, w_u32, w_u64, w_i64, w_bool, w_u8;
  rewrite ?length_store_le; cbn [length].

Lemma group_size g : group_wf g → sizeZ (write_group g) <= 173.
Proof.
  intros []. unfold write_group. unfold w_i64. size_of_fields.
  unfold str_size, kMaxLabelBytes in *. lia.
Qed.

Lemma subject_size p s : subject_wf p s → sizeZ (write_subject s) <= 249.
Proof.
  intros []. unfold write_subject, write_ref. size_of_fields.
  unfold str_size, kMaxLabelBytes in *. lia.
Qed.

Lemma policy_size p : policy_wf p → sizeZ (encode_policy p) <= kMaxDurablePayloadBytes.
Proof.
  intros [[] Hg _ _ _ Hj _ _ _].
  assert (sizeZ (w_list write_group (pol_groups p)) <= 173 * sizeZ (pol_groups p)) as H1.
  { apply length_w_list_le. intros g Hin. rewrite Forall_forall in Hg. apply group_size. by apply Hg. }
  assert (sizeZ (w_list write_subject (pol_subjects p)) <= 249 * sizeZ (pol_subjects p)) as H2.
  { apply length_w_list_le. intros s Hin. rewrite Forall_forall in Hj. eapply subject_size. by apply Hj. }
  revert H1 H2. unfold encode_policy, write_policy_fields, write_provenance. unfold w_i64.
  size_of_fields. unfold sizeZ, str_size, kMaxLabelBytes, kMaxDurablePayloadBytes in *. lia.
Qed.

(** ** Round trips *)

Lemma gtb_le_false a b : a <= b → (a >? b) = false.
Proof. apply gtb_false_le. Qed.

Lemma typed_and_short {A} (typed wf : A → Prop) (label : A → string) l :
  Forall typed l → Forall wf l → (∀ a, wf a → str_size (label a) <= kMaxLabelBytes) →
  Forall (λ a, typed a ∧ short (label a)) l.
Proof.
  intros Ht Hw H. apply Forall_and. split; [done|]. eapply Forall_impl; [exact Hw|].
  intros a Ha. by apply label_short, H.
Qed.

(** Once a legal policy is encoded, decoding gives it back. *)
Lemma decode_encode_policy p :
  policy_typed p → policy_wf p → decode_policy (encode_policy p) = Value p.
Proof.
  intros T Hwf. pose proof (proj2 (validate_policy_iff p T) Hwf) as Hval.
  pose proof (policy_size p Hwf) as Hsize. destruct Hwf as [[] Hg _ _ _ Hj _ _ _].
  destruct (wrap32_size (pol_groups p) ltac:(ulia)) as [Hgu Hgw].
  destruct (wrap32_size (pol_subjects p) ltac:(ulia)) as [Hju Hjw].
  unfold decode_policy. rewrite gtb_le_false by done. unfold encode_policy. rewrite Hgw, Hjw.
  read_block; [|unfold kFormatVersion; ulia]. cbn [result_bind].
  rewrite Z.eqb_refl. cbn [negb]. unfold read_or at 1. rewrite policy_fields_decode by done. cbn [result_bind].
  read_block; [|split; [apply T|by apply label_short]]. cbn [result_bind].
  read_block; [|done]. cbn [result_bind].
  rewrite gtb_le_false by done.
  read_list.
  2:{ apply (typed_and_short group_typed group_wf); [apply T|done|]. by intros a []. }
  cbn [result_bind]. read_block; [|done]. cbn [result_bind].
  rewrite gtb_le_false by done.
  rewrite <-(app_nil_r (w_list write_subject (pol_subjects p))). read_list.
  2:{ apply (typed_and_short subject_typed (subject_wf p)); [apply T|done|]. by intros a []. }
  cbn [result_bind reader_empty negb].
  match goal with |- context [ validate_policy ?q ] => assert (q = p) as -> by by destruct p end.
  by rewrite Hval.
Qed.

(** What the accounting decoder insists on. *)
Record accounting_storable (a : FairnessAccounting) : Prop := {
  stor_typed : accounting_typed a;
  stor_size : sizeZ (encode_accounting a) <= kMaxDurablePayloadBytes;
  stor_distinct : NoDup (sa_id <$> acc_subjects a);
  stor_entries : Forall (λ e,
    sa_cumulative_deficit e <= kMaxCarryUnits ∧ sa_cumulative_surplus e <= kMaxCarryUnits
    ∧ sa_unserved_streak e <= 1000000 ∧ sa_below_floor_streak e <= 1000000) (acc_subjects a) }.

Lemma decode_entries_step l seen rest :
  Forall sa_typed l → NoDup (sa_id <$> l) → (∀ e, e ∈ l → sa_id e ∉ seen) →
  Forall (λ e, sa_cumulative_deficit e <= kMaxCarryUnits ∧ sa_cumulative_surplus e <= kMaxCarryUnits
    ∧ sa_unserved_streak e <= 1000000 ∧ sa_below_floor_streak e <= 1000000) l →
  decode_entries (length l) seen (w_list write_entry l ++ rest) = Value (l, rest).
Proof.
  intros Ht. revert seen. induction Ht as [|e l He Ht IH]; intros seen Hnd Hseen Hb; [done|].
  apply Forall_cons in Hb as [(? & ? & ? & ?) Hb]. rewrite fmap_cons, NoDup_cons in Hnd.
  destruct Hnd as [Hin Hnd]. cbn [length decode_entries].
  unfold w_list. cbn [fmap list_fmap concat]. rewrite <-app_assoc.
  read_block; [|done]. cbn [result_bind].
  rewrite !gtb_le_false by done. cbn [orb]. rewrite bool_decide_eq_false_2 by (apply Hseen; set_solver).
  change (concat (list_fmap _ _ write_entry l)) with (w_list write_entry l). rewrite IH; [done|done| |done].
  intros e' He'. apply not_elem_of_union. split; [|apply Hseen; set_solver].
  intros Heq%elem_of_singleton. apply Hin. rewrite <-Heq. by apply list_elem_of_fmap_2.
Qed.

Lemma accounting_size a : sizeZ (encode_accounting a) = 70 + 88 * sizeZ (acc_subjects a).
Proof.
  assert (sizeZ (w_list write_entry (acc_subjects a)) = 88 * sizeZ (acc_subjects a)) as H.
  { unfold w_list. induction (acc_subjects a) as [|e l IH]; [done|].
    cbn [fmap list_fmap concat]. revert IH. unfold write_entry. size_of_fields. lia. }
  revert H. unfold encode_accounting. size_of_fields. lia.
Qed.

(** What fits the durable payload also fits the decoder's own bound. *)
Lemma storable_count a :
  sizeZ (encode_accounting a) <= kMaxDurablePayloadBytes → sizeZ (acc_subjects a) <= kMaxEncodedRecords.
Proof. rewrite accounting_size. unfold kMaxDurablePayloadBytes, kMaxEncodedRecords. lia. Qed.

Lemma accounting_fields_decode a rest :
  accounting_typed a → sizeZ (acc_subjects a) <= kMaxEncodedRecords →
  read_accounting_fields
    (w_u64 (acc_policy_id a) ++ w_u64 (acc_policy_generation a)
     ++ w_u64 (acc_epoch a) ++ w_u64 (acc_generation a) ++ w_u64 (acc_intervention_generation a)
     ++ w_u64 (acc_last_window a) ++ w_u64 (acc_last_window_generation a)
     ++ w_u64 (acc_writer_boot a) ++ w_u32 (wrap32 (sizeZ (acc_subjects a))) ++ rest)
  = Some ((mk_accounting (acc_policy_id a) (acc_policy_generation a) (acc_epoch a) (acc_generation a)
             (acc_intervention_generation a) (acc_last_window a) (acc_last_window_generation a)
             (acc_writer_boot a), sizeZ (acc_subjects a)), rest).
Proof.
  intros [] Hc. destruct (wrap32_size (acc_subjects a)) as [Hu ->]; [unfold kMaxEncodedRecords in *; ulia|].
  unfold read_accounting_fields. by read_fields.
Qed.

Lemma decode_encode_accounting a :
  accounting_storable a → decode_accounting (encode_accounting a) = Value a.
Proof.
  intros [T Hs Hnd Hb]. pose proof (storable_count a Hs) as Hc. unfold decode_accounting.
  rewrite gtb_le_false by done. unfold encode_accounting.
  read_block; [|unfold kFormatVersion; ulia]. cbn [result_bind].
  rewrite Z.eqb_refl. cbn [negb]. unfold read_or at 1. rewrite accounting_fields_decode by done.
  cbn [result_bind]. rewrite gtb_le_false by done.
  unfold sizeZ. rewrite Nat2Z.id.
  rewrite <-(app_nil_r (w_list write_entry (acc_subjects a))).
  rewrite decode_entries_step; [|apply T|done|set_solver|done].
  cbn [result_bind reader_empty negb]. by destruct a.
Qed.

(** The streaks the decoder accepts; the encoder writes any. *)
Definition entry_readable (e : SubjectAccounting) : Prop :=
  sa_unserved_streak e <= 1000000 ∧ sa_below_floor_streak e <= 1000000.

Definition ledger_readable (a : FairnessAccounting) : Prop := Forall entry_readable (acc_subjects a).

#[export] Instance entry_readable_dec e : Decision (entry_readable e).
Proof. unfold entry_readable. apply _. Defined.
#[export] Instance ledger_readable_dec a : Decision (ledger_readable a).
Proof. unfold ledger_readable. apply _. Defined.

Lemma decode_entries_unreadable l seen rest :
  Forall sa_typed l → ¬ Forall entry_readable l →
  ∃ st, decode_entries (length l) seen (w_list write_entry l ++ rest) = Failure st.
Proof.
  intros Ht. revert seen. induction Ht as [|e l He Ht IH]; intros seen Hbad; [by destruct Hbad|].
  cbn [length decode_entries]. unfold w_list. cbn [fmap list_fmap concat]. rewrite <-app_assoc.
  read_block; [|done]. cbn [result_bind]. case_bool; [by eexists|].
  destruct (decide (entry_readable e)) as [[H1 H2]|Hno].
  - rewrite !(gtb_le_false _ 1000000) by done. cbn [orb]. case_bool; [by eexists|].
    assert (¬ Forall entry_readable l) as Hl by (intros Hl; apply Hbad; by constructor).
    match goal with |- context [decode_entries _ ?x _] => destruct (IH x Hl) as [st E] end.
    unfold w_list in E. rewrite E. by eexists.
  - destruct ((sa_unserved_streak e >? 1000000) || (sa_below_floor_streak e >? 1000000)) eqn:E; [by eexists|].
    apply orb_false_iff in E as [E1%gtb_false_le E2%gtb_false_le]. by destruct Hno.
Qed.

(** A ledger with a streak beyond the bound encodes to what no decoder accepts. *)
Lemma decode_encode_unreadable a :
  accounting_typed a → ¬ ledger_readable a → ∃ st, decode_accounting (encode_accounting a) = Failure st.
Proof.
  intros T Hbad. unfold decode_accounting. case_bool; [by eexists|]. rename Hb into Hs. apply gtb_false_le in Hs.
  pose proof (storable_count a Hs) as Hc. unfold encode_accounting.
  read_block; [|unfold kFormatVersion; ulia]. cbn [result_bind].
  rewrite Z.eqb_refl. cbn [negb]. unfold read_or at 1. rewrite accounting_fields_decode by done.
  cbn [result_bind]. rewrite gtb_le_false by done.
  unfold sizeZ. rewrite Nat2Z.id.
  rewrite <-(app_nil_r (w_list write_entry (acc_subjects a))).
  destruct (decode_entries_unreadable (acc_subjects a) ∅ [] (act_subjects _ T) Hbad) as [st ->]. by eexists.
Qed.

Lemma evidence_size e : evidence_wf e → sizeZ (encode_evidence e) <= kMaxDurablePayloadBytes.
Proof.
  intros [].
  assert (sizeZ (w_list write_observation (ev_observations e)) <= 64 * sizeZ (ev_observations e)) as H.
  { apply length_w_list_le. intros o _. unfold write_observation, write_ref. size_of_fields. lia. }
  revert H. unfold encode_evidence, write_provenance. unfold w_i64. size_of_fields.
  unfold sizeZ, str_size, kMaxEvidenceRecords, kMaxProducerNameBytes, kMaxProvenanceSourceBytes,
    kMaxDurablePayloadBytes in *. lia.
Qed.

Lemma decode_encode_evidence e :
  evidence_typed e → evidence_wf e → decode_evidence (encode_evidence e) = Value e.
Proof.
  intros T Hwf. pose proof (proj2 (validate_evidence_iff e T) Hwf) as Hval.
  pose proof (evidence_size e Hwf) as Hsize. destruct Hwf.
  destruct (wrap32_size (ev_observations e)) as [Hu Hw]; [unfold kMaxEvidenceRecords in *; ulia|].
  unfold decode_evidence. rewrite gtb_le_false by done. unfold encode_evidence. rewrite Hw.
  read_block; [|unfold kFormatVersion; ulia]. cbn [result_bind].
  rewrite Z.eqb_refl. cbn [negb]. unfold read_or at 1, read_evidence_fields.
  assert (short (producer_name (ev_producer e))) as Hn%short_blob by by apply label_short.
  assert (provenance_typed (ev_provenance e) ∧ short (prov_source (ev_provenance e)))
    by (split; [apply T|by apply label_short]).
  destruct T. read_fields. cbn [result_bind]. rewrite gtb_le_false by done.
  rewrite <-(app_nil_r (w_list write_observation (ev_observations e))).
  read_list; [|done].
  cbn [result_bind reader_empty negb].
  match goal with |- context [ validate_evidence ?q ] =>
    assert (q = e) as -> by by destruct e as [? ? ? ? ? ? ? [] ? ? ?] end.
  by rewrite Hval.
Qed.

(** ** Decoders only produce legal objects *)

(** Walks a successful run down to its next non-sequential step. *)
Ltac walk_run H :=
  repeat (case_bool; [discriminate H|] || (apply result_bind_value in H as ([? ?] & ? & H))).

Lemma decode_policy_valid bs p : decode_policy bs = Value p → validate_policy p = Value tt.
Proof.
  unfold decode_policy. intros H. walk_run H.
  apply result_bind_value in H as ([] & Hv & H). by apply (inj Value) in H as <-.
Qed.

Lemma decode_evidence_valid bs e : decode_evidence bs = Value e → validate_evidence e = Value tt.
Proof.
  unfold decode_evidence. intros H. walk_run H.
  match type of H with context [ let '(_, _) := ?p in _ ] => destruct p as [snapshot count] end.
  walk_run H. apply result_bind_value in H as ([] & Hv & H). by apply (inj Value) in H as <-.
Qed.

Lemma decode_entries_legal count seen bs l rest :
  decode_entries count seen bs = Value (l, rest) →
  length l = count ∧ NoDup (sa_id <$> l) ∧ (∀ e, e ∈ l → sa_id e ∉ seen) ∧
  Forall (λ e, sa_cumulative_deficit e <= kMaxCarryUnits ∧ sa_cumulative_surplus e <= kMaxCarryUnits
    ∧ sa_unserved_streak e <= 1000000 ∧ sa_below_floor_streak e <= 1000000) l.
Proof.
  revert seen bs l. induction count as [|count IH]; intros seen bs l H; cbn [decode_entries] in H.
  { injection H as <- <-. split_and!; [done|constructor|set_solver|constructor]. }
  apply result_bind_value in H as ([e bs'] & _ & H).
  do 3 (case_bool; [discriminate H|]). apply result_bind_value in H as ([l' bs''] & Hl & H).
  apply (inj Value) in H as [= <- <-]. apply IH in Hl as (Hlen & Hnd & Hseen & Hf).
  rewrite !orb_false_iff, !gtb_false_le in *. apply bool_decide_eq_false in Hb1. destruct_and!.
  split_and!.
  - simpl. by rewrite Hlen.
  - rewrite fmap_cons, NoDup_cons. split; [|done].
    intros (e' & Hid & He')%list_elem_of_fmap. apply Hseen in He'. set_solver.
  - intros e' [->|He']%elem_of_cons; [done|]. apply Hseen in He'. set_solver.
  - by constructor.
Qed.

Lemma decode_accounting_legal bs a :
  decode_accounting bs = Value a →
  NoDup (sa_id <$> acc_subjects a) ∧
  Forall (λ e, sa_cumulative_deficit e <= kMaxCarryUnits ∧ sa_cumulative_surplus e <= kMaxCarryUnits
    ∧ sa_unserved_streak e <= 1000000 ∧ sa_below_floor_streak e <= 1000000) (acc_subjects a).
Proof.
  unfold decode_accounting. intros H. case_bool; [discriminate H|].
  apply result_bind_value in H as ([version bs1] & _ & H). case_bool; [discriminate H|].
  apply result_bind_value in H as ([header bs'] & Hf & H).
  unfold read_or in Hf. destruct (read_accounting_fields _) as [[header' bs'']|] eqn:E; [|done].
  apply (inj Value) in Hf as [= -> ->]. destruct header as [mk count].
  case_bool; [discriminate H|]. apply result_bind_value in H as ([l rest] & Hl & H).
  case_bool; [discriminate H|]. apply (inj Value) in H as <-.
  apply decode_entries_legal in Hl as (_ & Hnd & _ & Hbd).
  assert (acc_subjects (mk l) = l) as ->; [|done].
  revert E. unfold read_accounting_fields. unfold reader_bind, reader_ret.
  intros E. repeat (destruct (r_u64 _) as [[? ?]|]; [|discriminate E]).
  destruct (r_u32 _) as [[? ?]|]; [|discriminate E]. by injection E as <- _ _.
Qed.
