(* ===== verification/DecodeSpec.v ===== *)
(** What a decoder yields from arbitrary bytes lies within the width of its
    fields: the evidence decoder, which reads what a peer sends. *)
From S2P Require Import Prelude Status Core Bytes Policy Accounting Evidence Codec CodecSpec.
#[local] Open Scope string_scope.
#[local] Open Scope list_scope.
#[local] Open Scope Z_scope.

(** A reader that consumes bytes and only returns values of [P]. *)
Class Yields {A} (r : Reader A) (P : A → Prop) : Prop :=
  yields : ∀ bs a rest, byte_list bs → r bs = Some (a, rest) → P a ∧ byte_list rest.

Lemma yields_canonical {A} (w : A → ByteBuffer) (r : Reader A) P `{!Canonical w r P} : Yields r P.
Proof. intros bs a rest Hb Hr. by destruct (canonical bs a rest Hb Hr) as (? & ? & _). Qed.

#[export] Instance u16_yields : Yields r_u16 u16 := yields_canonical w_u16 _ _.
#[export] Instance u32_yields : Yields r_u32 u32 := yields_canonical w_u32 _ _.
#[export] Instance u64_yields : Yields r_u64 u64 := yields_canonical w_u64 _ _.
#[export] Instance i64_yields : Yields r_i64 i64 := yields_canonical w_i64 _ _.
#[export] Instance blob_yields max : Yields (r_blob max) (λ s, str_size s <= max ∧ u32 (str_size s)) :=
  yields_canonical w_blob _ _.

Lemma yields_ret {A} (a : A) (P : A → Prop) : P a → Yields (reader_ret a) P.
Proof. intros Ha bs a' rest Hb. by intros [= <- <-]. Qed.

Lemma yields_bind {A B} (m : Reader A) (k : A → Reader B) (P : A → Prop) (Q : B → Prop) :
  Yields m P → (∀ a, P a → Yields (k a) Q) → Yields (reader_bind m k) Q.
Proof.
  intros Hm Hk bs b rest Hb. unfold reader_bind. destruct (m bs) as [[a rest']|] eqn:E; [|done].
  destruct (Hm _ _ _ Hb E) as [Ha Hr]. by apply (Hk a Ha).
Qed.

Lemma yields_repeat {A} (r : Reader A) P n : Yields r P → Yields (r_repeat n r) (Forall P).
Proof.
  intros Hr. induction n as [|n IH]; [by apply yields_ret|]. cbn [r_repeat].
  eapply yields_bind; [exact Hr|intros a Ha]. eapply yields_bind; [exact IH|intros l Hl]. apply yields_ret. by constructor.
Qed.

(** Walks a sequence of reads. *)
Ltac yield_fields :=
  repeat (eapply yields_bind; [typeclasses eauto|intros ? ?]); apply yields_ret.

#[export] Instance ref_yields : Yields read_ref ref_typed.
Proof. unfold read_ref. yield_fields. done. Qed.

#[export] Instance provenance_yields : Yields read_provenance provenance_typed.
Proof. unfold read_provenance. yield_fields. done. Qed.

#[export] Instance observation_yields : Yields read_observation observation_typed.
Proof. unfold read_observation. yield_fields. by constructor. Qed.

#[export] Instance evidence_fields_yields :
  Yields read_evidence_fields (λ p, ∀ l, Forall observation_typed l → evidence_typed (p.1 l)).
Proof. unfold read_evidence_fields. yield_fields. intros l Hl. by constructor. Qed.

Lemma read_or_yields {A} code detail (r : Reader A) P `{!Yields r P} bs x :
  byte_list bs → read_or code detail r bs = Value x → P x.1 ∧ byte_list x.2.
Proof.
  unfold read_or. intros Hb Hx. destruct (r bs) as [[a rest]|] eqn:E; [|done]. injection Hx as <-.
  by apply (yields bs a rest).
Qed.

(** Whatever bytes it is given, the evidence decoder returns a snapshot whose
    fields are within their width and which is valid, or refuses. *)
Lemma decode_evidence_sound bs e : byte_list bs → decode_evidence bs = Value e → evidence_typed e ∧ evidence_wf e.
Proof.
  intros Hb Hd. assert (evidence_typed e) as Te.
  { revert Hd. unfold decode_evidence. intros Hd. case_bool; [discriminate Hd|].
    apply result_bind_value in Hd as ([version bs1] & E1 & Hd). case_bool; [discriminate Hd|].
    apply read_or_yields with (P := u16) in E1 as [_ Hbs1]; [|typeclasses eauto|done]. cbn in Hbs1.
    apply result_bind_value in Hd as ([[snapshot count] bs2] & E2 & Hd).
    apply (read_or_yields _ _ _ _ _ _ Hbs1) in E2 as [Hf Hbs2]. cbn in Hf, Hbs2.
    case_bool; [discriminate Hd|]. apply result_bind_value in Hd as ([l bs3] & E3 & Hd).
    eapply read_or_yields in E3 as [Hl _]; [|apply yields_repeat, observation_yields|done]. cbn in Hl.
    case_bool; [discriminate Hd|]. apply result_bind_value in Hd as ([] & _ & Hd). injection Hd as <-. by apply Hf. }
  split; [done|]. apply validate_evidence_iff; [done|]. by eapply decode_evidence_valid.
Qed.
