(* ===== verification/Engine.v ===== *)
(** The pure evaluation engine, part one: its inputs and what it works out for
    each subject before the corrective plan.  [src/eval/engine.cpp], lines
    20-43 and 531-866, with [EvaluationRequest] and [EvaluationContext] of
    [eval/governor.hpp].

    [SubjectPlan] is the planner's record; a loop of the source over
    [policy.subjects] and [plans] in step is a function of one subject and its
    plan, mapped over both.  The accounting index of the source keeps the first
    entry of an identity, as [accounting_find] does. *)
From S2P Require Import Prelude Status Core U128 Bytes Policy Accounting Evidence Outcome Codec Allocation Distributor.
#[local] Open Scope string_scope.
#[local] Open Scope list_scope.
#[local] Open Scope Z_scope.

(** ** Inputs *)

Record EvaluationRequest := mk_request {
  rq_policy_id : Z;
  rq_policy_generation : Z;
  rq_epoch : Z;
  rq_evidence_id : Z;
  rq_evidence_generation : Z;
  rq_window : Z;
  rq_window_generation : Z;
  rq_now_ns : Z;
  rq_request_id : Z;
  rq_attempt : Z;
  rq_treat_missing_as_unknown : bool;
  rq_allow_stale_result : bool }.

(** Null pointers are [None]. *)
Record EvaluationContext := mk_context {
  ctx_policy : option FairnessPolicy;
  ctx_accounting : option FairnessAccounting;
  ctx_evidence : option EvidenceSnapshot;
  ctx_request : EvaluationRequest;
  ctx_current_epoch : Z;
  ctx_current_window : Z;
  ctx_last_committed_window : Z }.

(** ** Diagnostic notes *)

Definition kMaxNotes : Z := 64.
Definition kMaxNoteDetail : Z := 192.

(** [std::string::resize] to a smaller size. *)
Definition truncate (s : string) (size : Z) : string :=
  if str_size s >? size then String.substring 0 (Z.to_nat size) s else s.

Definition add_note (notes : list DiagnosticNote) (code : StatusCode.t) (reason : ReasonCode.t)
    (id : Z) (detail : string) : list DiagnosticNote :=
  if sizeZ notes >=? kMaxNotes then notes
  else notes ++ [mk_note code reason id (truncate detail kMaxNoteDetail)].

(** ** The plan of one subject *)

Record SubjectPlan := mk_plan {
  sp_has_authority : bool;
  sp_outcome : Outcome.t;
  sp_reason : ReasonCode.t;
  sp_served : Z;
  sp_entitlement : Z;
  sp_base_entitlement : Z;
  sp_group_entitlement : Z;
  sp_floor_binding : bool;
  sp_this_window_deficit : Z;
  sp_effective_deficit : Z;
  sp_surplus : Z;
  sp_deviation : Z;
  sp_unserved_streak : Z;
  sp_below_floor_streak : Z;
  sp_starving : bool;
  sp_cooling : bool;
  sp_demand : Z;
  sp_reducible : Z;
  sp_withheld : Z;
  sp_augment : Z;
  sp_reduce : Z;
  sp_blocked : bool;
  sp_carry : CarryOutcome;
  sp_observed_priority : ClassRef;
  sp_observed_qos : ClassRef }.

Definition no_carry : CarryOutcome := mk_carry 0 0 0 0 0 0 0 0 false.

(** Default member initialisers. *)
Definition default_plan : SubjectPlan :=
  mk_plan false Outcome.Unknown ReasonCode.EvidenceAbsent 0 0 0 0 false 0 0 0 0 0 0 false false
    0 0 0 0 0 false no_carry no_ref no_ref.

(** Assignments to a plan, by the group of members the source sets together. *)
Definition set_verdict (outcome : Outcome.t) (reason : ReasonCode.t) (p : SubjectPlan) :
    SubjectPlan :=
  mk_plan (sp_has_authority p) outcome reason (sp_served p) (sp_entitlement p)
    (sp_base_entitlement p) (sp_group_entitlement p) (sp_floor_binding p) (sp_this_window_deficit
    p) (sp_effective_deficit p) (sp_surplus p) (sp_deviation p) (sp_unserved_streak p)
    (sp_below_floor_streak p) (sp_starving p) (sp_cooling p) (sp_demand p) (sp_reducible p)
    (sp_withheld p) (sp_augment p) (sp_reduce p) (sp_blocked p) (sp_carry p) (sp_observed_priority
    p) (sp_observed_qos p).

Definition set_authority (has_authority : bool) (outcome : Outcome.t) (reason : ReasonCode.t)
    (served : Z) (observed_priority : ClassRef) (observed_qos : ClassRef) (p : SubjectPlan) :
    SubjectPlan :=
  mk_plan has_authority outcome reason served (sp_entitlement p) (sp_base_entitlement p)
    (sp_group_entitlement p) (sp_floor_binding p) (sp_this_window_deficit p) (sp_effective_deficit
    p) (sp_surplus p) (sp_deviation p) (sp_unserved_streak p) (sp_below_floor_streak p)
    (sp_starving p) (sp_cooling p) (sp_demand p) (sp_reducible p) (sp_withheld p) (sp_augment p)
    (sp_reduce p) (sp_blocked p) (sp_carry p) observed_priority observed_qos.

Definition set_numbers (entitlement : Z) (base_entitlement : Z) (group_entitlement : Z)
    (floor_binding : bool) (this_window_deficit : Z) (effective_deficit : Z) (surplus : Z)
    (deviation : Z) (unserved_streak : Z) (below_floor_streak : Z) (carry : CarryOutcome) (p :
    SubjectPlan) : SubjectPlan :=
  mk_plan (sp_has_authority p) (sp_outcome p) (sp_reason p) (sp_served p) entitlement
    base_entitlement group_entitlement floor_binding this_window_deficit effective_deficit surplus
    deviation unserved_streak below_floor_streak (sp_starving p) (sp_cooling p) (sp_demand p)
    (sp_reducible p) (sp_withheld p) (sp_augment p) (sp_reduce p) (sp_blocked p) carry
    (sp_observed_priority p) (sp_observed_qos p).

Definition set_streaks (unserved_streak : Z) (below_floor_streak : Z) (starving : bool) (reason :
    ReasonCode.t) (p : SubjectPlan) : SubjectPlan :=
  mk_plan (sp_has_authority p) (sp_outcome p) reason (sp_served p) (sp_entitlement p)
    (sp_base_entitlement p) (sp_group_entitlement p) (sp_floor_binding p) (sp_this_window_deficit
    p) (sp_effective_deficit p) (sp_surplus p) (sp_deviation p) unserved_streak below_floor_streak
    starving (sp_cooling p) (sp_demand p) (sp_reducible p) (sp_withheld p) (sp_augment p)
    (sp_reduce p) (sp_blocked p) (sp_carry p) (sp_observed_priority p) (sp_observed_qos p).

Definition set_demand (cooling : bool) (demand : Z) (reducible : Z) (withheld : Z) (p :
    SubjectPlan) : SubjectPlan :=
  mk_plan (sp_has_authority p) (sp_outcome p) (sp_reason p) (sp_served p) (sp_entitlement p)
    (sp_base_entitlement p) (sp_group_entitlement p) (sp_floor_binding p) (sp_this_window_deficit
    p) (sp_effective_deficit p) (sp_surplus p) (sp_deviation p) (sp_unserved_streak p)
    (sp_below_floor_streak p) (sp_starving p) cooling demand reducible withheld (sp_augment p)
    (sp_reduce p) (sp_blocked p) (sp_carry p) (sp_observed_priority p) (sp_observed_qos p).

Definition set_augment (augment : Z) (p : SubjectPlan) : SubjectPlan :=
  mk_plan (sp_has_authority p) (sp_outcome p) (sp_reason p) (sp_served p) (sp_entitlement p)
    (sp_base_entitlement p) (sp_group_entitlement p) (sp_floor_binding p) (sp_this_window_deficit
    p) (sp_effective_deficit p) (sp_surplus p) (sp_deviation p) (sp_unserved_streak p)
    (sp_below_floor_streak p) (sp_starving p) (sp_cooling p) (sp_demand p) (sp_reducible p)
    (sp_withheld p) augment (sp_reduce p) (sp_blocked p) (sp_carry p) (sp_observed_priority p)
    (sp_observed_qos p).

Definition set_reduce (reduce : Z) (p : SubjectPlan) : SubjectPlan :=
  mk_plan (sp_has_authority p) (sp_outcome p) (sp_reason p) (sp_served p) (sp_entitlement p)
    (sp_base_entitlement p) (sp_group_entitlement p) (sp_floor_binding p) (sp_this_window_deficit
    p) (sp_effective_deficit p) (sp_surplus p) (sp_deviation p) (sp_unserved_streak p)
    (sp_below_floor_streak p) (sp_starving p) (sp_cooling p) (sp_demand p) (sp_reducible p)
    (sp_withheld p) (sp_augment p) reduce (sp_blocked p) (sp_carry p) (sp_observed_priority p)
    (sp_observed_qos p).

Definition set_blocked (blocked : bool) (p : SubjectPlan) : SubjectPlan :=
  mk_plan (sp_has_authority p) (sp_outcome p) (sp_reason p) (sp_served p) (sp_entitlement p)
    (sp_base_entitlement p) (sp_group_entitlement p) (sp_floor_binding p) (sp_this_window_deficit
    p) (sp_effective_deficit p) (sp_surplus p) (sp_deviation p) (sp_unserved_streak p)
    (sp_below_floor_streak p) (sp_starving p) (sp_cooling p) (sp_demand p) (sp_reducible p)
    (sp_withheld p) (sp_augment p) (sp_reduce p) blocked (sp_carry p) (sp_observed_priority p)
    (sp_observed_qos p).


(** [bump_streak]: saturating. *)
Definition kStreakSaturation : Z := 1000000.
Definition bump_streak (value : Z) : Z :=
  if value >=? kStreakSaturation then kStreakSaturation else wrap32 (value + 1).

(** [same_priority], [same_qos]. *)
Definition same_ref (a b : ClassRef) : bool :=
  (ref_id a =? ref_id b) && (ref_generation a =? ref_generation b).

(** The 21 bytes hashed into an intervention identity. *)
Definition intervention_id (window subject : Z) (direction : CorrectionDirection.t) (attempt : Z) : Z :=
  let digest :=
    fnv1a64 (store_le 8 window ++ store_le 8 subject
             ++ w_u8 (CorrectionDirection.value direction) ++ store_le 4 attempt) kFnvOffsetBasis in
  if digest =? 0 then 1 else digest.

(** ** Global evidence eligibility *)

(** Why no evidence authority exists for a request. *)
Record Ineligible := mk_ineligible {
  in_outcome : Outcome.t; in_reason : ReasonCode.t; in_code : StatusCode.t }.

Definition stale (reason : ReasonCode.t) (code : StatusCode.t) : option Ineligible :=
  Some (mk_ineligible Outcome.Stale reason code).

(** The window rules: replayed, future, and too old windows. *)
Definition check_window (policy : FairnessPolicy) (ctx : EvaluationContext) : option Ineligible :=
  let request := ctx_request ctx in
  if valid (ctx_last_committed_window ctx) && valid (rq_window request)
     && (rq_window request <=? ctx_last_committed_window ctx) then
    stale ReasonCode.EvidenceStaleWindow StatusCode.StaleEvidence
  else if valid (ctx_current_window ctx) && valid (rq_window request) then
    if rq_window request >? ctx_current_window ctx then
      stale ReasonCode.EvidenceStaleWindow StatusCode.EvidenceMissing
    else if sub64 (ctx_current_window ctx) (rq_window request) >? pol_max_evidence_age_windows policy then
      stale ReasonCode.EvidenceStaleAge StatusCode.StaleEvidence
    else None
  else None.

(** The identity rules of the snapshot, then the window rules. *)
Definition check_snapshot (policy : FairnessPolicy) (ctx : EvaluationContext)
    (evidence : EvidenceSnapshot) : option Ineligible :=
  let request := ctx_request ctx in
  if negb (ev_id evidence =? rq_evidence_id request)
     || negb (ev_generation evidence =? rq_evidence_generation request) then
    stale ReasonCode.EvidenceStaleGeneration StatusCode.StaleEvidence
  else if negb (ev_epoch evidence =? ctx_current_epoch ctx) then
    stale ReasonCode.EvidenceStaleEpoch StatusCode.StaleEpoch
  else if negb (ev_window evidence =? rq_window request)
          || negb (ev_window_generation evidence =? rq_window_generation request) then
    stale ReasonCode.EvidenceStaleWindow StatusCode.StaleEvidence
  else check_window policy ctx.

(** The age rule in nanoseconds, judged only when everything else held. *)
Definition check_age (policy : FairnessPolicy) (ctx : EvaluationContext)
    (evidence : EvidenceSnapshot) : option Ineligible :=
  let request := ctx_request ctx in
  if pol_max_evidence_age_ns policy >? 0 then
    if ev_captured_at_ns evidence >? rq_now_ns request then
      stale ReasonCode.EvidenceStaleAge StatusCode.StaleEvidence
    else if wrap64 (rq_now_ns request - ev_captured_at_ns evidence) >? pol_max_evidence_age_ns policy then
      stale ReasonCode.EvidenceStaleAge StatusCode.StaleEvidence
    else None
  else None.

(** [None]: [global_ok] holds. *)
Definition eligibility (policy : FairnessPolicy) (ctx : EvaluationContext) : option Ineligible :=
  let request := ctx_request ctx in
  if negb (rq_policy_id request =? pol_id policy)
     || negb (rq_policy_generation request =? pol_generation policy) then
    stale ReasonCode.PolicyGenerationMismatch StatusCode.PolicyGenerationMismatch
  else if negb (valid (ctx_current_epoch ctx)) || negb (pol_epoch policy =? ctx_current_epoch ctx)
          || negb (rq_epoch request =? ctx_current_epoch ctx) then
    stale ReasonCode.EvidenceStaleEpoch StatusCode.StaleEpoch
  else
    match ctx_evidence ctx with
    | None => Some (mk_ineligible Outcome.Unknown ReasonCode.EvidenceAbsent StatusCode.EvidenceMissing)
    | Some evidence =>
        match check_snapshot policy ctx evidence with
        | Some failure => Some failure
        | None => check_age policy ctx evidence
        end
    end.

(** ** Per-subject authority *)

(** The plan of every subject when there is no evidence authority at all. *)
Definition plan_without_authority (request : EvaluationRequest) (failure : Ineligible) : SubjectPlan :=
  let outcome :=
    if decide (in_outcome failure = Outcome.Unknown) then
      if negb (rq_treat_missing_as_unknown request) then Outcome.Stale else Outcome.Unknown
    else Outcome.Stale in
  set_verdict outcome (in_reason failure) default_plan.

Definition plan_from_evidence (request : EvaluationRequest) (accounting : FairnessAccounting)
    (evidence : EvidenceSnapshot) (subject : Subject) : SubjectPlan :=
  match evidence_find evidence (subj_id subject) with
  | None =>
      set_verdict (if rq_treat_missing_as_unknown request then Outcome.Unknown else Outcome.Stale)
        ReasonCode.EvidenceAbsent default_plan
  | Some observation =>
      if negb (obs_generation observation =? subj_generation subject) then
        set_verdict Outcome.Stale ReasonCode.SubjectGenerationMismatch default_plan
      else if ref_present (subj_priority subject)
              && negb (same_ref (obs_priority observation) (subj_priority subject)) then
        set_verdict Outcome.Stale ReasonCode.PriorityReferenceMismatch default_plan
      else if ref_present (subj_qos subject)
              && negb (same_ref (obs_qos observation) (subj_qos subject)) then
        set_verdict Outcome.Stale ReasonCode.PriorityReferenceMismatch default_plan
      else
        let authorized :=
          set_authority true Outcome.Fair ReasonCode.WithinFairBand (obs_served_units observation)
            (obs_priority observation) (obs_qos observation) default_plan in
        match accounting_find accounting (subj_id subject) with
        | None => authorized
        | Some entry =>
            if negb (sa_generation entry =? subj_generation subject) then
              set_verdict Outcome.Stale ReasonCode.SubjectGenerationMismatch default_plan
            else authorized
        end
  end.

(** Observations of subjects the policy does not govern are noted and ignored. *)
Definition note_ungoverned (policy : FairnessPolicy) (evidence : EvidenceSnapshot)
    (notes : list DiagnosticNote) : list DiagnosticNote :=
  foldl (λ notes o,
    if existsb (λ s, subj_id s =? obs_id o) (pol_subjects policy) then notes
    else add_note notes StatusCode.NotFound ReasonCode.None (obs_id o)
           "evidence names a subject that the policy does not govern; ignored")
    notes (ev_observations evidence).

Definition authority_plans (policy : FairnessPolicy) (accounting : FairnessAccounting)
    (ctx : EvaluationContext) : list SubjectPlan * list DiagnosticNote :=
  let request := ctx_request ctx in
  match eligibility policy ctx, ctx_evidence ctx with
  | Some failure, _ =>
      ((λ _, plan_without_authority request failure) <$> pol_subjects policy,
       add_note [] (in_code failure) (in_reason failure) 0 "no evidence authority for this request")
  | None, Some evidence =>
      (plan_from_evidence request accounting evidence <$> pol_subjects policy,
       note_ungoverned policy evidence [])
  | None, None => ((λ _, default_plan) <$> pol_subjects policy, [])
  end.

(** ** The whole to distribute *)

Definition counted_service (plan : SubjectPlan) : Z := if sp_has_authority plan then sp_served plan else 0.

Definition whole_of (plans : list SubjectPlan) : Result Z :=
  match checked_total counted_service 0 plans with
  | None => fail StatusCode.ArithmeticOverflow "total observed service overflows"
  | Some whole => Value whole
  end.

(** ** Per-subject authoritative numbers *)

Definition window_net (entitlement served : Z) : Z := to_i64 entitlement - to_i64 served.

Definition number_plan (policy : FairnessPolicy) (accounting : FairnessAccounting) (d : Distributor)
    (entry : nat * Subject * SubjectPlan) : Result SubjectPlan :=
  let '(i, subject, plan) := entry in
  if negb (sp_has_authority plan) then Value plan
  else
    let entitlement := at_ (d_subject_effective d) i in
    let node_index := default O (d_by_id d !! subj_group subject) in
    let group_entitlement := gn_allocation (node_at (d_nodes d) node_index) in
    let found := accounting_find accounting (subj_id subject) in
    let carried_deficit :=
      match found with
      | None => 0
      | Some e => Z.min (sa_cumulative_deficit e) (pol_max_carry_units policy)
      end in
    let this_window_deficit :=
      if sp_served plan <? entitlement then sub64 entitlement (sp_served plan) else 0 in
    let this_window_surplus :=
      if sp_served plan >? entitlement then sub64 (sp_served plan) entitlement else 0 in
    match checked_add this_window_deficit carried_deficit with
    | None => fail StatusCode.ArithmeticOverflow "effective deficit overflows"
    | Some effective_deficit =>
        let durable_unserved := match found with None => 0 | Some e => sa_unserved_streak e end in
        let durable_below := match found with None => 0 | Some e => sa_below_floor_streak e end in
        let after_unserved := if sp_served plan =? 0 then bump_streak durable_unserved else 0 in
        let after_below :=
          if (subj_guarantee_floor subject >? 0) && (sp_served plan <? subj_guarantee_floor subject)
          then bump_streak durable_below else 0 in
        let net := window_net entitlement (sp_served plan) in
        match apply_window_carry (default empty_subject_accounting found) net
                (pol_max_carry_units policy) with
        | None => fail StatusCode.ArithmeticOverflow "carry application overflows"
        | Some carry =>
            Value (set_numbers entitlement (at_ (d_subject_base d) i) group_entitlement
                     (nth i (d_subject_floor_binding d) false) this_window_deficit effective_deficit
                     this_window_surplus (to_i64 (sp_served plan) - to_i64 entitlement)
                     after_unserved after_below carry plan)
        end
    end.

(** ** Starvation *)

(** The larger of the durable streak and the producer's, and the verdict. *)
Definition streak_plan (evidence : EvidenceSnapshot) (subject : Subject) (plan : SubjectPlan)
    : SubjectPlan :=
  if negb (sp_has_authority plan) then plan
  else
    match evidence_find evidence (subj_id subject) with
    | None => plan
    | Some observation =>
        let unserved_streak := Z.max (sp_unserved_streak plan) (obs_unserved_streak observation) in
        let below_floor_streak :=
          Z.max (sp_below_floor_streak plan) (obs_below_floor_streak observation) in
        let unserved_starving :=
          (subj_starvation_windows subject >? 0)
          && (unserved_streak >=? subj_starvation_windows subject) in
        let floor_starving :=
          (subj_guarantee_starvation_windows subject >? 0) && (subj_guarantee_floor subject >? 0)
          && (below_floor_streak >=? subj_guarantee_starvation_windows subject) in
        let starving := unserved_starving || floor_starving in
        set_streaks unserved_streak below_floor_streak starving
          (if starving then
             if unserved_starving then ReasonCode.StarvationUnserved else ReasonCode.StarvationBelowFloor
           else sp_reason plan) plan
    end.

Definition streak_plans (policy : FairnessPolicy) (ctx : EvaluationContext)
    (plans : list SubjectPlan) : list SubjectPlan :=
  match eligibility policy ctx, ctx_evidence ctx with
  | None, Some evidence => zip_with (streak_plan evidence) (pol_subjects policy) plans
  | _, _ => plans
  end.
