(* ===== verification/Planner.v ===== *)
(** The pure evaluation engine, part two: the bounded corrective plan, the
    outcomes and the decision.  [src/eval/engine.cpp], lines 868-1278.

    The orders of the source are lists of positions; the vector of plans is
    updated position by position along them. *)
From S2P Require Import Prelude Status Core U128 Policy Accounting Evidence Outcome Codec Allocation Distributor Engine.
#[local] Open Scope string_scope.
#[local] Open Scope list_scope.
#[local] Open Scope Z_scope.

Definition plan_at (plans : list SubjectPlan) (i : nat) : SubjectPlan := nth i plans default_plan.

(** ** Demand and supply *)

(** A recent correction suppresses another one, starvation apart. *)
Definition cooling_down (policy : FairnessPolicy) (request : EvaluationRequest)
    (found : option SubjectAccounting) (starving : bool) : bool :=
  match found with
  | None => false
  | Some e =>
      (pol_cooldown_windows policy >? 0) && valid (sa_last_correction_window e)
      && valid (rq_window request) && (rq_window request >=? sa_last_correction_window e)
      && (sub64 (rq_window request) (sa_last_correction_window e) <? pol_cooldown_windows policy)
      && negb starving
  end.

(** What a protected obligation lets go of: what is served above its floor. *)
Definition protected_headroom (subject : Subject) (served cap : Z) : Z :=
  if subj_protected_obligation subject then
    Z.min cap (if served >? subj_guarantee_floor subject
               then sub64 served (subj_guarantee_floor subject) else 0)
  else cap.

Definition demand_plan (policy : FairnessPolicy) (accounting : FairnessAccounting)
    (request : EvaluationRequest) (subject : Subject) (plan : SubjectPlan) : SubjectPlan :=
  if negb (sp_has_authority plan) then plan
  else
    let cooling :=
      sp_cooling plan
      || cooling_down policy request (accounting_find accounting (subj_id subject)) (sp_starving plan) in
    let demand_side := sp_effective_deficit plan >? pol_fair_band_units policy in
    let demand :=
      if demand_side && negb cooling then
        Z.min (sp_effective_deficit plan) (Z.min (subj_max_augment_units subject) kMaxServiceUnits)
      else sp_demand plan in
    if sp_surplus plan >? 0 then
      let cap := Z.min (sp_surplus plan) (subj_max_reduce_units subject) in
      let allowed := protected_headroom subject (sp_served plan) cap in
      set_demand cooling demand allowed (sub64 cap allowed) plan
    else set_demand cooling demand (sp_reducible plan) (sp_withheld plan) plan.

(** ** Totals and budget *)

Record Budget := mk_budget {
  bg_pool : Z; bg_demand : Z; bg_withheld : Z; bg_bps : Z; bg_authorized : Z }.

Definition correction_totals (plans : list SubjectPlan) : Result (Z * Z * Z) :=
  fold_result (λ totals plan,
    let '(pool, demand, withheld) := totals in
    match checked_add pool (sp_reducible plan), checked_add demand (sp_demand plan),
          checked_add withheld (sp_withheld plan) with
    | Some pool, Some demand, Some withheld => Value (pool, demand, withheld)
    | _, _, _ => fail StatusCode.ArithmeticOverflow "correction totals overflow"
    end) (0, 0, 0) plans.

Definition basis_point_budget (policy : FairnessPolicy) (whole : Z) : Result Z :=
  if pol_max_correction_bps policy <? 100000 then
    let computed := mul_div whole (pol_max_correction_bps policy) kBasisPointScale in
    reject (negb (md_ok computed))
      with StatusCode.ArithmeticOverflow, "basis point budget overflows" ;;
    Value (md_value computed)
  else Value (mul64 kMaxServiceUnits kMaxSubjects).

Definition correction_budget (policy : FairnessPolicy) (whole : Z) (plans : list SubjectPlan)
    : Result Budget :=
  let? (pool, demand, withheld) := correction_totals plans in
  let? bps := basis_point_budget policy whole in
  Value (mk_budget pool demand withheld bps
           (Z.min pool (Z.min demand (Z.min (pol_max_correction_units policy) bps)))).

(** ** The two orders *)

Section orders.
  Context (policy : FairnessPolicy) (plans : list SubjectPlan).

Definition demand_before (a b : nat) : bool :=
    let pa := plan_at plans a in
    let pb := plan_at plans b in
    let sa := subject_at policy a in
    let sb := subject_at policy b in
    if negb (eqb (sp_starving pa) (sp_starving pb)) then sp_starving pa
    else if negb (sp_demand pa =? sp_demand pb) then sp_demand pa >? sp_demand pb
    else if negb (subj_obligation_rank sa =? subj_obligation_rank sb) then
      subj_obligation_rank sa >? subj_obligation_rank sb
    else subj_id sa <? subj_id sb.

Definition supply_before (a b : nat) : bool :=
    let pa := plan_at plans a in
    let pb := plan_at plans b in
    let sa := subject_at policy a in
    let sb := subject_at policy b in
    if negb (sp_reducible pa =? sp_reducible pb) then sp_reducible pa >? sp_reducible pb
    else if negb (subj_obligation_rank sa =? subj_obligation_rank sb) then
      subj_obligation_rank sa <? subj_obligation_rank sb
    else subj_id sa <? subj_id sb.

Definition demand_order : list nat :=
    sort_by demand_before
      (filter (λ i, sp_has_authority (plan_at plans i) && (sp_demand (plan_at plans i) >? 0))
         (seq 0 (length (pol_subjects policy)))).

Definition supply_order : list nat :=
    sort_by supply_before
      (filter (λ i, sp_has_authority (plan_at plans i) && (sp_reducible (plan_at plans i) >? 0))
         (seq 0 (length (pol_subjects policy)))).
End orders.

(** ** Grants *)

(** The augmentation and reduction loops fill a vector of grants; the plans then
    hold them ([plans[index].augment = grant]). *)
Definition grant_augments (policy : FairnessPolicy) (plans : list SubjectPlan) (authorized : Z)
    : Result (list SubjectPlan) :=
  let '(grants, remaining) :=
    drain true (λ i, sp_demand (plan_at plans i)) (λ _ grant, grant) (demand_order policy plans)
      authorized (sp_augment <$> plans) in
  reject (negb (sub64 authorized remaining =? authorized))
    with StatusCode.Internal, "augmentation did not consume the authorized budget" ;;
  Value (zip_with set_augment grants plans).

Definition grant_reductions (policy : FairnessPolicy) (plans : list SubjectPlan) (authorized : Z)
    : Result (list SubjectPlan) :=
  let '(takes, remaining) :=
    drain true (λ i, sp_reducible (plan_at plans i)) (λ _ take, take) (supply_order policy plans)
      authorized (sp_reduce <$> plans) in
  reject (negb (remaining =? 0))
    with StatusCode.Internal, "reductions did not cover the authorized budget" ;;
  Value (zip_with set_reduce takes plans).

(** ** Unsatisfied demand and obligation blocking *)

Definition unsatisfied_total (policy : FairnessPolicy) (plans : list SubjectPlan) : Result Z :=
  fold_result (λ unsatisfied plan,
    if negb (sp_has_authority plan) || sp_cooling plan
       || (sp_effective_deficit plan <=? pol_fair_band_units policy) then Value unsatisfied
    else
      match checked_add unsatisfied (sub64 (sp_effective_deficit plan) (sp_augment plan)) with
      | None => fail StatusCode.ArithmeticOverflow "unsatisfied demand overflows"
      | Some sum => Value sum
      end) 0 plans.

(** Only subjects of the demand order are marked. *)
Definition mark_blocked (policy : FairnessPolicy) (order : list nat) (blocked : bool)
    (plans : list SubjectPlan) : list SubjectPlan :=
  foldl (λ plans index,
    let plan := plan_at plans index in
    let subject_cap := subj_max_augment_units (subject_at policy index) in
    let cap_unmet :=
      if sp_effective_deficit plan >? subject_cap
      then sub64 (sp_effective_deficit plan) subject_cap else 0 in
    let unmet := sub64 (sp_effective_deficit plan) (sp_augment plan) in
    alter (set_blocked (blocked && (unmet >? cap_unmet))) index plans) plans order.

(** ** Outcomes *)

Definition deficit_verdict (policy : FairnessPolicy) (subject : Subject) (plan : SubjectPlan)
    : SubjectPlan :=
  let deficit_reason :=
    if sp_floor_binding plan then ReasonCode.GuaranteeFloorDeficit
    else ReasonCode.WeightedShareDeficit in
  let severe := sp_effective_deficit plan >=? pol_correction_threshold_units policy in
  if sp_blocked plan then
    set_verdict Outcome.BlockedByStrongerObligation ReasonCode.ProtectedObligationHeld plan
  else if sp_augment plan >? 0 then
    set_verdict (if severe then Outcome.CorrectionRequired else Outcome.UnderServed) deficit_reason plan
  else
    set_verdict Outcome.UnderServed
      (if sp_cooling plan then ReasonCode.CorrectiveCooldown
       else if subj_max_augment_units subject =? 0 then ReasonCode.PolicyBoundReached
       else if sp_effective_deficit plan >? sp_demand plan then ReasonCode.SubjectCapReached
       else ReasonCode.CorrectiveBudgetExhausted) plan.

Definition outcome_plan (policy : FairnessPolicy) (subject : Subject) (plan : SubjectPlan)
    : SubjectPlan :=
  if negb (sp_has_authority plan) then plan
  else if sp_starving plan then
    if sp_blocked plan then
      set_verdict Outcome.BlockedByStrongerObligation ReasonCode.ProtectedObligationHeld plan
    else set_verdict Outcome.StarvationRisk (sp_reason plan) plan
  else if sp_effective_deficit plan >? pol_fair_band_units policy then
    deficit_verdict policy subject plan
  else if sp_surplus plan >? pol_fair_band_units policy then
    set_verdict Outcome.OverServed
      (if sp_floor_binding plan then ReasonCode.GuaranteeFloorSurplus
       else ReasonCode.WeightedShareSurplus) plan
  else set_verdict Outcome.Fair ReasonCode.WithinFairBand plan.

(** ** Subject states *)

(** The modifier in force and whether the policy bound clipped it. *)
Definition applied_modifier (policy : FairnessPolicy) (subject : Subject) : Z * bool :=
  let bound := to_i32 (pol_max_priority_modifier_bps policy) in
  if subj_priority_modifier_bps subject >? bound then (bound, true)
  else if subj_priority_modifier_bps subject <? - bound then (- bound, true)
  else (subj_priority_modifier_bps subject, false).

Definition subject_state (policy : FairnessPolicy) (subject : Subject) (plan : SubjectPlan)
    : SubjectFairnessState :=
  let '(modifier, clipped) := applied_modifier policy subject in
  mk_subject_state (subj_id subject) (subj_generation subject) (subj_group subject)
    (sp_outcome plan) (sp_reason plan) (sp_has_authority plan)
    (subj_protected_obligation subject) (subj_obligation_rank subject)
    (sp_group_entitlement plan) (sp_entitlement plan) (sp_base_entitlement plan)
    (subj_guarantee_floor subject)
    (to_i64 (sp_entitlement plan) - to_i64 (sp_base_entitlement plan)) modifier clipped
    (sp_served plan) (sp_deviation plan) (sp_this_window_deficit plan) (sp_surplus plan)
    (co_cumulative_deficit (sp_carry plan)) (co_cumulative_surplus (sp_carry plan))
    (sp_unserved_streak plan) (sp_below_floor_streak plan) (subj_starvation_windows subject)
    (subj_guarantee_starvation_windows subject) (sp_augment plan) (sp_reduce plan)
    (if sp_effective_deficit plan >? pol_fair_band_units policy
     then sub64 (sp_effective_deficit plan) (sp_augment plan) else 0)
    (subj_priority subject) (sp_observed_priority plan) (subj_label subject).

(** ** Group roll-ups *)

(** The served and withheld units of every group and its ancestors. *)
Definition group_totals (d : Distributor) (policy : FairnessPolicy) (plans : list SubjectPlan)
    : list Z * list Z :=
  foldl (λ totals entry,
    let '(served, withheld) := totals in
    let '(subject, plan) := entry in
    match d_by_id d !! subj_group subject with
    | None => (served, withheld)
    | Some cursor =>
        (if sp_has_authority plan
         then add_up_chain (d_nodes d) kMaxGroupDepth cursor (sp_served plan) served else served,
         if sp_withheld plan >? 0
         then add_up_chain (d_nodes d) kMaxGroupDepth cursor (sp_withheld plan) withheld
         else withheld)
    end)
    (gn_served <$> d_nodes d, replicate (length (d_nodes d)) 0) (zip (pol_subjects policy) plans).

Definition group_state (d : Distributor) (served withheld : list Z) (entry : nat * FairnessGroup)
    : GroupFairnessState :=
  let '(g, group) := entry in
  let node := node_at (d_nodes d) g in
  mk_group_state (group_id group) (group_generation group) (group_parent group) (gn_depth node)
    (gn_allocation node) (at_ served g) (to_i64 (at_ served g) - to_i64 (gn_allocation node))
    (group_protected_obligation group) (group_obligation_rank group)
    (group_guarantee_floor group) (at_ withheld g >? 0) (group_label group).

Definition group_states (d : Distributor) (policy : FairnessPolicy) (plans : list SubjectPlan)
    : list GroupFairnessState :=
  let '(served, withheld) := group_totals d policy plans in
  group_state d served withheld <$> imap pair (pol_groups policy).

(** ** Corrective intents *)

(** [next_generation] and the intent list, threaded through both loops. *)
Definition IntentState : Type := list CorrectiveIntent * Z.

Definition augment_intent (policy : FairnessPolicy) (request : EvaluationRequest)
    (plans : list SubjectPlan) (st : IntentState) (index : nat) : Result IntentState :=
  let '(intents, generation) := st in
  let plan := plan_at plans index in
  if sp_augment plan =? 0 then Value st
  else
    reject (sizeZ intents >=? kMaxCorrectiveIntents)
      with StatusCode.LimitExceeded, "corrective intent count exceeds the bound" ;;
    let subject := subject_at policy index in
    let generation := generation_next generation in
    Value (intents ++
      [mk_intent
         (intervention_id (rq_window request) (subj_id subject) CorrectionDirection.Augment
            (rq_attempt request))
         generation CorrectionDirection.Augment (subj_id subject) (subj_generation subject)
         (subj_group subject) (sp_augment plan)
         (if sp_augment plan <? sp_demand plan then CorrectionBound.BudgetExhausted
          else CorrectionBound.DemandSatisfied)
         (sp_reason plan) (sp_starving plan) (subj_protected_obligation subject)
         (subj_obligation_rank subject)], generation).

Definition reduce_bound (plan : SubjectPlan) : CorrectionBound.t :=
  if sp_reduce plan =? sp_reducible plan then
    if sp_withheld plan >? 0 then CorrectionBound.ProtectedObligation
    else CorrectionBound.DemandSatisfied
  else if sp_reduce plan <? sp_reducible plan then CorrectionBound.BudgetExhausted
  else CorrectionBound.PolicyTotalBudget.

Definition reduce_intent (policy : FairnessPolicy) (request : EvaluationRequest)
    (plans : list SubjectPlan) (st : IntentState) (index : nat) : Result IntentState :=
  let '(intents, generation) := st in
  let plan := plan_at plans index in
  if sp_reduce plan =? 0 then Value st
  else
    reject (sizeZ intents >=? kMaxCorrectiveIntents)
      with StatusCode.LimitExceeded, "corrective intent count exceeds the bound" ;;
    let subject := subject_at policy index in
    let generation := generation_next generation in
    Value (intents ++
      [mk_intent
         (intervention_id (rq_window request) (subj_id subject) CorrectionDirection.Reduce
            (rq_attempt request))
         generation CorrectionDirection.Reduce (subj_id subject) (subj_generation subject)
         (subj_group subject) (sp_reduce plan) (reduce_bound plan)
         ReasonCode.WeightedShareSurplus false (subj_protected_obligation subject)
         (subj_obligation_rank subject)], generation).

Definition corrective_intents (policy : FairnessPolicy) (accounting : FairnessAccounting)
    (request : EvaluationRequest) (demand supply : list nat) (plans : list SubjectPlan)
    : Result (list CorrectiveIntent) :=
  let? st := fold_result (augment_intent policy request plans)
               ([], acc_intervention_generation accounting) demand in
  let? st := fold_result (reduce_intent policy request plans) st supply in
  Value st.1.

(** ** Aggregation *)

Definition count_outcome (c : OutcomeCounts) (o : Outcome.t) : OutcomeCounts :=
  let bump (b : bool) (n : Z) := if b then wrap32 (n + 1) else n in
  mk_counts (bump (bool_decide (o = Outcome.Fair)) (cnt_fair c))
    (bump (bool_decide (o = Outcome.OverServed)) (cnt_over_served c))
    (bump (bool_decide (o = Outcome.UnderServed)) (cnt_under_served c))
    (bump (bool_decide (o = Outcome.StarvationRisk)) (cnt_starvation_risk c))
    (bump (bool_decide (o = Outcome.CorrectionRequired)) (cnt_correction_required c))
    (bump (bool_decide (o = Outcome.BlockedByStrongerObligation))
       (cnt_blocked_by_stronger_obligation c))
    (bump (bool_decide (o = Outcome.Unknown)) (cnt_unknown c))
    (bump (bool_decide (o = Outcome.Stale)) (cnt_stale c)).

Definition aggregate_counts (plans : list SubjectPlan) : OutcomeCounts :=
  foldl (λ c plan, count_outcome c (sp_outcome plan)) no_counts plans.

Definition aggregate_outcome (plans : list SubjectPlan) : Outcome.t :=
  foldl (λ aggregate plan,
    if Outcome.rank (sp_outcome plan) >? Outcome.rank aggregate then sp_outcome plan
    else aggregate) Outcome.Fair plans.

(** ** The evaluation *)

Definition request_authority (policy : FairnessPolicy) (accounting : FairnessAccounting)
    (ctx : EvaluationContext) : AuthorityVector :=
  let request := ctx_request ctx in
  mk_authority (pol_id policy) (pol_generation policy) (ctx_current_epoch ctx)
    (rq_evidence_id request) (rq_evidence_generation request) (rq_window request)
    (rq_window_generation request) (acc_generation accounting) (mk_incarnation 0 0)
    (rq_request_id request) (rq_attempt request).

(** The plans once entitlements, streaks, demand and supply are known. *)
Definition assess (policy : FairnessPolicy) (accounting : FairnessAccounting)
    (ctx : EvaluationContext) (d : Distributor) (plans : list SubjectPlan) : Result (list SubjectPlan) :=
  let? plans := map_result (number_plan policy accounting d)
                  (zip (imap pair (pol_subjects policy)) plans) in
  let plans := streak_plans policy ctx plans in
  Value (zip_with (demand_plan policy accounting (ctx_request ctx)) (pol_subjects policy) plans).

(** The corrective plan: budget, grants, blocking, outcomes and the summary. *)
Definition correct (policy : FairnessPolicy) (global_ok : bool) (whole : Z)
    (plans : list SubjectPlan) : Result (list SubjectPlan * CorrectionSummary) :=
  let? budget := correction_budget policy whole plans in
  let authorized := bg_authorized budget in
  let order := demand_order policy plans in
  let? plans := grant_augments policy plans authorized in
  let? plans := grant_reductions policy plans authorized in
  let? unsatisfied := unsatisfied_total policy plans in
  let blocked :=
    (unsatisfied >? 0) && (bg_withheld budget >? 0) && (authorized <? bg_demand budget) in
  let plans := mark_blocked policy order blocked plans in
  let plans := zip_with (outcome_plan policy) (pol_subjects policy) plans in
  let asked := Z.min (bg_pool budget) (bg_demand budget) in
  Value (plans,
    mk_correction (bg_pool budget) (bg_demand budget) authorized authorized authorized
      (bg_withheld budget) unsatisfied 0
      ((pol_max_correction_units policy <? asked) && (pol_max_correction_units policy <=? bg_bps budget))
      ((bg_bps budget <? asked) && (bg_bps budget <? pol_max_correction_units policy))
      blocked (negb global_ok)).

Definition evaluate_fairness (ctx : EvaluationContext) : Result FairnessDecision :=
  match ctx_policy ctx, ctx_accounting ctx with
  | Some policy, Some accounting =>
      let? d := build policy in
      let global_ok := match eligibility policy ctx with None => true | Some _ => false end in
      let '(plans, notes) := authority_plans policy accounting ctx in
      let? whole := whole_of plans in
      let? d := distribute policy whole d in
      let notes :=
        if ps_overcommit (d_effective_pass d) then
          add_note notes StatusCode.PolicyOvercommit ReasonCode.OvercommitDetected 0
            "declared guarantee floors exceed the whole being distributed"
        else notes in
      let? assessed := assess policy accounting ctx d plans in
      let? (plans, summary) := correct policy global_ok whole assessed in
      let? intents := corrective_intents policy accounting (ctx_request ctx)
                        (demand_order policy assessed) (supply_order policy assessed) plans in
      let decision := mk_decision (request_authority policy accounting ctx)
        (aggregate_outcome plans) (aggregate_counts plans)
        (zip_with (subject_state policy) (pol_subjects policy) plans)
        (group_states d policy plans) intents summary notes 0 in
      Value (mk_decision (fd_authority decision) (fd_outcome decision) (fd_counts decision)
               (fd_subjects decision) (fd_groups decision) (fd_intents decision)
               (fd_correction decision) (fd_notes decision) (decision_digest decision))
  | _, _ => fail StatusCode.InvalidArgument "policy and accounting are required"
  end.
