(* ===== verification/EngineSpec.v ===== *)
(** What the evaluation works out for each subject, on a valid context: which
    plans have authority, that every number exists and is bounded, and what the
    demand and supply of a subject are. *)
From S2P Require Import Prelude Status Core U128 Policy PolicyValid Accounting Evidence Outcome Allocation AllocationSpec Distributor DistributorSpec BuildSpec Engine Planner.
#[local] Open Scope Z_scope.

(** ** Valid contexts *)

(** What a stored ledger entry satisfies, with room left in its counters. *)
Record entry_ok (e : SubjectAccounting) : Prop := {
  eo_typed : sa_typed e;
  eo_deficit : sa_cumulative_deficit e <= kMaxCarryUnits;
  eo_surplus : sa_cumulative_surplus e <= kMaxCarryUnits;
  eo_discarded : sa_discarded_deficit e <= 2 ^ 62 ∧ sa_discarded_surplus e <= 2 ^ 62 }.

Record ledger_ok (a : FairnessAccounting) : Prop := {
  lo_typed : accounting_typed a;
  lo_entries : Forall entry_ok (acc_subjects a) }.

Record context_ok (ctx : EvaluationContext) (policy : FairnessPolicy) (accounting : FairnessAccounting)
    : Prop := {
  co_policy : ctx_policy ctx = Some policy;
  co_typed : policy_typed policy;
  co_evaluable : policy_evaluable policy;
  co_accounting : ctx_accounting ctx = Some accounting;
  co_ledger : ledger_ok accounting;
  co_evidence : ∀ e, ctx_evidence ctx = Some e → evidence_typed e ∧ evidence_wf e }.

(** The most that all subjects together can have been served in a window. *)
Definition whole_bound : Z := kMaxServiceUnits * kMaxSubjects.

(** ** Authority *)

(** A plan that no evidence authorises. *)
Definition inert (plan : SubjectPlan) : Prop :=
  ∃ outcome reason, (outcome = Outcome.Unknown ∨ outcome = Outcome.Stale)
    ∧ plan = set_verdict outcome reason default_plan.

(** A plan that the observation [o] authorises. *)
Definition authorised (o : SubjectObservation) (plan : SubjectPlan) : Prop :=
  plan = set_authority true Outcome.Fair ReasonCode.WithinFairBand (obs_served_units o)
           (obs_priority o) (obs_qos o) default_plan.

Lemma evidence_find_elem e id o : evidence_find e id = Some o → o ∈ ev_observations e ∧ obs_id o = id.
Proof. apply find_some_key. Qed.

Lemma plan_from_evidence_cases request accounting evidence subject :
  let plan := plan_from_evidence request accounting evidence subject in
  inert plan ∨ ∃ o, evidence_find evidence (subj_id subject) = Some o
    ∧ obs_generation o = subj_generation subject ∧ authorised o plan.
Proof.
  assert (∀ oc rc, oc = Outcome.Unknown ∨ oc = Outcome.Stale → inert (set_verdict oc rc default_plan)) as Hi.
  { intros oc rc Hoc. by exists oc, rc. }
  unfold plan_from_evidence. destruct (evidence_find _ _) as [o|] eqn:E.
  2:{ left. apply Hi. destruct (rq_treat_missing_as_unknown request); auto. }
  destruct (Z.eqb_spec (obs_generation o) (subj_generation subject)) as [Eg|_]; cbn [negb]; [|left; auto].
  repeat case_bool; try (left; by auto).
  destruct (accounting_find _ _) as [en|]; [|right; by exists o].
  case_bool; [left; by auto|right; by exists o].
Qed.

Lemma plan_without_authority_inert request failure : inert (plan_without_authority request failure).
Proof.
  unfold plan_without_authority. eexists _, _. split; [|done]. case_decide; [case_bool|]; auto.
Qed.

(** Without evidence authority no subject has any; with it, each is judged by
    its own observation. *)
Lemma authority_plans_spec policy accounting ctx :
  let plans := (authority_plans policy accounting ctx).1 in
  length plans = length (pol_subjects policy) ∧
  ((eligibility policy ctx <> None ∧ Forall inert plans)
   ∨ ∃ e, eligibility policy ctx = None ∧ ctx_evidence ctx = Some e
       ∧ plans = plan_from_evidence (ctx_request ctx) accounting e <$> pol_subjects policy).
Proof.
  unfold authority_plans. destruct (eligibility policy ctx) as [failure|] eqn:E.
  - cbn. rewrite length_fmap. split; [done|]. left. split; [done|].
    apply Forall_fmap, Forall_forall. intros s _. apply plan_without_authority_inert.
  - destruct (ctx_evidence ctx) as [e|] eqn:Ee; cbn; rewrite length_fmap.
    + split; [done|]. right. by exists e.
    + exfalso. revert E. unfold eligibility. rewrite Ee. repeat (case_bool; [done|]). done.
Qed.

(** The state of a subject's plan before the corrective numbers. *)
Definition opened (policy : FairnessPolicy) (ctx : EvaluationContext) (subject : Subject)
    (plan : SubjectPlan) : Prop :=
  inert plan ∨ ∃ e o, ctx_evidence ctx = Some e ∧ eligibility policy ctx = None
    ∧ evidence_find e (subj_id subject) = Some o ∧ obs_generation o = subj_generation subject
    ∧ authorised o plan.

Lemma authority_plans_opened policy accounting ctx :
  Forall2 (opened policy ctx) (pol_subjects policy) (authority_plans policy accounting ctx).1.
Proof.
  destruct (authority_plans_spec policy accounting ctx) as [Hlen [[_ Hi]|(e & E & Ee & ->)]].
  - apply Forall2_same_length_lookup_2; [done|]. intros i s plan _ Hp. left.
    by eapply Forall_lookup_1 in Hp.
  - apply Forall2_fmap_r, Forall_Forall2_diag, Forall_forall. intros s _. unfold opened.
    destruct (plan_from_evidence_cases (ctx_request ctx) accounting e s) as [Hi|(o & ? & ? & ?)]; [by left|right].
    by exists e, o.
Qed.

Section opened.
  Context (policy : FairnessPolicy) (accounting : FairnessAccounting) (ctx : EvaluationContext).
  Hypothesis Hctx : context_ok ctx policy accounting.

Lemma inert_facts plan :
  inert plan → sp_has_authority plan = false ∧ (sp_outcome plan = Outcome.Unknown ∨ sp_outcome plan = Outcome.Stale)
  ∧ counted_service plan = 0.
Proof. intros (oc & rc & Hoc & ->). done. Qed.

Lemma observed_served e subject_id o :
  ctx_evidence ctx = Some e → evidence_find e subject_id = Some o →
  observation_typed o ∧ 0 <= obs_served_units o <= kMaxServiceUnits.
Proof.
  intros Ee [Ho _]%evidence_find_elem. destruct (co_evidence _ _ _ Hctx e Ee) as [Te We].
  pose proof (et_observations _ Te) as HT. pose proof (ew_observations _ We) as HW.
  rewrite Forall_forall in HT, HW. destruct (HT o Ho), (HW o Ho). split; [by apply HT|ulia].
Qed.

Lemma opened_served subject plan :
  opened policy ctx subject plan → 0 <= counted_service plan <= kMaxServiceUnits.
Proof.
  intros [Hi|(e & o & Ee & _ & Ho & _ & ->)].
  - destruct (inert_facts plan Hi) as (_ & _ & ->). done.
  - by destruct (observed_served e _ o Ee Ho).
Qed.

(** The whole is the service of the subjects with authority. *)
Lemma whole_of_value plans :
  Forall2 (opened policy ctx) (pol_subjects policy) plans →
  whole_of plans = Value (sumZ (counted_service <$> plans))
  ∧ 0 <= sumZ (counted_service <$> plans) <= whole_bound.
Proof.
  intros Hp. assert (∀ plan, plan ∈ plans → 0 <= counted_service plan <= kMaxServiceUnits) as Hall.
  { intros plan Hin. apply list_elem_of_lookup_1 in Hin as [i Hi].
    destruct (Forall2_lookup_r _ _ _ _ _ Hp Hi) as (s & _ & Ho). by eapply opened_served. }
  assert (0 <= sumZ (counted_service <$> plans) <= whole_bound) as Hb.
  { split; [apply sumZ_map_nonneg; intros plan Hin; by apply Hall|].
    etransitivity; [apply (sumZ_bounded counted_service kMaxServiceUnits); intros plan Hin; by apply Hall|].
    pose proof (sw_subjects _ (pe_scalars _ (co_evaluable _ _ _ Hctx))) as Hm.
    apply Forall2_length in Hp. unfold whole_bound, sizeZ, kMaxServiceUnits, kMaxSubjects in *. lia. }
  split; [|done]. unfold whole_of. rewrite checked_total_spec; [|ulia|].
  - rewrite Z.add_0_l, decide_True; [done|]. unfold whole_bound, kMaxServiceUnits, kMaxSubjects in *. ulia.
  - apply Forall_forall. intros plan Hin. apply Hall in Hin. unfold kMaxServiceUnits in *. ulia.
Qed.
End opened.

(** ** The numbers of a subject *)

Definition carried_deficit (policy : FairnessPolicy) (found : option SubjectAccounting) : Z :=
  match found with
  | None => 0
  | Some e => Z.min (sa_cumulative_deficit e) (pol_max_carry_units policy)
  end.

(** The streaks after this window: the durable one continued or reset, or the
    producer's, whichever is larger. *)
Definition unserved_after (found : option SubjectAccounting) (o : SubjectObservation) : Z :=
  Z.max (if obs_served_units o =? 0
         then bump_streak (match found with None => 0 | Some e => sa_unserved_streak e end) else 0)
    (obs_unserved_streak o).

Definition below_floor_after (found : option SubjectAccounting) (subject : Subject) (o : SubjectObservation) : Z :=
  Z.max (if (subj_guarantee_floor subject >? 0) && (obs_served_units o <? subj_guarantee_floor subject)
         then bump_streak (match found with None => 0 | Some e => sa_below_floor_streak e end) else 0)
    (obs_below_floor_streak o).

(** The starvation rules: windows without service, or below the floor. *)
Definition starves (subject : Subject) (unserved below_floor : Z) : bool :=
  ((subj_starvation_windows subject >? 0) && (unserved >=? subj_starvation_windows subject))
  || ((subj_guarantee_starvation_windows subject >? 0) && (subj_guarantee_floor subject >? 0)
      && (below_floor >=? subj_guarantee_starvation_windows subject)).

(** Everything the corrective plan relies on, for a subject observed as [o] that
    is entitled to [ent]. *)
Record assessed_as (policy : FairnessPolicy) (accounting : FairnessAccounting)
    (request : EvaluationRequest) (subject : Subject) (o : SubjectObservation) (ent base : Z)
    (plan : SubjectPlan) : Prop := {
  ad_authority : sp_has_authority plan = true;
  ad_served : sp_served plan = obs_served_units o;
  ad_entitlement : sp_entitlement plan = ent ∧ sp_base_entitlement plan = base;
  ad_deficit : sp_this_window_deficit plan = Z.max 0 (ent - obs_served_units o);
  ad_surplus : sp_surplus plan = Z.max 0 (obs_served_units o - ent);
  ad_effective : sp_effective_deficit plan = Z.max 0 (ent - obs_served_units o)
    + carried_deficit policy (accounting_find accounting (subj_id subject));
  ad_deviation : sp_deviation plan = obs_served_units o - ent;
  ad_carry : apply_window_carry
      (default empty_subject_accounting (accounting_find accounting (subj_id subject)))
      (ent - obs_served_units o) (pol_max_carry_units policy) = Some (sp_carry plan);
  ad_unserved : sp_unserved_streak plan
    = unserved_after (accounting_find accounting (subj_id subject)) o;
  ad_below : sp_below_floor_streak plan
    = below_floor_after (accounting_find accounting (subj_id subject)) subject o;
  ad_starving : sp_starving plan
    = starves subject (sp_unserved_streak plan) (sp_below_floor_streak plan);
  ad_cooling : sp_cooling plan
    = cooling_down policy request (accounting_find accounting (subj_id subject)) (sp_starving plan);
  ad_demand : sp_demand plan
    = if (sp_effective_deficit plan >? pol_fair_band_units policy) && negb (sp_cooling plan)
      then Z.min (sp_effective_deficit plan) (Z.min (subj_max_augment_units subject) kMaxServiceUnits)
      else 0;
  ad_reducible : sp_reducible plan
    = if sp_surplus plan >? 0
      then protected_headroom subject (sp_served plan) (Z.min (sp_surplus plan) (subj_max_reduce_units subject))
      else 0;
  ad_withheld : sp_withheld plan
    = if sp_surplus plan >? 0
      then Z.min (sp_surplus plan) (subj_max_reduce_units subject) - sp_reducible plan else 0;
  ad_untouched : sp_augment plan = 0 ∧ sp_reduce plan = 0 ∧ sp_blocked plan = false }.

Section numbers.
  Context (policy : FairnessPolicy) (accounting : FairnessAccounting) (ctx : EvaluationContext).
  Hypothesis Hctx : context_ok ctx policy accounting.

Lemma found_ok id e : accounting_find accounting id = Some e → entry_ok e.
Proof.
  intros [Hin _]%find_some_key. pose proof (lo_entries _ (co_ledger _ _ _ Hctx)) as HE.
  rewrite Forall_forall in HE. auto.
Qed.

Lemma carried_deficit_range id :
  0 <= carried_deficit policy (accounting_find accounting id) <= kMaxCarryUnits.
Proof.
  unfold carried_deficit. pose proof (pt_carry _ (co_typed _ _ _ Hctx)).
  destruct (accounting_find accounting id) as [e|] eqn:E; [|unfold kMaxCarryUnits; lia].
  destruct (found_ok _ _ E) as [[] ? ? ?]. ulia.
Qed.

(** The carry of a window always exists: the ledger has room. *)
Lemma carry_value id net :
  Z.abs net <= whole_bound →
  ∃ r, apply_window_carry (default empty_subject_accounting (accounting_find accounting id)) net
         (pol_max_carry_units policy) = Some r.
Proof.
  intros Hnet. unfold whole_bound, kMaxServiceUnits, kMaxSubjects in Hnet.
  pose proof (pt_carry _ (co_typed _ _ _ Hctx)) as Hc.
  destruct (accounting_find accounting id) as [e|] eqn:E.
  - change (default empty_subject_accounting (Some e)) with e. destruct (found_ok _ _ E) as [Ht Hd Hs [Hdd Hds]]. pose proof Ht as [].
    change (2 ^ 62) with 4611686018427387904 in *. unfold kMaxCarryUnits in *.
    apply apply_window_carry_total; [done|ulia|done|ulia|ulia].
  - change (default empty_subject_accounting None) with empty_subject_accounting.
    apply apply_window_carry_total; [constructor; split; done|ulia|done|..];
      unfold empty_subject_accounting; cbn [sa_cumulative_deficit sa_discarded_deficit sa_cumulative_surplus
        sa_discarded_surplus]; ulia.
Qed.

(** The window's numbers for an observed subject. *)
Lemma number_plan_value d i subject o plan :
  authorised o plan → 0 <= obs_served_units o <= kMaxServiceUnits →
  0 <= at_ (d_subject_effective d) i <= whole_bound →
  let ent := at_ (d_subject_effective d) i in
  let found := accounting_find accounting (subj_id subject) in
  ∃ group_ent binding carry,
    apply_window_carry (default empty_subject_accounting found) (ent - obs_served_units o)
      (pol_max_carry_units policy) = Some carry
    ∧ number_plan policy accounting d (i, subject, plan) =
      Value (set_numbers ent (at_ (d_subject_base d) i) group_ent binding
        (Z.max 0 (ent - obs_served_units o))
        (Z.max 0 (ent - obs_served_units o) + carried_deficit policy found)
        (Z.max 0 (obs_served_units o - ent)) (obs_served_units o - ent)
        (if obs_served_units o =? 0
         then bump_streak (match found with None => 0 | Some e => sa_unserved_streak e end) else 0)
        (if (subj_guarantee_floor subject >? 0) && (obs_served_units o <? subj_guarantee_floor subject)
         then bump_streak (match found with None => 0 | Some e => sa_below_floor_streak e end) else 0)
        carry plan).
Proof.
  intros -> Hserved Hent. cbv zeta. unfold number_plan. cbv zeta.
  cbn [sp_has_authority set_authority negb sp_served].
  generalize dependent (at_ (d_subject_effective d) i). intros ent Hent.
  unfold whole_bound, kMaxServiceUnits, kMaxSubjects in Hserved, Hent.
  destruct (carry_value (subj_id subject) (ent - obs_served_units o)) as [carry Hcarry].
  { unfold whole_bound, kMaxServiceUnits, kMaxSubjects. lia. }
  assert (window_net ent (obs_served_units o) = ent - obs_served_units o) as Enet.
  { unfold window_net. rewrite !to_i64_small by ulia. done. }
  do 3 eexists. split; [exact Hcarry|].
  pose proof (carried_deficit_range (subj_id subject)) as Hcd. unfold kMaxCarryUnits in Hcd.
  assert ((if obs_served_units o <? ent then sub64 ent (obs_served_units o) else 0)
    = Z.max 0 (ent - obs_served_units o)) as Ed.
  { destruct (Z.ltb_spec (obs_served_units o) ent); [rewrite sub64_small by ulia|]; lia. }
  assert ((if obs_served_units o >? ent then sub64 (obs_served_units o) ent else 0)
    = Z.max 0 (obs_served_units o - ent)) as Es.
  { rewrite Z.gtb_ltb. destruct (Z.ltb_spec ent (obs_served_units o)); [rewrite sub64_small by ulia|]; lia. }
  rewrite Enet, Ed, Es, !to_i64_small by ulia. unfold carried_deficit in *.
  destruct (accounting_find accounting (subj_id subject)) as [e|];
    rewrite checked_add_fits by ulia; rewrite Hcarry; reflexivity.
Qed.

(** The streak step of the source, when there is evidence authority at all. *)
Definition streak_step (subject : Subject) (plan : SubjectPlan) : SubjectPlan :=
  match eligibility policy ctx, ctx_evidence ctx with
  | None, Some evidence => streak_plan evidence subject plan
  | _, _ => plan
  end.

Lemma streak_plans_zip plans :
  length plans = length (pol_subjects policy) →
  streak_plans policy ctx plans = zip_with streak_step (pol_subjects policy) plans.
Proof.
  unfold streak_plans, streak_step. generalize (pol_subjects policy) as l.
  destruct (eligibility policy ctx) as [?|], (ctx_evidence ctx) as [e|]; intros l Hlen; try done;
    (revert plans Hlen; induction l as [|s l IH]; intros [|plan plans] Hlen; [done..|cbn; f_equal; apply IH; simpl in *; lia]).
Qed.

(** A subject of the assessed plans: untouched without authority, else judged. *)
Definition assessed (d : Distributor) (i : nat) (subject : Subject) (plan : SubjectPlan) : Prop :=
  inert plan ∨ ∃ e o, ctx_evidence ctx = Some e ∧ eligibility policy ctx = None
    ∧ evidence_find e (subj_id subject) = Some o ∧ obs_generation o = subj_generation subject
    ∧ assessed_as policy accounting (ctx_request ctx) subject o (at_ (d_subject_effective d) i)
        (at_ (d_subject_base d) i) plan.

(** What an observed subject's plan becomes once its numbers are known. *)
Lemma judged_plan d i subject e o plan :
  ctx_evidence ctx = Some e → eligibility policy ctx = None →
  evidence_find e (subj_id subject) = Some o → subject_typed subject → authorised o plan →
  0 <= at_ (d_subject_effective d) i <= whole_bound →
  ∃ plan', number_plan policy accounting d (i, subject, plan) = Value plan'
    ∧ assessed_as policy accounting (ctx_request ctx) subject o (at_ (d_subject_effective d) i)
        (at_ (d_subject_base d) i)
        (demand_plan policy accounting (ctx_request ctx) subject (streak_step subject plan'))
    ∧ counted_service (demand_plan policy accounting (ctx_request ctx) subject (streak_step subject plan'))
      = counted_service plan.
Proof.
  intros Ee Eel Ho Hst Hauth Hent.
  destruct (observed_served policy accounting ctx Hctx e _ o Ee Ho) as [_ Hserved].
  destruct (number_plan_value d i subject o plan Hauth Hserved Hent) as (ge & fb & carry & Hcarry & Hrun).
  rewrite Hrun. eexists. split; [reflexivity|].
  generalize dependent (at_ (d_subject_effective d) i). intros ent Hent Hcarry _.
  unfold streak_step. rewrite Eel, Ee. unfold streak_plan.
  unfold authorised in Hauth. subst plan. cbn [sp_has_authority set_authority set_numbers negb]. rewrite Ho.
  set (plan1 := set_streaks _ _ _ _ _).
  assert (sp_has_authority plan1 = true) as E1 by done.
  unfold demand_plan. rewrite E1. cbn [negb].
  change (sp_cooling plan1) with false. cbn [orb].
  set (cooling := cooling_down _ _ _ _).
  assert (∀ s cap, 0 <= cap → 0 <= sp_served plan1 → u64 (sp_served plan1) → u64 (subj_guarantee_floor s) →
    0 <= protected_headroom s (sp_served plan1) cap <= cap) as Hhead.
  { intros s cap Hcap Hsv Hu Hfl. unfold protected_headroom. destruct (subj_protected_obligation s); [|lia].
    rewrite Z.gtb_ltb. destruct (Z.ltb_spec (subj_guarantee_floor s) (sp_served plan1)); [rewrite sub64_small by ulia|]; lia. }
  change (sp_served plan1) with (obs_served_units o) in *.
  destruct Hst. destruct (sp_surplus plan1 >? 0) eqn:Esur.
  - split; [|done]. constructor; try done; cbn [set_demand sp_reducible sp_withheld sp_surplus sp_served];
      change (sp_surplus plan1) with (Z.max 0 (obs_served_units o - ent)) in *; rewrite ?Esur; try done.
    rewrite sub64_small; [done|]. specialize (Hhead subject (Z.min (Z.max 0 (obs_served_units o - ent))
      (subj_max_reduce_units subject))). unfold kMaxServiceUnits in *. ulia.
  - split; [|done]. constructor; try done; cbn [set_demand sp_reducible sp_withheld sp_surplus sp_served];
      change (sp_surplus plan1) with (Z.max 0 (obs_served_units o - ent)) in *; rewrite Esur; done.
Qed.

Lemma inert_step d i subject plan :
  inert plan → number_plan policy accounting d (i, subject, plan) = Value plan
    ∧ streak_step subject plan = plan
    ∧ demand_plan policy accounting (ctx_request ctx) subject plan = plan.
Proof.
  intros (oc & rc & _ & ->). split; [done|]. split; [|done].
  unfold streak_step. destruct (eligibility policy ctx), (ctx_evidence ctx); done.
Qed.

(** What the assessment makes of one plan. *)
Notation step := (λ s plan, demand_plan policy accounting (ctx_request ctx) s (streak_step s plan)).

Lemma assess_step d k s plan :
  pol_subjects policy !! k = Some s → opened policy ctx s plan → 0 <= at_ (d_subject_effective d) k <= whole_bound →
  ∃ plan', number_plan policy accounting d (k, s, plan) = Value plan'
    ∧ assessed d k s (step s plan') ∧ counted_service (step s plan') = counted_service plan
    ∧ sp_has_authority (step s plan') = sp_has_authority plan.
Proof.
  intros Hs [Hi|(e & o & Ee & Eel & Ho & Hg & Hauth)] Hent.
  - destruct (inert_step d k s plan Hi) as (-> & E2 & E3). exists plan. split; [done|].
    rewrite E2, E3. split; [by left|split; done].
  - pose proof (pt_subjects _ (co_typed _ _ _ Hctx)) as HT. rewrite Forall_forall in HT.
    destruct (judged_plan d k s e o plan Ee Eel Ho) as (plan' & -> & Ha & Hc);
      [apply HT; by eapply list_elem_of_lookup_2|done|done|].
    exists plan'. split; [done|]. split; [right; by exists e, o|]. split; [done|].
    rewrite (ad_authority _ _ _ _ _ _ _ _ Ha). by rewrite Hauth.
Qed.

(** The assessment returns, and every subject is assessed. *)
Lemma assess_value d plans :
  Forall2 (opened policy ctx) (pol_subjects policy) plans →
  (∀ i, (i < length (pol_subjects policy))%nat → 0 <= at_ (d_subject_effective d) i <= whole_bound) →
  ∃ plans', assess policy accounting ctx d plans = Value plans'
    ∧ length plans' = length (pol_subjects policy)
    ∧ counted_service <$> plans' = counted_service <$> plans
    ∧ sp_has_authority <$> plans' = sp_has_authority <$> plans
    ∧ (∀ i s plan, pol_subjects policy !! i = Some s → plans' !! i = Some plan → assessed d i s plan).
Proof.
  intros Hop Hent. unfold assess. pose proof (Forall2_length _ _ _ Hop) as Hlen.
  destruct (map_result_total (number_plan policy accounting d)
    (λ x plan', assessed d x.1.1 x.1.2 (step x.1.2 plan')
       ∧ counted_service (step x.1.2 plan') = counted_service x.2
       ∧ sp_has_authority (step x.1.2 plan') = sp_has_authority x.2)
    (zip (imap pair (pol_subjects policy)) plans)) as (numbered & Hrun & Hall).
  { intros [[i s] plan] Hx. apply list_elem_of_lookup_1 in Hx as [k Hk].
    apply lookup_zip_with_Some in Hk as ([i' s'] & plan' & [= <- <- <-] & Hs & Hp).
    rewrite list_lookup_imap in Hs. destruct (pol_subjects policy !! k) as [s'|] eqn:Es; [|done].
    injection Hs as <- <-. destruct (Forall2_lookup_l _ _ _ _ _ Hop Es) as (plan' & Hp' & Ho).
    rewrite Hp in Hp'. injection Hp' as <-. apply assess_step; [done|done|]. apply Hent. by eapply lookup_lt_Some. }
  rewrite Hrun. cbn [result_bind]. pose proof (Forall2_length _ _ _ Hall) as Hn.
  rewrite length_zip_with, length_imap in Hn.
  rewrite streak_plans_zip by lia. eexists. split; [done|].
  set (plans' := zip_with _ _ _).
  assert (∀ k, plans' !! k = s ← pol_subjects policy !! k; p ← numbered !! k; Some (step s p)) as Hlook.
  { intros k. unfold plans'. rewrite !lookup_zip_with. destruct (pol_subjects policy !! k); [|done]. cbn.
    by destruct (numbered !! k). }
  assert (∀ k s p, pol_subjects policy !! k = Some s → numbered !! k = Some p →
    assessed d k s (step s p) ∧ ∃ p0, plans !! k = Some p0 ∧ counted_service (step s p) = counted_service p0
    ∧ sp_has_authority (step s p) = sp_has_authority p0) as Hk.
  { intros k s p Hs Hp. destruct (Forall2_lookup_r _ _ _ _ _ Hall Hp) as (x & Hx & H1 & H2 & H3).
    destruct (lookup_lt_is_Some_2 plans k) as [p0 Hp0]; [apply lookup_lt_Some in Hs; lia|].
    rewrite lookup_zip_with, list_lookup_imap, Hs, Hp0 in Hx. injection Hx as <-. split; [done|]. by exists p0. }
  assert (∀ {B} (f : SubjectPlan → B), (∀ k s p, pol_subjects policy !! k = Some s → numbered !! k = Some p →
      ∃ p0, plans !! k = Some p0 ∧ f (step s p) = f p0) → f <$> plans' = f <$> plans) as Hkept.
  { intros B f Hf. apply list_eq. intros k. rewrite !list_lookup_fmap, Hlook.
    destruct (pol_subjects policy !! k) as [s|] eqn:Es; cbn.
    - destruct (lookup_lt_is_Some_2 numbered k) as [p Hp]; [apply lookup_lt_Some in Es; lia|].
      destruct (Hf k s p Es Hp) as (p0 & -> & E). rewrite Hp. cbn. by rewrite E.
    - apply lookup_ge_None in Es. rewrite (lookup_ge_None_2 plans) by lia. done. }
  split_and!; [unfold plans'; rewrite !length_zip_with; lia|apply Hkept; naive_solver..|].
  intros i s plan Hs. rewrite Hlook, Hs. cbn. destruct (numbered !! i) as [p|] eqn:Hp; [|done].
  intros [= <-]. by apply Hk.
Qed.
End numbers.

(** ** When evidence has authority *)

(** The conditions of [eligibility], as a relation between a request, the live
    state and the snapshot. *)
Record evidence_current (policy : FairnessPolicy) (ctx : EvaluationContext) (e : EvidenceSnapshot) : Prop := {
  cu_policy : rq_policy_id (ctx_request ctx) = pol_id policy
    ∧ rq_policy_generation (ctx_request ctx) = pol_generation policy;
  cu_epoch : ctx_current_epoch ctx <> 0 ∧ pol_epoch policy = ctx_current_epoch ctx
    ∧ rq_epoch (ctx_request ctx) = ctx_current_epoch ctx ∧ ev_epoch e = ctx_current_epoch ctx;
  cu_snapshot : ctx_evidence ctx = Some e ∧ ev_id e = rq_evidence_id (ctx_request ctx)
    ∧ ev_generation e = rq_evidence_generation (ctx_request ctx)
    ∧ ev_window e = rq_window (ctx_request ctx)
    ∧ ev_window_generation e = rq_window_generation (ctx_request ctx);
  cu_uncommitted : ctx_last_committed_window ctx <> 0 → rq_window (ctx_request ctx) <> 0 →
    ctx_last_committed_window ctx < rq_window (ctx_request ctx);
  cu_recent : ctx_current_window ctx <> 0 → rq_window (ctx_request ctx) <> 0 →
    0 <= ctx_current_window ctx - rq_window (ctx_request ctx) <= pol_max_evidence_age_windows policy;
  cu_fresh : 0 < pol_max_evidence_age_ns policy →
    0 <= rq_now_ns (ctx_request ctx) - ev_captured_at_ns e <= pol_max_evidence_age_ns policy }.

Lemma valid_if v : valid v = if decide (v = 0) then false else true.
Proof. unfold valid. case_decide as E; [by rewrite E|by apply Z.eqb_neq in E as ->]. Qed.

Lemma check_window_none policy ctx :
  u64 (ctx_current_window ctx) → u64 (rq_window (ctx_request ctx)) →
  check_window policy ctx = None ↔
  (ctx_last_committed_window ctx <> 0 → rq_window (ctx_request ctx) <> 0 →
    ctx_last_committed_window ctx < rq_window (ctx_request ctx))
  ∧ (ctx_current_window ctx <> 0 → rq_window (ctx_request ctx) <> 0 →
    0 <= ctx_current_window ctx - rq_window (ctx_request ctx) <= pol_max_evidence_age_windows policy).
Proof.
  intros Hc Hw. unfold check_window, stale. rewrite !valid_if.
  destruct (decide (ctx_last_committed_window ctx = 0)), (decide (rq_window (ctx_request ctx) = 0)),
    (decide (ctx_current_window ctx = 0)); cbn [andb]; try (split; [intros _; split; intros; lia|done]);
    try (destruct (Z.leb_spec (rq_window (ctx_request ctx)) (ctx_last_committed_window ctx));
      [split; [done|lia]|]); try (split; [intros _; split; intros; lia|done]);
    rewrite !Z.gtb_ltb; destruct (Z.ltb_spec (ctx_current_window ctx) (rq_window (ctx_request ctx)));
    try (split; [done|lia]); rewrite sub64_small by ulia;
    destruct (Z.ltb_spec (pol_max_evidence_age_windows policy) (ctx_current_window ctx - rq_window (ctx_request ctx)));
    (split; [intros; split; intros; (done || lia)|intros; (done || lia)]).
Qed.

Lemma check_age_none policy ctx e :
  i64 (rq_now_ns (ctx_request ctx)) → i64 (ev_captured_at_ns e) →
  check_age policy ctx e = None ↔
  (0 < pol_max_evidence_age_ns policy →
    0 <= rq_now_ns (ctx_request ctx) - ev_captured_at_ns e <= pol_max_evidence_age_ns policy).
Proof.
  intros Hn Hc. unfold check_age, stale. rewrite !Z.gtb_ltb.
  destruct (Z.ltb_spec 0 (pol_max_evidence_age_ns policy)); [|split; [lia|done]].
  destruct (Z.ltb_spec (rq_now_ns (ctx_request ctx)) (ev_captured_at_ns e)); [split; [done|lia]|].
  rewrite wrap64_small by ulia.
  destruct (Z.ltb_spec (pol_max_evidence_age_ns policy) (rq_now_ns (ctx_request ctx) - ev_captured_at_ns e));
    (split; [intros; (done || lia)|intros; (done || lia)]).
Qed.

Lemma check_snapshot_none policy ctx e :
  check_snapshot policy ctx e = None ↔
  (ev_id e = rq_evidence_id (ctx_request ctx) ∧ ev_generation e = rq_evidence_generation (ctx_request ctx))
  ∧ ev_epoch e = ctx_current_epoch ctx
  ∧ (ev_window e = rq_window (ctx_request ctx) ∧ ev_window_generation e = rq_window_generation (ctx_request ctx))
  ∧ check_window policy ctx = None.
Proof.
  unfold check_snapshot, stale.
  destruct (Z.eqb_spec (ev_id e) (rq_evidence_id (ctx_request ctx))),
    (Z.eqb_spec (ev_generation e) (rq_evidence_generation (ctx_request ctx))); cbn [negb orb]; try naive_solver.
  destruct (Z.eqb_spec (ev_epoch e) (ctx_current_epoch ctx)); cbn [negb]; [|naive_solver].
  destruct (Z.eqb_spec (ev_window e) (rq_window (ctx_request ctx))),
    (Z.eqb_spec (ev_window_generation e) (rq_window_generation (ctx_request ctx))); cbn [negb orb]; naive_solver.
Qed.

(** A request of another epoch has no authority. *)
Lemma epoch_mismatch_ineligible policy ctx :
  rq_epoch (ctx_request ctx) <> ctx_current_epoch ctx → eligibility policy ctx <> None.
Proof.
  intros Hne. unfold eligibility. destruct (negb _ || negb _); [done|].
  rewrite (proj2 (Z.eqb_neq _ _) Hne). cbn [negb]. by rewrite orb_true_r.
Qed.

(** [eligibility] passes exactly the current evidence. *)
Lemma eligibility_none policy ctx :
  u64 (ctx_current_window ctx) → u64 (rq_window (ctx_request ctx)) → i64 (rq_now_ns (ctx_request ctx)) →
  (∀ e, ctx_evidence ctx = Some e → i64 (ev_captured_at_ns e)) →
  eligibility policy ctx = None ↔ ∃ e, evidence_current policy ctx e.
Proof.
  intros Hc Hw Hn He. unfold eligibility, stale. split.
  - destruct (Z.eqb_spec (rq_policy_id (ctx_request ctx)) (pol_id policy)),
      (Z.eqb_spec (rq_policy_generation (ctx_request ctx)) (pol_generation policy)); cbn [negb orb]; try done.
    rewrite valid_if. destruct (decide (ctx_current_epoch ctx = 0)),
      (Z.eqb_spec (pol_epoch policy) (ctx_current_epoch ctx)),
      (Z.eqb_spec (rq_epoch (ctx_request ctx)) (ctx_current_epoch ctx)); cbn [negb orb]; try done.
    destruct (ctx_evidence ctx) as [ev|] eqn:Ee; [|done].
    destruct (check_snapshot policy ctx ev) as [?|] eqn:Es; [done|]. intros Hage.
    apply check_snapshot_none in Es as (? & ? & ? & Hwin). apply (check_window_none _ _ Hc Hw) in Hwin as [??].
    pose proof (proj1 (check_age_none _ _ _ Hn (He ev eq_refl)) Hage) as Hfresh.
    exists ev. constructor; [done|done|naive_solver|done|done|done].
  - intros [e []]. destruct_and!. rewrite (proj2 (Z.eqb_eq _ _)) by done. rewrite (proj2 (Z.eqb_eq _ _)) by done.
    cbn [negb orb]. rewrite valid_if, decide_False by done. rewrite !(proj2 (Z.eqb_eq _ _)) by congruence.
    cbn [negb orb]. replace (ctx_evidence ctx) with (Some e) by congruence.
    assert (check_snapshot policy ctx e = None) as ->.
    { apply check_snapshot_none. split_and!; try done. by apply check_window_none. }
    by apply check_age_none; [|apply He|].
Qed.

(** The conditions on one subject, given current evidence. *)
Record subject_current (accounting : FairnessAccounting) (e : EvidenceSnapshot) (subject : Subject)
    (o : SubjectObservation) : Prop := {
  sc_find : evidence_find e (subj_id subject) = Some o;
  sc_generation : obs_generation o = subj_generation subject;
  sc_priority : ref_present (subj_priority subject) = true → obs_priority o = subj_priority subject;
  sc_qos : ref_present (subj_qos subject) = true → obs_qos o = subj_qos subject;
  sc_ledger : ∀ entry, accounting_find accounting (subj_id subject) = Some entry →
    sa_generation entry = subj_generation subject }.

Lemma same_ref_eq a b : same_ref a b = true ↔ a = b.
Proof.
  unfold same_ref. rewrite andb_true_iff, !Z.eqb_eq. destruct a, b; cbn. split; [|by intros [= -> ->]].
  intros [-> ->]. done.
Qed.

Lemma plan_from_evidence_authority request accounting e subject :
  sp_has_authority (plan_from_evidence request accounting e subject) = true ↔
  ∃ o, subject_current accounting e subject o.
Proof.
  unfold plan_from_evidence. destruct (evidence_find _ _) as [o|] eqn:E.
  2:{ split; [done|]. intros [o []]. congruence. }
  assert (∀ P : Prop, (subject_current accounting e subject o → P) →
    (∃ o, subject_current accounting e subject o) → P) as Huniq.
  { intros P HP [o' Ho']. apply HP. destruct Ho' as [Ef Hx]. rewrite E in Ef. injection Ef as <-. by constructor. }
  destruct (Z.eqb_spec (obs_generation o) (subj_generation subject)) as [Eg|Eg]; cbn [negb].
  2:{ split; [done|]. apply Huniq. by intros []. }
  destruct (ref_present (subj_priority subject)) eqn:Ep, (same_ref (obs_priority o) (subj_priority subject)) eqn:Sp;
    cbn [negb andb]; try (split; [done|]; apply Huniq; intros [? ? Hp' ? ?];
      rewrite (proj2 (same_ref_eq _ _) (Hp' Ep)) in Sp; discriminate);
  destruct (ref_present (subj_qos subject)) eqn:Eq, (same_ref (obs_qos o) (subj_qos subject)) eqn:Sq;
    cbn [negb andb]; try (split; [done|]; apply Huniq; intros [? ? ? Hq' ?];
      rewrite (proj2 (same_ref_eq _ _) (Hq' Eq)) in Sq; discriminate);
  (destruct (accounting_find accounting (subj_id subject)) as [en|] eqn:Ea;
    [destruct (Z.eqb_spec (sa_generation en) (subj_generation subject)) as [En|En]; cbn [negb];
      [|split; [done|]; apply Huniq; intros [? ? ? ? Hl']; by destruct (En (Hl' _ Ea))]|]);
  (split; [intros _; exists o; constructor; try done; try (intros; by apply same_ref_eq); try congruence|done]).
Qed.
