(* ===== verification/PlannerSpec.v ===== *)
(** The corrective plan, on assessed plans: it always exists, augmentations and
    reductions cancel exactly, nothing exceeds the budgets or a subject's own
    bounds, and the starving are served first. *)
From S2P Require Import Prelude Status Core U128 Policy PolicyValid Accounting Evidence Outcome Allocation AllocationSpec Distributor DistributorSpec BuildSpec Engine Planner EngineSpec.
#[local] Open Scope Z_scope.

(** ** Positions of the vector of plans *)

Lemma plan_at_lookup plans i plan : plans !! i = Some plan → plan_at plans i = plan.
Proof. apply nth_lookup_Some. Qed.

Lemma plan_at_zip_with {A} (f : A → SubjectPlan → SubjectPlan) (d : A) l plans i :
  length l = length plans → (i < length plans)%nat →
  plan_at (zip_with f l plans) i = f (nth i l d) (plan_at plans i).
Proof.
  intros Hl Hi. destruct (lookup_lt_is_Some_2 plans i Hi) as [plan Hp].
  destruct (lookup_lt_is_Some_2 l i) as [a Ha]; [lia|].
  rewrite (plan_at_lookup _ _ _ Hp), (nth_lookup_Some _ _ _ _ Ha).
  apply plan_at_lookup. by rewrite lookup_zip_with, Ha, Hp.
Qed.

Lemma plan_at_overflow plans i : (length plans <= i)%nat → plan_at plans i = default_plan.
Proof. apply nth_overflow. Qed.

Lemma plans_ext plans plans' :
  length plans = length plans' → (∀ i, (i < length plans)%nat → plan_at plans i = plan_at plans' i) →
  plans = plans'.
Proof.
  intros Hl H. apply list_eq. intros i. destruct (decide (i < length plans)%nat) as [Hi|Hi].
  - destruct (lookup_lt_is_Some_2 plans i Hi) as [a Ha], (lookup_lt_is_Some_2 plans' i) as [b Hb]; [lia|].
    rewrite Ha, Hb. f_equal. by rewrite <-(plan_at_lookup _ _ _ Ha), <-(plan_at_lookup _ _ _ Hb), H.
  - rewrite !lookup_ge_None_2 by lia. done.
Qed.

Lemma sumZ_plans (f : SubjectPlan → Z) plans :
  sumZ (f <$> plans) = sum_over (seq 0 (length plans)) (λ i, f (plan_at plans i)).
Proof.
  apply sumZ_at; [by rewrite length_fmap|]. intros i Hi.
  destruct (lookup_lt_is_Some_2 plans i Hi) as [plan Hp].
  by rewrite at_lookup, list_lookup_fmap, Hp, (plan_at_lookup _ _ _ Hp).
Qed.

Lemma sort_by_ext {A} (lt lt' : A → A → bool) l : (∀ x y, lt x y = lt' x y) → sort_by lt l = sort_by lt' l.
Proof.
  intros H. unfold sort_by. induction l as [|x l IH]; [done|]. cbn. rewrite IH.
  generalize (foldr (insert_by lt') [] l). intros k. induction k as [|y k IHk]; [done|]. cbn.
  by rewrite H, IHk.
Qed.

Lemma drain_ext stop cap cap' update order remaining values :
  (∀ i, cap i = cap' i) →
  drain stop cap update order remaining values = drain stop cap' update order remaining values.
Proof.
  intros H. revert remaining values. induction order as [|i order IH]; intros remaining values; cbn [drain]; [done|].
  destruct (stop && (remaining =? 0)); [done|]. by rewrite H, IH.
Qed.

Lemma fmap_plans_ext {B} (f : SubjectPlan → B) plans plans' :
  length plans = length plans' →
  (∀ i, (i < length plans)%nat → f (plan_at plans i) = f (plan_at plans' i)) → f <$> plans = f <$> plans'.
Proof.
  intros Hl H. apply list_eq. intros i. rewrite !list_lookup_fmap.
  destruct (decide (i < length plans)%nat) as [Hi|Hi].
  - destruct (lookup_lt_is_Some_2 plans i Hi) as [a Ha], (lookup_lt_is_Some_2 plans' i) as [b Hb]; [lia|].
    rewrite Ha, Hb. cbn. f_equal. by rewrite <-(plan_at_lookup _ _ _ Ha), <-(plan_at_lookup _ _ _ Hb), H.
  - rewrite !lookup_ge_None_2 by lia. done.
Qed.

(** ** Ready plans *)

(** What the corrective loops need of a subject's plan. *)
Record ready (policy : FairnessPolicy) (subject : Subject) (plan : SubjectPlan) : Prop := {
  re_demand : 0 <= sp_demand plan <= Z.min (sp_effective_deficit plan)
    (Z.min (subj_max_augment_units subject) kMaxServiceUnits);
  re_reducible : 0 <= sp_reducible plan <= Z.min (sp_surplus plan) (subj_max_reduce_units subject);
  re_withheld : 0 <= sp_withheld plan
    ∧ sp_reducible plan + sp_withheld plan <= Z.min (sp_surplus plan) (subj_max_reduce_units subject);
  re_surplus : sp_surplus plan <= kMaxServiceUnits;
  re_protected : subj_protected_obligation subject = true → 0 < sp_reducible plan →
    subj_guarantee_floor subject <= sp_served plan - sp_reducible plan;
  re_effective : 0 <= sp_effective_deficit plan;
  re_authority : sp_has_authority plan = false → sp_demand plan = 0 ∧ sp_reducible plan = 0
    ∧ (sp_outcome plan = Outcome.Unknown ∨ sp_outcome plan = Outcome.Stale);
  re_demanding : 0 < sp_demand plan →
    sp_cooling plan = false ∧ pol_fair_band_units policy < sp_effective_deficit plan;
  re_untouched : sp_augment plan = 0 ∧ sp_reduce plan = 0 ∧ sp_blocked plan = false }.

Lemma assessed_ready policy accounting ctx d i subject plan :
  context_ok ctx policy accounting → subject_typed subject →
  0 <= at_ (d_subject_effective d) i →
  assessed policy accounting ctx d i subject plan → ready policy subject plan.
Proof.
  intros Hctx Ht Hent [(oc & rc & Hoc & ->)|(e & o & Ee & _ & Ho & _ & Ha)].
  - destruct Ht. unfold kMaxServiceUnits. constructor; cbn [set_verdict default_plan sp_demand sp_effective_deficit
      sp_reducible sp_surplus sp_withheld sp_served sp_has_authority sp_outcome sp_cooling sp_augment sp_reduce
      sp_blocked]; try done; unfold kMaxServiceUnits; ulia.
  - destruct (observed_served policy accounting ctx Hctx e _ o Ee Ho) as [_ Hserved].
    pose proof (carried_deficit_range policy accounting ctx Hctx (subj_id subject)) as Hc.
    destruct Ha as [Hauth Hsv [He Hb] Hd Hs Heff _ _ _ _ _ _ Hdem Hred Hwit Hun]. destruct Ht.
    assert (0 <= sp_effective_deficit plan) by lia.
    assert (0 <= sp_demand plan <= Z.min (sp_effective_deficit plan)
      (Z.min (subj_max_augment_units subject) kMaxServiceUnits)) as Hd1.
    { rewrite Hdem. destruct (_ && _); unfold kMaxServiceUnits; ulia. }
    assert (0 <= sp_reducible plan <= Z.min (sp_surplus plan) (subj_max_reduce_units subject)
      ∧ (subj_protected_obligation subject = true → 0 < sp_reducible plan →
         subj_guarantee_floor subject <= sp_served plan - sp_reducible plan)) as [Hr1 Hr2].
    { rewrite Hred, Hsv in *. rewrite Z.gtb_ltb. destruct (Z.ltb_spec 0 (sp_surplus plan)); [|split; [ulia|lia]].
      unfold protected_headroom. destruct (subj_protected_obligation subject); [|split; [ulia|done]].
      rewrite Z.gtb_ltb. unfold kMaxServiceUnits in *.
      destruct (Z.ltb_spec (subj_guarantee_floor subject) (obs_served_units o)); [rewrite sub64_small by ulia|];
        split; ulia. }
    constructor; try done.
    + rewrite Hwit. rewrite Z.gtb_ltb. destruct (Z.ltb_spec 0 (sp_surplus plan)); lia.
    + unfold kMaxServiceUnits in *. lia.
    + congruence.
    + rewrite Hdem. intros Hpos. destruct (sp_effective_deficit plan >? pol_fair_band_units policy) eqn:Eg; [|done].
      apply gtb_true_lt in Eg. destruct (sp_cooling plan); [done|]. done.
Qed.

Section correct.
  Context (policy : FairnessPolicy) (plans : list SubjectPlan).
  Hypothesis T : policy_typed policy.
  Hypothesis W : policy_evaluable policy.
  Notation m := (length (pol_subjects policy)).
  Hypothesis Hlen : length plans = m.
  Hypothesis Hready : ∀ i, (i < m)%nat → ready policy (subject_at policy i) (plan_at plans i).
  Hypothesis Hdeficits : sumZ (sp_effective_deficit <$> plans) <= 2 ^ 62.

Lemma m_small : Z.of_nat m <= 4096.
Proof. apply W. Qed.

Definition demand_at (i : nat) : Z := sp_demand (plan_at plans i).
Definition supply_at (i : nat) : Z := sp_reducible (plan_at plans i).

Lemma subject_caps i : (i < m)%nat →
  0 <= subj_max_augment_units (subject_at policy i) <= kMaxServiceUnits
  ∧ 0 <= subj_max_reduce_units (subject_at policy i) <= kMaxServiceUnits.
Proof using T W. clear Hdeficits Hready Hlen plans. intros Hi. destruct (subject_at_facts policy T W i Hi) as [[] []]. unfold kMaxServiceUnits in *. ulia. Qed.

Lemma plan_bounds plan : plan ∈ plans →
  0 <= sp_demand plan <= kMaxServiceUnits ∧ 0 <= sp_reducible plan <= kMaxServiceUnits
  ∧ 0 <= sp_withheld plan <= kMaxServiceUnits ∧ 0 <= sp_effective_deficit plan.
Proof.
  intros Hin. apply list_elem_of_lookup_1 in Hin as [i Hi]. pose proof (lookup_lt_Some _ _ _ Hi) as Hlt.
  rewrite Hlen in Hlt. destruct (Hready i Hlt). rewrite (plan_at_lookup _ _ _ Hi) in *.
  pose proof (subject_caps i Hlt). lia.
Qed.

Lemma plans_total (f : SubjectPlan → Z) :
  (∀ plan, plan ∈ plans → 0 <= f plan <= kMaxServiceUnits) → 0 <= sumZ (f <$> plans) <= whole_bound.
Proof.
  intros Hf. split; [apply sumZ_map_nonneg; intros; by apply Hf|].
  etransitivity; [apply (sumZ_bounded f kMaxServiceUnits); intros; by apply Hf|].
  pose proof m_small. unfold sizeZ, whole_bound, kMaxServiceUnits, kMaxSubjects in *. lia.
Qed.

(** The three totals are the exact sums. *)
Lemma correction_totals_value :
  correction_totals plans
  = Value (sumZ (sp_reducible <$> plans), sumZ (sp_demand <$> plans), sumZ (sp_withheld <$> plans)).
Proof.
  assert (∀ l a b c, (∀ plan, plan ∈ l → 0 <= sp_demand plan <= kMaxServiceUnits
      ∧ 0 <= sp_reducible plan <= kMaxServiceUnits ∧ 0 <= sp_withheld plan <= kMaxServiceUnits) →
    0 <= a → 0 <= b → 0 <= c →
    a + kMaxServiceUnits * sizeZ l <= 2 ^ 60 → b + kMaxServiceUnits * sizeZ l <= 2 ^ 60 →
    c + kMaxServiceUnits * sizeZ l <= 2 ^ 60 →
    fold_result (λ totals plan,
      let '(pool, demand, withheld) := totals in
      match checked_add pool (sp_reducible plan), checked_add demand (sp_demand plan),
            checked_add withheld (sp_withheld plan) with
      | Some pool, Some demand, Some withheld => Value (pool, demand, withheld)
      | _, _, _ => fail StatusCode.ArithmeticOverflow "correction totals overflow"
      end) (a, b, c) l
    = Value (a + sumZ (sp_reducible <$> l), b + sumZ (sp_demand <$> l), c + sumZ (sp_withheld <$> l))) as H.
  { induction l as [|plan l IH]; intros a b c Hl Ha Hb Hc Ba Bb Bc.
    { cbn. rewrite !sumZ_nil, !Z.add_0_r. done. }
    assert (sizeZ (plan :: l) = sizeZ l + 1) as E by (unfold sizeZ; simpl; lia). rewrite E in *.
    assert (0 <= sizeZ l) by (unfold sizeZ; lia).
    destruct (Hl plan) as (? & ? & ?); [set_solver|]. unfold kMaxServiceUnits in *.
    change (2 ^ 60) with 1152921504606846976 in *.
    cbn [fold_result]. rewrite !checked_add_fits by ulia. cbn [result_bind].
    rewrite IH by (lia || set_solver). rewrite !fmap_cons, !sumZ_cons, !Z.add_assoc. done. }
  unfold correction_totals. pose proof m_small.
  assert (kMaxServiceUnits * sizeZ plans <= 2 ^ 60)
    by (unfold kMaxServiceUnits, sizeZ; rewrite Hlen; lia).
  rewrite H; [by rewrite !Z.add_0_l|..]; try lia. intros plan Hin. destruct (plan_bounds plan Hin). tauto.
Qed.

(** ** The budget *)

Definition bps_limit (whole : Z) : Z :=
  if pol_max_correction_bps policy <? 100000
  then whole * pol_max_correction_bps policy / kBasisPointScale
  else kMaxServiceUnits * kMaxSubjects.

Definition budget_of (whole : Z) : Z :=
  Z.min (sumZ (sp_reducible <$> plans)) (Z.min (sumZ (sp_demand <$> plans))
    (Z.min (pol_max_correction_units policy) (bps_limit whole))).

Lemma bps_limit_value whole : 0 <= whole <= whole_bound →
  basis_point_budget policy whole = Value (bps_limit whole) ∧ 0 <= bps_limit whole.
Proof.
  intros Hw. pose proof (pt_bps _ T) as Hb. pose proof (sw_bps _ (pe_scalars _ W)) as Hb2.
  unfold basis_point_budget, bps_limit, whole_bound, kMaxServiceUnits, kMaxSubjects, kBasisPointScale in *.
  destruct (Z.ltb_spec (pol_max_correction_bps policy) 100000).
  - rewrite mul_div_spec by ulia. cbn [Z.eqb].
    assert (0 <= whole * pol_max_correction_bps policy) by (apply Z.mul_nonneg_nonneg; ulia).
    assert (whole * pol_max_correction_bps policy <= 1099511627776 * 4096 * 100000)
      by (apply Z.mul_le_mono_nonneg; ulia).
    assert (0 <= whole * pol_max_correction_bps policy / 10000 < 2 ^ 64).
    { split; [apply Z.div_pos; lia|]. apply Z.div_lt_upper_bound; lia. }
    rewrite (proj2 (Z.ltb_lt _ _)) by lia. cbn [md_ok md_overflow md_divide_by_zero negb andb md_value].
    split; [done|lia].
  - split; [by rewrite mul64_small by ulia|lia].
Qed.

Lemma correction_budget_value whole : 0 <= whole <= whole_bound →
  correction_budget policy whole plans
  = Value (mk_budget (sumZ (sp_reducible <$> plans)) (sumZ (sp_demand <$> plans))
      (sumZ (sp_withheld <$> plans)) (bps_limit whole) (budget_of whole))
  ∧ 0 <= budget_of whole <= whole_bound.
Proof.
  intros Hw. destruct (bps_limit_value whole Hw) as [Eb Hb0]. unfold correction_budget.
  rewrite correction_totals_value. cbn [result_bind]. rewrite Eb. cbn [result_bind]. split; [done|].
  pose proof (pt_max_correction _ T). unfold budget_of.
  pose proof (plans_total sp_reducible ltac:(intros; by apply plan_bounds)).
  pose proof (plans_total sp_demand ltac:(intros; by apply plan_bounds)). ulia.
Qed.

(** ** The orders *)

Lemma demand_order_elem i : i ∈ demand_order policy plans ↔
  (i < m)%nat ∧ sp_has_authority (plan_at plans i) = true ∧ 0 < demand_at i.
Proof.
  unfold demand_order. rewrite elem_of_sort_by, list_elem_of_filter, elem_of_seq, Is_true_true, andb_true_iff, gtb_true_lt.
  unfold demand_at. intuition lia.
Qed.

Lemma supply_order_elem i : i ∈ supply_order policy plans ↔
  (i < m)%nat ∧ sp_has_authority (plan_at plans i) = true ∧ 0 < supply_at i.
Proof.
  unfold supply_order. rewrite elem_of_sort_by, list_elem_of_filter, elem_of_seq, Is_true_true, andb_true_iff, gtb_true_lt.
  unfold supply_at. intuition lia.
Qed.

Lemma demand_order_nodup : NoDup (demand_order policy plans).
Proof. apply NoDup_sort_by, NoDup_filter, NoDup_seq. Qed.
Lemma supply_order_nodup : NoDup (supply_order policy plans).
Proof. apply NoDup_sort_by, NoDup_filter, NoDup_seq. Qed.

Lemma positive_authority i f : (i < m)%nat → (f = demand_at ∨ f = supply_at) → 0 < f i →
  sp_has_authority (plan_at plans i) = true.
Proof.
  intros Hi Hf Hp. destruct (sp_has_authority (plan_at plans i)) eqn:E; [done|].
  destruct (re_authority _ _ _ (Hready i Hi) E) as (E1 & E2 & _). unfold demand_at, supply_at in *.
  destruct Hf as [-> | ->]; lia.
Qed.

(** An order that holds every position with a positive cap sums to all of it. *)
Lemma order_total order cap :
  NoDup order → (∀ i, i ∈ order ↔ (i < m)%nat ∧ 0 < cap i) → (∀ i, (i < m)%nat → 0 <= cap i) →
  sum_over order cap = sum_over (seq 0 m) cap.
Proof.
  intros Hnd Hel H0. rewrite <-(sum_over_restrict order (seq 0 m) cap Hnd (NoDup_seq _ _)).
  - apply sum_over_ext. intros i Hi%elem_of_seq. case_decide as D; [done|].
    rewrite Hel in D. specialize (H0 i ltac:(lia)). lia.
  - intros i Hi%Hel. apply elem_of_seq. lia.
Qed.

Lemma demand_order_total : sum_over (demand_order policy plans) demand_at = sumZ (sp_demand <$> plans).
Proof.
  rewrite sumZ_plans, Hlen. apply (order_total _ demand_at demand_order_nodup).
  - intros i. rewrite demand_order_elem. split; [tauto|]. intros [Hi Hp].
    split_and!; [done| |done]. apply (positive_authority i demand_at); auto.
  - intros i Hi. apply (re_demand _ _ _ (Hready i Hi)).
Qed.

Lemma supply_order_total : sum_over (supply_order policy plans) supply_at = sumZ (sp_reducible <$> plans).
Proof.
  rewrite sumZ_plans, Hlen. apply (order_total _ supply_at supply_order_nodup).
  - intros i. rewrite supply_order_elem. split; [tauto|]. intros [Hi Hp].
    split_and!; [done| |done]. apply (positive_authority i supply_at); auto.
  - intros i Hi. apply (re_reducible _ _ _ (Hready i Hi)).
Qed.

(** ** The grants *)

(** What each position is given, and what is taken from it. *)
Definition grant_of (authorized : Z) (i : nat) : Z := greedy demand_at (demand_order policy plans) authorized i.
Definition take_of (authorized : Z) (i : nat) : Z := greedy supply_at (supply_order policy plans) authorized i.

Lemma at_untouched (f : SubjectPlan → Z) i :
  (f = sp_augment ∨ f = sp_reduce) → (i < m)%nat → at_ (f <$> plans) i = 0.
Proof.
  intros Hf Hi. destruct (re_untouched _ _ _ (Hready i Hi)) as (E1 & E2 & _).
  destruct (lookup_lt_is_Some_2 plans i) as [plan Hp]; [lia|].
  rewrite at_lookup, list_lookup_fmap, Hp. rewrite (plan_at_lookup _ _ _ Hp) in *. cbn.
  by destruct Hf as [-> | ->].
Qed.

Lemma drain_order order cap f authorized :
  (f = sp_augment ∨ f = sp_reduce) → NoDup order →
  (∀ i, i ∈ order → (i < m)%nat ∧ 0 <= cap i) → u64 authorized →
  let result := drain true cap (λ _ grant, grant) order authorized (f <$> plans) in
  length result.1 = m ∧ result.2 = authorized - Z.min authorized (sum_over order cap)
  ∧ (∀ i, (i < m)%nat → at_ result.1 i = greedy cap order authorized i).
Proof.
  intros Hf Hnd Hin Hu. destruct (drain_spec true cap (λ _ grant, grant) order authorized (f <$> plans) Hnd) as (H1 & H2 & H3).
  - intros i Hi. destruct (Hin i Hi) as [Hm Hc]. rewrite length_fmap, Hlen. split_and!; [done..|].
    by rewrite at_untouched.
  - done.
  - cbv zeta in *. rewrite length_fmap, Hlen in H1. split_and!; [done..|]. intros i Hi. rewrite H3.
    case_decide as D; [done|]. by rewrite greedy_notin, at_untouched.
Qed.

Lemma grant_augments_value authorized :
  0 <= authorized <= sumZ (sp_demand <$> plans) → u64 authorized →
  ∃ plans', grant_augments policy plans authorized = Value plans' ∧ length plans' = m
    ∧ (∀ i, (i < m)%nat → plan_at plans' i = set_augment (grant_of authorized i) (plan_at plans i)).
Proof.
  intros Ha Hu. unfold grant_augments.
  pose proof (drain_order (demand_order policy plans) demand_at sp_augment authorized ltac:(auto)
    demand_order_nodup ltac:(intros i (? & _ & ?)%demand_order_elem; split; [done|lia]) Hu) as Hd.
  rewrite demand_order_total in Hd. cbv zeta in Hd. unfold demand_at in Hd at 1. unfold demand_at in Hd at 1.
  destruct (drain _ _ _ _ _ _) as [grants remaining]. cbn [fst snd] in Hd. destruct Hd as (Hl & Hr & Hg).
  assert (remaining = 0) as -> by lia.
  rewrite sub64_small by ulia. rewrite Z.sub_0_r, Z.eqb_refl. cbn [negb]. eexists. split; [done|].
  split; [rewrite length_zip_with; lia|]. intros i Hi.
  rewrite (plan_at_zip_with set_augment 0) by lia. f_equal. apply Hg; done.
Qed.

(** The vector once augmented agrees with the original but for the grants. *)
Section augmented.
  Context (granted : list SubjectPlan) (g : nat → Z).
  Hypothesis Hglen : length granted = m.
  Hypothesis Hg : ∀ i, (i < m)%nat → plan_at granted i = set_augment (g i) (plan_at plans i).

Lemma granted_same {B} (f : SubjectPlan → B) i :
  (∀ a plan, f (set_augment a plan) = f plan) → f (plan_at granted i) = f (plan_at plans i).
Proof.
  intros Hf. destruct (decide (i < m)%nat) as [Hi|Hi]; [by rewrite Hg|].
  rewrite !plan_at_overflow by lia. done.
Qed.

Lemma granted_supply_order : supply_order policy granted = supply_order policy plans.
Proof.
  unfold supply_order. rewrite (sort_by_ext _ (supply_before policy plans)).
  - f_equal. apply filter_ext_elem. intros i _.
    by rewrite (granted_same sp_has_authority), (granted_same sp_reducible).
  - intros x y. unfold supply_before. by rewrite !(granted_same sp_reducible).
Qed.

Lemma grant_reductions_value authorized :
  0 <= authorized <= sumZ (sp_reducible <$> plans) → u64 authorized →
  ∃ plans', grant_reductions policy granted authorized = Value plans' ∧ length plans' = m
    ∧ (∀ i, (i < m)%nat → plan_at plans' i
         = set_reduce (take_of authorized i) (set_augment (g i) (plan_at plans i))).
Proof.
  intros Ha Hu. unfold grant_reductions. rewrite granted_supply_order.
  rewrite (drain_ext _ _ supply_at) by (intros i; apply (granted_same sp_reducible); done).
  rewrite (fmap_plans_ext sp_reduce granted plans) by (lia || (intros i _; apply (granted_same sp_reduce); done)).
  pose proof (drain_order (supply_order policy plans) supply_at sp_reduce authorized ltac:(auto)
    supply_order_nodup ltac:(intros i (? & _ & ?)%supply_order_elem; split; [done|lia]) Hu) as Hd.
  rewrite supply_order_total in Hd. cbv zeta in Hd.
  destruct (drain _ _ _ _ _ _) as [takes remaining]. cbn [fst snd] in Hd. destruct Hd as (Hl & Hr & Ht).
  assert (remaining = 0) as -> by lia. rewrite Z.eqb_refl. cbn [negb]. eexists. split; [done|].
  split; [rewrite length_zip_with; lia|]. intros i Hi.
  rewrite (plan_at_zip_with set_reduce 0) by lia. rewrite Hg by done. f_equal. by apply Ht.
Qed.
End augmented.

(** ** What stays unsatisfied *)

Definition unmet_at (authorized : Z) (i : nat) : Z :=
  if negb (sp_has_authority (plan_at plans i)) || sp_cooling (plan_at plans i)
     || (sp_effective_deficit (plan_at plans i) <=? pol_fair_band_units policy) then 0
  else sp_effective_deficit (plan_at plans i) - grant_of authorized i.

Lemma grant_range authorized i : 0 <= authorized → (i < m)%nat →
  0 <= grant_of authorized i <= demand_at i ∧ grant_of authorized i <= authorized.
Proof.
  intros Ha Hi. unfold grant_of.
  destruct (greedy_range demand_at (demand_order policy plans) authorized i) as [H1 H2]; [|done|].
  - intros j (_ & _ & ?)%demand_order_elem. lia.
  - pose proof (re_demand _ _ _ (Hready i Hi)). unfold demand_at in *. case_decide; lia.
Qed.

Lemma take_range authorized i : 0 <= authorized → (i < m)%nat →
  0 <= take_of authorized i <= supply_at i ∧ take_of authorized i <= authorized.
Proof.
  intros Ha Hi. unfold take_of.
  destruct (greedy_range supply_at (supply_order policy plans) authorized i) as [H1 H2]; [|done|].
  - intros j (_ & _ & ?)%supply_order_elem. lia.
  - pose proof (re_reducible _ _ _ (Hready i Hi)). unfold supply_at in *. case_decide; lia.
Qed.

Lemma unsatisfied_value authorized final :
  0 <= authorized → length final = m →
  (∀ i, (i < m)%nat → sp_has_authority (plan_at final i) = sp_has_authority (plan_at plans i)
    ∧ sp_cooling (plan_at final i) = sp_cooling (plan_at plans i)
    ∧ sp_effective_deficit (plan_at final i) = sp_effective_deficit (plan_at plans i)
    ∧ sp_augment (plan_at final i) = grant_of authorized i) →
  unsatisfied_total policy final = Value (sum_over (seq 0 m) (unmet_at authorized)).
Proof.
  intros Ha Hf Hsame. unfold unsatisfied_total.
  set (unmet := λ plan, if negb (sp_has_authority plan) || sp_cooling plan
    || (sp_effective_deficit plan <=? pol_fair_band_units policy) then 0
    else sp_effective_deficit plan - sp_augment plan).
  assert (∀ i, (i < m)%nat → unmet (plan_at final i) = unmet_at authorized i) as Hu.
  { intros i Hi. destruct (Hsame i Hi) as (E1 & E2 & E3 & E4). unfold unmet, unmet_at. by rewrite E1, E2, E3, E4. }
  assert (∀ plan, plan ∈ final → 0 <= sp_augment plan <= sp_effective_deficit plan
    ∧ sp_effective_deficit plan <= 2 ^ 62) as Hb.
  { intros plan [i Hi]%list_elem_of_lookup_1. pose proof (lookup_lt_Some _ _ _ Hi) as Hlt. rewrite Hf in Hlt.
    destruct (Hsame i Hlt) as (_ & _ & E3 & E4). rewrite (plan_at_lookup _ _ _ Hi) in *.
    pose proof (grant_range authorized i Ha Hlt). pose proof (re_demand _ _ _ (Hready i Hlt)).
    assert (sp_effective_deficit (plan_at plans i) <= sumZ (sp_effective_deficit <$> plans)).
    { destruct (lookup_lt_is_Some_2 plans i) as [p Hp]; [lia|]. rewrite (plan_at_lookup _ _ _ Hp).
      apply sumZ_elem_le; [|apply list_elem_of_fmap_2; by eapply list_elem_of_lookup_2].
      apply Forall_fmap, Forall_forall. intros q Hq. cbn. by apply plan_bounds. }
    unfold demand_at in *. lia. }
  assert (sumZ (unmet <$> final) = sum_over (seq 0 m) (unmet_at authorized)) as E.
  { rewrite sumZ_plans, Hf. apply sum_over_ext. intros i Hi%elem_of_seq. apply Hu. lia. }
  assert (sumZ (unmet <$> final) <= 2 ^ 62) as Hsum.
  { transitivity (sumZ (sp_effective_deficit <$> plans)); [|done]. rewrite E, sumZ_plans, Hlen.
    apply sumZ_map_le. intros i Hi%elem_of_seq. pose proof (grant_range authorized i Ha ltac:(lia)).
    pose proof (re_effective _ _ _ (Hready i ltac:(lia))). unfold unmet_at. case_match; lia. }
  rewrite <-E. clear E Hu Hsame Hf. change (2 ^ 62) with 4611686018427387904 in *.
  assert (∀ l a, l ⊆ final → 0 <= a → a + sumZ (unmet <$> l) <= 4611686018427387904 →
    fold_result (λ unsatisfied plan,
      if negb (sp_has_authority plan) || sp_cooling plan
         || (sp_effective_deficit plan <=? pol_fair_band_units policy) then Value unsatisfied
      else
        match checked_add unsatisfied (sub64 (sp_effective_deficit plan) (sp_augment plan)) with
        | None => fail StatusCode.ArithmeticOverflow "unsatisfied demand overflows"
        | Some sum => Value sum
        end) a l = Value (a + sumZ (unmet <$> l))) as Hfold.
  { induction l as [|plan l IH]; intros a Hl Ha0 Hs; cbn [fold_result].
    { rewrite fmap_nil, sumZ_nil. f_equal. lia. }
    assert (l ⊆ final) as Hl' by (intros q Hq; apply Hl; by right).
    rewrite fmap_cons, sumZ_cons in *. destruct (Hb plan) as [Hp1 Hp2]; [apply Hl; by left|].
    assert (0 <= sumZ (unmet <$> l)).
    { apply sumZ_map_nonneg. intros q Hq. destruct (Hb q) as [? _]; [by apply Hl'|]. unfold unmet. case_match; lia. }
    unfold unmet at 1. unfold unmet at 1 in Hs.
    destruct (negb (sp_has_authority plan) || sp_cooling plan
      || (sp_effective_deficit plan <=? pol_fair_band_units policy)) eqn:Eb.
    - cbn [result_bind]. rewrite IH by (done || lia). by rewrite Z.add_0_l.
    - rewrite sub64_small, checked_add_fits by ulia. cbn [result_bind].
      rewrite IH by (done || lia). f_equal. lia. }
  rewrite Hfold; [by rewrite Z.add_0_l|done|lia|lia].
Qed.

(** ** Blocking *)

Definition blocked_at (blocked : bool) (authorized : Z) (i : nat) : bool :=
  blocked && (sp_effective_deficit (plan_at plans i) - grant_of authorized i
              >? Z.max 0 (sp_effective_deficit (plan_at plans i)
                          - subj_max_augment_units (subject_at policy i))).

Lemma set_blocked_same plan : sp_blocked plan = false → set_blocked false plan = plan.
Proof. destruct plan. cbn. by intros ->. Qed.

Lemma mark_blocked_value blocked authorized taken order :
  0 <= authorized → length taken = m → NoDup order → (∀ i, i ∈ order → (i < m)%nat) →
  (∀ i, (i < m)%nat → plan_at taken i
     = set_reduce (take_of authorized i) (set_augment (grant_of authorized i) (plan_at plans i))) →
  length (mark_blocked policy order blocked taken) = m
  ∧ (∀ i, (i < m)%nat → plan_at (mark_blocked policy order blocked taken) i
       = set_blocked (bool_decide (i ∈ order) && blocked_at blocked authorized i) (plan_at taken i)).
Proof.
  intros Ha Hl Hnd Hin Htaken.
  assert (∀ i, (i < m)%nat → sp_blocked (plan_at taken i) = false) as Hfree.
  { intros i Hi. rewrite Htaken by done. apply (re_untouched _ _ _ (Hready i Hi)). }
  assert (∀ done_ todo taken', done_ ++ todo = order → length taken' = m →
    (∀ i, (i < m)%nat → plan_at taken' i
       = set_blocked (bool_decide (i ∈ done_) && blocked_at blocked authorized i) (plan_at taken i)) →
    length (mark_blocked policy todo blocked taken') = m
    ∧ (∀ i, (i < m)%nat → plan_at (mark_blocked policy todo blocked taken') i
       = set_blocked (bool_decide (i ∈ order) && blocked_at blocked authorized i) (plan_at taken i))) as H.
  2:{ apply (H []); [done|done|]. intros i Hi. rewrite bool_decide_eq_false_2 by set_solver. cbn [andb].
      by rewrite set_blocked_same by by apply Hfree. }
  intros done_ todo. revert done_. induction todo as [|j todo IH]; intros done_ taken' Heq Hl' Hp.
  { rewrite app_nil_r in Heq. subst. done. }
  cbn [mark_blocked foldl]. fold (mark_blocked policy todo blocked).
  assert (j < m)%nat as Hj by (apply Hin; set_solver).
  assert (j ∉ done_) as Hjd by (rewrite <-Heq in Hnd; apply NoDup_app in Hnd; set_solver).
  apply (IH (done_ ++ [j])); [by rewrite <-app_assoc|by rewrite length_alter|].
  assert (∀ f i, (i < m)%nat → plan_at (alter f j taken') i
    = if decide (i = j) then f (plan_at taken' i) else plan_at taken' i) as Halter.
  { intros f i Hi. destruct (lookup_lt_is_Some_2 taken' i) as [q Hq]; [lia|]. case_decide as D.
    - subst. rewrite (plan_at_lookup _ _ _ Hq). apply plan_at_lookup. by rewrite list_lookup_alter_eq, Hq.
    - rewrite (plan_at_lookup _ _ _ Hq). apply plan_at_lookup. by rewrite list_lookup_alter_ne. }
  intros i Hi. rewrite Halter by done. case_decide as D.
  - subst i. rewrite Hp by done. rewrite bool_decide_eq_false_2 by done. cbn [andb].
    rewrite set_blocked_same by by apply Hfree. rewrite bool_decide_eq_true_2 by set_solver. cbn [andb].
    f_equal. unfold blocked_at. rewrite Htaken by done. cbn [sp_effective_deficit sp_augment set_reduce set_augment].
    pose proof (grant_range authorized j Ha Hj) as Hgr. pose proof (re_demand _ _ _ (Hready j Hj)) as Hd.
    unfold demand_at in Hgr. pose proof (subject_caps j Hj) as [Hc _].
    assert (sp_effective_deficit (plan_at plans j) <= 2 ^ 62) as Hb.
    { etransitivity; [|exact Hdeficits]. destruct (lookup_lt_is_Some_2 plans j) as [p Hp']; [lia|].
      rewrite (plan_at_lookup _ _ _ Hp'). apply sumZ_elem_le; [|apply list_elem_of_fmap_2; by eapply list_elem_of_lookup_2].
      apply Forall_fmap, Forall_forall. intros q Hq. cbn. by apply plan_bounds. }
    change (2 ^ 62) with 4611686018427387904 in Hb. unfold kMaxServiceUnits in *.
    rewrite sub64_small by ulia. f_equal. f_equal. rewrite Z.gtb_ltb.
    destruct (Z.ltb_spec (subj_max_augment_units (subject_at policy j)) (sp_effective_deficit (plan_at plans j)));
      [rewrite sub64_small by ulia|]; lia.
  - rewrite Hp by done. f_equal. f_equal. apply bool_decide_ext. set_solver.
Qed.

(** ** The whole corrective step *)

(** The final plan of a position. *)
Definition final_at (blocked : bool) (authorized : Z) (i : nat) : SubjectPlan :=
  outcome_plan policy (subject_at policy i)
    (set_blocked (bool_decide (i ∈ demand_order policy plans) && blocked_at blocked authorized i)
       (set_reduce (take_of authorized i) (set_augment (grant_of authorized i) (plan_at plans i)))).

Definition unsatisfied (authorized : Z) : Z := sum_over (seq 0 m) (unmet_at authorized).

(** Demand remains, protected units were withheld, and not all could be granted. *)
Definition blocking (authorized : Z) : bool :=
  (unsatisfied authorized >? 0) && (sumZ (sp_withheld <$> plans) >? 0)
  && (authorized <? sumZ (sp_demand <$> plans)).

Lemma correct_value global_ok whole :
  0 <= whole <= whole_bound →
  let authorized := budget_of whole in
  ∃ plans' summary, correct policy global_ok whole plans = Value (plans', summary)
    ∧ length plans' = m
    ∧ (∀ i, (i < m)%nat → plan_at plans' i = final_at (blocking authorized) authorized i)
    ∧ cor_authorized_budget_units summary = authorized
    ∧ cor_augment_units summary = authorized ∧ cor_reduce_units summary = authorized
    ∧ cor_unsatisfied_demand_units summary = unsatisfied authorized
    ∧ cor_reducible_pool_units summary = sumZ (sp_reducible <$> plans)
    ∧ cor_demand_units summary = sumZ (sp_demand <$> plans).
Proof.
  intros Hw authorized. destruct (correction_budget_value whole Hw) as [Hbud Hrange].
  fold authorized in Hbud, Hrange. unfold correct. rewrite Hbud. cbn [result_bind bg_authorized].
  assert (u64 authorized) as Hu by (unfold whole_bound, kMaxServiceUnits, kMaxSubjects in Hrange; ulia).
  assert (authorized <= sumZ (sp_reducible <$> plans) ∧ authorized <= sumZ (sp_demand <$> plans)) as [Hr Hd]
    by (unfold authorized, budget_of; lia).
  destruct (grant_augments_value authorized) as (granted & -> & Hgl & Hg); [lia|done|]. cbn [result_bind].
  destruct (grant_reductions_value granted (grant_of authorized) Hgl Hg authorized) as (taken & -> & Htl & Ht); [lia|done|].
  cbn [result_bind]. rewrite (unsatisfied_value authorized taken); [|lia|done|].
  2:{ intros i Hi. rewrite Ht by done. done. }
  cbn [result_bind bg_withheld bg_demand bg_pool bg_bps].
  fold (unsatisfied authorized). fold (blocking authorized).
  destruct (mark_blocked_value (blocking authorized) authorized taken (demand_order policy plans)) as [Hml Hm];
    [lia|done|apply demand_order_nodup|by intros i (? & _)%demand_order_elem|done|].
  do 2 eexists. split; [done|]. split; [rewrite length_zip_with; lia|]. split; [|done].
  intros i Hi. rewrite (plan_at_zip_with _ default_subject) by lia. unfold final_at. by rewrite Hm, Ht by done.
Qed.

(** Nothing is granted or taken outside the order. *)
Lemma greedy_order_total order cap r :
  NoDup order → (∀ i, i ∈ order → (i < m)%nat) →
  sum_over order (greedy cap order r) = sum_over (seq 0 m) (greedy cap order r).
Proof.
  intros Hnd Hin. rewrite <-(sum_over_restrict order (seq 0 m) _ Hnd (NoDup_seq _ _)).
  - apply sum_over_ext. intros i _. case_decide as D; [done|]. symmetry. by apply greedy_notin.
  - intros i Hi%Hin. apply elem_of_seq. lia.
Qed.

(** The grants and the takes both add up to the authorised budget. *)
Lemma grants_total whole : 0 <= whole <= whole_bound →
  sum_over (seq 0 m) (grant_of (budget_of whole)) = budget_of whole
  ∧ sum_over (seq 0 m) (take_of (budget_of whole)) = budget_of whole.
Proof.
  intros Hw. destruct (correction_budget_value whole Hw) as [_ Hr].
  assert (∀ order cap, NoDup order → (∀ i, i ∈ order → (i < m)%nat ∧ 0 <= cap i) →
    budget_of whole <= sum_over order cap →
    sum_over (seq 0 m) (greedy cap order (budget_of whole)) = budget_of whole) as H.
  { intros order cap Hnd Hin Hle. rewrite <-(Z.min_l _ _ Hle) at 2.
    rewrite <-(greedy_sum cap order) by (done || lia || (intros j Hj; by apply Hin)).
    symmetry. apply greedy_order_total; [done|]. intros i Hi. by apply Hin. }
  split; apply H.
  - apply demand_order_nodup.
  - intros i (? & _ & ?)%demand_order_elem. split; [done|lia].
  - rewrite demand_order_total. unfold budget_of. lia.
  - apply supply_order_nodup.
  - intros i (? & _ & ?)%supply_order_elem. split; [done|lia].
  - rewrite supply_order_total. unfold budget_of. lia.
Qed.

Lemma grants_in_order whole : 0 <= whole <= whole_bound →
  sum_over (demand_order policy plans) (grant_of (budget_of whole)) = budget_of whole
  ∧ sum_over (supply_order policy plans) (take_of (budget_of whole)) = budget_of whole.
Proof.
  intros Hw. destruct (grants_total whole Hw) as [Hg Ht].
  split; [etransitivity; [|exact Hg]|etransitivity; [|exact Ht]].
  - apply greedy_order_total; [apply demand_order_nodup|by intros i (? & _)%demand_order_elem].
  - apply greedy_order_total; [apply supply_order_nodup|by intros i (? & _)%supply_order_elem].
Qed.
End correct.

(** ** The priority of the demand order *)

Lemma weak_order_ext {A} (lt lt' : A → A → bool) :
  (∀ x y, lt x y = lt' x y) → WeakOrder lt' → WeakOrder lt.
Proof. intros H [Ha Hn]. split; [intros x y; rewrite !H; apply Ha|intros x y z; rewrite !H; apply Hn]. Qed.

#[export] Instance demand_before_weak policy plans : WeakOrder (demand_before policy plans).
Proof.
  set (starving := λ i, if sp_starving (plan_at plans i) then 1 else 0).
  apply (weak_order_ext _ (λ a b, if negb (starving a =? starving b) then starving a >? starving b else
    (λ a b, if negb (sp_demand (plan_at plans a) =? sp_demand (plan_at plans b))
      then sp_demand (plan_at plans a) >? sp_demand (plan_at plans b) else
      (λ a b, if negb (subj_obligation_rank (subject_at policy a) =? subj_obligation_rank (subject_at policy b))
        then subj_obligation_rank (subject_at policy a) >? subj_obligation_rank (subject_at policy b)
        else subj_id (subject_at policy a) <? subj_id (subject_at policy b)) a b) a b)).
  - intros x y. unfold demand_before, starving.
    by destruct (sp_starving (plan_at plans x)), (sp_starving (plan_at plans y)).
  - apply (weak_order_desc starving), (weak_order_desc (λ a, sp_demand (plan_at plans a))),
      (weak_order_desc (λ a, subj_obligation_rank (subject_at policy a))),
      (weak_order_lt (λ a, subj_id (subject_at policy a))).
Qed.

(** Whoever precedes a subject that is granted something is granted all it asks. *)
Lemma grant_priority policy plans authorized i j :
  i ∈ demand_order policy plans → j ∈ demand_order policy plans →
  demand_before policy plans i j = true → 0 <= authorized →
  0 < grant_of policy plans authorized j → grant_of policy plans authorized i = demand_at plans i.
Proof.
  intros Hi Hj Hb Ha Hpos. unfold demand_order in Hi, Hj. rewrite elem_of_sort_by in Hi, Hj.
  destruct (sort_by_before (demand_before policy plans) _ i j Hi Hj Hb) as (l1 & l2 & E & Hin).
  unfold grant_of, demand_order in *. rewrite E in *. apply (greedy_priority _ l1 i l2 authorized j); try done.
  - rewrite <-E. apply NoDup_sort_by, NoDup_filter, NoDup_seq.
  - intros k Hk. rewrite <-E, elem_of_sort_by, list_elem_of_filter, Is_true_true, andb_true_iff, gtb_true_lt in Hk.
    unfold demand_at. lia.
Qed.

(** A starving subject precedes one that is not. *)
Lemma starving_before policy plans i j :
  sp_starving (plan_at plans i) = true → sp_starving (plan_at plans j) = false →
  demand_before policy plans i j = true.
Proof. intros Hi Hj. unfold demand_before. by rewrite Hi, Hj. Qed.

(** ** Intents *)

(** The loop of both intent blocks: positions with units get an intent each,
    numbered onwards from [generation]. *)
Fixpoint emit (units : nat → Z) (make : nat → Z → CorrectiveIntent) (order : list nat)
    (generation : Z) : list CorrectiveIntent * Z :=
  match order with
  | [] => ([], generation)
  | i :: order' =>
      if units i =? 0 then emit units make order' generation
      else
        let generation := generation_next generation in
        let '(intents, last) := emit units make order' generation in
        (make i generation :: intents, last)
  end.

Definition make_augment (policy : FairnessPolicy) (request : EvaluationRequest) (plans : list SubjectPlan)
    (index : nat) (generation : Z) : CorrectiveIntent :=
  let plan := plan_at plans index in
  let subject := subject_at policy index in
  mk_intent
    (intervention_id (rq_window request) (subj_id subject) CorrectionDirection.Augment (rq_attempt request))
    generation CorrectionDirection.Augment (subj_id subject) (subj_generation subject)
    (subj_group subject) (sp_augment plan)
    (if sp_augment plan <? sp_demand plan then CorrectionBound.BudgetExhausted
     else CorrectionBound.DemandSatisfied)
    (sp_reason plan) (sp_starving plan) (subj_protected_obligation subject) (subj_obligation_rank subject).

Definition make_reduce (policy : FairnessPolicy) (request : EvaluationRequest) (plans : list SubjectPlan)
    (index : nat) (generation : Z) : CorrectiveIntent :=
  let plan := plan_at plans index in
  let subject := subject_at policy index in
  mk_intent
    (intervention_id (rq_window request) (subj_id subject) CorrectionDirection.Reduce (rq_attempt request))
    generation CorrectionDirection.Reduce (subj_id subject) (subj_generation subject)
    (subj_group subject) (sp_reduce plan) (reduce_bound plan) ReasonCode.WeightedShareSurplus false
    (subj_protected_obligation subject) (subj_obligation_rank subject).

Section emit.
  Context (units : nat → Z) (make : nat → Z → CorrectiveIntent).
  Hypothesis Hmake : ∀ i g, ci_units (make i g) = units i ∧ ci_generation (make i g) = g.

Lemma emit_units order g : sumZ (ci_units <$> (emit units make order g).1) = sum_over order units.
Proof.
  revert g. induction order as [|i order IH]; intros g; cbn [emit]; [done|].
  unfold sum_over in *. rewrite fmap_cons, sumZ_cons. destruct (Z.eqb_spec (units i) 0) as [E|E].
  - rewrite IH. lia.
  - specialize (IH (generation_next g)). destruct (emit units make order (generation_next g)) as [l k].
    cbn [fst] in *. rewrite fmap_cons, sumZ_cons, IH. by destruct (Hmake i (generation_next g)) as [-> _].
Qed.

Lemma emit_elem order g x :
  x ∈ (emit units make order g).1 → ∃ i k, i ∈ order ∧ units i <> 0 ∧ x = make i k.
Proof.
  revert g. induction order as [|i order IH]; intros g; cbn [emit]; [by intros ?%elem_of_nil|].
  destruct (Z.eqb_spec (units i) 0) as [E|E].
  - intros (j & k & Hj & ?)%IH. exists j, k. split; [by right|done].
  - specialize (IH (generation_next g)). destruct (emit units make order (generation_next g)) as [l k].
    cbn [fst] in *. intros [->|Hx]%elem_of_cons.
    + exists i, (generation_next g). split; [by left|done].
    + destruct (IH Hx) as (j & k' & Hj & ?). exists j, k'. split; [by right|done].
Qed.

Lemma emit_length order g : (length (emit units make order g).1 <= length order)%nat.
Proof.
  revert g. induction order as [|i order IH]; intros g; cbn [emit]; [done|].
  destruct (units i =? 0).
  - specialize (IH g). simpl. lia.
  - specialize (IH (generation_next g)). destruct (emit units make order (generation_next g)) as [l k]. simpl in *. lia.
Qed.

(** Generations are consecutive, as long as the word lasts. *)
Lemma emit_generations order g :
  u64 g → g + Z.of_nat (length order) <= U64_MAX →
  let '(intents, last) := emit units make order g in
  last = g + Z.of_nat (length intents)
  ∧ ci_generation <$> intents = seqZ (g + 1) (Z.of_nat (length intents)).
Proof.
  revert g. induction order as [|i order IH]; intros g Hu Hb; cbn [emit].
  { cbn [length]. split; [lia|done]. }
  cbn [length] in Hb. destruct (Z.eqb_spec (units i) 0) as [E|E]; [apply IH; [done|lia]|].
  rewrite generation_next_succ by (done || ulia). specialize (IH (g + 1)).
  destruct (emit units make order (g + 1)) as [l k]. destruct IH as [-> Hg]; [ulia|lia|].
  cbn [length]. split; [lia|]. rewrite fmap_cons, seqZ_cons by lia.
  destruct (Hmake i (g + 1)) as [_ ->]. f_equal. rewrite Hg. f_equal; lia.
Qed.
End emit.

(** A fold whose body is one iteration of [emit]. *)
Lemma emit_fold (step : IntentState → nat → Result IntentState) units make order :
  (∀ intents g i, step (intents, g) i =
     if units i =? 0 then Value (intents, g)
     else if sizeZ intents >=? kMaxCorrectiveIntents
          then fail StatusCode.LimitExceeded "corrective intent count exceeds the bound"
          else Value (intents ++ [make i (generation_next g)], generation_next g)) →
  ∀ intents g, sizeZ intents + Z.of_nat (length order) <= kMaxCorrectiveIntents →
  fold_result step (intents, g) order
  = Value (intents ++ (emit units make order g).1, (emit units make order g).2).
Proof.
  intros Hstep. induction order as [|i order IH]; intros intents g Hb; cbn [fold_result emit].
  { by rewrite app_nil_r. }
  rewrite Hstep. cbn [length] in Hb. destruct (units i =? 0); cbn [result_bind]; [apply IH; lia|].
  rewrite Z.geb_leb. destruct (Z.leb_spec kMaxCorrectiveIntents (sizeZ intents)); [lia|]. cbn [result_bind].
  assert (sizeZ (intents ++ [make i (generation_next g)]) = sizeZ intents + 1) as Hs
    by (unfold sizeZ; rewrite length_app; simpl; lia).
  rewrite IH by lia. destruct (emit units make order (generation_next g)) as [l k]. cbn [fst snd].
  by rewrite <-app_assoc.
Qed.

Lemma corrective_intents_value policy accounting request demand supply plans :
  Z.of_nat (length demand) + Z.of_nat (length supply) <= kMaxCorrectiveIntents →
  let first := emit (λ i, sp_augment (plan_at plans i)) (make_augment policy request plans) demand
                 (acc_intervention_generation accounting) in
  let second := emit (λ i, sp_reduce (plan_at plans i)) (make_reduce policy request plans) supply first.2 in
  corrective_intents policy accounting request demand supply plans = Value (first.1 ++ second.1).
Proof.
  intros Hb first second. unfold corrective_intents.
  rewrite (emit_fold _ (λ i, sp_augment (plan_at plans i)) (make_augment policy request plans)); [|done|].
  2:{ unfold sizeZ. simpl. lia. }
  cbn [result_bind]. fold first. rewrite app_nil_l.
  rewrite (emit_fold _ (λ i, sp_reduce (plan_at plans i)) (make_reduce policy request plans)); [done|done|].
  pose proof (emit_length (λ i, sp_augment (plan_at plans i)) (make_augment policy request plans) demand
    (acc_intervention_generation accounting)). unfold first, sizeZ. lia.
Qed.
