(* ===== verification/EvalSpec.v ===== *)
(** The evaluation as a whole: on a valid context [evaluate_fairness] returns,
    and its decision is the assembly of the distribution, the assessed plans and
    the corrective plan ([evaluation]). *)
From S2P Require Import Prelude Status Core U128 Policy PolicyValid Accounting Evidence Outcome Codec Allocation AllocationSpec Distributor DistributorSpec BuildSpec Engine Planner EngineSpec PlannerSpec.
#[local] Open Scope Z_scope.

(** The intents of a decision: augmentations in demand order, then reductions. *)
Definition augment_list (policy : FairnessPolicy) (accounting : FairnessAccounting)
    (request : EvaluationRequest) (plans finals : list SubjectPlan) : list CorrectiveIntent * Z :=
  emit (λ i, sp_augment (plan_at finals i)) (make_augment policy request finals)
    (demand_order policy plans) (acc_intervention_generation accounting).

Definition reduce_list (policy : FairnessPolicy) (accounting : FairnessAccounting)
    (request : EvaluationRequest) (plans finals : list SubjectPlan) : list CorrectiveIntent * Z :=
  emit (λ i, sp_reduce (plan_at finals i)) (make_reduce policy request finals)
    (supply_order policy plans) (augment_list policy accounting request plans finals).2.

(** The units of the intents of one direction. *)
Definition intent_units (direction : CorrectionDirection.t) (intents : list CorrectiveIntent) : Z :=
  sumZ (ci_units <$> filter (λ it, ci_direction it = direction) intents).

Lemma emit_direction units make order g direction direction' :
  (∀ i k, ci_direction (make i k) = direction') →
  filter (λ it, ci_direction it = direction) (emit units make order g).1
  = if decide (direction' = direction) then (emit units make order g).1 else [].
Proof.
  intros Hd. revert g. induction order as [|i order IH]; intros g; cbn [emit]; [by case_decide|].
  destruct (units i =? 0); [apply IH|]. specialize (IH (generation_next g)).
  destruct (emit units make order (generation_next g)) as [l k]. cbn [fst] in *.
  rewrite filter_cons, Hd, IH. by case_decide.
Qed.

(** What a decision is made of. *)
Record evaluation (policy : FairnessPolicy) (accounting : FairnessAccounting) (ctx : EvaluationContext)
    (d : Distributor) (plans finals : list SubjectPlan) (decision : FairnessDecision) : Prop := {
  ev_length : length plans = length (pol_subjects policy) ∧ length finals = length (pol_subjects policy);
  ev_distributed : distributed policy (sumZ (counted_service <$> plans)) d;
  ev_whole : 0 <= sumZ (counted_service <$> plans) <= whole_bound;
  ev_assessed : ∀ i, (i < length (pol_subjects policy))%nat →
    assessed policy accounting ctx d i (subject_at policy i) (plan_at plans i);
  ev_granted : sp_has_authority <$> plans = sp_has_authority <$> (authority_plans policy accounting ctx).1;
  ev_deficits : sumZ (sp_effective_deficit <$> plans) <= 2 ^ 62;
  ev_finals : let authorized := budget_of policy plans (sumZ (counted_service <$> plans)) in
    ∀ i, (i < length (pol_subjects policy))%nat →
      plan_at finals i = final_at policy plans (blocking policy plans authorized) authorized i;
  ev_authority : fd_authority decision = request_authority policy accounting ctx;
  ev_outcome : fd_outcome decision = aggregate_outcome finals;
  ev_counts : fd_counts decision = aggregate_counts finals;
  ev_subjects : fd_subjects decision = zip_with (subject_state policy) (pol_subjects policy) finals;
  ev_groups : fd_groups decision = group_states d policy finals;
  ev_intents : fd_intents decision
    = (augment_list policy accounting (ctx_request ctx) plans finals).1
      ++ (reduce_list policy accounting (ctx_request ctx) plans finals).1;
  ev_correction : let authorized := budget_of policy plans (sumZ (counted_service <$> plans)) in
    cor_authorized_budget_units (fd_correction decision) = authorized
    ∧ cor_augment_units (fd_correction decision) = authorized
    ∧ cor_reduce_units (fd_correction decision) = authorized
    ∧ cor_unsatisfied_demand_units (fd_correction decision) = unsatisfied policy plans authorized
    ∧ cor_reducible_pool_units (fd_correction decision) = sumZ (sp_reducible <$> plans)
    ∧ cor_demand_units (fd_correction decision) = sumZ (sp_demand <$> plans);
  ev_digest : fd_content_digest decision = decision_digest decision }.

Section evaluate.
  Context (ctx : EvaluationContext) (policy : FairnessPolicy) (accounting : FairnessAccounting).
  Hypothesis Hctx : context_ok ctx policy accounting.
  Notation m := (length (pol_subjects policy)).

Lemma assessed_deficit d i subject plan :
  0 <= at_ (d_subject_effective d) i → assessed policy accounting ctx d i subject plan →
  sp_effective_deficit plan <= at_ (d_subject_effective d) i + kMaxCarryUnits.
Proof.
  intros H0 [(oc & rc & _ & ->)|(e & o & Ee & _ & Ho & _ & Ha)].
  - change (0 <= at_ (d_subject_effective d) i + kMaxCarryUnits). unfold kMaxCarryUnits. lia.
  - rewrite (ad_effective _ _ _ _ _ _ _ _ Ha).
    pose proof (carried_deficit_range policy accounting ctx Hctx (subj_id subject)).
    destruct (observed_served policy accounting ctx Hctx e _ o Ee Ho) as [_ ?]. lia.
Qed.

Lemma subject_at_elem i : (i < m)%nat → ∃ s, pol_subjects policy !! i = Some s ∧ subject_at policy i = s.
Proof.
  intros [s Hs]%lookup_lt_is_Some_2. exists s. split; [done|by apply subject_at_lookup].
Qed.

(** The effective deficits stay far from the word size. *)
Lemma deficits_bounded d plans whole :
  length plans = m → distributed policy whole d → 0 <= whole <= whole_bound →
  (∀ i, (i < m)%nat → assessed policy accounting ctx d i (subject_at policy i) (plan_at plans i)) →
  sumZ (sp_effective_deficit <$> plans) <= 2 ^ 62.
Proof.
  intros Hlen Hd Hw Ha. rewrite sumZ_plans, Hlen.
  assert (u64 whole) as Hu by (unfold whole_bound, kMaxServiceUnits, kMaxSubjects in *; ulia).
  transitivity (sum_over (seq 0 m) (λ i, at_ (d_subject_effective d) i + kMaxCarryUnits)).
  { apply sumZ_map_le. intros i Hi%elem_of_seq.
    destruct (distributed_range policy (co_typed _ _ _ Hctx) (co_evaluable _ _ _ Hctx) whole d i Hu Hd) as [[? _] _]; [lia|].
    apply (assessed_deficit d i (subject_at policy i)); [done|apply Ha; lia]. }
  rewrite sum_over_add. destruct (distributed_conserves policy (co_typed _ _ _ Hctx) (co_evaluable _ _ _ Hctx) whole d Hd) as [_ Hs].
  destruct (ds_lengths _ _ _ Hd) as (_ & Hl & _). rewrite <-Hl, sum_over_seq, Hs, Hl.
  unfold sum_over. rewrite sumZ_map_const, length_seq.
  pose proof (sw_subjects _ (pe_scalars _ (co_evaluable _ _ _ Hctx))) as Hm.
  unfold whole_bound, sizeZ, kMaxServiceUnits, kMaxSubjects, kMaxCarryUnits in *. lia.
Qed.

Lemma order_lengths plans :
  Z.of_nat (length (demand_order policy plans)) + Z.of_nat (length (supply_order policy plans))
  <= kMaxCorrectiveIntents.
Proof.
  unfold demand_order, supply_order. rewrite !sort_by_length.
  pose proof (length_filter (λ i, sp_has_authority (plan_at plans i) && (sp_demand (plan_at plans i) >? 0)) (seq 0 m)) as H1.
  pose proof (length_filter (λ i, sp_has_authority (plan_at plans i) && (sp_reducible (plan_at plans i) >? 0)) (seq 0 m)) as H2.
  rewrite length_seq in H1, H2.
  pose proof (sw_subjects _ (pe_scalars _ (co_evaluable _ _ _ Hctx))) as Hm.
  unfold sizeZ, kMaxCorrectiveIntents in *. lia.
Qed.

Lemma assessed_all_ready d plans whole :
  distributed policy whole d → 0 <= whole <= whole_bound →
  (∀ i, (i < m)%nat → assessed policy accounting ctx d i (subject_at policy i) (plan_at plans i)) →
  ∀ i, (i < m)%nat → ready policy (subject_at policy i) (plan_at plans i).
Proof.
  intros Hd Hw Ha i Hi. pose proof (co_typed _ _ _ Hctx) as T. pose proof (co_evaluable _ _ _ Hctx) as W.
  assert (u64 whole) as Hu by (unfold whole_bound, kMaxServiceUnits, kMaxSubjects in *; ulia).
  destruct (distributed_range policy T W whole d i Hu Hd Hi) as [[? _] _].
  destruct (subject_at_facts policy T W i Hi) as [Ht _].
  by apply (assessed_ready policy accounting ctx d i _ _ Hctx Ht); [|apply Ha].
Qed.

(** The evaluation of a valid context always returns a decision. *)
Lemma evaluate_fairness_value :
  ∃ d plans finals decision, evaluate_fairness ctx = Value decision
    ∧ evaluation policy accounting ctx d plans finals decision.
Proof.
  pose proof (co_typed _ _ _ Hctx) as T. pose proof (co_evaluable _ _ _ Hctx) as W.
  unfold evaluate_fairness. rewrite (co_policy _ _ _ Hctx), (co_accounting _ _ _ Hctx).
  rewrite (build_value policy T W). cbn [result_bind].
  pose proof (authority_plans_opened policy accounting ctx) as Hop.
  destruct (authority_plans policy accounting ctx) as [plans0 notes] eqn:Eplans0. cbn [fst] in Hop.
  destruct (whole_of_value policy accounting ctx Hctx plans0 Hop) as [-> Hw]. cbn [result_bind].
  assert (u64 (sumZ (counted_service <$> plans0))) as Hu
    by (unfold whole_bound, kMaxServiceUnits, kMaxSubjects in *; ulia).
  destruct (distribute_value policy T W _ Hu) as (d & -> & Hd). cbn [result_bind].
  destruct (assess_value policy accounting ctx Hctx d plans0 Hop) as (plans & Hrun & Hlen & Hserved & Hgranted & Hass).
  { intros i Hi. destruct (distributed_range policy T W _ d i Hu Hd Hi) as [? _]. lia. }
  rewrite Hrun. cbn [result_bind]. rewrite <-Hserved in *.
  assert (∀ i, (i < m)%nat → assessed policy accounting ctx d i (subject_at policy i) (plan_at plans i)) as Ha.
  { intros i Hi. destruct (subject_at_elem i Hi) as (s & Hs & ->).
    destruct (lookup_lt_is_Some_2 plans i) as [plan Hp]; [lia|]. rewrite (plan_at_lookup _ _ _ Hp). by eapply Hass. }
  pose proof (assessed_all_ready d plans _ Hd Hw Ha) as Hready.
  pose proof (deficits_bounded d plans _ Hlen Hd Hw Ha) as Hdef.
  destruct (correct_value policy plans T W Hlen Hready Hdef
    (match eligibility policy ctx with None => true | Some _ => false end) _ Hw)
    as (finals & summary & -> & Hflen & Hfin & Hcor). cbn [result_bind].
  rewrite (corrective_intents_value policy accounting (ctx_request ctx) (demand_order policy plans)
    (supply_order policy plans) finals (order_lengths plans)). cbn [result_bind].
  exists d, plans, finals. eexists. split; [reflexivity|]. constructor; try done. by rewrite Eplans0.
Qed.
End evaluate.

(** ** Reading a decision *)

Section decision.
  Context {ctx : EvaluationContext} {policy : FairnessPolicy} {accounting : FairnessAccounting}.
  Hypothesis Hctx : context_ok ctx policy accounting.
  Notation m := (length (pol_subjects policy)).

(** The decision of a valid context is an [evaluation]. *)
Lemma decision_evaluation decision :
  evaluate_fairness ctx = Value decision →
  ∃ d plans finals, evaluation policy accounting ctx d plans finals decision.
Proof.
  intros H. destruct (evaluate_fairness_value ctx policy accounting Hctx) as (d & plans & finals & dec & E & Hev).
  rewrite E in H. injection H as <-. by exists d, plans, finals.
Qed.

Section evaluation.
  Context {d : Distributor} {plans finals : list SubjectPlan} {decision : FairnessDecision}.
  Hypothesis Hev : evaluation policy accounting ctx d plans finals decision.

Notation authorized := (budget_of policy plans (sumZ (counted_service <$> plans))).
Notation T := (co_typed _ _ _ Hctx).
Notation W := (co_evaluable _ _ _ Hctx).

Lemma eval_ready i : (i < m)%nat → ready policy (subject_at policy i) (plan_at plans i).
Proof.
  apply (assessed_all_ready ctx policy accounting Hctx d plans _ (ev_distributed _ _ _ _ _ _ _ Hev)
    (ev_whole _ _ _ _ _ _ _ Hev)). apply (ev_assessed _ _ _ _ _ _ _ Hev).
Qed.

Lemma eval_authorized : 0 <= authorized <= whole_bound.
Proof.
  destruct (ev_length _ _ _ _ _ _ _ Hev) as [Hl _].
  by destruct (correction_budget_value policy plans T W Hl eval_ready (ev_deficits _ _ _ _ _ _ _ Hev) _ (ev_whole _ _ _ _ _ _ _ Hev)).
Qed.

(** The final plan keeps the assessed numbers; only the verdict, the grants and
    the blocking mark are new. *)
Lemma eval_final i : (i < m)%nat →
  let plan := plan_at plans i in
  let final := plan_at finals i in
  sp_augment final = grant_of policy plans authorized i
  ∧ sp_reduce final = take_of policy plans authorized i
  ∧ sp_has_authority final = sp_has_authority plan ∧ sp_served final = sp_served plan
  ∧ sp_entitlement final = sp_entitlement plan ∧ sp_surplus final = sp_surplus plan
  ∧ sp_effective_deficit final = sp_effective_deficit plan
  ∧ sp_this_window_deficit final = sp_this_window_deficit plan
  ∧ sp_starving final = sp_starving plan ∧ sp_demand final = sp_demand plan
  ∧ sp_reducible final = sp_reducible plan ∧ sp_cooling final = sp_cooling plan
  ∧ sp_unserved_streak final = sp_unserved_streak plan
  ∧ sp_below_floor_streak final = sp_below_floor_streak plan
  ∧ sp_deviation final = sp_deviation plan ∧ sp_carry final = sp_carry plan
  ∧ sp_base_entitlement final = sp_base_entitlement plan.
Proof.
  intros Hi. cbv zeta. rewrite (ev_finals _ _ _ _ _ _ _ Hev i Hi). unfold final_at, outcome_plan, deficit_verdict.
  repeat (case_match; try (split_and!; reflexivity)).
Qed.

Lemma eval_state i : (i < m)%nat →
  fd_subjects decision !! i = Some (subject_state policy (subject_at policy i) (plan_at finals i)).
Proof.
  intros Hi. destruct (ev_length _ _ _ _ _ _ _ Hev) as [_ Hl].
  destruct (lookup_lt_is_Some_2 (pol_subjects policy) i Hi) as [s Hs].
  destruct (lookup_lt_is_Some_2 finals i) as [plan Hp]; [lia|].
  rewrite (ev_subjects _ _ _ _ _ _ _ Hev), lookup_zip_with, Hs, Hp.
  by rewrite (subject_at_lookup _ _ _ Hs), (plan_at_lookup _ _ _ Hp).
Qed.

Lemma eval_state_elem st : st ∈ fd_subjects decision →
  ∃ i, (i < m)%nat ∧ st = subject_state policy (subject_at policy i) (plan_at finals i).
Proof.
  intros [i Hi]%list_elem_of_lookup_1. exists i.
  assert (i < m)%nat as Hlt.
  { apply lookup_lt_Some in Hi. rewrite (ev_subjects _ _ _ _ _ _ _ Hev), length_zip_with in Hi. lia. }
  split; [done|]. rewrite eval_state in Hi by done. by injection Hi as <-.
Qed.

Lemma state_fields s plan :
  let st := subject_state policy s plan in
  sf_id st = subj_id s ∧ sf_generation st = subj_generation s ∧ sf_outcome st = sp_outcome plan
  ∧ sf_reason st = sp_reason plan ∧ sf_has_authority st = sp_has_authority plan
  ∧ sf_entitlement_units st = sp_entitlement plan ∧ sf_served_units st = sp_served plan
  ∧ sf_deviation_units st = sp_deviation plan ∧ sf_deficit_units st = sp_this_window_deficit plan
  ∧ sf_surplus_units st = sp_surplus plan ∧ sf_proposed_augment_units st = sp_augment plan
  ∧ sf_proposed_reduce_units st = sp_reduce plan ∧ sf_unserved_streak st = sp_unserved_streak plan
  ∧ sf_below_floor_streak st = sp_below_floor_streak plan
  ∧ sf_unsatisfied_demand_units st = (if sp_effective_deficit plan >? pol_fair_band_units policy
      then sub64 (sp_effective_deficit plan) (sp_augment plan) else 0).
Proof. unfold subject_state. destruct (applied_modifier policy s). by split_and!. Qed.

(** The intents: who, how much, which way. *)
Lemma eval_intent it : it ∈ fd_intents decision →
  ∃ i, (i < m)%nat ∧ ci_subject it = subj_id (subject_at policy i)
    ∧ ci_subject_generation it = subj_generation (subject_at policy i)
    ∧ sp_has_authority (plan_at plans i) = true ∧ 0 < ci_units it
    ∧ match ci_direction it with
      | CorrectionDirection.Augment => i ∈ demand_order policy plans
          ∧ ci_units it = grant_of policy plans authorized i
          ∧ ci_from_starvation it = sp_starving (plan_at plans i)
      | CorrectionDirection.Reduce => i ∈ supply_order policy plans
          ∧ ci_units it = take_of policy plans authorized i
      end.
Proof.
  pose proof eval_authorized as [H0 _]. destruct (ev_length _ _ _ _ _ _ _ Hev) as [Hl _].
  rewrite (ev_intents _ _ _ _ _ _ _ Hev).
  intros [Hin|Hin]%elem_of_app; apply emit_elem in Hin as (i & k & Hi & Hne & ->); try done.
  - destruct (proj1 (demand_order_elem _ _ Hl _) Hi) as (Hm & Hauth & _). exists i.
    destruct (eval_final i Hm) as (Ea & _ & _ & _ & _ & _ & _ & _ & Est & _).
    pose proof (grant_range policy plans Hl eval_ready authorized i H0 Hm) as [Hg _].
    cbn [make_augment ci_subject ci_subject_generation ci_units ci_direction ci_from_starvation].
    rewrite Ea in *. split_and!; try done. lia.
  - destruct (proj1 (supply_order_elem _ _ Hl _) Hi) as (Hm & Hauth & _). exists i.
    destruct (eval_final i Hm) as (_ & Er & _).
    pose proof (take_range policy plans Hl eval_ready authorized i H0 Hm) as [Hg _].
    cbn [make_reduce ci_subject ci_subject_generation ci_units ci_direction].
    rewrite Er in *. split_and!; try done. lia.
Qed.

(** The mark of a subject whose demand a protected obligation holds back. *)
Definition held_back (i : nat) : bool :=
  bool_decide (i ∈ demand_order policy plans)
  && blocked_at policy plans (blocking policy plans authorized) authorized i.

(** The verdict of a subject, by cases. *)
Definition verdict (i : nat) : Outcome.t :=
  let plan := plan_at plans i in
  if negb (sp_has_authority plan) then sp_outcome plan
  else if sp_starving plan then
    if held_back i then Outcome.BlockedByStrongerObligation else Outcome.StarvationRisk
  else if sp_effective_deficit plan >? pol_fair_band_units policy then
    if held_back i then Outcome.BlockedByStrongerObligation
    else if (grant_of policy plans authorized i >? 0)
            && (sp_effective_deficit plan >=? pol_correction_threshold_units policy)
         then Outcome.CorrectionRequired else Outcome.UnderServed
  else if sp_surplus plan >? pol_fair_band_units policy then Outcome.OverServed else Outcome.Fair.

Lemma eval_verdict i : (i < m)%nat → sp_outcome (plan_at finals i) = verdict i.
Proof.
  intros Hi. rewrite (ev_finals _ _ _ _ _ _ _ Hev i Hi). unfold final_at, verdict. fold (held_back i).
  unfold outcome_plan, deficit_verdict.
  cbn [sp_has_authority sp_starving sp_effective_deficit sp_surplus sp_blocked sp_augment set_blocked set_reduce set_augment].
  destruct (sp_has_authority (plan_at plans i)); cbn [negb]; [|done].
  destruct (sp_starving (plan_at plans i)); [by destruct (held_back i)|].
  destruct (sp_effective_deficit (plan_at plans i) >? pol_fair_band_units policy).
  - destruct (held_back i); [done|]. destruct (grant_of policy plans authorized i >? 0); [|done].
    by destruct (sp_effective_deficit (plan_at plans i) >=? pol_correction_threshold_units policy).
  - by destruct (sp_surplus (plan_at plans i) >? pol_fair_band_units policy).
Qed.

(** A state of the decision in terms of the assessed plan and the grants. *)
Record state_of (i : nat) (st : SubjectFairnessState) : Prop := {
  so_subject : sf_id st = subj_id (subject_at policy i)
    ∧ sf_generation st = subj_generation (subject_at policy i);
  so_outcome : sf_outcome st = verdict i;
  so_authority : sf_has_authority st = sp_has_authority (plan_at plans i);
  so_entitlement : sf_entitlement_units st = sp_entitlement (plan_at plans i);
  so_served : sf_served_units st = sp_served (plan_at plans i);
  so_deviation : sf_deviation_units st = sp_deviation (plan_at plans i);
  so_deficit : sf_deficit_units st = sp_this_window_deficit (plan_at plans i);
  so_surplus : sf_surplus_units st = sp_surplus (plan_at plans i);
  so_augment : sf_proposed_augment_units st = grant_of policy plans authorized i;
  so_reduce : sf_proposed_reduce_units st = take_of policy plans authorized i;
  so_unserved : sf_unserved_streak st = sp_unserved_streak (plan_at plans i);
  so_below : sf_below_floor_streak st = sp_below_floor_streak (plan_at plans i);
  so_unsatisfied : sf_unsatisfied_demand_units st =
    if sp_effective_deficit (plan_at plans i) >? pol_fair_band_units policy
    then sp_effective_deficit (plan_at plans i) - grant_of policy plans authorized i else 0 }.

Lemma eval_deficit_bound i : (i < m)%nat → 0 <= sp_effective_deficit (plan_at plans i) <= 2 ^ 62.
Proof.
  intros Hi. split; [apply (re_effective _ _ _ (eval_ready i Hi))|].
  etransitivity; [|exact (ev_deficits _ _ _ _ _ _ _ Hev)].
  destruct (ev_length _ _ _ _ _ _ _ Hev) as [Hl _].
  destruct (lookup_lt_is_Some_2 plans i) as [p Hp]; [lia|]. rewrite (plan_at_lookup _ _ _ Hp).
  apply sumZ_elem_le; [|apply list_elem_of_fmap_2; by eapply list_elem_of_lookup_2].
  apply Forall_fmap, Forall_forall. intros q Hq. cbn.
  by destruct (plan_bounds policy plans T W Hl eval_ready q Hq) as (_ & _ & _ & ?).
Qed.

Lemma eval_state_of i : (i < m)%nat →
  state_of i (subject_state policy (subject_at policy i) (plan_at finals i)).
Proof.
  intros Hi. pose proof (state_fields (subject_at policy i) (plan_at finals i)) as Hs. cbv zeta in Hs.
  pose proof (eval_final i Hi) as Hf. cbv zeta in Hf. pose proof (eval_verdict i Hi) as Hv.
  destruct (ev_length _ _ _ _ _ _ _ Hev) as [Hl _]. pose proof eval_authorized as [Hb _].
  destruct (grant_range policy plans Hl eval_ready authorized i Hb Hi) as [Hg _].
  pose proof (re_demand _ _ _ (eval_ready i Hi)) as Hd. unfold demand_at in Hg.
  pose proof (eval_deficit_bound i Hi) as He. change (2 ^ 62) with 4611686018427387904 in He.
  destruct Hs as (S1 & S2 & S3 & _ & S4 & S5 & S6 & S7 & S8 & S9 & S10 & S11 & S12 & S13 & S14).
  destruct Hf as (F1 & F2 & F3 & F4 & F5 & F6 & F7 & F8 & _ & _ & _ & _ & F9 & F10 & F11 & _).
  constructor; try congruence; [split; congruence|].
  rewrite S14, F7, F1. destruct (sp_effective_deficit (plan_at plans i) >? pol_fair_band_units policy); [apply sub64_small; ulia|done].
Qed.

(** A subject has authority when the evidence is eligible and its own observation is
    current. *)
Lemma eval_granted i : (i < m)%nat →
  sp_has_authority (plan_at plans i) = true ↔
    eligibility policy ctx = None
    ∧ ∃ e o, ctx_evidence ctx = Some e ∧ subject_current accounting e (subject_at policy i) o.
Proof.
  intros Hi. pose proof (f_equal (lookup i) (ev_granted _ _ _ _ _ _ _ Hev)) as Hg.
  destruct (ev_length _ _ _ _ _ _ _ Hev) as [Hl _]. rewrite !list_lookup_fmap in Hg.
  destruct (lookup_lt_is_Some_2 plans i) as [p Hp]; [lia|]. rewrite (plan_at_lookup _ _ _ Hp), Hp in *.
  destruct (authority_plans_spec policy accounting ctx) as [Hlen [[Hel Hin]|(e & Hel & Ee & Eplans)]].
  - destruct (lookup_lt_is_Some_2 (authority_plans policy accounting ctx).1 i) as [p0 Hp0]; [lia|].
    rewrite Hp0 in Hg. injection Hg as ->.
    destruct (inert_facts p0) as [-> _]; [by eapply Forall_lookup_1 in Hp0|]. naive_solver.
  - destruct (lookup_lt_is_Some_2 (pol_subjects policy) i Hi) as [s Hs].
    rewrite Eplans, list_lookup_fmap, Hs in Hg. injection Hg as ->.
    rewrite (subject_at_lookup _ _ _ Hs), plan_from_evidence_authority. split.
    + intros [o Ho]. split; [done|]. by exists e, o.
    + intros (_ & e' & o & Ee' & Ho). rewrite Ee in Ee'. injection Ee' as <-. by exists o.
Qed.

(** Every state of the decision is the state of one subject. *)
Lemma eval_state_find st : st ∈ fd_subjects decision → ∃ i, (i < m)%nat ∧ state_of i st.
Proof.
  intros Hst. destruct (eval_state_elem st Hst) as (i & Hi & ->). exists i. split; [done|by apply eval_state_of].
Qed.

(** The states of the decision, by position. *)
Lemma eval_state_lookup i st : fd_subjects decision !! i = Some st → (i < m)%nat ∧ state_of i st.
Proof.
  rewrite (ev_subjects _ _ _ _ _ _ _ Hev), lookup_zip_with_Some. intros (s & p & -> & Hs & Hp).
  pose proof (lookup_lt_Some _ _ _ Hs) as Hi. split; [done|].
  rewrite <-(subject_at_lookup _ _ _ Hs), <-(plan_at_lookup _ _ _ Hp). by apply eval_state_of.
Qed.

(** What authority means in the assessed plans. *)
Lemma eval_authorised i : (i < m)%nat → sp_has_authority (plan_at plans i) = true →
  ∃ e o, ctx_evidence ctx = Some e ∧ eligibility policy ctx = None
    ∧ evidence_find e (subj_id (subject_at policy i)) = Some o
    ∧ obs_generation o = subj_generation (subject_at policy i)
    ∧ assessed_as policy accounting (ctx_request ctx) (subject_at policy i) o
        (at_ (d_subject_effective d) i) (at_ (d_subject_base d) i) (plan_at plans i).
Proof.
  intros Hi Ha. destruct (ev_assessed _ _ _ _ _ _ _ Hev i Hi) as [Hin|H]; [|done].
  destruct (inert_facts _ Hin) as [E _]. congruence.
Qed.

(** What the subject's published numbers ask for: nothing inside the fair band or in
    a cooldown, else what it is owed up to its cap. *)
Definition asked_units (s : Subject) (st : SubjectFairnessState) : Z :=
  let found := accounting_find accounting (subj_id s) in
  let owed := sf_deficit_units st + carried_deficit policy found in
  if sf_has_authority st && (owed >? pol_fair_band_units policy)
     && negb (cooling_down policy (ctx_request ctx) found (starves s (sf_unserved_streak st) (sf_below_floor_streak st)))
  then Z.min owed (subj_max_augment_units s) else 0.

(** What they offer: the surplus up to the cap, and for a protected subject no more
    than what is served above its floor. *)
Definition offered_units (s : Subject) (st : SubjectFairnessState) : Z :=
  if sf_has_authority st
  then Z.min (Z.min (sf_surplus_units st) (subj_max_reduce_units s))
         (if subj_protected_obligation s then Z.max 0 (sf_served_units st - subj_guarantee_floor s)
          else sf_surplus_units st)
  else 0.

Lemma eval_asked i st : (i < m)%nat → state_of i st →
  asked_units (subject_at policy i) st = sp_demand (plan_at plans i).
Proof.
  intros Hi Hso. unfold asked_units. rewrite (so_authority _ _ Hso), (so_deficit _ _ Hso), (so_unserved _ _ Hso), (so_below _ _ Hso).
  destruct (sp_has_authority (plan_at plans i)) eqn:Ea.
  2:{ destruct (re_authority _ _ _ (eval_ready i Hi) Ea) as (-> & _). done. }
  destruct (eval_authorised i Hi Ea) as (e & o & _ & _ & _ & _ & Has).
  pose proof (ad_deficit _ _ _ _ _ _ _ _ Has) as Ed. pose proof (ad_effective _ _ _ _ _ _ _ _ Has) as Eeff.
  rewrite (ad_demand _ _ _ _ _ _ _ _ Has), (ad_cooling _ _ _ _ _ _ _ _ Has), (ad_starving _ _ _ _ _ _ _ _ Has).
  assert (sp_this_window_deficit (plan_at plans i)
    + carried_deficit policy (accounting_find accounting (subj_id (subject_at policy i)))
    = sp_effective_deficit (plan_at plans i)) as -> by lia. cbn [andb].
  pose proof (subject_caps policy T W i Hi) as [Hc _].
  destruct (_ && _); [|done]. lia.
Qed.

Lemma eval_offered i st : (i < m)%nat → state_of i st →
  offered_units (subject_at policy i) st = sp_reducible (plan_at plans i).
Proof.
  intros Hi Hso. unfold offered_units. rewrite (so_authority _ _ Hso), (so_surplus _ _ Hso), (so_served _ _ Hso).
  destruct (sp_has_authority (plan_at plans i)) eqn:Ea.
  2:{ by destruct (re_authority _ _ _ (eval_ready i Hi) Ea) as (_ & -> & _). }
  destruct (eval_authorised i Hi Ea) as (e & o & Ee & _ & Ho & _ & Has).
  destruct (observed_served policy accounting ctx Hctx e _ o Ee Ho) as [_ Hs].
  rewrite <-(ad_served _ _ _ _ _ _ _ _ Has) in Hs.
  rewrite (ad_reducible _ _ _ _ _ _ _ _ Has). pose proof (ad_surplus _ _ _ _ _ _ _ _ Has) as Esur.
  destruct (subject_at_facts policy T W i Hi) as [[] _]. pose proof (subject_caps policy T W i Hi) as [_ Hc].
  unfold protected_headroom. rewrite !Z.gtb_ltb. unfold kMaxServiceUnits in *.
  destruct (Z.ltb_spec 0 (sp_surplus (plan_at plans i))); destruct (subj_protected_obligation _);
    try (destruct (Z.ltb_spec (subj_guarantee_floor (subject_at policy i)) (sp_served (plan_at plans i)));
         [rewrite sub64_small by ulia|]); lia.
Qed.

(** A number of every state, summed against a number of every plan. *)
Lemma eval_sum (f : Subject → SubjectFairnessState → Z) (g : SubjectPlan → Z) :
  (∀ i st, (i < m)%nat → state_of i st → f (subject_at policy i) st = g (plan_at plans i)) →
  sumZ (zip_with f (pol_subjects policy) (fd_subjects decision)) = sumZ (g <$> plans).
Proof.
  intros H. destruct (ev_length _ _ _ _ _ _ _ Hev) as [Hl Hfl]. rewrite sumZ_plans, Hl. apply sumZ_at.
  - by rewrite length_zip_with, (ev_subjects _ _ _ _ _ _ _ Hev), length_zip_with, Hfl, !Nat.min_id.
  - intros i Hi. destruct (lookup_lt_is_Some_2 (pol_subjects policy) i Hi) as [s Hs].
    rewrite at_lookup, lookup_zip_with, Hs, (eval_state i Hi). cbn [option_map mbind option_bind from_option].
    rewrite <-(subject_at_lookup _ _ _ Hs) at 1. apply H; [done|by apply eval_state_of].
Qed.

(** Both directions move exactly the authorised units. *)
Lemma eval_intent_units :
  intent_units CorrectionDirection.Augment (fd_intents decision) = authorized
  ∧ intent_units CorrectionDirection.Reduce (fd_intents decision) = authorized.
Proof.
  destruct (ev_length _ _ _ _ _ _ _ Hev) as [Hl Hfl].
  destruct (grants_in_order policy plans (co_typed _ _ _ Hctx) (co_evaluable _ _ _ Hctx) Hl eval_ready
    (ev_deficits _ _ _ _ _ _ _ Hev) _ (ev_whole _ _ _ _ _ _ _ Hev)) as [Hg Ht].
  pose proof (ev_intents _ _ _ _ _ _ _ Hev) as Ei. unfold augment_list, reduce_list in Ei.
  unfold intent_units. rewrite Ei, !filter_app, !fmap_app, !sumZ_app.
  rewrite !(emit_direction _ _ (demand_order policy plans) _ _ CorrectionDirection.Augment) by done.
  rewrite !(emit_direction _ _ (supply_order policy plans) _ _ CorrectionDirection.Reduce) by done.
  rewrite (decide_True (P := CorrectionDirection.Augment = CorrectionDirection.Augment)),
    (decide_True (P := CorrectionDirection.Reduce = CorrectionDirection.Reduce)),
    (decide_False (P := CorrectionDirection.Augment = CorrectionDirection.Reduce)),
    (decide_False (P := CorrectionDirection.Reduce = CorrectionDirection.Augment)) by done.
  rewrite !fmap_nil, !sumZ_nil, Z.add_0_r, Z.add_0_l.
  rewrite !emit_units by done.
  rewrite (sum_over_ext _ _ (grant_of policy plans authorized)).
  2:{ intros i (Hi & _)%demand_order_elem; [|done]. apply (eval_final i Hi). }
  rewrite (sum_over_ext (supply_order policy plans) _ (take_of policy plans authorized)).
  2:{ intros i (Hi & _)%supply_order_elem; [|done]. apply (eval_final i Hi). }
  done.
Qed.

(** A starving subject is never held back by a cooldown. *)
Lemma starving_demand i : (i < m)%nat → sp_has_authority (plan_at plans i) = true →
  sp_starving (plan_at plans i) = true →
  sp_demand (plan_at plans i) =
    if sp_effective_deficit (plan_at plans i) >? pol_fair_band_units policy
    then Z.min (sp_effective_deficit (plan_at plans i)) (subj_max_augment_units (subject_at policy i)) else 0.
Proof.
  intros Hi Ha Hs. destruct (eval_authorised i Hi Ha) as (e & o & _ & _ & _ & _ & Has).
  rewrite (ad_demand _ _ _ _ _ _ _ _ Has), (ad_cooling _ _ _ _ _ _ _ _ Has), Hs.
  assert (cooling_down policy (ctx_request ctx) (accounting_find accounting (subj_id (subject_at policy i))) true
    = false) as ->.
  { unfold cooling_down. destruct (accounting_find _ _); [|done]. by rewrite andb_false_r. }
  rewrite andb_true_r. pose proof (subject_caps policy T W i Hi) as [Hc _].
  destruct (sp_effective_deficit (plan_at plans i) >? pol_fair_band_units policy); lia.
Qed.
End evaluation.
End decision.

(** ** Aggregation *)

Lemma aggregate_spec plans :
  (aggregate_outcome plans = Outcome.Fair ∨ aggregate_outcome plans ∈ sp_outcome <$> plans)
  ∧ (∀ plan, plan ∈ plans → Outcome.rank (sp_outcome plan) <= Outcome.rank (aggregate_outcome plans)).
Proof.
  unfold aggregate_outcome.
  assert (∀ l acc, let r := foldl (λ aggregate plan,
      if Outcome.rank (sp_outcome plan) >? Outcome.rank aggregate then sp_outcome plan else aggregate) acc l in
    (r = acc ∨ r ∈ sp_outcome <$> l) ∧ Outcome.rank acc <= Outcome.rank r
    ∧ (∀ plan, plan ∈ l → Outcome.rank (sp_outcome plan) <= Outcome.rank r)) as H.
  { induction l as [|p l IH]; intros acc; cbn [foldl].
    { split; [by left|]. split; [lia|]. intros plan Hp. by apply elem_of_nil in Hp. }
    set (acc' := if Outcome.rank (sp_outcome p) >? Outcome.rank acc then sp_outcome p else acc).
    destruct (IH acc') as (H1 & H2 & H3).
    assert (Outcome.rank acc <= Outcome.rank acc' ∧ Outcome.rank (sp_outcome p) <= Outcome.rank acc'
      ∧ (acc' = acc ∨ acc' = sp_outcome p)) as (Ha & Hb & Hc).
    { unfold acc'. destruct (_ >? _) eqn:E; [apply gtb_true_lt in E|apply gtb_false_le in E]; split_and!; auto; lia. }
    split; [|split; [lia|]].
    - rewrite fmap_cons. destruct H1 as [->|H1]; [|right; by right]. destruct Hc as [->| ->]; [by left|right; by left].
    - intros plan [->|Hp]%elem_of_cons; [lia|by apply H3]. }
  destruct (H plans Outcome.Fair) as (H1 & _ & H3). done.
Qed.

(** The number of plans with an outcome. *)
Definition count_of (o : Outcome.t) (plans : list SubjectPlan) : Z := sizeZ (filter (λ p, sp_outcome p = o) plans).

Definition count_field (o : Outcome.t) (c : OutcomeCounts) : Z :=
  match o with
  | Outcome.Fair => cnt_fair c
  | Outcome.OverServed => cnt_over_served c
  | Outcome.UnderServed => cnt_under_served c
  | Outcome.StarvationRisk => cnt_starvation_risk c
  | Outcome.CorrectionRequired => cnt_correction_required c
  | Outcome.BlockedByStrongerObligation => cnt_blocked_by_stronger_obligation c
  | Outcome.Unknown => cnt_unknown c
  | Outcome.Stale => cnt_stale c
  end.

Lemma count_outcome_field o c x : 0 <= count_field o c < U32_MAX →
  count_field o (count_outcome c x) = count_field o c + if decide (x = o) then 1 else 0.
Proof.
  intros Hc. assert (wrap32 (count_field o c + 1) = count_field o c + 1) as E.
  { unfold U32_MAX in Hc. apply Z.mod_small. lia. }
  case_decide as D.
  - subst x. unfold count_outcome. destruct o; cbn [count_field cnt_fair cnt_over_served cnt_under_served
      cnt_starvation_risk cnt_correction_required cnt_blocked_by_stronger_obligation cnt_unknown cnt_stale] in *;
      rewrite bool_decide_eq_true_2 by done; exact E.
  - unfold count_outcome. destruct o; cbn [count_field cnt_fair cnt_over_served cnt_under_served
      cnt_starvation_risk cnt_correction_required cnt_blocked_by_stronger_obligation cnt_unknown cnt_stale] in *;
      rewrite bool_decide_eq_false_2 by done; lia.
Qed.

Lemma aggregate_counts_field o plans : sizeZ plans < U32_MAX →
  count_field o (aggregate_counts plans) = count_of o plans.
Proof.
  unfold aggregate_counts.
  assert (∀ l c, 0 <= count_field o c → count_field o c + sizeZ l < U32_MAX →
    count_field o (foldl (λ c plan, count_outcome c (sp_outcome plan)) c l) = count_field o c + count_of o l) as H.
  { induction l as [|p l IH]; intros c H0 Hb; cbn [foldl].
    { unfold count_of, sizeZ. cbn. lia. }
    assert (sizeZ (p :: l) = sizeZ l + 1) as E by (unfold sizeZ; cbn [length]; lia). rewrite E in Hb.
    assert (0 <= sizeZ l) by (unfold sizeZ; lia).
    rewrite IH; rewrite count_outcome_field by lia; [|case_decide; lia|case_decide; lia].
    unfold count_of. rewrite filter_cons. case_decide; [|lia]. unfold sizeZ. cbn [length]. lia. }
  intros Hb. rewrite H; [|by destruct o|by destruct o]. by destruct o.
Qed.

Lemma count_of_total plans : sumZ ((λ o, count_of o plans)
    <$> [Outcome.Fair; Outcome.OverServed; Outcome.UnderServed; Outcome.StarvationRisk;
         Outcome.CorrectionRequired; Outcome.BlockedByStrongerObligation; Outcome.Unknown; Outcome.Stale])
  = sizeZ plans.
Proof.
  unfold count_of, sizeZ. induction plans as [|p l IH]; [done|].
  cbn [fmap list_fmap] in *. rewrite !sumZ_cons, sumZ_nil in *. rewrite !filter_cons.
  destruct (sp_outcome p); cbn [length]; repeat (case_decide; [try discriminate|try done]); cbn [length]; lia.
Qed.
