(* ===== verification/Fixture.v ===== *)
(** A small concrete world: one policy, one window of evidence and an empty
    ledger.  The witnesses of the development's theorems are evaluated on it. *)
From S2P Require Import Prelude Status Core U128 Bytes Policy Accounting Evidence Outcome Codec Allocation Distributor Engine Planner.
#[local] Open Scope string_scope.
#[local] Open Scope list_scope.
#[local] Open Scope Z_scope.

Definition sample_provenance : Provenance := mk_provenance 1 "unit" 7 1000.

(** Two levels: a root group with one child group. *)
Definition sample_groups : list FairnessGroup :=
  [ mk_group 1 1 0 1 0 0 false "root"; mk_group 2 1 1 1 10 0 false "child" ].

Definition sample_subject (id group weight floor rank : Z) (protected : bool) : Subject :=
  mk_subject id 1 group 1 weight floor 3 3 no_ref no_ref 0 0 rank protected 50 60 "flow".

Definition sample_policy : FairnessPolicy :=
  mk_policy 1 1 1 100 2 20 0 1000 10000 0 2 0 kMaxCarryUnits true sample_groups
    [ sample_subject 11 1 1 0 0 false; sample_subject 12 1 1 30 1 true;
      sample_subject 13 2 2 10 0 false ] sample_provenance.

Definition sample_observation (id served streak : Z) : SubjectObservation :=
  mk_observation id 1 served streak 0 no_ref no_ref.

Definition sample_evidence : EvidenceSnapshot :=
  mk_snapshot 5 1 9 1 1 1000 1 (mk_producer "probe" 1 1) sample_provenance 0
    [ sample_observation 11 80 0; sample_observation 12 40 0; sample_observation 13 0 1 ].

Definition sample_entry (id : Z) : SubjectAccounting := mk_subject_accounting id 1 0 0 0 0 0 0 0 0 0 0.

Definition sample_accounting : FairnessAccounting :=
  mk_accounting 1 1 1 1 0 0 0 77 [ sample_entry 11; sample_entry 12; sample_entry 13 ].

Definition sample_request : EvaluationRequest := mk_request 1 1 1 5 1 9 1 2000 1 0 true true.

Definition sample_context : EvaluationContext :=
  mk_context (Some sample_policy) (Some sample_accounting) (Some sample_evidence) sample_request 1 9 0.

(** A second window: subject 13 starves, and its own cap is below what it is owed. *)
Definition starving_policy : FairnessPolicy :=
  mk_policy 1 1 1 100 2 20 0 1000 10000 0 2 0 kMaxCarryUnits true sample_groups
    [ mk_subject 11 1 1 1 1 0 3 3 no_ref no_ref 0 0 0 false 500 60 "flow";
      mk_subject 12 1 1 1 1 0 3 3 no_ref no_ref 0 0 0 false 500 60 "flow";
      mk_subject 13 1 2 1 1 10 3 3 no_ref no_ref 0 0 0 false 500 5 "flow" ] sample_provenance.

Definition starving_evidence : EvidenceSnapshot :=
  mk_snapshot 5 1 9 1 1 1000 1 (mk_producer "probe" 1 1) sample_provenance 0
    [ sample_observation 11 300 0; sample_observation 12 10 0; sample_observation 13 0 5 ].

Definition starving_context : EvaluationContext :=
  mk_context (Some starving_policy) (Some sample_accounting) (Some starving_evidence) sample_request 1 9 0.

(** What the theorems project out of a run. *)
Definition run_value {A} (r : Result A) : option A :=
  match r with Value a => Some a | Failure _ => None end.
