(* ===== verification/FixtureSpec.v ===== *)
(** The concrete world of [Fixture] satisfies the hypotheses of the theorems. *)
From S2P Require Import Prelude Status Core Policy PolicyValid Accounting Evidence Outcome Distributor Engine Planner EngineSpec Fixture.
#[local] Open Scope Z_scope.

(** Closes the ranges of concrete words. *)
Ltac concrete := vm_compute; repeat split; discriminate || reflexivity.
Ltac concrete_list := repeat (apply Forall_cons; split); [..|apply Forall_nil; done]; constructor; concrete.

Lemma sample_policy_typed : policy_typed sample_policy.
Proof. constructor; try concrete; concrete_list. Qed.

Lemma sample_policy_valid : validate_policy sample_policy = Value tt.
Proof. vm_compute. reflexivity. Qed.

Lemma sample_policy_wf : policy_wf sample_policy.
Proof. apply validate_policy_iff; [apply sample_policy_typed|apply sample_policy_valid]. Qed.

Lemma sample_entries_typed : Forall sa_typed (acc_subjects sample_accounting).
Proof. concrete_list. Qed.

Lemma sample_accounting_typed : accounting_typed sample_accounting.
Proof. constructor; try concrete. apply sample_entries_typed. Qed.

Lemma sample_evidence_typed : evidence_typed sample_evidence.
Proof. constructor; try concrete. concrete_list. Qed.

Lemma sample_evidence_wf : evidence_wf sample_evidence.
Proof. apply validate_evidence_iff; [apply sample_evidence_typed|vm_compute; reflexivity]. Qed.

Lemma sample_ledger_ok : ledger_ok sample_accounting.
Proof.
  constructor; [apply sample_accounting_typed|].
  pose proof sample_entries_typed as H. repeat (apply Forall_cons in H as [? H]).
  repeat (apply Forall_cons; split); [..|apply Forall_nil; done]; (constructor; [assumption|..]; vm_compute; try split; discriminate).
Qed.

Lemma sample_context_ok : context_ok sample_context sample_policy sample_accounting.
Proof.
  constructor; try reflexivity; [apply sample_policy_typed|apply policy_wf_evaluable, sample_policy_wf|apply sample_ledger_ok|].
  intros e [= <-]. split; [apply sample_evidence_typed|apply sample_evidence_wf].
Qed.

(** The decision a context leads to. *)
Definition decision_in (ctx : EvaluationContext) : FairnessDecision :=
  match evaluate_fairness ctx with
  | Value d => d
  | Failure _ => mk_decision no_authority Outcome.Fair no_counts [] [] [] no_correction [] 0
  end.

Definition sample_decision : FairnessDecision := decision_in sample_context.

Lemma sample_decision_value : evaluate_fairness sample_context = Value sample_decision.
Proof. vm_compute. reflexivity. Qed.

(** The second window. *)

Lemma starving_policy_typed : policy_typed starving_policy.
Proof. constructor; try concrete; concrete_list. Qed.

Lemma starving_evidence_typed : evidence_typed starving_evidence.
Proof. constructor; try concrete. concrete_list. Qed.

Lemma starving_context_ok : context_ok starving_context starving_policy sample_accounting.
Proof.
  constructor; try reflexivity; [apply starving_policy_typed| |apply sample_ledger_ok|].
  - apply policy_wf_evaluable, validate_policy_iff; [apply starving_policy_typed|vm_compute; reflexivity].
  - intros e [= <-]. split; [apply starving_evidence_typed|].
    apply validate_evidence_iff; [apply starving_evidence_typed|vm_compute; reflexivity].
Qed.

Lemma starving_decision_value : evaluate_fairness starving_context = Value (decision_in starving_context).
Proof. vm_compute. reflexivity. Qed.
