(* ===== verification/Fsutil.v ===== *)
(** The filesystem under the store: the primitives of [src/persist/fsutil.cpp]
    over a map from paths to contents, with failures and crashes.

    Every mutating primitive consults a script for what the operating system
    makes of it: it succeeds, it fails part-way, or the process dies part-way.
    A program over the filesystem therefore ends in a result or in a crash, and
    in both cases in the files that survive it.  A crash inside a write leaves a
    prefix of the data; a replace is atomic unless the script tears it. *)
From S2P Require Import Prelude Status Core Bytes.
#[local] Open Scope string_scope.
#[local] Open Scope list_scope.
#[local] Open Scope Z_scope.

Inductive IoStep : Type :=
  | IoOk
  | IoFail (progress : nat)
  | IoCrash (progress : nat)
  | IoTorn (progress : nat).

Record World := mk_world { w_files : gmap string ByteBuffer; w_script : list IoStep }.

(** What an interrupted run leaves behind. *)
Inductive IoResult (A : Type) : Type :=
  | Done (a : A) (w : World)
  | Crashed (files : gmap string ByteBuffer).
Arguments Done {A} a w.
Arguments Crashed {A} files.

Definition Io (A : Type) : Type := World → IoResult A.

Definition io_ret {A} (a : A) : Io A := λ w, Done a w.
Definition io_bind {A B} (m : Io A) (k : A → Io B) : Io B :=
  λ w, match m w with Done a w' => k a w' | Crashed files => Crashed files end.

Notation "'do' x := m 'in' k" := (io_bind m (λ x, k))
  (at level 10, x pattern, m at level 100, k at level 200) : fg_scope.

(** The files a run ends with, whatever happened. *)
Definition surviving {A} (o : IoResult A) : gmap string ByteBuffer :=
  match o with Done _ w => w_files w | Crashed files => files end.

(** Takes the next entry of the script; an exhausted script means success. *)
Definition next_step : Io IoStep := λ w,
  match w_script w with
  | [] => Done IoOk w
  | s :: script => Done s (mk_world (w_files w) script)
  end.

Definition set_files (f : gmap string ByteBuffer → gmap string ByteBuffer) : Io unit :=
  λ w, Done tt (mk_world (f (w_files w)) (w_script w)).

Definition crash : Io (Result unit) := λ w, Crashed (w_files w).

(** ** Primitives *)

Definition exists_ (path : string) : Io bool :=
  λ w, Done (bool_decide (is_Some (w_files w !! path))) w.

Definition remove_file (path : string) : Io (Result unit) :=
  do step := next_step in
  match step with
  | IoOk | IoTorn _ => do _ := set_files (delete path) in io_ret (Value tt)
  | IoFail _ => io_ret (fail StatusCode.IoError "unlink failed")
  | IoCrash progress =>
      do _ := set_files (if (0 <? progress)%nat then delete path else id) in crash
  end.

(** Refuses a file above [max_bytes]. *)
Definition read_file (path : string) (max_bytes : Z) : Io (Result ByteBuffer) :=
  λ w,
    Done (match w_files w !! path with
          | None => fail StatusCode.IoError "fopen failed"
          | Some data =>
              if sizeZ data >? max_bytes
              then fail StatusCode.OversizedPayload "file exceeds the permitted size"
              else Value data
          end) w.

(** Creates or truncates, writes, flushes. *)
Definition write_file (path : string) (data : ByteBuffer) : Io (Result unit) :=
  do step := next_step in
  match step with
  | IoOk | IoTorn _ => do _ := set_files <[path := data]> in io_ret (Value tt)
  | IoFail progress =>
      do _ := set_files <[path := take progress data]> in
      io_ret (fail StatusCode.IoError "write failed")
  | IoCrash progress => do _ := set_files <[path := take progress data]> in crash
  end.

(** [rename]: atomic, except that a torn step leaves a prefix in the target. *)
Definition renamed (from to : string) (files : gmap string ByteBuffer) : gmap string ByteBuffer :=
  match files !! from with
  | None => files
  | Some data => <[to := data]> (delete from files)
  end.

Definition replace_file (from to : string) : Io (Result unit) :=
  do present := exists_ from in
  do step := next_step in
  match step with
  | IoOk =>
      if present then do _ := set_files (renamed from to) in io_ret (Value tt)
      else io_ret (fail StatusCode.IoError "rename failed")
  | IoFail _ => io_ret (fail StatusCode.IoError "rename failed")
  | IoCrash progress =>
      do _ := set_files (if (0 <? progress)%nat then renamed from to else id) in crash
  | IoTorn progress =>
      do _ := set_files (λ files, <[to := take progress (default [] (files !! from))]> files) in crash
  end.

Definition copy_file (from to : string) (max_bytes : Z) : Io (Result unit) :=
  do bytes := read_file from max_bytes in
  match bytes with
  | Failure s => io_ret (Failure s)
  | Value data => write_file to data
  end.
