(* ===== verification/Store.v ===== *)
(** The crash-safe durable store: [persist/store.hpp], [src/persist/store.cpp].

    A record is a 64-byte header and a payload, each under its own checksum.
    [commit] writes a temporary file, a journal and a backup before it replaces
    the committed file; [recover] reads the traces of an interrupted commit. *)
From S2P Require Import Prelude Status Core Bytes Fields Fsutil.
#[local] Open Scope string_scope.
#[local] Open Scope list_scope.
#[local] Open Scope Z_scope.

Module RecordKind.
Inductive t : Set := Policy | Accounting.

Definition value (k : t) : Z := match k with Policy => 1 | Accounting => 2 end.

Definition name (k : t) : string := match k with Policy => "policy" | Accounting => "accounting" end.

#[global] Instance eq_dec : EqDecision t.
Proof. solve_decision. Defined.
End RecordKind.

Record StoreFaultInjection := mk_faults {
  fault_before_temp_write : bool;
  fault_after_temp_write : bool;
  fault_after_journal_write : bool;
  fault_torn_replace : bool;
  fault_after_replace : bool;
  fault_corrupt_payload : bool;
  fault_truncate_temp : bool;
  fault_oversize_payload : bool }.

Definition no_faults : StoreFaultInjection :=
  mk_faults false false false false false false false false.

Record LoadedRecord := mk_loaded {
  lr_present : bool;
  lr_kind : RecordKind.t;
  lr_generation : Z;
  lr_writer_boot : Z;
  lr_writer_ordinal : Z;
  lr_payload : ByteBuffer;
  lr_code : StatusCode.t;
  lr_detail : string }.

Definition loaded_ok (r : LoadedRecord) : bool := bool_decide (lr_code r = StatusCode.Ok).

Record RecoveryNotes := mk_notes {
  rn_journal_cleared : bool;
  rn_backup_recovered : bool;
  rn_unfinished_attempt_discarded : bool;
  rn_corruption_detected : bool;
  rn_temp_discarded : bool }.

Definition no_notes : RecoveryNotes := mk_notes false false false false false.

(** ** Records *)

Definition kRecordHeaderSize : Z := 64.
Definition kRecordMagic : Z := 1129465670.
Definition kStoreFormatVersion : Z := 1.

(** The header with its checksum field zeroed, up to that field. *)
Definition record_prefix (kind : RecordKind.t) (generation : Z) (writer : Incarnation)
    (payload : ByteBuffer) : ByteBuffer :=
  w_u32 kRecordMagic ++ w_u16 kStoreFormatVersion ++ w_u16 (RecordKind.value kind)
  ++ w_u32 0 ++ w_u32 0 ++ w_u64 generation ++ w_u64 (inc_boot writer) ++ w_u64 (inc_ordinal writer)
  ++ w_u64 (sizeZ payload) ++ w_u64 (checksum64 payload).

Definition encode_record (kind : RecordKind.t) (generation : Z) (writer : Incarnation)
    (payload : ByteBuffer) : ByteBuffer :=
  let prefix := record_prefix kind generation writer payload in
  prefix ++ w_u64 (checksum64 (prefix ++ w_u64 0)) ++ payload.

Record DecodedRecord := mk_decoded {
  dr_generation : Z; dr_writer_boot : Z; dr_writer_ordinal : Z; dr_payload : ByteBuffer }.

Definition decode_record (bytes : ByteBuffer) (expected_kind : RecordKind.t) : Result DecodedRecord :=
  reject (sizeZ bytes <? kRecordHeaderSize)
    with StatusCode.Truncated, "record is shorter than its header" ;;
  reject (sizeZ bytes >? kRecordHeaderSize + kMaxDurablePayloadBytes)
    with StatusCode.OversizedPayload, "record exceeds the durable bound" ;;
  reject (negb (field 0 4 bytes =? kRecordMagic))
    with StatusCode.CorruptRecord, "record magic mismatch" ;;
  reject (negb (field 4 2 bytes =? kStoreFormatVersion))
    with StatusCode.UnsupportedFormat, "unsupported record format version" ;;
  reject (negb (field 6 2 bytes =? RecordKind.value expected_kind))
    with StatusCode.CorruptRecord, "record kind mismatch" ;;
  reject (negb (field 8 4 bytes =? 0) || negb (field 12 4 bytes =? 0))
    with StatusCode.CorruptRecord, "record reserved fields must be zero" ;;
  let header_checksum := field 56 8 bytes in
  let header_copy := take 56 bytes ++ w_u64 0 in
  reject (negb (checksum64 header_copy =? header_checksum))
    with StatusCode.ChecksumMismatch, "record header checksum mismatch" ;;
  let payload_length := field 40 8 bytes in
  reject (payload_length >? kMaxDurablePayloadBytes)
    with StatusCode.OversizedPayload, "record payload length exceeds the bound" ;;
  reject (negb (sizeZ bytes =? kRecordHeaderSize + payload_length))
    with StatusCode.Truncated, "record payload length does not match the file size" ;;
  let payload := drop 64 bytes in
  reject (negb (checksum64 payload =? field 48 8 bytes))
    with StatusCode.ChecksumMismatch, "record payload checksum mismatch" ;;
  Value (mk_decoded (field 16 8 bytes) (field 24 8 bytes) (field 32 8 bytes) payload).

(** ** Paths *)

Record DurableStore := mk_store { ds_directory : string; ds_faults : StoreFaultInjection }.

Definition record_path (s : DurableStore) (kind : RecordKind.t) : string :=
  ds_directory s +:+ "/fairness_" +:+ RecordKind.name kind +:+ ".rec".

Definition companion_path (base suffix : string) : string := base +:+ suffix.

(** ** Loading *)

Definition max_record_bytes : Z := kRecordHeaderSize + kMaxDurablePayloadBytes.

Definition unusable (present : bool) (kind : RecordKind.t) (code : StatusCode.t) (detail : string)
    : LoadedRecord :=
  mk_loaded present kind 0 0 0 [] code detail.

Definition load (s : DurableStore) (kind : RecordKind.t) : Io LoadedRecord :=
  let base := record_path s kind in
  do present := exists_ base in
  if negb present then io_ret (unusable false kind StatusCode.NotFound "no committed record")
  else
    do bytes := read_file base max_record_bytes in
    io_ret
      match bytes with
      | Failure st => unusable true kind (status_code st) (status_detail st)
      | Value bytes =>
          match decode_record bytes kind with
          | Failure st => unusable true kind (status_code st) (status_detail st)
          | Value r => mk_loaded true kind (dr_generation r) (dr_writer_boot r) (dr_writer_ordinal r)
                         (dr_payload r) StatusCode.Ok ""
          end
      end.

(** ** Recovery *)

(** The journal is present: an attempt was under way when the process stopped.
    [notes] is the code's out-parameter, reported on failure too. *)
Definition recover_journalled (s : DurableStore) (kind : RecordKind.t) (backup_present : bool)
    : Io (Result unit * RecoveryNotes) :=
  let base := record_path s kind in
  let temp := companion_path base ".tmp" in
  let journal := companion_path base ".jnl" in
  let backup := companion_path base ".prev" in
  do main_record := load s kind in
  if lr_present main_record && loaded_ok main_record then
    do _ := remove_file journal in
    do _ := remove_file backup in
    do _ := remove_file temp in
    io_ret (Value tt, mk_notes true false false false false)
  else if backup_present then
    do restored := replace_file backup base in
    do _ := remove_file journal in
    do _ := remove_file temp in
    match restored with
    | Failure st => io_ret (Failure st, mk_notes true false false true false)
    | Value _ =>
        do restored_record := load s kind in
        if negb (loaded_ok restored_record) then
          io_ret (fail (lr_code restored_record) "backup recovery produced an invalid record",
                  mk_notes true true false true false)
        else io_ret (Value tt, mk_notes true true false false false)
    end
  else
    do _ := remove_file journal in
    do _ := remove_file temp in
    io_ret (Value tt, mk_notes true false true (lr_present main_record) false).

Definition recover (s : DurableStore) (kind : RecordKind.t) : Io (Result unit * RecoveryNotes) :=
  let base := record_path s kind in
  let temp := companion_path base ".tmp" in
  let journal := companion_path base ".jnl" in
  let backup := companion_path base ".prev" in
  do journal_present := exists_ journal in
  do backup_present := exists_ backup in
  do temp_present := exists_ temp in
  if journal_present then recover_journalled s kind backup_present
  else
    do _ := (if temp_present then remove_file temp else io_ret (Value tt)) in
    do _ := (if backup_present then remove_file backup else io_ret (Value tt)) in
    io_ret (Value tt, mk_notes false false temp_present false temp_present).

(** ** Commit *)

(** Whether the durable state is the one the caller computed against. *)
Definition check_expected (s : DurableStore) (kind : RecordKind.t) (expected_generation : Z)
    (main_present : bool) : Io (Result unit) :=
  if main_present then
    do current := load s kind in
    io_ret
      (reject (negb (loaded_ok current))
         with StatusCode.CommitRejected, "existing durable record is not valid; recovery is required" ;;
       reject (negb (lr_generation current =? expected_generation))
         with StatusCode.CommitRejected, "durable generation advanced under this commit" ;;
       Value tt)
  else
    io_ret
      (reject (negb (expected_generation =? 0))
         with StatusCode.CommitRejected, "no durable record exists for this generation" ;;
       Value tt).

(** What the fault injection makes of the encoded record. *)
Definition inject (f : StoreFaultInjection) (encoded : ByteBuffer) : ByteBuffer :=
  let encoded :=
    if fault_truncate_temp f && (sizeZ encoded >? kRecordHeaderSize) then take 65 encoded else encoded in
  if fault_corrupt_payload f && (sizeZ encoded >? kRecordHeaderSize)
  then alter (λ b, Z.lxor b 255) 64%nat encoded else encoded.

Definition journal_bytes (next_generation : Z) (payload : ByteBuffer) (writer : Incarnation)
    : ByteBuffer :=
  w_u64 next_generation ++ w_u64 (checksum64 payload) ++ w_u64 (inc_boot writer)
  ++ w_u64 (inc_ordinal writer).

(** From the journal on: backup, replace, clean-up. *)
Definition publish (s : DurableStore) (kind : RecordKind.t) (main_present : bool)
    (encoded : ByteBuffer) : Io (Result unit) :=
  let base := record_path s kind in
  let temp := companion_path base ".tmp" in
  let journal := companion_path base ".jnl" in
  let backup := companion_path base ".prev" in
  do snapshotted :=
    (if main_present then copy_file base backup max_record_bytes else io_ret (Value tt)) in
  match snapshotted with
  | Failure st =>
      do _ := remove_file journal in
      do _ := remove_file temp in
      io_ret (Failure st)
  | Value _ =>
      if fault_torn_replace (ds_faults s) then
        do partial := write_file base (if sizeZ encoded >? 65 then take 65 encoded else encoded) in
        match partial with
        | Failure st => io_ret (Failure st)
        | Value _ =>
            do _ := remove_file temp in
            io_ret (fail StatusCode.IoError "injected torn replace")
        end
      else
        do replaced := replace_file temp base in
        match replaced with
        | Failure st =>
            do _ := remove_file journal in
            do _ := remove_file temp in
            io_ret (Failure st)
        | Value _ =>
            if fault_after_replace (ds_faults s) then
              io_ret (fail StatusCode.IoError "injected failure after the replace")
            else
              do _ := remove_file journal in
              do _ := remove_file backup in
              io_ret (Value tt)
        end
  end.

(** The temporary and journal writes. *)
Definition stage (s : DurableStore) (kind : RecordKind.t) (next_generation : Z) (payload : ByteBuffer)
    (writer : Incarnation) (main_present : bool) : Io (Result unit) :=
  let base := record_path s kind in
  let temp := companion_path base ".tmp" in
  let journal := companion_path base ".jnl" in
  let f := ds_faults s in
  if fault_before_temp_write f then
    io_ret (fail StatusCode.IoError "injected failure before the temporary write")
  else
    let encoded := inject f (encode_record kind next_generation writer payload) in
    do written := write_file temp encoded in
    match written with
    | Failure st => do _ := remove_file temp in io_ret (Failure st)
    | Value _ =>
        if fault_after_temp_write f then
          io_ret (fail StatusCode.IoError "injected failure after the temporary write")
        else
          do journalled := write_file journal (journal_bytes next_generation payload writer) in
          match journalled with
          | Failure st => do _ := remove_file temp in io_ret (Failure st)
          | Value _ =>
              if fault_after_journal_write f then
                io_ret (fail StatusCode.IoError "injected failure after the journal write")
              else publish s kind main_present encoded
          end
    end.

Definition commit (s : DurableStore) (kind : RecordKind.t) (expected_generation next_generation : Z)
    (payload : ByteBuffer) (writer : Incarnation) : Io (Result unit) :=
  if fault_oversize_payload (ds_faults s) then
    io_ret (fail StatusCode.OversizedPayload "injected oversized payload")
  else if sizeZ payload >? kMaxDurablePayloadBytes then
    io_ret (fail StatusCode.OversizedPayload "payload exceeds the durable bound")
  else if negb (valid (inc_boot writer)) || (inc_ordinal writer =? 0) then
    io_ret (fail StatusCode.InvalidArgument "durable commit requires a live incarnation")
  else if next_generation <=? expected_generation then
    io_ret (fail StatusCode.CommitRejected "next generation must advance")
  else
    do main_present := exists_ (record_path s kind) in
    do checked := check_expected s kind expected_generation main_present in
    match checked with
    | Failure st => io_ret (Failure st)
    | Value _ => stage s kind next_generation payload writer main_present
    end.
