(* ===== verification/StoreSpec.v ===== *)
(** Correctness of the durable store: records round-trip, damage to a record is
    detected, and a commit interrupted at any point leaves the old record or the
    new one after recovery.

    The last part is a crash logic over [Io]: [wp m Q C files] says that [m] run
    on [files] under any script ends in [Q] when it returns and in [C] when the
    process dies. *)
From S2P Require Import Prelude Status Core Bytes Fields Fsutil Store.
#[local] Open Scope string_scope.
#[local] Open Scope list_scope.
#[local] Open Scope Z_scope.

(** ** Records *)

Definition record_ok (generation : Z) (writer : Incarnation) (payload : ByteBuffer) : Prop :=
  u64 generation ∧ u64 (inc_boot writer) ∧ u64 (inc_ordinal writer)
  ∧ byte_list payload ∧ sizeZ payload <= kMaxDurablePayloadBytes.

Lemma length_prefix kind generation writer payload :
  length (record_prefix kind generation writer payload) = 56%nat.
Proof. unfold record_prefix, w_u16, w_u32, w_u64. rewrite !length_app, !length_store_le. done. Qed.

Lemma length_encode_record kind generation writer payload :
  length (encode_record kind generation writer payload) = (64 + length payload)%nat.
Proof.
  unfold encode_record. rewrite !length_app, length_prefix. unfold w_u64. rewrite length_store_le. lia.
Qed.

Lemma prefix_bytes kind generation writer payload : byte_list (record_prefix kind generation writer payload).
Proof. unfold record_prefix. rewrite !byte_list_app. split_and!; apply store_le_bytes. Qed.

Lemma record_fields kind generation writer payload rest :
  record_ok generation writer payload →
  let bytes := record_prefix kind generation writer payload ++ rest in
  field 0 4 bytes = kRecordMagic ∧ field 4 2 bytes = kStoreFormatVersion
  ∧ field 6 2 bytes = RecordKind.value kind ∧ field 8 4 bytes = 0 ∧ field 12 4 bytes = 0
  ∧ field 16 8 bytes = generation ∧ field 24 8 bytes = inc_boot writer ∧ field 32 8 bytes = inc_ordinal writer
  ∧ field 40 8 bytes = sizeZ payload ∧ field 48 8 bytes = checksum64 payload.
Proof.
  intros (Hg & Hb & Ho & Hp & Hs) bytes. unfold kMaxDurablePayloadBytes in Hs.
  assert (u64 (checksum64 payload)) as Hc by (apply fnv1a64_range; unfold kFnvOffsetBasis; ulia).
  assert (0 <= sizeZ payload) by (unfold sizeZ; lia).
  assert (u16 (RecordKind.value kind)) by (destruct kind; unfold u16; cbn; lia).
  unfold bytes, record_prefix, kRecordMagic, kStoreFormatVersion. rewrite <-!app_assoc.
  split_and!; read_field; reflexivity.
Qed.

(** What a successful decode has checked. *)
Lemma decode_record_checks bytes kind r :
  decode_record bytes kind = Value r →
  kRecordHeaderSize <= sizeZ bytes
  ∧ checksum64 (take 56 bytes ++ w_u64 0) = field 56 8 bytes
  ∧ sizeZ bytes = kRecordHeaderSize + field 40 8 bytes
  ∧ checksum64 (drop 64 bytes) = field 48 8 bytes
  ∧ r = mk_decoded (field 16 8 bytes) (field 24 8 bytes) (field 32 8 bytes) (drop 64 bytes).
Proof.
  unfold decode_record.
  set (h := checksum64 (take 56 bytes ++ w_u64 0)). set (c := checksum64 (drop 64 bytes)). clearbody h c.
  autorewrite with guards. intros H. destruct_and!.
  split_and!; try assumption. symmetry. by apply (inj Value).
Qed.

Lemma take_prefix kind generation writer payload rest :
  take 56 (record_prefix kind generation writer payload ++ rest) = record_prefix kind generation writer payload.
Proof. rewrite <-(length_prefix kind generation writer payload). apply take_app_length. Qed.

Lemma record_header_field kind generation writer payload :
  field 56 8 (encode_record kind generation writer payload)
  = checksum64 (record_prefix kind generation writer payload ++ w_u64 0).
Proof.
  unfold encode_record. rewrite field_skip by (rewrite length_prefix; lia). rewrite length_prefix. cbn [Nat.sub].
  rewrite field_here by apply length_store_le. unfold w_u64 at 1. apply load_store_le.
  assert (u64 (checksum64 (record_prefix kind generation writer payload ++ w_u64 0)))
    by (apply fnv1a64_range; unfold kFnvOffsetBasis; ulia).
  word_range.
Qed.

Lemma record_payload kind generation writer payload :
  drop 64 (encode_record kind generation writer payload) = payload.
Proof.
  unfold encode_record. rewrite drop_app_ge by (rewrite length_prefix; lia). rewrite length_prefix. cbn [Nat.sub].
  unfold w_u64. rewrite drop_app_ge by (rewrite length_store_le; lia). rewrite length_store_le. apply drop_0.
Qed.

Lemma decode_encode_record kind generation writer payload :
  record_ok generation writer payload →
  decode_record (encode_record kind generation writer payload) kind
  = Value (mk_decoded generation (inc_boot writer) (inc_ordinal writer) payload).
Proof.
  intros Hok. pose proof (length_encode_record kind generation writer payload) as Hlen.
  pose proof (record_header_field kind generation writer payload) as Hh.
  pose proof (record_payload kind generation writer payload) as Hp.
  assert (take 56 (encode_record kind generation writer payload) = record_prefix kind generation writer payload)
    as Ht by (unfold encode_record; apply take_prefix).
  assert (∃ rest, encode_record kind generation writer payload
    = record_prefix kind generation writer payload ++ rest) as [rest Er] by (unfold encode_record; eauto).
  destruct (record_fields kind generation writer payload rest Hok)
    as (F1 & F2 & F3 & F4 & F5 & F6 & F7 & F8 & F9 & F10).
  rewrite <-Er in *. destruct Hok as (_ & _ & _ & _ & Hs).
  assert (sizeZ (encode_record kind generation writer payload) = 64 + sizeZ payload) as Hsz
    by (unfold sizeZ; rewrite Hlen; lia).
  assert (0 <= sizeZ payload) by (unfold sizeZ; lia). revert Hs.
  unfold decode_record. rewrite F1, F2, F3, F4, F5, F6, F7, F8, F9, F10, Hh, Ht, Hp, Hsz.
  set (c := checksum64 payload). set (h := checksum64 (record_prefix _ _ _ _ ++ _)). clearbody c h.
  intros Hs. autorewrite with guards. unfold kRecordHeaderSize. split_and!; first [lia | reflexivity].
Qed.

(** ** Damage *)

(** One wrong byte anywhere in a record and it no longer decodes, as any kind. *)
Lemma decode_record_single_byte bytes kind r i b b' kind' r' :
  byte_list bytes → decode_record bytes kind = Value r →
  bytes !! i = Some b → u8 b' → b <> b' → decode_record (<[i:=b']> bytes) kind' <> Value r'.
Proof.
  intros Hbytes Hr Hi Hb' Hne Hr'.
  destruct (decode_record_checks _ _ _ Hr) as (Hmin & Hh & _ & Hp & _).
  destruct (decode_record_checks _ _ _ Hr') as (_ & Hh' & _ & Hp' & _). clear Hr Hr'.
  pose proof (lookup_lt_Some _ _ _ Hi) as Hlt. unfold sizeZ, kRecordHeaderSize in Hmin.
  assert (length (take 56 bytes) = 56%nat) as Ht by (rewrite length_take; lia).
  destruct (decide (i < 56)%nat) as [H1|H1]; [|destruct (decide (i < 64)%nat) as [H2|H2]].
  - rewrite field_insert_outside in Hh' by lia. rewrite take_insert_lt in Hh' by lia.
    rewrite <-Hh in Hh'. revert Hh'. eapply checksum_insert; [by apply Forall_take|apply store_le_bytes| |done..].
    by rewrite lookup_take_lt.
  - rewrite take_insert_ge in Hh' by lia. rewrite Hh in Hh'. symmetry in Hh'.
    apply field_inj in Hh'; [|done|by apply Forall_insert|lia|by rewrite length_insert].
    apply (f_equal (λ m, m !! (i - 56)%nat)) in Hh'.
    rewrite !lookup_take_lt, !lookup_drop in Hh' by lia.
    replace (56 + (i - 56))%nat with i in Hh' by lia.
    rewrite list_lookup_insert_eq in Hh' by done. congruence.
  - rewrite field_insert_outside in Hp' by lia. rewrite drop_insert_ge in Hp' by lia.
    rewrite <-Hp in Hp'. revert Hp'.
    rewrite <-(app_nil_r (drop 64 bytes)), <-(app_nil_r (<[_:=_]> _)).
    rewrite (app_nil_r (drop 64 bytes)) at 1.
    eapply checksum_insert; [by apply Forall_drop|constructor| |done..].
    rewrite lookup_drop. by replace (64 + (i - 64))%nat with i by lia.
Qed.

(** A cut record does not decode either: its length field disagrees. *)
Lemma decode_record_cut bytes kind r k kind' r' :
  decode_record bytes kind = Value r → (k < length bytes)%nat →
  decode_record (take k bytes) kind' <> Value r'.
Proof.
  intros Hr Hk Hr'.
  destruct (decode_record_checks _ _ _ Hr) as (_ & _ & Hs & _).
  destruct (decode_record_checks _ _ _ Hr') as (Hmin & _ & Hs' & _). clear Hr Hr'.
  unfold sizeZ, kRecordHeaderSize in *. rewrite length_take_le in Hmin, Hs' by lia.
  rewrite field_take in Hs' by lia. lia.
Qed.

(** ** A crash logic over [Io] *)

Notation Files := (gmap string ByteBuffer).

Section crash_logic.
  Context (P : IoStep → Prop).

(** [wp P m Q C files]: under any script of steps allowed by [P], [m] on [files]
    ends in [Q] with the rest of the script still allowed, or crashes in [C]. *)
Definition wp {A} (m : Io A) (Q : A → Files → Prop) (C : Files → Prop) (files : Files) : Prop :=
  ∀ script, Forall P script →
    match m (mk_world files script) with
    | Done a w => Q a (w_files w) ∧ Forall P (w_script w)
    | Crashed files' => C files'
    end.

Lemma wp_ret {A} (a : A) (Q : A → Files → Prop) C files : Q a files → wp (io_ret a) Q C files.
Proof. intros HQ script Hs. by split. Qed.

Lemma wp_bind {A B} (m : Io A) (k : A → Io B) (Q : B → Files → Prop) C files :
  wp m (λ a files', wp (k a) Q C files') C files → wp (io_bind m k) Q C files.
Proof.
  intros Hm script Hs. specialize (Hm script Hs). unfold io_bind.
  destruct (m _) as [a [files' script']|files']; [|done].
  destruct Hm as [Hk Hs']. exact (Hk script' Hs').
Qed.

Lemma wp_mono {A} (m : Io A) (Q Q' : A → Files → Prop) (C C' : Files → Prop) files :
  wp m Q C files → (∀ a f, Q a f → Q' a f) → (∀ f, C f → C' f) → wp m Q' C' files.
Proof.
  intros Hm HQ HC script Hs. specialize (Hm script Hs).
  destruct (m _); [destruct Hm; split; auto|auto].
Qed.

Lemma wp_exists path (Q : bool → Files → Prop) C files :
  Q (bool_decide (is_Some (files !! path))) files → wp (exists_ path) Q C files.
Proof. intros HQ script Hs. by split. Qed.

Definition read_result (path : string) (max_bytes : Z) (files : Files) : Result ByteBuffer :=
  match files !! path with
  | None => fail StatusCode.IoError "fopen failed"
  | Some data => if sizeZ data >? max_bytes
                 then fail StatusCode.OversizedPayload "file exceeds the permitted size" else Value data
  end.

Lemma wp_read path max_bytes (Q : Result ByteBuffer → Files → Prop) C files :
  Q (read_result path max_bytes files) files → wp (read_file path max_bytes) Q C files.
Proof. intros HQ script Hs. by split. Qed.

(** Every step of the operating system, as the three ways a primitive can go. *)
Ltac run_step :=
  intros script Hs; unfold io_bind, next_step; cbn [w_script w_files];
  destruct script as [|[|n|n|n] script]; cbv beta iota delta [io_ret set_files crash w_files w_script]; try (apply Forall_cons in Hs as [Hstep Hs]).

Lemma wp_remove path (Q : Result unit → Files → Prop) (C : Files → Prop) files :
  Q (Value tt) (delete path files) →
  ((∃ n, P (IoFail n)) → Q (fail StatusCode.IoError "unlink failed") files) →
  C files → C (delete path files) → wp (remove_file path) Q C files.
Proof.
  intros HQ1 HQ2 HC1 HC2. unfold remove_file. run_step; try done.
  - split; [apply HQ2; eauto|done].
  - by destruct (0 <? n)%nat.
Qed.

Lemma wp_write path data (Q : Result unit → Files → Prop) (C : Files → Prop) files :
  Q (Value tt) (<[path:=data]> files) →
  (∀ k, Q (fail StatusCode.IoError "write failed") (<[path:=take k data]> files)) →
  (∀ k, C (<[path:=take k data]> files)) → wp (write_file path data) Q C files.
Proof. intros HQ1 HQ2 HC. unfold write_file. run_step; auto. Qed.

Lemma wp_replace from to data (Q : Result unit → Files → Prop) (C : Files → Prop) files :
  files !! from = Some data →
  Q (Value tt) (<[to:=data]> (delete from files)) →
  ((∃ n, P (IoFail n)) → Q (fail StatusCode.IoError "rename failed") files) →
  C files → C (<[to:=data]> (delete from files)) →
  (∀ k, P (IoTorn k) → C (<[to:=take k data]> files)) → wp (replace_file from to) Q C files.
Proof.
  intros Hf HQ1 HQ2 HC1 HC2 HC3. unfold replace_file. intros script Hs.
  unfold io_bind, exists_. cbn [w_files]. rewrite bool_decide_eq_true_2 by eauto.
  revert script Hs. run_step; unfold renamed; rewrite ?Hf; try done.
  - split; [apply HQ2; eauto|done].
  - destruct (0 <? n)%nat; [|done]. cbn. rewrite Hf. apply HC2.
  - by apply HC3.
Qed.
End crash_logic.

(** ** Crash safety *)

Lemma append_inj (b x y : string) : b +:+ x = b +:+ y → x = y.
Proof. apply (inj (String.append b)). Qed.

Lemma append_empty (b : string) : b +:+ "" = b.
Proof. induction b as [|c b IH]; [reflexivity|]. change (String c (b +:+ "") = String c b). by rewrite IH. Qed.

Lemma decode_record_size bytes kind r : decode_record bytes kind = Value r → sizeZ bytes <= max_record_bytes.
Proof.
  unfold decode_record, max_record_bytes. autorewrite with guards. intros H. destruct_and!. lia.
Qed.

Lemma decode_record_failure bytes kind st : decode_record bytes kind = Failure st → status_code st <> StatusCode.Ok.
Proof.
  unfold decode_record. cbv zeta. intros H.
  repeat match type of H with (if ?b then _ else _) = _ => destruct b; [by injection H as <-|] end.
  discriminate H.
Qed.

(** What [load] makes of the committed file. *)
Definition load_result (base : string) (kind : RecordKind.t) (files : Files) : LoadedRecord :=
  match files !! base with
  | None => unusable false kind StatusCode.NotFound "no committed record"
  | Some _ =>
      match read_result base max_record_bytes files with
      | Failure st => unusable true kind (status_code st) (status_detail st)
      | Value bytes =>
          match decode_record bytes kind with
          | Failure st => unusable true kind (status_code st) (status_detail st)
          | Value r => mk_loaded true kind (dr_generation r) (dr_writer_boot r) (dr_writer_ordinal r)
                         (dr_payload r) StatusCode.Ok ""
          end
      end
  end.

Lemma wp_load P s kind (Q : LoadedRecord → Files → Prop) C files :
  Q (load_result (record_path s kind) kind files) files → wp P (load s kind) Q C files.
Proof.
  intros HQ. unfold load. apply wp_bind, wp_exists. unfold load_result in HQ.
  destruct (files !! record_path s kind) as [bytes|] eqn:E.
  - rewrite bool_decide_eq_true_2 by eauto. cbn [negb]. by apply wp_bind, wp_read, wp_ret.
  - rewrite bool_decide_eq_false_2 by (intros [? [=]]). cbn [negb]. by apply wp_ret.
Qed.

Lemma load_result_some base kind files bytes r :
  files !! base = Some bytes → decode_record bytes kind = Value r →
  load_result base kind files
  = mk_loaded true kind (dr_generation r) (dr_writer_boot r) (dr_writer_ordinal r) (dr_payload r) StatusCode.Ok "".
Proof.
  intros Hb Hr. unfold load_result, read_result. rewrite !Hb. apply decode_record_size in Hr as Hs.
  rewrite (proj2 (gtb_false_le _ _) Hs), Hr. done.
Qed.

Section crash_safety.
  Context (s : DurableStore) (kind : RecordKind.t) (old : option ByteBuffer).
  Context (new : ByteBuffer) (new_record : DecodedRecord).
  Context (Hnew : decode_record new kind = Value new_record).
  Context (Hold : ∀ o, old = Some o → ∃ r, decode_record o kind = Value r).

Notation base := (record_path s kind).
Notation temp := (companion_path base ".tmp").
Notation journal := (companion_path base ".jnl").
Notation backup := (companion_path base ".prev").

Lemma paths_distinct :
  base <> temp ∧ base <> journal ∧ base <> backup ∧ temp <> journal ∧ temp <> backup ∧ journal <> backup.
Proof.
  unfold companion_path. generalize base as b. intros b.
  split_and!; try (intros H; apply append_inj in H; discriminate H);
    intros H; rewrite <-(append_empty b) in H at 1; apply append_inj in H; discriminate H.
Qed.

(** The committed file is the old record or the new one, or a torn piece of one
    of them while the journal and a backup of the old record are there; where there
    was no record it may be a torn piece of the new one, with no backup. *)
Definition recoverable (files : Files) : Prop :=
  match old with
  | None => files !! backup = None
      ∧ (files !! base = None ∨ files !! base = Some new ∨ ∃ k, files !! base = Some (take k new))
  | Some o =>
      files !! base = Some o ∨ files !! base = Some new
      ∨ (is_Some (files !! journal) ∧ files !! backup = Some o
         ∧ ∃ k, files !! base = Some (take k o) ∨ files !! base = Some (take k new))
  end.

(** The committed file is whole. *)
Definition whole_old (files : Files) : Prop :=
  files !! base = old ∧ (old = None → files !! backup = None).
Definition whole_new (files : Files) : Prop :=
  files !! base = Some new ∧ (old = None → files !! backup = None).

Lemma whole_old_recoverable files : whole_old files → recoverable files.
Proof. intros [H1 H2]. unfold recoverable. destruct old; [auto|]. auto. Qed.

Lemma whole_new_recoverable files : whole_new files → recoverable files.
Proof. intros [H1 H2]. unfold recoverable. destruct old; auto. Qed.

(** The very first commit was torn: a proper piece of the new record, and nothing to
    fall back to. *)
Definition torn_first (files : Files) : Prop :=
  old = None ∧ files !! backup = None
  ∧ ∃ k, (k < length new)%nat ∧ files !! base = Some (take k new).

(** A recoverable state, by cases. *)
Lemma recoverable_inv files :
  recoverable files →
  whole_old files ∨ whole_new files ∨ torn_first files
  ∨ ∃ o part, old = Some o ∧ is_Some (files !! journal) ∧ files !! backup = Some o
      ∧ files !! base = Some part ∧ (∀ r, decode_record part kind <> Value r)
      ∧ ∃ k, part = take k o ∨ part = take k new.
Proof.
  unfold recoverable, whole_old, whole_new, torn_first. destruct old as [o|] eqn:Eo.
  2:{ intros (Hb & [H|[H|[k H]]]); [by left|right; by left|]. right.
      destruct (decide (k < length new)%nat); [right; left; eauto|]. left. by rewrite take_ge in H by lia. }
  intros [H|[H|(Hj & Hb & k & H)]]; [naive_solver..|].
  destruct (Hold o eq_refl) as [ro Hro].
  destruct H as [H|H]; [destruct (decide (k < length o)%nat)|destruct (decide (k < length new)%nat)].
  - do 3 right. exists o, (take k o). split_and!; eauto. intros r. by eapply decode_record_cut.
  - rewrite take_ge in H by lia. naive_solver.
  - do 3 right. exists o, (take k new). split_and!; eauto. intros r. by eapply decode_record_cut.
  - rewrite take_ge in H by lia. naive_solver.
Qed.

(** A commit may meet any step; a recovery may crash or tear, but not fail. *)
Definition os_step (step : IoStep) : Prop := True.

Definition crash_step (step : IoStep) : Prop :=
  match step with IoFail _ => False | _ => True end.

(** Looks paths up through updates of other paths. *)
Ltac lookups :=
  destruct paths_distinct as (? & ? & ? & ? & ? & ?);
  rewrite ?lookup_insert_eq, ?lookup_delete_eq;
  repeat first
    [rewrite lookup_insert_ne by congruence | rewrite lookup_delete_ne by congruence
    |rewrite lookup_insert_eq | rewrite lookup_delete_eq]; auto.

Lemma whole_old_other p v files :
  p <> base → p <> backup → whole_old files → whole_old (<[p:=v]> files) ∧ whole_old (delete p files).
Proof.
  intros H1 H2 [H3 H4]. unfold whole_old.
  rewrite !lookup_insert_ne, !lookup_delete_ne by done. done.
Qed.

Lemma whole_old_backup v files :
  is_Some old → whole_old files → whole_old (<[backup:=v]> files).
Proof.
  intros Ho [H3 H4]. destruct paths_distinct as (? & ? & ? & ? & ? & ?). unfold whole_old.
  rewrite lookup_insert_ne by done. split; [done|]. intros ->. by destruct Ho.
Qed.

Lemma whole_delete p files : p <> base →
  (whole_old files → whole_old (delete p files)) ∧ (whole_new files → whole_new (delete p files)).
Proof.
  intros H1. unfold whole_old, whole_new. rewrite !lookup_delete_ne by done.
  split; (intros [H2 H3]; split; [done|]; intros Ho; specialize (H3 Ho);
    destruct (decide (p = backup)) as [->|]; [apply lookup_delete_eq|by rewrite lookup_delete_ne]).
Qed.

(** A recoverable state either is torn for good, or is not. *)
Lemma recoverable_cases files : recoverable files → torn_first files ∨ recoverable files ∧ ¬ torn_first files.
Proof.
  intros Hr. destruct (recoverable_inv files Hr) as [[H _]|[[H _]|[H|(o & part & Ho & _)]]]; [right..|by left|right];
    (split; [done|]); intros (Ho' & _ & k & Hk & Hm).
  - rewrite H in Hm. congruence.
  - rewrite H in Hm. injection Hm as Hm. apply (f_equal length) in Hm. rewrite length_take in Hm. lia.
  - congruence.
Qed.

(** What a run of [recover] promises. *)
Definition recovered (o : Result unit * RecoveryNotes) (files : Files) : Prop :=
  o.1 = Value tt ∧ (files !! base = old ∨ files !! base = Some new)
  ∧ files !! journal = None ∧ files !! temp = None ∧ files !! backup = None.

(** ... and where the first record is torn. *)
Definition left_torn (o : Result unit * RecoveryNotes) (files : Files) : Prop :=
  o.1 = Value tt ∧ torn_first files
  ∧ files !! journal = None ∧ files !! temp = None ∧ files !! backup = None.

Lemma recovered_whole notes files :
  whole_old files ∨ whole_new files → files !! journal = None → files !! temp = None →
  files !! backup = None → recovered (Value tt, notes) files.
Proof. intros H. unfold recovered, whole_old, whole_new in *. naive_solver. Qed.

Lemma whole_recoverable files : whole_old files ∨ whole_new files → recoverable files.
Proof. intros [H|H]; [by apply whole_old_recoverable|by apply whole_new_recoverable]. Qed.

Lemma whole_cleanup p files :
  p <> base → whole_old files ∨ whole_new files → whole_old (delete p files) ∨ whole_new (delete p files).
Proof. intros H [Hw|Hw]; [left|right]; by apply whole_delete. Qed.

(** Removing a companion of a whole record. *)
Lemma wp_cleanup {A} p (k : Io A) (Q : A → Files → Prop) files :
  p <> base → whole_old files ∨ whole_new files →
  wp crash_step k Q recoverable (delete p files) →
  wp crash_step (do _ := remove_file p in k) Q recoverable files.
Proof.
  intros Hp Hw Hk. apply wp_bind. apply wp_remove; [done| | |].
  - by intros [? []].
  - by apply whole_recoverable.
  - by apply whole_recoverable, whole_cleanup.
Qed.

Lemma load_result_whole files :
  whole_old files ∨ whole_new files →
  let l := load_result base kind files in lr_present l = loaded_ok l ∧ (loaded_ok l = false → files !! backup = None).
Proof.
  intros H. assert ((old = None ∧ files !! base = None ∧ files !! backup = None)
    ∨ ∃ x r, files !! base = Some x ∧ decode_record x kind = Value r) as [(_ & Hn & Hb)|(x & r & Hx & Hr)].
  { destruct H as [[H1 H2]|[H1 H2]]; [|right; eauto]. destruct old as [o|]; [|auto].
    right. destruct (Hold o eq_refl) as [r Hr]. eauto. }
  - unfold load_result. rewrite Hn. split; [reflexivity|done].
  - cbv zeta. rewrite (load_result_some _ _ _ _ _ Hx Hr). split; [reflexivity|]. discriminate.
Qed.

Lemma wp_cleanup_if {A} p b (k : Io A) (Q : A → Files → Prop) files :
  b = bool_decide (is_Some (files !! p)) → p <> base → whole_old files ∨ whole_new files →
  wp crash_step k Q recoverable (delete p files) →
  wp crash_step (do _ := (if b then remove_file p else io_ret (Value tt)) in k) Q recoverable files.
Proof.
  intros -> Hp Hw Hk. destruct (bool_decide _) eqn:E; [by apply wp_cleanup|].
  apply bool_decide_eq_false in E. rewrite <-eq_None_not_Some in E.
  apply wp_bind, wp_ret. by rewrite delete_id in Hk.
Qed.

Ltac keep_whole := by repeat (apply whole_cleanup; [congruence|]).

Ltac recovered_clean := apply wp_ret, recovered_whole; [keep_whole|lookups..].

(** With a whole record, recovery only clears traces. *)
Lemma wp_recover_whole files :
  whole_old files ∨ whole_new files → wp crash_step (recover s kind) recovered recoverable files.
Proof.
  intros Hw. destruct paths_distinct as (D1 & D2 & D3 & D4 & D5 & D6).
  destruct (load_result_whole files Hw) as [Hl Hb].
  unfold recover. cbv zeta. do 3 apply wp_bind, wp_exists.
  destruct (bool_decide (is_Some (files !! journal))) eqn:Ej.
  - unfold recover_journalled. cbv zeta. apply wp_bind, wp_load. rewrite Hl, andb_diag.
    destruct (loaded_ok _).
    + do 3 (apply wp_cleanup; [congruence|keep_whole|]). recovered_clean.
    + rewrite (Hb eq_refl). rewrite bool_decide_eq_false_2 by (intros [? [=]]).
      do 2 (apply wp_cleanup; [congruence|keep_whole|]). recovered_clean.
  - apply bool_decide_eq_false in Ej. rewrite <-eq_None_not_Some in Ej.
    apply wp_cleanup_if; [done|congruence|done|].
    apply wp_cleanup_if; [by rewrite lookup_delete_ne by done|congruence|keep_whole|].
    recovered_clean.
Qed.

(** With a torn record, recovery puts the backup back. *)
Lemma wp_recover_torn files o part :
  old = Some o → is_Some (files !! journal) → files !! backup = Some o → files !! base = Some part →
  (∀ r, decode_record part kind <> Value r) → (∃ k, part = take k o ∨ part = take k new) →
  wp crash_step (recover s kind) recovered recoverable files.
Proof.
  intros Eo Hj Hb Hm Hbad [k Hk]. destruct paths_distinct as (D1 & D2 & D3 & D4 & D5 & D6).
  assert (recoverable files) as Hrec.
  { unfold recoverable. rewrite Eo. right; right. split_and!; [done..|]. exists k. by destruct Hk as [<-|<-]; auto. }
  assert (whole_old (<[base:=o]> (delete backup files))) as Hw.
  { unfold whole_old. rewrite lookup_insert_eq. split; [done|]. by rewrite Eo. }
  unfold recover. cbv zeta. do 3 apply wp_bind, wp_exists. rewrite bool_decide_eq_true_2 by done.
  unfold recover_journalled. cbv zeta. apply wp_bind, wp_load.
  assert (loaded_ok (load_result base kind files) = false) as ->.
  { unfold load_result, read_result. rewrite !Hm. destruct (sizeZ part >? _); [reflexivity|].
    destruct (decode_record part kind) as [r|st] eqn:Er; [exfalso; by apply (Hbad r)|].
    apply decode_record_failure in Er. by apply bool_decide_eq_false_2. }
  rewrite andb_false_r. rewrite bool_decide_eq_true_2 by eauto.
  apply wp_bind. apply (wp_replace _ _ _ o); [done| |by intros [? []]|done|by apply whole_recoverable; left|].
  - do 2 (apply wp_cleanup; [congruence|left; repeat (apply whole_delete; [congruence|]); done|]).
    destruct (Hold o Eo) as [r Hr]. apply wp_bind, wp_load.
    rewrite (load_result_some _ _ _ o r); [|by lookups|done]. cbn.
    apply wp_ret, recovered_whole; [left; repeat (apply whole_delete; [congruence|]); done|lookups..].
  - intros n _. unfold recoverable. rewrite Eo. right; right. rewrite !lookup_insert_ne by done.
    split_and!; [done..|]. exists n. left. apply lookup_insert_eq.
Qed.

(** With a torn first record, recovery clears the traces and leaves the piece. *)
Lemma torn_first_bad files : torn_first files →
  files !! backup = None ∧ lr_present (load_result base kind files) = true
  ∧ loaded_ok (load_result base kind files) = false.
Proof.
  intros (_ & Hb & k & Hk & Hm). split; [done|]. unfold load_result, read_result. rewrite !Hm.
  destruct (sizeZ (take k new) >? _); [done|].
  destruct (decode_record (take k new) kind) as [r|st] eqn:Er; [exfalso; by eapply (decode_record_cut new)|].
  apply decode_record_failure in Er. split; [done|]. by apply bool_decide_eq_false_2.
Qed.

Lemma torn_first_delete p files : p <> base → torn_first files → torn_first (delete p files).
Proof.
  intros Hp (Ho & Hb & k & Hk & Hm). split; [done|]. split.
  - destruct (decide (p = backup)) as [->|]; [apply lookup_delete_eq|by rewrite lookup_delete_ne].
  - exists k. by rewrite lookup_delete_ne.
Qed.

Lemma torn_first_recoverable files : torn_first files → recoverable files.
Proof. intros (Ho & Hb & k & _ & Hm). unfold recoverable. rewrite Ho. split; [done|]. right; right; eauto. Qed.

Lemma wp_cleanup_torn {A} p (k : Io A) (Q : A → Files → Prop) files :
  p <> base → torn_first files →
  wp crash_step k Q recoverable (delete p files) →
  wp crash_step (do _ := remove_file p in k) Q recoverable files.
Proof.
  intros Hp Hw Hk. apply wp_bind. apply wp_remove; [done| | |].
  - by intros [? []].
  - by apply torn_first_recoverable.
  - by apply torn_first_recoverable, torn_first_delete.
Qed.

Lemma wp_recover_torn_first files :
  torn_first files → wp crash_step (recover s kind) left_torn recoverable files.
Proof.
  intros Hw. destruct paths_distinct as (D1 & D2 & D3 & D4 & D5 & D6).
  destruct (torn_first_bad files Hw) as (Hb & Hp & Hl).
  assert (∀ notes f, torn_first f → f !! journal = None → f !! temp = None → left_torn (Value tt, notes) f) as Hr.
  { intros notes f Hf H1 H2. split; [done|]. split; [done|]. by destruct Hf as (_ & ? & _). }
  assert (files !! backup = None → bool_decide (is_Some (files !! backup)) = false) as Hnb
    by (intros ->; by apply bool_decide_eq_false_2; intros []).
  unfold recover. cbv zeta. do 3 apply wp_bind, wp_exists. rewrite (Hnb Hb).
  destruct (bool_decide (is_Some (files !! journal))) eqn:Ej.
  - unfold recover_journalled. cbv zeta. apply wp_bind, wp_load. rewrite Hl, andb_false_r.
    do 2 (apply wp_cleanup_torn; [congruence|repeat (apply torn_first_delete; [congruence|]); done|]).
    apply wp_ret, Hr; [repeat (apply torn_first_delete; [congruence|]); done|lookups..].
  - apply bool_decide_eq_false in Ej. rewrite <-eq_None_not_Some in Ej.
    destruct (bool_decide (is_Some (files !! temp))) eqn:Et.
    + apply wp_cleanup_torn; [congruence|done|]. apply wp_bind, wp_ret, wp_ret, Hr;
        [by apply torn_first_delete; [congruence|]|lookups..].
    + apply bool_decide_eq_false in Et. rewrite <-eq_None_not_Some in Et.
      apply wp_bind, wp_ret, wp_bind, wp_ret, wp_ret, Hr; done.
Qed.

Lemma wp_recover_intact files :
  recoverable files → ¬ torn_first files → wp crash_step (recover s kind) recovered recoverable files.
Proof.
  intros [H|[H|[H|(o & part & ? & ? & ? & ? & ? & ?)]]]%recoverable_inv Hno;
    [apply wp_recover_whole; auto..|done|by eapply wp_recover_torn].
Qed.

Lemma recovered_recoverable o files : recovered o files ∨ left_torn o files → recoverable files.
Proof.
  intros [(_ & H & _ & _ & Hb)|(_ & H & _)]; [|by apply torn_first_recoverable].
  unfold recoverable. destruct old; naive_solver.
Qed.

Lemma wp_recover files :
  recoverable files → wp crash_step (recover s kind) (λ o f, recovered o f ∨ left_torn o f) recoverable files.
Proof.
  intros [H|[Hr Hno]]%recoverable_cases.
  - eapply wp_mono; [by apply wp_recover_torn_first|by right|done].
  - eapply wp_mono; [by apply wp_recover_intact|by left|done].
Qed.

(** ** Commits *)

(** The generation the durable state carries; zero when there is none. *)
Definition durable_generation (o : option ByteBuffer) : Z :=
  match o with
  | None => 0
  | Some bytes => match decode_record bytes kind with Value r => dr_generation r | Failure _ => 0 end
  end.

(** What a run of [commit] promises when it returns. *)
Definition committed (expected : Z) (r : Result unit) (files : Files) : Prop :=
  recoverable files
  ∧ (r = Value tt → files !! base = Some new ∧ files !! temp = None ∧ durable_generation old = expected).

Lemma committed_failure expected st files :
  recoverable files → committed expected (Failure st) files.
Proof. intros H. by split. Qed.

Lemma wp_check_expected P expected (Q : Result unit → Files → Prop) C files :
  whole_old files →
  (∀ st, Q (Failure st) files) → (durable_generation old = expected → Q (Value tt) files) →
  wp P (check_expected s kind expected (bool_decide (is_Some (files !! base)))) Q C files.
Proof.
  intros [Hw _] Hf Hv. unfold check_expected. rewrite Hw. destruct old as [o|] eqn:Eo.
  - rewrite bool_decide_eq_true_2 by eauto. apply wp_bind, wp_load.
    destruct (Hold o eq_refl) as [r Hr]. rewrite (load_result_some _ _ _ o r) by done.
    cbn [durable_generation] in Hv. rewrite Hr in Hv. cbn. apply wp_ret.
    destruct (dr_generation r =? expected) eqn:E; cbn; [|apply Hf]. apply Hv. by apply Z.eqb_eq.
  - rewrite bool_decide_eq_false_2 by (intros [? [=]]). apply wp_ret.
    destruct (expected =? 0) eqn:E; cbn; [|apply Hf]. apply Hv. apply Z.eqb_eq in E. done.
Qed.

(** Removing a companion while failing: whatever happens, the record stays whole. *)
Lemma wp_give_up {A} p (k : Io A) (Q : A → Files → Prop) files :
  p <> base → whole_old files →
  wp os_step k Q recoverable files → wp os_step k Q recoverable (delete p files) →
  wp os_step (do _ := remove_file p in k) Q recoverable files.
Proof.
  intros Hp Hw Hk1 Hk2. apply wp_bind. apply wp_remove; [done|done| |].
  - by apply whole_old_recoverable.
  - by apply whole_old_recoverable, whole_delete.
Qed.

Lemma wp_give_up_failure p1 p2 expected st files :
  p1 <> base → p2 <> base → whole_old files →
  wp os_step (do _ := remove_file p1 in do _ := remove_file p2 in io_ret (Failure st))
    (committed expected) recoverable files.
Proof.
  intros H1 H2 Hw. assert (whole_old (delete p1 files)) by (by apply whole_delete).
  apply wp_give_up; [done|done| |]; (apply wp_give_up; [done|done| |]);
    apply wp_ret, committed_failure, whole_old_recoverable; repeat (apply whole_delete; [done|]); done.
Qed.

(** The journal is written, the temporary holds the new record, and the old one
    is backed up. *)
Definition prepared (files : Files) : Prop :=
  whole_old files ∧ is_Some (files !! journal) ∧ files !! temp = Some new
  ∧ (∀ o, old = Some o → files !! backup = Some o).

(** Any piece of the new record over a prepared state is recoverable. *)
Lemma torn_recoverable files k f :
  prepared files → f !! journal = files !! journal → f !! backup = files !! backup →
  f !! base = Some (take k new) → recoverable f.
Proof.
  intros ([_ Hw] & Hj & _ & Hb) E1 E2 E3. unfold recoverable. destruct old as [o|].
  - right; right. rewrite E1, E2. split_and!; [done|by apply Hb|]. exists k. by right.
  - rewrite E2. split; [by apply Hw|]. right; right; eauto.
Qed.

Lemma whole_new_delete p files : p <> base → whole_new files → whole_new (delete p files).
Proof. intros. by apply whole_delete. Qed.

(** The clean-up of a finished commit. *)
Lemma wp_finish expected files :
  durable_generation old = expected → whole_new files → files !! temp = None →
  wp os_step (do _ := remove_file journal in do _ := remove_file backup in io_ret (Value tt))
    (committed expected) recoverable files.
Proof.
  intros He Hw Ht. destruct paths_distinct as (D1 & D2 & D3 & D4 & D5 & D6).
  assert (∀ f, whole_new f → f !! temp = None → committed expected (Value tt) f) as Hc.
  { intros f Hf Hft. split; [by apply whole_new_recoverable|]. intros _. by destruct Hf. }
  apply wp_bind, wp_remove.
  2: intros _.
  1,2: apply wp_bind, wp_remove; [|intros _|..].
  all: try apply wp_ret; try apply Hc; try apply whole_new_recoverable;
    repeat (apply whole_new_delete; [congruence|]); try done; by lookups.
Qed.

Lemma wp_torn_replace expected files encoded :
  prepared files → encoded = new →
  wp os_step
    (do partial := write_file base (if sizeZ encoded >? 65 then take 65 encoded else encoded) in
     match partial with
     | Failure st => io_ret (Failure st)
     | Value _ => do _ := remove_file temp in io_ret (fail StatusCode.IoError "injected torn replace")
     end) (committed expected) recoverable files.
Proof.
  intros Hp ->. destruct paths_distinct as (D1 & D2 & D3 & D4 & D5 & D6).
  assert (∃ n, (if sizeZ new >? 65 then take 65 new else new) = take n new) as [n ->].
  { destruct (sizeZ new >? 65); [eauto|]. exists (length new). by rewrite firstn_all. }
  assert (∀ k f, f !! journal = files !! journal → f !! backup = files !! backup →
    f !! base = Some (take k new) → recoverable f) as Hr by (intros k f; by apply torn_recoverable).
  apply wp_bind, wp_write; [|intros k; apply wp_ret, committed_failure|intros k].
  2,3: rewrite take_take; eapply Hr; by lookups.
  apply wp_bind, wp_remove; [apply wp_ret, committed_failure|intros _; apply wp_ret, committed_failure|..];
    eapply Hr; by lookups.
Qed.

Lemma wp_replace_new expected files :
  durable_generation old = expected → prepared files →
  wp os_step
    (do replaced := replace_file temp base in
     match replaced with
     | Failure st => do _ := remove_file journal in do _ := remove_file temp in io_ret (Failure st)
     | Value _ =>
         if fault_after_replace (ds_faults s) then
           io_ret (fail StatusCode.IoError "injected failure after the replace")
         else do _ := remove_file journal in do _ := remove_file backup in io_ret (Value tt)
     end) (committed expected) recoverable files.
Proof.
  intros He Hp. pose proof Hp as (Hw & Hj & Ht & Hb). destruct paths_distinct as (D1 & D2 & D3 & D4 & D5 & D6).
  assert (whole_new (<[base:=new]> (delete temp files))) as Hn.
  { destruct Hw as [_ Hw]. unfold whole_new. lookups. }
  apply wp_bind, (wp_replace _ _ _ new); [done| |intros _|..].
  - destruct (fault_after_replace _).
    + apply wp_ret, committed_failure. by apply whole_new_recoverable.
    + apply wp_finish; [done|done|by lookups].
  - by apply wp_give_up_failure; [congruence..|].
  - by apply whole_old_recoverable.
  - by apply whole_new_recoverable.
  - intros k _. by apply (torn_recoverable files k); [|lookups..].
Qed.

Lemma wp_snapshot files :
  whole_old files → is_Some (files !! journal) → files !! temp = Some new →
  wp os_step
    (if bool_decide (is_Some old) then copy_file base backup max_record_bytes else io_ret (Value tt))
    (λ r f, whole_old f ∧ (r = Value tt → prepared f)) recoverable files.
Proof.
  intros Hw Hj Ht. destruct paths_distinct as (D1 & D2 & D3 & D4 & D5 & D6).
  case_bool_decide as Ho.
  - destruct Ho as [o Eo]. destruct (Hold o Eo) as [r Hr]. apply decode_record_size in Hr.
    unfold copy_file. apply wp_bind, wp_read. unfold read_result.
    pose proof Hw as [Hm _]. rewrite Hm, Eo, (proj2 (gtb_false_le _ _) Hr).
    assert (∀ v, whole_old (<[backup:=v]> files)) as Hb by (intros v; apply whole_old_backup; eauto).
    apply wp_write; [|intros k; by split|intros k; by apply whole_old_recoverable].
    split; [done|]. intros _. split; [done|]. rewrite !lookup_insert_ne by done.
    split_and!; [done..|]. intros o' Eo'. rewrite lookup_insert_eq. congruence.
  - apply wp_ret. split; [done|]. intros _. split_and!; [done..|]. intros o Eo. exfalso. eauto.
Qed.

Lemma wp_publish expected files :
  durable_generation old = expected → whole_old files → is_Some (files !! journal) → files !! temp = Some new →
  wp os_step (publish s kind (bool_decide (is_Some old)) new) (committed expected) recoverable files.
Proof.
  intros He Hw Hj Ht. destruct paths_distinct as (D1 & D2 & D3 & D4 & D5 & D6).
  unfold publish. cbv zeta. apply wp_bind.
  eapply wp_mono; [by apply wp_snapshot| |done]. intros [[]|st] f [Hf Hp].
  - specialize (Hp eq_refl). destruct (fault_torn_replace _) eqn:Et; [|by apply wp_replace_new].
    by apply wp_torn_replace.
  - by apply wp_give_up_failure.
Qed.

Lemma wp_stage expected next payload writer files :
  durable_generation old = expected →
  inject (ds_faults s) (encode_record kind next writer payload) = new → whole_old files →
  wp os_step (stage s kind next payload writer (bool_decide (is_Some old))) (committed expected) recoverable files.
Proof.
  intros He Hi Hw. destruct paths_distinct as (D1 & D2 & D3 & D4 & D5 & D6).
  assert (∀ v, whole_old (<[temp:=v]> files)) as Hwt by (intros v; by apply whole_old_other).
  assert (∀ u v, whole_old (<[journal:=u]> (<[temp:=v]> files))) as Hwj by (intros u v; by apply whole_old_other).
  assert (∀ p f, whole_old f → p <> base → whole_old (delete p f)) as Hwd by (intros; by apply whole_delete).
  unfold stage. cbv zeta. rewrite Hi.
  destruct (fault_before_temp_write _); [by apply wp_ret, committed_failure, whole_old_recoverable|].
  apply wp_bind, wp_write; [|intros k|intros k; by apply whole_old_recoverable].
  - destruct (fault_after_temp_write _); [by apply wp_ret, committed_failure, whole_old_recoverable|].
    apply wp_bind, wp_write; [|intros k|intros k; by apply whole_old_recoverable].
    + destruct (fault_after_journal_write _); [by apply wp_ret, committed_failure, whole_old_recoverable|].
      apply wp_publish; [done..|by apply Hwj| |]; by lookups.
    + apply wp_give_up; [done|by apply Hwj|..]; apply wp_ret, committed_failure, whole_old_recoverable; auto.
  - apply wp_give_up; [done|by apply Hwt|..]; apply wp_ret, committed_failure, whole_old_recoverable; auto.
Qed.

Lemma wp_commit expected next payload writer files :
  inject (ds_faults s) (encode_record kind next writer payload) = new → whole_old files →
  wp os_step (commit s kind expected next payload writer) (committed expected) recoverable files.
Proof.
  intros Hi Hw. pose proof Hw as [Hm _].
  assert (∀ st, committed expected (Failure st) files) as Hf
    by (intros st; by apply committed_failure, whole_old_recoverable).
  unfold commit. repeat match goal with |- wp _ (if ?b then _ else _) _ _ _ => destruct b end;
    [apply wp_ret, Hf..|].
  apply wp_bind, wp_exists, wp_bind, wp_check_expected; [done|intros st; apply wp_ret, Hf|].
  intros He. rewrite Hm. by apply wp_stage.
Qed.

End crash_safety.

(** ** Runs that nothing interrupts *)

(** With an exhausted script every program over the filesystem returns. *)
Definition returns {A} (m : Io A) : Prop :=
  ∀ files, ∃ a files', m (mk_world files []) = Done a (mk_world files' []).

Lemma returns_ret {A} (a : A) : returns (io_ret a).
Proof. intros files. by eexists _, _. Qed.

Lemma returns_bind {A B} (m : Io A) (k : A → Io B) : returns m → (∀ a, returns (k a)) → returns (io_bind m k).
Proof.
  intros Hm Hk files. destruct (Hm files) as (a & f & E). unfold io_bind. rewrite E. apply Hk.
Qed.

Lemma returns_exists path : returns (exists_ path).
Proof. intros files. by eexists _, _. Qed.

Lemma returns_read path n : returns (read_file path n).
Proof. intros files. by eexists _, _. Qed.

Lemma returns_remove path : returns (remove_file path).
Proof. intros files. by eexists _, _. Qed.

Lemma returns_replace from to : returns (replace_file from to).
Proof.
  intros files. unfold replace_file, io_bind, exists_, next_step. cbn [w_files w_script].
  destruct (bool_decide _); by eexists _, _.
Qed.

#[export] Hint Resolve returns_ret returns_exists returns_read returns_remove returns_replace : fg.

Ltac solve_returns :=
  repeat first
    [solve [auto with fg]
    |match goal with |- returns (match ?x with _ => _ end) => destruct x end
    |apply returns_bind; [|intros]].

Lemma load_returns s kind : returns (load s kind).
Proof. unfold load. cbv zeta. solve_returns. Qed.

#[export] Hint Resolve load_returns : fg.

Lemma recover_returns s kind : returns (recover s kind).
Proof. unfold recover, recover_journalled. cbv zeta. solve_returns. Qed.

Lemma wp_surviving {A} P (m : Io A) Q (C : Files → Prop) files script :
  wp P m Q C files → (∀ a f, Q a f → C f) → Forall P script → C (surviving (m (mk_world files script))).
Proof.
  intros Hm HC Hs. specialize (Hm script Hs). destruct (m _) as [a w|f]; [|done].
  destruct Hm as [H _]. eauto.
Qed.

Lemma inject_nothing f encoded :
  fault_corrupt_payload f = false → fault_truncate_temp f = false → inject f encoded = encoded.
Proof. unfold inject. by intros -> ->. Qed.

Definition run {A} (m : Io A) (files : Files) (a : A) (files' : Files) : Prop :=
  m (mk_world files []) = Done a (mk_world files' []).

Lemma run_ret {A} (a : A) files : run (io_ret a) files a files.
Proof. reflexivity. Qed.

Lemma run_bind {A B} (m : Io A) (k : A → Io B) files a files' b files'' :
  run m files a files' → run (k a) files' b files'' → run (io_bind m k) files b files''.
Proof. unfold run, io_bind. by intros ->. Qed.

Lemma run_exists path files : run (exists_ path) files (bool_decide (is_Some (files !! path))) files.
Proof. reflexivity. Qed.

Lemma run_read path n files : run (read_file path n) files (read_result path n files) files.
Proof. reflexivity. Qed.

Lemma run_write path data files : run (write_file path data) files (Value tt) (<[path:=data]> files).
Proof. reflexivity. Qed.

Lemma run_remove path files : run (remove_file path) files (Value tt) (delete path files).
Proof. reflexivity. Qed.

Lemma run_replace from to data files :
  files !! from = Some data → run (replace_file from to) files (Value tt) (<[to:=data]> (delete from files)).
Proof.
  intros Hf. unfold run, replace_file, io_bind, exists_. cbn [w_files]. rewrite bool_decide_eq_true_2 by eauto.
  unfold next_step, set_files, io_ret, renamed. cbn [w_script w_files]. by rewrite Hf.
Qed.

Lemma run_load s kind files :
  run (load s kind) files (load_result (record_path s kind) kind files) files.
Proof.
  pose proof (wp_load (λ _, True) s kind
    (λ r f, r = load_result (record_path s kind) kind files ∧ f = files) (λ _, False) files (conj eq_refl eq_refl)
    [] (Forall_nil_2 _)) as H.
  destruct (load_returns s kind files) as (a & f & E). unfold run. rewrite E in H |- *.
  destruct H as [[-> E'] _]. cbn in E'. by rewrite E'.
Qed.

Lemma run_check_expected s kind expected files :
  let old := files !! record_path s kind in
  ∃ r, run (check_expected s kind expected (bool_decide (is_Some old))) files r files
  ∧ (r = Value tt ↔ (∀ o, old = Some o → ∃ d, decode_record o kind = Value d) ∧ durable_generation kind old = expected).
Proof.
  cbv zeta. unfold check_expected. destruct (files !! record_path s kind) as [o|] eqn:Eo.
  - rewrite bool_decide_eq_true_2 by eauto. eexists. split; [eapply run_bind; [apply run_load|apply run_ret]|].
    cbn [durable_generation]. destruct (decode_record o kind) as [d|st] eqn:Ed.
    + rewrite (load_result_some _ _ _ o d) by done. cbn [lr_generation].
      destruct (Z.eqb_spec (dr_generation d) expected) as [He|He]; cbn.
      { split; [|done]. intros _. split; [|done]. intros o' [= <-]. eauto. }
      split; [discriminate|]. intros [_ H]. congruence.
    + assert (loaded_ok (load_result (record_path s kind) kind files) = false) as ->.
      { unfold load_result, read_result. rewrite !Eo. destruct (sizeZ o >? _); [reflexivity|]. rewrite Ed.
        apply decode_record_failure in Ed. by apply bool_decide_eq_false_2. }
      split; [discriminate|]. intros [H _]. destruct (H o eq_refl) as [d Hd]. congruence.
  - rewrite bool_decide_eq_false_2 by (intros [? [=]]). eexists. split; [apply run_ret|]. cbn [durable_generation].
    destruct (Z.eqb_spec expected 0) as [He|He]; cbn; [naive_solver|].
    split; [discriminate|]. intros [_ H]. congruence.
Qed.

(** The paths a commit of this record writes. *)
Definition commit_paths (s : DurableStore) (kind : RecordKind.t) : list string :=
  let base := record_path s kind in
  [base; companion_path base ".tmp"; companion_path base ".jnl"; companion_path base ".prev"].

(** No trace of a commit under way. *)
Definition quiet (s : DurableStore) (kind : RecordKind.t) (files : Files) : Prop :=
  let base := record_path s kind in
  files !! companion_path base ".tmp" = None ∧ files !! companion_path base ".jnl" = None
  ∧ files !! companion_path base ".prev" = None.

Lemma run_stage s kind next payload writer files :
  ds_faults s = no_faults →
  (∀ o, files !! record_path s kind = Some o → sizeZ o <= max_record_bytes) →
  ∃ files', run (stage s kind next payload writer (bool_decide (is_Some (files !! record_path s kind)))) files
    (Value tt) files'
  ∧ files' !! record_path s kind = Some (encode_record kind next writer payload)
  ∧ (∀ p, p ∉ commit_paths s kind → files' !! p = files !! p)
  ∧ quiet s kind files'.
Proof.
  intros Hf Hsize. destruct (paths_distinct s kind) as (D1 & D2 & D3 & D4 & D5 & D6).
  unfold stage, publish. cbv zeta. rewrite Hf, (inject_nothing no_faults) by reflexivity. cbn.
  set (base := record_path s kind) in *. set (new := encode_record kind next writer payload).
  assert (∃ f, run (if bool_decide (is_Some (files !! base)) then copy_file base (companion_path base ".prev") max_record_bytes
      else io_ret (Value tt)) (<[companion_path base ".jnl":=journal_bytes next payload writer]> (<[companion_path base ".tmp":=new]> files))
      (Value tt) f ∧ f !! companion_path base ".tmp" = Some new
      ∧ ∀ p, p ∉ commit_paths s kind → f !! p = files !! p) as (f & Hrun & Htmp & Hframe).
  { case_bool_decide as Ho.
    - destruct Ho as [o Ho]. eexists. split_and!.
      + unfold copy_file. eapply run_bind; [apply run_read|]. unfold read_result.
        rewrite !lookup_insert_ne by done. rewrite Ho, (proj2 (gtb_false_le _ _) (Hsize o Ho)). apply run_write.
      + rewrite !lookup_insert_ne by done. apply lookup_insert_eq.
      + intros p Hp. unfold commit_paths in Hp. fold base in Hp. by rewrite !lookup_insert_ne by set_solver.
    - eexists. split_and!; [apply run_ret| |].
      + rewrite lookup_insert_ne by done. apply lookup_insert_eq.
      + intros p Hp. unfold commit_paths in Hp. fold base in Hp. by rewrite !lookup_insert_ne by set_solver. }
  eexists. split_and!.
  - eapply run_bind; [apply run_write|]. cbn. eapply run_bind; [apply run_write|]. cbn.
    eapply run_bind; [apply Hrun|]. cbn. eapply run_bind; [by apply run_replace|]. cbn.
    eapply run_bind; [apply run_remove|]. eapply run_bind; [apply run_remove|]. apply run_ret.
  - rewrite !lookup_delete_ne by done. apply lookup_insert_eq.
  - intros p Hp. unfold commit_paths in Hp. fold base in Hp.
    rewrite !lookup_delete_ne, lookup_insert_ne, lookup_delete_ne by set_solver. apply Hframe.
    unfold commit_paths. by fold base.
  - unfold quiet. fold base. cbv zeta. split_and!.
    + rewrite !lookup_delete_ne by done. rewrite lookup_insert_ne by done. apply lookup_delete_eq.
    + rewrite lookup_delete_ne by done. apply lookup_delete_eq.
    + apply lookup_delete_eq.
Qed.

(** [commit] and [load] end to end, with no fault and nothing failing. *)
Lemma run_commit s kind expected next payload writer files :
  ds_faults s = no_faults → u64 next → u64 (inc_boot writer) → u64 (inc_ordinal writer) → byte_list payload →
  let old := files !! record_path s kind in
  ∃ r files',
    run (commit s kind expected next payload writer) files r files'
    ∧ (r = Value tt ↔
         sizeZ payload <= kMaxDurablePayloadBytes ∧ inc_boot writer <> 0 ∧ inc_ordinal writer <> 0
         ∧ expected < next ∧ (∀ o, old = Some o → ∃ d, decode_record o kind = Value d)
         ∧ durable_generation kind old = expected)
    ∧ (r = Value tt →
         files' !! record_path s kind = Some (encode_record kind next writer payload)
         ∧ run (load s kind) files'
           (mk_loaded true kind next (inc_boot writer) (inc_ordinal writer) payload StatusCode.Ok "") files'
         ∧ (∀ p, p ∉ commit_paths s kind → files' !! p = files !! p) ∧ quiet s kind files')
    ∧ (r <> Value tt → files' = files).
Proof.
  intros Hf Hn Hb Ho Hp. cbv zeta. unfold commit. rewrite Hf. cbn [fault_oversize_payload no_faults].
  assert (∀ c d, ∃ st, @fail unit c d = Failure st) as Hfail by (intros; by eexists).
  destruct (sizeZ payload >? kMaxDurablePayloadBytes) eqn:E1.
  { eexists _, _. split; [apply run_ret|]. apply gtb_true_lt in E1. split_and!; [|discriminate|done].
    split; [discriminate|lia]. }
  destruct (negb (valid (inc_boot writer)) || (inc_ordinal writer =? 0)) eqn:E2.
  { eexists _, _. split; [apply run_ret|]. unfold valid in E2. split_and!; [|discriminate|done].
    split; [discriminate|]. rewrite negb_involutive, orb_true_iff, !Z.eqb_eq in E2. intros H. destruct_and!. naive_solver. }
  destruct (next <=? expected) eqn:E3.
  { eexists _, _. split; [apply run_ret|]. reflect_bools. split_and!; [|discriminate|done].
    split; [discriminate|lia]. }
  unfold valid in E2. rewrite negb_involutive in E2. apply gtb_false_le in E1. reflect_bools.
  destruct (run_check_expected s kind expected files) as (r & Hr & Hok). destruct r as [[]|st].
  - destruct (proj1 Hok eq_refl) as [Hd Hg].
    destruct (run_stage s kind next payload writer files Hf) as (files' & Hs & Hbase & Hframe & Hquiet).
    { intros o E. destruct (Hd o E) as [d Ed]. by eapply decode_record_size. }
    exists (Value tt), files'. split_and!; [| |intros _|done].
    + eapply run_bind; [apply run_exists|]. by eapply run_bind.
    + split; [intros _|done]. split_and!; done || lia.
    + split_and!; [done| |done|done]. pose proof (run_load s kind files') as Hl.
      erewrite load_result_some in Hl by (done || by apply decode_encode_record). done.
  - exists (Failure st), files. split_and!; [|split; [discriminate|]|discriminate|done].
    + eapply run_bind; [apply run_exists|]. eapply run_bind; [exact Hr|]. apply run_ret.
    + intros (_ & _ & _ & _ & H1 & H2). discriminate (proj2 Hok (conj H1 H2)).
Qed.

(** ** Reboots *)

(** The files left by a series of recoveries, each run under its own script. *)
Definition recoveries (s : DurableStore) (kind : RecordKind.t) (scripts : list (list IoStep))
    (files : Files) : Files :=
  foldl (λ f script, surviving (recover s kind (mk_world f script))) files scripts.

(** Interrupted recoveries keep what an interrupted commit left recoverable. *)
Lemma recoveries_recoverable s kind old new new_record scripts files :
  decode_record new kind = Value new_record → (∀ o, old = Some o → ∃ r, decode_record o kind = Value r) →
  Forall (Forall crash_step) scripts → recoverable s kind old new files →
  recoverable s kind old new (recoveries s kind scripts files).
Proof.
  intros Hnew Hold Hscripts. unfold recoveries. revert files.
  induction Hscripts as [|sc scripts Hsc _ IH]; intros files Hf; [done|]. cbn. apply IH.
  eapply wp_surviving; [by eapply wp_recover| |done]. by eapply recovered_recoverable.
Qed.

(** The recovery after them runs to its end, ... *)
Lemma run_recover s kind old new new_record files :
  decode_record new kind = Value new_record → (∀ o, old = Some o → ∃ r, decode_record o kind = Value r) →
  recoverable s kind old new files → ¬ torn_first s kind old new files →
  ∃ notes files', run (recover s kind) files (Value tt, notes) files'
    ∧ (files' !! record_path s kind = old ∨ files' !! record_path s kind = Some new) ∧ quiet s kind files'.
Proof.
  intros Hnew Hold Hr Hno. destruct (recover_returns s kind files) as (o & f & E).
  pose proof (wp_recover_intact _ _ _ _ _ Hnew Hold _ Hr Hno [] (Forall_nil_2 _)) as H. rewrite E in H.
  destruct H as [(Ho & Hb & Hj & Htm & Hp) _]. destruct o as [o notes]. simplify_eq/=.
  by exists notes, f.
Qed.

(** ... also over a torn first record, which it leaves. *)
Lemma run_recover_torn s kind old new new_record files :
  decode_record new kind = Value new_record → torn_first s kind old new files →
  ∃ notes files', run (recover s kind) files (Value tt, notes) files'
    ∧ torn_first s kind old new files' ∧ quiet s kind files'.
Proof.
  intros Hnew Ht. destruct (recover_returns s kind files) as (o & f & E).
  pose proof (wp_recover_torn_first _ _ _ _ _ Hnew _ Ht [] (Forall_nil_2 _)) as H. rewrite E in H.
  destruct H as [(Ho & Hb & Hj & Htm & Hp) _]. destruct o as [o notes]. simplify_eq/=.
  by exists notes, f.
Qed.

(** What an interrupted commit leaves. *)
Lemma commit_recoverable s kind expected next payload writer files script old :
  record_ok next writer payload →
  fault_corrupt_payload (ds_faults s) = false → fault_truncate_temp (ds_faults s) = false →
  (∀ o, old = Some o → ∃ r, decode_record o kind = Value r) →
  files !! record_path s kind = old →
  (old = None → files !! companion_path (record_path s kind) ".prev" = None) →
  recoverable s kind old (encode_record kind next writer payload)
    (surviving (commit s kind expected next payload writer (mk_world files script))).
Proof.
  intros Hok Hc Ht Hold Hbase Hprev.
  eapply (wp_surviving os_step); [eapply wp_commit| |by apply Forall_true]; [done..|by apply inject_nothing|done|].
  by intros a f [H _].
Qed.
