(* ===== verification/Directory.v ===== *)
(** What the governor draws from its surroundings before it serves: the identity of
    its incarnation ([src/core/entropy.cpp]) and the directory of its store
    ([ensure_directory], [sync_directory] and [process_token] of
    [src/persist/fsutil.cpp], [DurableStore::open] of [src/persist/store.cpp]).

    The random device, the clock and the process id are arguments; the directories
    of the operating system are reached through the class [Directories], whose laws
    are what POSIX says of [stat] and [mkdir]. *)
From Stdlib Require Import Ascii.
From S2P Require Import Prelude Status Core Bytes Fsutil Store.
#[local] Open Scope string_scope.
#[local] Open Scope Z_scope.

(** ** Identity *)

(** [process_token]: [count] is what the static counter held. *)
Definition process_token (pid count : Z) : Z := Z.lxor (wrap64 (Z.shiftl pid 16)) (mul64 count 11400714819323198485).

(** [draw1] and [draw2] are what the random device yields, [clock] the count of the
    steady clock as an unsigned word, [token] what [process_token] returns. *)
Definition make_boot_id (draw1 draw2 clock token : Z) : Z :=
  let value := Z.lxor (wrap64 (Z.shiftl draw1 32)) draw2 in
  let value := if value =? 0 then Z.lxor clock token else value in
  if value =? 0 then 25214903917 else value.

Definition make_incarnation (draw1 draw2 clock token : Z) : Incarnation :=
  mk_incarnation (make_boot_id draw1 draw2 clock token) 1.

(** ** Directories *)

Inductive mkdir_outcome : Set := Made | AlreadyThere | Refused.

Class Directories (D : Type) := {
  is_directory : string → D → bool;
  mkdir : string → D → mkdir_outcome * D }.

(** [stat] after [mkdir]: what was made is there, and nothing goes away. *)
Class DirectoryLaws (D : Type) `{Directories D} := {
  mkdir_made p d d' : mkdir p d = (Made, d') → is_directory p d' = true;
  mkdir_keeps p q d : is_directory q d = true → is_directory q (mkdir p d).2 = true }.

Definition separator (c : ascii) : bool := Ascii.eqb c "\"%char || Ascii.eqb c "/"%char.

Definition str_push (text : string) (c : ascii) : string := text +:+ String c "".

Section directories.
  Context {D : Type} `{Directories D}.

(** One prefix: it is made unless it is there; [EEXIST] is no failure. *)
Definition make_prefix (partial : string) (d : D) : bool * D :=
  if negb (str_size partial =? 0) && negb (is_directory partial d) then
    let '(outcome, d) := mkdir partial d in (match outcome with Refused => false | _ => true end, d)
  else (true, d).

(** The loop over the separators, a character at a time: the prefix before every
    separator, and the whole at the end. *)
Fixpoint make_prefixes (partial rest : string) (d : D) : bool * D :=
  match rest with
  | EmptyString => make_prefix partial d
  | String c rest =>
      if separator c then
        let '(made, d) := make_prefix partial d in
        if made then make_prefixes (str_push partial c) rest d else (false, d)
      else make_prefixes (str_push partial c) rest d
  end.

(** A drive letter is skipped. *)
Definition after_drive (path : string) : string * string :=
  match path with
  | String a (String ":" rest) => (String a ":", rest)
  | _ => ("", path)
  end.

Definition ensure_directory (path : string) (d : D) : Result unit * D :=
  if str_size path =? 0 then (Value tt, d)
  else if is_directory path d then (Value tt, d)
  else
    let '(partial, rest) := after_drive path in
    let '(made, d) := make_prefixes partial rest d in
    if made then
      (if is_directory path d then Value tt else fail StatusCode.IoError "directory could not be created", d)
    else (fail StatusCode.IoError "mkdir failed", d).

(** [DurableStore::open]. *)
Definition open_store (directory : string) (d : D) : Result string * D :=
  match ensure_directory directory d with
  | (Failure st, d) => (Failure st, d)
  | (Value _, d) => (Value directory, d)
  end.
End directories.

(** The directory [sync_directory] flushes: the text before the last slash. *)
Fixpoint before_last_slash (text : string) : option string :=
  match text with
  | EmptyString => None
  | String c rest =>
      match before_last_slash rest with
      | Some directory => Some (String c directory)
      | None => if Ascii.eqb c "/" then Some "" else None
      end
  end.

Definition synced_directory (path : string) : string :=
  let directory := match before_last_slash path with Some directory => directory | None => path end in
  if str_size directory =? 0 then "." else directory.

(** ** The identity is valid, and tokens are fresh *)

(** The boot identity is a valid word whatever the device yields, even zeros. *)
Lemma make_boot_id_valid draw1 draw2 clock token :
  u32 draw2 → u64 clock → u64 token →
  u64 (make_boot_id draw1 draw2 clock token) ∧ make_boot_id draw1 draw2 clock token <> 0.
Proof.
  intros H2 Hc Ht. unfold make_boot_id. cbv zeta.
  assert (u64 (Z.lxor (wrap64 (Z.shiftl draw1 32)) draw2)) as Hv.
  { apply lxor_u64; [apply wrap64_range|unfold u32, u64 in *; lia]. }
  destruct (Z.eqb_spec (Z.lxor (wrap64 (Z.shiftl draw1 32)) draw2) 0) as [E|E].
  - destruct (Z.eqb_spec (Z.lxor clock token) 0); [split; [unfold u64; lia|done]|]. split; [by apply lxor_u64|done].
  - apply Z.eqb_neq in E as E'. rewrite E'. done.
Qed.

(** The counter never repeats a token within a process: the multiplier is odd. *)
Lemma process_token_fresh pid count count' :
  u64 count → u64 count' → process_token pid count = process_token pid count' → count = count'.
Proof.
  unfold process_token, u64. intros Hc Hc' E.
  assert (mul64 count 11400714819323198485 = mul64 count' 11400714819323198485) as Em.
  { apply (f_equal (Z.lxor (wrap64 (Z.shiftl pid 16)))) in E.
    by rewrite <-!Z.lxor_assoc, Z.lxor_nilpotent, !Z.lxor_0_l in E. }
  unfold mul64, wrap64 in Em.
  assert ((18446744073709551616 | 11400714819323198485 * (count - count'))) as Hd.
  { apply Z.mod_divide; [done|]. rewrite Z.mul_sub_distr_l, Zminus_mod, !(Z.mul_comm 11400714819323198485).
    change (2 ^ 64) with 18446744073709551616 in Em. rewrite Em, Z.sub_diag. done. }
  apply Z.gauss in Hd as [q Hq]; [|vm_compute; reflexivity]. nia.
Qed.

(** ** The directory is there *)

Section laws.
  Context {D : Type} `{DirectoryLaws D}.

Lemma make_prefix_keeps partial q (d : D) : is_directory q d = true → is_directory q (make_prefix partial d).2 = true.
Proof.
  intros Hq. unfold make_prefix. destruct (_ && _); [|done]. pose proof (mkdir_keeps partial q d Hq) as Hk.
  by destruct (mkdir partial d).
Qed.

Lemma make_prefixes_keep q rest : ∀ partial (d : D),
  is_directory q d = true → is_directory q (make_prefixes partial rest d).2 = true.
Proof.
  induction rest as [|c rest IH]; intros partial d Hq; cbn [make_prefixes]; [by apply make_prefix_keeps|].
  destruct (separator c); [|by apply IH]. pose proof (make_prefix_keeps partial q d Hq) as Hk.
  destruct (make_prefix partial d) as [[] d1]; [by apply IH|done].
Qed.

(** When nothing is refused, and what is already there is a directory, the whole
    path is made. *)
Definition obliging : Prop :=
  (∀ p (d : D), (mkdir p d).1 <> Refused) ∧ (∀ p (d : D), (mkdir p d).1 = AlreadyThere → is_directory p (mkdir p d).2 = true).

Lemma make_prefix_obliged partial (d : D) :
  obliging → (make_prefix partial d).1 = true ∧ (str_size partial <> 0 → is_directory partial (make_prefix partial d).2 = true).
Proof.
  intros [Hr Ha]. unfold make_prefix. destruct (Z.eqb_spec (str_size partial) 0) as [E|E]; cbn [negb andb]; [by split|].
  destruct (is_directory partial d) eqn:Ed; cbn [negb]; [by split|].
  specialize (Hr partial d). specialize (Ha partial d). pose proof (mkdir_made partial d) as Hm.
  destruct (mkdir partial d) as [[] d']; cbn [fst snd] in *; [split; [done|]; intros _; by eapply Hm|by split; [|intros _; apply Ha]|done].
Qed.

Lemma str_push_app partial c rest : str_push partial c +:+ rest = partial +:+ String c rest.
Proof. unfold str_push. by rewrite string_app_assoc. Qed.

Lemma make_prefixes_obliged rest : ∀ partial (d : D),
  obliging → str_size (partial +:+ rest) <> 0 →
  (make_prefixes partial rest d).1 = true ∧ is_directory (partial +:+ rest) (make_prefixes partial rest d).2 = true.
Proof.
  induction rest as [|c rest IH]; intros partial d Ho Hn; cbn [make_prefixes].
  - rewrite string_app_nil in *. destruct (make_prefix_obliged partial d Ho). auto.
  - rewrite <-str_push_app in *. destruct (separator c); [|by apply IH].
    pose proof (proj1 (make_prefix_obliged partial d Ho)) as E. destruct (make_prefix partial d) as [made d1].
    cbn [fst] in E. subst made. by apply IH.
Qed.

Lemma after_drive_app path : (after_drive path).1 +:+ (after_drive path).2 = path.
Proof. destruct path as [|a [|b rest]]; try done. cbn. repeat case_match; subst; try done. Qed.

(** [ensure_directory] succeeds only when the directory is there, and then it was
    asked for; it fails with [IoError]; it takes no directory away; and where the
    system obliges it succeeds. *)
Lemma ensure_directory_exact path (d : D) :
  (match (ensure_directory path d).1 with
   | Value _ => path = "" ∨ is_directory path (ensure_directory path d).2 = true
   | Failure st => status_code st = StatusCode.IoError
   end)
  ∧ (∀ q, is_directory q d = true → is_directory q (ensure_directory path d).2 = true)
  ∧ (obliging → (ensure_directory path d).1 = Value tt).
Proof.
  unfold ensure_directory. destruct (Z.eqb_spec (str_size path) 0) as [E|E].
  { split; [|done]. left. destruct path; [done|]. unfold str_size in E. cbn in E. lia. }
  destruct (is_directory path d) eqn:Ed; [by split; [right|]|].
  pose proof (make_prefixes_keep) as Hk. pose proof (make_prefixes_obliged (after_drive path).2 (after_drive path).1 d) as Ho.
  rewrite after_drive_app in Ho. specialize (λ q, Hk q (after_drive path).2 (after_drive path).1 d).
  destruct (after_drive path) as [partial rest]. cbn [fst snd] in *.
  destruct (make_prefixes partial rest d) as [[] d']; cbn [fst snd] in *.
  - split; [destruct (is_directory path d') eqn:Ep; [by right|done]|]. split; [exact Hk|].
    intros Hob. destruct (Ho Hob E) as [_ ->]. done.
  - split; [done|]. split; [exact Hk|]. intros Hob. by destruct (Ho Hob E).
Qed.
End laws.

(** The flush after a commit is of the store's directory. *)
Lemma before_last_slash_app text directory :
  before_last_slash text = None → before_last_slash (directory +:+ String "/" text) = Some directory.
Proof.
  intros Ht. induction directory as [|c directory IH].
  { change (before_last_slash (String "/" text) = Some ""). cbn [before_last_slash]. by rewrite Ht. }
  change (before_last_slash (String c (directory +:+ String "/" text)) = Some (String c directory)).
  cbn [before_last_slash]. by rewrite IH.
Qed.

Lemma synced_record_directory s kind :
  ds_directory s <> "" → synced_directory (record_path s kind) = ds_directory s.
Proof.
  intros Hd. unfold synced_directory, record_path.
  change ("/fairness_" +:+ RecordKind.name kind +:+ ".rec")
    with (String "/" ("fairness_" +:+ RecordKind.name kind +:+ ".rec")).
  rewrite before_last_slash_app by (destruct kind; vm_compute; reflexivity).
  destruct (Z.eqb_spec (str_size (ds_directory s)) 0) as [E|E]; [|done].
  destruct (ds_directory s); [done|]. unfold str_size in E. cbn in E. lia.
Qed.
