(* ===== verification/Governor.v ===== *)
(** The stateful governor: [FairnessGovernor] of [eval/governor.hpp] and
    [src/eval/governor.cpp].

    The members of [Impl] are a record; an operation takes the record and
    returns its result with the record afterwards, so the lock held for the whole
    of each operation is the atomicity of one step.  The durable store is reached
    through the interface [Backend]; no store is the in-memory governor.  The
    process incarnation drawn from the system's entropy is a parameter. *)
From S2P Require Import Prelude Status Core U128 Bytes Policy Accounting Evidence Outcome Codec Allocation Distributor Engine Planner Fsutil Store.
#[local] Open Scope string_scope.
#[local] Open Scope list_scope.
#[local] Open Scope Z_scope.

(** ** The store as the governor sees it *)

Class Backend (S : Type) : Type := {
  be_recover : RecordKind.t → S → Result unit * RecoveryNotes * S;
  be_load : RecordKind.t → S → LoadedRecord;
  be_commit : RecordKind.t → Z → Z → ByteBuffer → Incarnation → S → Result unit * S }.

(** ** Configuration and state *)

Record IngestionLimits := mk_limits {
  lim_max_staged_snapshots : Z;
  lim_max_history_windows : Z;
  lim_max_observations_per_snapshot : Z }.

Record GovernorConfig := mk_config {
  cfg_policy : FairnessPolicy;
  cfg_store_path : string;
  cfg_epoch : Z;
  cfg_limits : IngestionLimits;
  cfg_require_durability : bool }.

Record RecoveryReport := mk_report {
  rr_store_present : bool;
  rr_policy_loaded : bool;
  rr_policy_committed : bool;
  rr_accounting_loaded : bool;
  rr_foreign_incarnation : bool;
  rr_unfinished_attempt_discarded : bool;
  rr_backup_recovered : bool;
  rr_corruption_detected : bool;
  rr_evidence_authority_restored : bool;
  rr_publisher_authority_restored : bool;
  rr_policy_code : StatusCode.t;
  rr_accounting_code : StatusCode.t;
  rr_policy_detail : string;
  rr_accounting_detail : string;
  rr_loaded_accounting_generation : Z;
  rr_previous_writer_boot : Z;
  rr_loaded_epoch : Z;
  rr_detail : string }.

Definition no_report : RecoveryReport :=
  mk_report false false false false false false false false false false
    StatusCode.Ok StatusCode.Ok "" "" 0 0 0 "".

Module Disposition.
Inductive t : Set := Staged | DuplicateIgnored.
End Disposition.

Record IngestResult := mk_ingest {
  ir_disposition : Disposition.t;
  ir_id : Z;
  ir_generation : Z;
  ir_window : Z;
  ir_observation_count : Z }.

Record LiveAuthority := mk_live {
  la_policy_id : Z;
  la_policy_generation : Z;
  la_epoch : Z;
  la_accounting_generation : Z;
  la_last_committed_window : Z;
  la_governor : Incarnation }.

(** [Impl]. *)
Record Governor (S : Type) := mk_governor {
  gv_config : GovernorConfig;
  gv_policy : FairnessPolicy;
  gv_accounting : FairnessAccounting;
  gv_epoch : Z;
  gv_incarnation : Incarnation;
  gv_recovery : RecoveryReport;
  gv_store : option S;
  gv_policy_record_generation : Z;
  gv_accounting_record_generation : Z;
  gv_staged : gmap Z EvidenceSnapshot;
  gv_ingested : gmap (Z * Z) Z;
  gv_publisher_sequences : gmap Z Z;
  gv_stopping : bool }.
Arguments mk_governor {S}.
Arguments gv_config {S}. Arguments gv_policy {S}. Arguments gv_accounting {S}.
Arguments gv_epoch {S}. Arguments gv_incarnation {S}. Arguments gv_recovery {S}.
Arguments gv_store {S}. Arguments gv_policy_record_generation {S}.
Arguments gv_accounting_record_generation {S}. Arguments gv_staged {S}.
Arguments gv_ingested {S}. Arguments gv_publisher_sequences {S}. Arguments gv_stopping {S}.

(** [publisher_key]. *)
Definition publisher_key (producer : ProducerIdentity) : Z :=
  let name_digest := fnv1a64 (string_bytes (producer_name producer)) kFnvOffsetBasis in
  Z.lxor (mul64 name_digest 1099511628211) (producer_instance producer).

(** ** Ordered maps: eviction from the front *)

Definition key_pair_lt (a b : Z * Z) : bool :=
  if negb (a.1 =? b.1) then a.1 <? b.1 else a.2 <? b.2.

(** [while (m.size() > limit) m.erase(m.begin())]. *)
Fixpoint evict_while {K A} `{Countable K} (lt : K → K → bool) (fuel : nat) (limit : Z)
    (m : gmap K A) : gmap K A :=
  match fuel with
  | O => m
  | S fuel' =>
      if Z.of_nat (size m) >? limit then
        match sort_by lt (map_to_list m).*1 with
        | [] => m
        | k :: _ => evict_while lt fuel' limit (delete k m)
        end
      else m
  end.

Definition evict {K A} `{Countable K} (lt : K → K → bool) (limit : Z) (m : gmap K A) : gmap K A :=
  evict_while lt (size m) limit m.

Section governor.
  Context {S : Type} `{Backend S}.
  Implicit Types (g : Governor S).

  (** *** Member updates *)

Definition with_store (store : option S) g : Governor S :=
    mk_governor (gv_config g) (gv_policy g) (gv_accounting g) (gv_epoch g) (gv_incarnation g)
      (gv_recovery g) store (gv_policy_record_generation g) (gv_accounting_record_generation g)
      (gv_staged g) (gv_ingested g) (gv_publisher_sequences g) (gv_stopping g).

Definition with_record_generations (policy_record accounting_record : Z) g : Governor S :=
    mk_governor (gv_config g) (gv_policy g) (gv_accounting g) (gv_epoch g) (gv_incarnation g)
      (gv_recovery g) (gv_store g) policy_record accounting_record
      (gv_staged g) (gv_ingested g) (gv_publisher_sequences g) (gv_stopping g).

Definition with_accounting (accounting : FairnessAccounting) g : Governor S :=
    mk_governor (gv_config g) (gv_policy g) accounting (gv_epoch g) (gv_incarnation g)
      (gv_recovery g) (gv_store g) (gv_policy_record_generation g)
      (gv_accounting_record_generation g) (gv_staged g) (gv_ingested g)
      (gv_publisher_sequences g) (gv_stopping g).

Definition with_policy (policy : FairnessPolicy) (epoch : Z) g : Governor S :=
    mk_governor (gv_config g) policy (gv_accounting g) epoch (gv_incarnation g)
      (gv_recovery g) (gv_store g) (gv_policy_record_generation g)
      (gv_accounting_record_generation g) (gv_staged g) (gv_ingested g)
      (gv_publisher_sequences g) (gv_stopping g).

Definition with_evidence (staged : gmap Z EvidenceSnapshot) (ingested : gmap (Z * Z) Z)
      (sequences : gmap Z Z) g : Governor S :=
    mk_governor (gv_config g) (gv_policy g) (gv_accounting g) (gv_epoch g) (gv_incarnation g)
      (gv_recovery g) (gv_store g) (gv_policy_record_generation g)
      (gv_accounting_record_generation g) staged ingested sequences (gv_stopping g).

Definition with_recovery (recovery : RecoveryReport) g : Governor S :=
    mk_governor (gv_config g) (gv_policy g) (gv_accounting g) (gv_epoch g) (gv_incarnation g)
      recovery (gv_store g) (gv_policy_record_generation g)
      (gv_accounting_record_generation g) (gv_staged g) (gv_ingested g)
      (gv_publisher_sequences g) (gv_stopping g).

  (** [accounting.policy_generation = ...; accounting.epoch = ...]. *)
Definition retag (policy_generation epoch : Z) (a : FairnessAccounting) : FairnessAccounting :=
    mk_accounting (acc_policy_id a) policy_generation epoch (acc_generation a)
      (acc_intervention_generation a) (acc_last_window a) (acc_last_window_generation a)
      (acc_writer_boot a) (acc_subjects a).

  (** *** Durable commits *)

Definition commit_accounting g : Result unit * Governor S :=
    match gv_store g with
    | None => (Value tt, g)
    | Some store =>
        let payload := encode_accounting (gv_accounting g) in
        let '(status, store) :=
          be_commit RecordKind.Accounting (gv_accounting_record_generation g)
            (add64 (gv_accounting_record_generation g) 1) payload (gv_incarnation g) store in
        let g := with_store (Some store) g in
        match status with
        | Failure st => (Failure st, g)
        | Value _ =>
            (Value tt, with_record_generations (gv_policy_record_generation g)
                         (add64 (gv_accounting_record_generation g) 1) g)
        end
    end.

Definition commit_policy g : Result unit * Governor S :=
    match gv_store g with
    | None => (Value tt, g)
    | Some store =>
        let payload := encode_policy (gv_policy g) in
        let '(status, store) :=
          be_commit RecordKind.Policy (gv_policy_record_generation g)
            (add64 (gv_policy_record_generation g) 1) payload (gv_incarnation g) store in
        let g := with_store (Some store) g in
        match status with
        | Failure st => (Failure st, g)
        | Value _ =>
            (Value tt, with_record_generations (add64 (gv_policy_record_generation g) 1)
                         (gv_accounting_record_generation g) g)
        end
    end.

  (** *** Observers *)

Definition current_window g : Z :=
    foldl (λ best e, if ev_window e >? best then ev_window e else best)
      (acc_last_window (gv_accounting g)) (map_to_list (gv_staged g)).*2.

Definition authority g : LiveAuthority :=
    mk_live (pol_id (gv_policy g)) (pol_generation (gv_policy g)) (gv_epoch g)
      (acc_generation (gv_accounting g)) (acc_last_window (gv_accounting g)) (gv_incarnation g).

Definition live_authority g (request : EvaluationRequest) : AuthorityVector :=
    mk_authority (pol_id (gv_policy g)) (pol_generation (gv_policy g)) (gv_epoch g)
      (rq_evidence_id request) (rq_evidence_generation request) (rq_window request)
      (rq_window_generation request) (acc_generation (gv_accounting g)) (gv_incarnation g)
      (rq_request_id request) (rq_attempt request).

Definition staged_snapshot_count g : Z := wrap32 (Z.of_nat (size (gv_staged g))).

Definition clear_staged g : Governor S := with_evidence ∅ ∅ ∅ g.

  (** *** Opening *)

  (** The checks of the configuration that precede any effect. *)
Definition check_config (config : GovernorConfig) : Result unit :=
    let? _ := validate_policy (cfg_policy config) in
    reject (negb (valid (cfg_epoch config)))
      with StatusCode.InvalidArgument, "governor epoch must be >= 1" ;;
    reject (negb (pol_epoch (cfg_policy config) =? cfg_epoch config))
      with StatusCode.Conflict, "policy epoch does not match the governor epoch" ;;
    reject ((lim_max_staged_snapshots (cfg_limits config) =? 0)
            || (lim_max_history_windows (cfg_limits config) =? 0)
            || (lim_max_observations_per_snapshot (cfg_limits config) =? 0))
      with StatusCode.InvalidArgument, "ingestion limits must be non-zero" ;;
    reject ((str_size (cfg_store_path config) =? 0) && cfg_require_durability config)
      with StatusCode.InvalidArgument, "durability required but no store path was given" ;;
    Value tt.

  (** The ledger's tags follow the policy and epoch being served. *)
Definition tag_accounting (g : Governor S) (a : FairnessAccounting) : FairnessAccounting :=
    mk_accounting (pol_id (gv_policy g)) (pol_generation (gv_policy g)) (gv_epoch g)
      (acc_generation a) (acc_intervention_generation a) (acc_last_window a)
      (acc_last_window_generation a) (acc_writer_boot a) (acc_subjects a).

  (** [Impl] before any durable state is read. *)
Definition fresh_governor (config : GovernorConfig) (incarnation : Incarnation) (store : option S)
      : Governor S :=
    let g := mk_governor config (cfg_policy config) empty_accounting (cfg_epoch config) incarnation
               no_report store 0 0 ∅ ∅ ∅ false in
    with_accounting (tag_accounting g empty_accounting) g.

  (** Settles the policy to serve: the durable one when it is newer, the same one
      when the digests agree, and otherwise the configured one, made durable first.
      Reports whether it was loaded and whether it was committed. *)
Definition adopt_policy g (record : LoadedRecord) : Result (bool * bool) * Governor S :=
    if lr_present record then
      if negb (loaded_ok record) then
        (fail (lr_code record) ("durable policy record is not usable: " +:+ lr_detail record), g)
      else
        match decode_policy (lr_payload record) with
        | Failure st => (fail (status_code st) "durable policy record failed validation", g)
        | Value durable =>
            let g := with_record_generations (lr_generation record) (gv_accounting_record_generation g) g in
            if negb (pol_id durable =? pol_id (gv_policy g)) then
              (fail StatusCode.Conflict
                 "durable policy identity differs from the configured policy identity", g)
            else if pol_generation durable >? pol_generation (gv_policy g) then
              (Value (true, false), with_policy durable (pol_epoch durable) g)
            else if pol_generation durable =? pol_generation (gv_policy g) then
              if negb (policy_digest durable =? policy_digest (gv_policy g)) then
                (fail StatusCode.Conflict "durable policy content differs at the same generation", g)
              else (Value (true, false), g)
            else
              let '(committed, g) := commit_policy g in
              match committed with
              | Failure st => (Failure st, g)
              | Value _ => (Value (false, true), g)
              end
        end
    else
      let '(committed, g) := commit_policy g in
      match committed with
      | Failure st => (Failure st, g)
      | Value _ => (Value (false, true), g)
      end.

  (** Entries whose subject generation the policy still governs. *)
Definition still_governed (policy : FairnessPolicy) (e : SubjectAccounting) : bool :=
    match find_subject policy (sa_id e) with
    | None => false
    | Some subject => subj_generation subject =? sa_generation e
    end.

Definition keep_entries (policy : FairnessPolicy) (a : FairnessAccounting) : FairnessAccounting :=
    mk_accounting (acc_policy_id a) (acc_policy_generation a) (acc_epoch a) (acc_generation a)
      (acc_intervention_generation a) (acc_last_window a) (acc_last_window_generation a)
      (acc_writer_boot a) (List.filter (still_governed policy) (acc_subjects a)).

  (** The durable ledger, when there is one; its report entries. *)
Definition adopt_accounting g (record : LoadedRecord) : Result (option FairnessAccounting) * Governor S :=
    if lr_present record then
      if negb (loaded_ok record) then
        (fail (lr_code record) "durable accounting record is not usable", g)
      else
        match decode_accounting (lr_payload record) with
        | Failure st => (fail (status_code st) "durable accounting record failed validation", g)
        | Value durable =>
            let g := with_record_generations (gv_policy_record_generation g) (lr_generation record) g in
            let g := with_policy (gv_policy g)
                       (if acc_epoch durable >? gv_epoch g then acc_epoch durable else gv_epoch g) g in
            (Value (Some durable),
             with_accounting (tag_accounting g (keep_entries (gv_policy g) durable)) g)
        end
    else (Value None, g).

Definition recovery_report g (policy_notes accounting_notes : RecoveryNotes) (loaded committed : bool)
      (policy_present : bool) (durable : option FairnessAccounting) : RecoveryReport :=
    let foreign :=
      match durable with
      | None => false
      | Some a => valid (acc_writer_boot a) && negb (acc_writer_boot a =? inc_boot (gv_incarnation g))
      end in
    mk_report true loaded committed (match durable with None => false | Some _ => true end) foreign
      (rn_unfinished_attempt_discarded policy_notes || rn_unfinished_attempt_discarded accounting_notes)
      (rn_backup_recovered policy_notes || rn_backup_recovered accounting_notes)
      (rn_corruption_detected policy_notes || rn_corruption_detected accounting_notes)
      false false
      (if policy_present then StatusCode.Ok else StatusCode.NotFound)
      (match durable with None => StatusCode.NotFound | Some _ => StatusCode.Ok end) "" ""
      (match durable with None => 0 | Some a => acc_generation a end)
      (match durable with None => 0 | Some a => acc_writer_boot a end)
      (match durable with None => 0 | Some a => acc_epoch a end)
      (if foreign then "durable accounting belongs to a previous incarnation"
       else "durable accounting belongs to this incarnation").

  (** Recovers both records, settles the policy, then adopts the ledger. *)
Definition open_durable (config : GovernorConfig) (incarnation : Incarnation) (store : S)
      : Result (Governor S) * S :=
    let '(policy_recovery, policy_notes, store) := be_recover RecordKind.Policy store in
    let '(accounting_recovery, accounting_notes, store) := be_recover RecordKind.Accounting store in
    match policy_recovery, accounting_recovery with
    | Value _, Value _ =>
        let policy_record := be_load RecordKind.Policy store in
        let '(adopted, g) := adopt_policy (fresh_governor config incarnation (Some store)) policy_record in
        let store := default store (gv_store g) in
        match adopted with
        | Failure st => (Failure st, store)
        | Value (loaded, committed) =>
            let g := with_accounting (tag_accounting g (gv_accounting g)) g in
            let '(adopted, g) := adopt_accounting g (be_load RecordKind.Accounting store) in
            match adopted with
            | Failure st => (Failure st, store)
            | Value durable =>
                (Value (with_recovery
                   (recovery_report g policy_notes accounting_notes loaded committed
                      (lr_present policy_record) durable) (clear_staged g)), store)
            end
        end
    | _, _ => (fail StatusCode.RecoveryRequired "recovery could not establish a committed record", store)
    end.

  (** [open]: [opened] is what [DurableStore::open] makes of the store path, and
      [incarnation] what [make_incarnation] draws. *)
Definition open (config : GovernorConfig) (incarnation : Incarnation) (opened : Result S)
      : Result (Governor S) * Result S :=
    match check_config config with
    | Failure st => (Failure st, opened)
    | Value _ =>
        if str_size (cfg_store_path config) =? 0 then
          (Value (fresh_governor config incarnation None), opened)
        else
          match opened with
          | Failure st => (Failure st, opened)
          | Value store =>
              let '(governor, store) := open_durable config incarnation store in
              (governor, Value store)
          end
    end.

Definition default_limits : IngestionLimits := mk_limits 64 kMaxHistoryWindows kMaxEvidenceRecords.

Definition open_in_memory (policy : FairnessPolicy) (incarnation : Incarnation) : Result (Governor S) :=
    (open (mk_config policy "" (pol_epoch policy) default_limits false) incarnation
       (fail StatusCode.InvalidArgument "no store path")).1.

  (** *** Policy installation and epochs *)

Definition install_policy (policy : FairnessPolicy) g : Result unit * Governor S :=
    match validate_policy policy with
    | Failure st => (Failure st, g)
    | Value _ =>
        if gv_stopping g then (fail StatusCode.ShuttingDown "governor is shutting down", g)
        else if negb (pol_id policy =? pol_id (gv_policy g)) then
          (fail StatusCode.Conflict "policy identity change requires reopening the governor", g)
        else if pol_generation policy <=? pol_generation (gv_policy g) then
          (fail StatusCode.StaleGeneration "policy generation must advance", g)
        else if pol_epoch policy <? gv_epoch g then
          (fail StatusCode.StaleEpoch "policy epoch is behind the fabric epoch", g)
        else
          let previous_policy := gv_policy g in
          let previous_epoch := gv_epoch g in
          let epoch_advanced := pol_epoch policy >? gv_epoch g in
          let g :=
            if epoch_advanced then clear_staged (with_policy policy (pol_epoch policy) g)
            else with_policy policy (gv_epoch g) g in
          let g := with_accounting (retag (pol_generation policy) (gv_epoch g) (gv_accounting g)) g in
          let '(committed, g) := commit_policy g in
          match committed with
          | Failure st =>
              (Failure st,
               with_accounting
                 (retag (pol_generation previous_policy) previous_epoch (gv_accounting g))
                 (with_policy previous_policy previous_epoch g))
          | Value _ => commit_accounting g
          end
    end.

Definition advance_epoch (next_epoch : Z) g : Result unit * Governor S :=
    if gv_stopping g then (fail StatusCode.ShuttingDown "governor is shutting down", g)
    else if negb (valid next_epoch) || (next_epoch <=? gv_epoch g) then
      (fail StatusCode.StaleEpoch "epoch must strictly advance", g)
    else
      let previous := gv_epoch g in
      let set_epoch (e : Z) (g : Governor S) : Governor S :=
        with_accounting (retag (acc_policy_generation (gv_accounting g)) e (gv_accounting g))
          (with_policy (gv_policy g) e g) in
      let '(committed, g) := commit_accounting (clear_staged (set_epoch next_epoch g)) in
      match committed with
      | Failure st => (Failure st, set_epoch previous g)
      | Value _ => (Value tt, g)
      end.

  (** *** Ingestion *)

Definition ingest_result (disposition : Disposition.t) (e : EvidenceSnapshot) : IngestResult :=
    mk_ingest disposition (ev_id e) (ev_generation e) (ev_window e)
      (wrap32 (sizeZ (ev_observations e))).

  (** The writes of an accepted snapshot, and the three bounds. *)
Definition stage_snapshot (snapshot : EvidenceSnapshot) (digest : Z) g : Governor S :=
    let pkey := publisher_key (ev_producer snapshot) in
    let sequence :=
      match gv_publisher_sequences g !! pkey with
      | None => ev_sequence snapshot
      | Some seen => Z.max seen (ev_sequence snapshot)
      end in
    let limit := lim_max_staged_snapshots (cfg_limits (gv_config g)) in
    with_evidence
      (evict Z.ltb limit (<[ev_window snapshot := snapshot]> (gv_staged g)))
      (evict key_pair_lt (limit * 4)
         (<[(ev_id snapshot, ev_generation snapshot) := digest]> (gv_ingested g)))
      (evict Z.ltb 1024 (<[pkey := sequence]> (gv_publisher_sequences g))) g.

Definition ingest_evidence (snapshot : EvidenceSnapshot) g : Result IngestResult * Governor S :=
    match validate_evidence snapshot with
    | Failure st => (Failure st, g)
    | Value _ =>
        if gv_stopping g then (fail StatusCode.ShuttingDown "governor is shutting down", g)
        else if negb (ev_epoch snapshot =? gv_epoch g) then
          (fail StatusCode.StaleEpoch "evidence epoch does not match the fabric epoch", g)
        else if sizeZ (ev_observations snapshot)
                >? lim_max_observations_per_snapshot (cfg_limits (gv_config g)) then
          (fail StatusCode.LimitExceeded "observation count exceeds the configured bound", g)
        else if valid (acc_last_window (gv_accounting g))
                && (ev_window snapshot <=? acc_last_window (gv_accounting g)) then
          (fail StatusCode.StaleGeneration "service window is already committed", g)
        else
          let digest := evidence_digest snapshot in
          match gv_ingested g !! (ev_id snapshot, ev_generation snapshot) with
          | Some known =>
              if negb (known =? digest) then
                (fail StatusCode.EvidenceContradictory
                   "the same evidence identity arrived with different content", g)
              else (Value (ingest_result Disposition.DuplicateIgnored snapshot), g)
          | None =>
              let behind :=
                match gv_publisher_sequences g !! publisher_key (ev_producer snapshot) with
                | None => false
                | Some seen => ev_sequence snapshot <? seen
                end in
              let superseded :=
                match gv_staged g !! ev_window snapshot with
                | None => false
                | Some staged => ev_generation snapshot <=? ev_generation staged
                end in
              if behind then
                (fail StatusCode.SequenceViolation "evidence sequence went backwards", g)
              else if superseded then
                (fail StatusCode.StaleGeneration
                   "a newer snapshot for this window is already staged", g)
              else
                (Value (ingest_result Disposition.Staged snapshot), stage_snapshot snapshot digest g)
          end
    end.

  (** *** Evaluation *)

Definition evaluation_context g (request : EvaluationRequest) : EvaluationContext :=
    mk_context (Some (gv_policy g)) (Some (gv_accounting g)) (gv_staged g !! rq_window request)
      request (gv_epoch g) (current_window g) (acc_last_window (gv_accounting g)).

Definition set_governor (i : Incarnation) (a : AuthorityVector) : AuthorityVector :=
    mk_authority (av_policy_id a) (av_policy_generation a) (av_epoch a) (av_evidence_id a)
      (av_evidence_generation a) (av_window a) (av_window_generation a)
      (av_accounting_generation a) i (av_request_id a) (av_attempt a).

Definition set_decision_governor (i : Incarnation) (d : FairnessDecision) : FairnessDecision :=
    mk_decision (set_governor i (fd_authority d)) (fd_outcome d) (fd_counts d) (fd_subjects d)
      (fd_groups d) (fd_intents d) (fd_correction d) (fd_notes d) (fd_content_digest d).

Definition evaluate (request : EvaluationRequest) g : Result FairnessDecision :=
    if gv_stopping g then fail StatusCode.ShuttingDown "governor is shutting down"
    else
      let? decision := evaluate_fairness (evaluation_context g request) in
      Value (set_decision_governor (gv_incarnation g) decision).

  (** *** Commit *)

  (** Sums the units of the intents of each direction. *)
Definition add_intent_units (sums : Z * Z) (intent : CorrectiveIntent) : Result (Z * Z) :=
    let '(augment, reduce) := sums in
    match ci_direction intent with
    | CorrectionDirection.Augment =>
        match checked_add augment (ci_units intent) with
        | None => fail StatusCode.ArithmeticOverflow "intent total overflows"
        | Some augment => Value (augment, reduce)
        end
    | CorrectionDirection.Reduce =>
        match checked_add reduce (ci_units intent) with
        | None => fail StatusCode.ArithmeticOverflow "intent total overflows"
        | Some reduce => Value (augment, reduce)
        end
    end.

  (** Every refusal that precedes the first change of state. *)
Definition check_decision (decision : FairnessDecision) g : Result unit :=
    let a := fd_authority decision in
    reject (gv_stopping g)
      with StatusCode.ShuttingDown, "governor is shutting down" ;;
    reject (negb (incarnation_eqb (av_governor a) (gv_incarnation g)))
      with StatusCode.StaleIncarnation, "decision was produced by another incarnation" ;;
    reject (negb (av_epoch a =? gv_epoch g))
      with StatusCode.StaleEpoch, "decision was taken in a superseded fabric epoch" ;;
    reject (negb (av_policy_id a =? pol_id (gv_policy g))
            || negb (av_policy_generation a =? pol_generation (gv_policy g)))
      with StatusCode.PolicyGenerationMismatch,
        "decision was taken against a superseded policy generation" ;;
    reject (negb (av_accounting_generation a =? acc_generation (gv_accounting g)))
      with StatusCode.StaleGeneration,
        "decision was taken against a superseded accounting generation" ;;
    reject (negb (valid (av_window a)) || negb (valid (av_window_generation a)))
      with StatusCode.InvalidArgument, "decision does not name a service window" ;;
    reject (valid (acc_last_window (gv_accounting g))
            && (av_window a <=? acc_last_window (gv_accounting g)))
      with StatusCode.StaleGeneration, "service window was already committed" ;;
    reject (negb (sizeZ (fd_subjects decision) =? sizeZ (pol_subjects (gv_policy g))))
      with StatusCode.Conflict, "decision does not cover the installed policy population" ;;
    reject (negb (decision_digest decision =? fd_content_digest decision))
      with StatusCode.Conflict, "decision content digest does not match its contents" ;;
    let augment_declared := cor_augment_units (fd_correction decision) in
    reject (negb (augment_declared =? cor_reduce_units (fd_correction decision)))
      with StatusCode.Conflict, "corrective plan does not conserve units" ;;
    let? (augment_sum, reduce_sum) := fold_result add_intent_units (0, 0) (fd_intents decision) in
    reject (negb (augment_sum =? augment_declared)
            || negb (reduce_sum =? cor_reduce_units (fd_correction decision)))
      with StatusCode.Conflict, "corrective intents do not match the declared plan" ;;
    reject (sizeZ (fd_intents decision) >? kMaxCorrectiveIntents)
      with StatusCode.LimitExceeded, "corrective intent count exceeds the bound" ;;
    Value tt.

  (** Writes an entry in place of the first one with its identity, or appends. *)
Fixpoint store_entry (e : SubjectAccounting) (l : list SubjectAccounting) : list SubjectAccounting :=
    match l with
    | [] => [e]
    | x :: l' => if sa_id x =? sa_id e then e :: l' else x :: store_entry e l'
    end.

Definition created_entry (id generation : Z) : SubjectAccounting :=
    mk_subject_accounting id generation 0 0 0 0 0 0 0 0 0 0.

  (** The accounting effect of one subject's window. *)
Definition apply_state (policy : FairnessPolicy) (entries : list SubjectAccounting)
      (state : SubjectFairnessState) : Result (list SubjectAccounting) :=
    if negb (sf_has_authority state) then Value entries
    else
      match find_subject policy (sf_id state) with
      | None => fail StatusCode.Conflict "decision names a subject the policy does not govern"
      | Some subject =>
          reject (negb (subj_generation subject =? sf_generation state))
            with StatusCode.Conflict, "decision names a subject the policy does not govern" ;;
          let entry :=
            default (created_entry (sf_id state) (sf_generation state))
              (find (λ e, sa_id e =? sf_id state) entries) in
          let net := window_net (sf_entitlement_units state) (sf_served_units state) in
          match apply_window_carry entry net (pol_max_carry_units policy) with
          | None => fail StatusCode.ArithmeticOverflow "carry application overflows"
          | Some carry =>
              match checked_add (sa_windows_observed entry) 1,
                    checked_add (sa_total_served_units entry) (sf_served_units state) with
              | Some windows, Some total =>
                  Value (store_entry
                    (mk_subject_accounting (sa_id entry) (sa_generation entry)
                       (co_cumulative_deficit carry) (co_cumulative_surplus carry)
                       (co_discarded_deficit carry) (co_discarded_surplus carry)
                       (sf_unserved_streak state) (sf_below_floor_streak state) windows total
                       (sa_last_correction_window entry) (sa_last_correction_generation entry))
                    entries)
              | _, _ => fail StatusCode.ArithmeticOverflow "accounting counters overflow"
              end
          end
      end.

  (** Remembers the last correction of a subject, for the cooldown. *)
Definition apply_intent (window : Z) (entries : list SubjectAccounting) (intent : CorrectiveIntent)
      : list SubjectAccounting :=
    match find (λ e, sa_id e =? ci_subject intent) entries with
    | None => entries
    | Some e =>
        if ci_generation intent >? sa_last_correction_generation e then
          store_entry
            (mk_subject_accounting (sa_id e) (sa_generation e) (sa_cumulative_deficit e)
               (sa_cumulative_surplus e) (sa_discarded_deficit e) (sa_discarded_surplus e)
               (sa_unserved_streak e) (sa_below_floor_streak e) (sa_windows_observed e)
               (sa_total_served_units e) window (ci_generation intent)) entries
        else entries
    end.

  (** The whole accounting effect of a decision. *)
Definition apply_decision (decision : FairnessDecision) g : Result FairnessAccounting :=
    let a := gv_accounting g in
    let generation :=
      foldl (λ generation intent,
        if ci_generation intent >? generation then ci_generation intent else generation)
        (acc_intervention_generation a) (fd_intents decision) in
    let? entries := fold_result (apply_state (gv_policy g)) (acc_subjects a) (fd_subjects decision) in
    let entries :=
      foldl (apply_intent (av_window (fd_authority decision))) entries (fd_intents decision) in
    match checked_add (acc_generation a) 1 with
    | None => fail StatusCode.ArithmeticOverflow "accounting generation exhausted"
    | Some next =>
        Value (mk_accounting (pol_id (gv_policy g)) (pol_generation (gv_policy g)) (gv_epoch g) next
                 generation (av_window (fd_authority decision))
                 (av_window_generation (fd_authority decision)) (inc_boot (gv_incarnation g)) entries)
    end.

Definition commit_decision (decision : FairnessDecision) g : Result unit * Governor S :=
    match check_decision decision g with
    | Failure st => (Failure st, g)
    | Value _ =>
        let previous := gv_accounting g in
        match apply_decision decision g with
        | Failure st => (Failure st, g)
        | Value accounting =>
            let '(committed, g) := commit_accounting (with_accounting accounting g) in
            match committed with
            | Failure st => (Failure st, with_accounting previous g)
            | Value _ => (Value tt, g)
            end
        end
    end.

  (** *** Shutdown *)

Definition shutdown g : Result unit * Governor S :=
    if gv_stopping g then (Value tt, g)
    else
      (Value tt,
       mk_governor (gv_config g) (gv_policy g) (gv_accounting g) (gv_epoch g) (gv_incarnation g)
         (gv_recovery g) None (gv_policy_record_generation g)
         (gv_accounting_record_generation g) ∅ ∅ ∅ true).
End governor.
