(* ===== verification/GovernorSpec.v ===== *)
(** What the governor's operations do to its state: which decisions a commit
    accepts, the effect of a commit on the ledger, and what a refusal leaves. *)
From S2P Require Import Prelude Status Core U128 Bytes Policy PolicyValid Accounting Evidence Outcome Codec CodecSpec Distributor Engine Planner EngineSpec Store Governor.
#[local] Open Scope string_scope.
#[local] Open Scope list_scope.
#[local] Open Scope Z_scope.

(** ** Ledger entries by identity *)

Definition entry_of (entries : list SubjectAccounting) (id : Z) : option SubjectAccounting :=
  find (λ e, sa_id e =? id) entries.

Lemma entry_of_some entries id e : entry_of entries id = Some e → e ∈ entries ∧ sa_id e = id.
Proof. apply find_some_key. Qed.

Lemma entry_of_none entries id : entry_of entries id = None ↔ id ∉ sa_id <$> entries.
Proof. apply find_key_none. Qed.

Lemma store_entry_lookup e l id :
  entry_of (store_entry e l) id = if sa_id e =? id then Some e else entry_of l id.
Proof.
  unfold entry_of. induction l as [|x l IH]; cbn [store_entry find].
  - destruct (sa_id e =? id); done.
  - destruct (Z.eqb_spec (sa_id x) (sa_id e)) as [Hx|Hx]; cbn [find].
    + rewrite Hx. by destruct (sa_id e =? id).
    + rewrite IH. destruct (Z.eqb_spec (sa_id x) id) as [Hid|Hid]; [|done].
      destruct (Z.eqb_spec (sa_id e) id); [congruence|done].
Qed.

Lemma store_entry_ids e l :
  sa_id <$> store_entry e l = if decide (sa_id e ∈ sa_id <$> l) then sa_id <$> l else (sa_id <$> l) ++ [sa_id e].
Proof.
  induction l as [|x l IH]; cbn [store_entry].
  - rewrite decide_False by (intros H; inversion H). done.
  - destruct (Z.eqb_spec (sa_id x) (sa_id e)) as [Hx|Hx]; rewrite !fmap_cons.
    + rewrite decide_True by (rewrite <-Hx; left). by rewrite Hx.
    + rewrite IH.
      repeat case_decide; try done; exfalso; set_solver.
Qed.

Lemma store_entry_NoDup e l : NoDup (sa_id <$> l) → NoDup (sa_id <$> store_entry e l).
Proof.
  intros Hnd. rewrite store_entry_ids. case_decide; [done|]. apply NoDup_app. split_and!; [done|set_solver|].
  apply NoDup_singleton.
Qed.

Lemma store_entry_elem e l x : x ∈ store_entry e l → x = e ∨ x ∈ l.
Proof.
  induction l as [|y l IH]; cbn [store_entry]; [set_solver|].
  destruct (sa_id y =? sa_id e); set_solver.
Qed.

Lemma store_entry_Forall (P : SubjectAccounting → Prop) e l : P e → Forall P l → Forall P (store_entry e l).
Proof.
  rewrite !Forall_forall. intros He Hl x [->|Hx]%store_entry_elem; auto.
Qed.

(** The total of a field moves by what the written entry changes. *)
Lemma store_entry_sum (f : SubjectAccounting → Z) e l :
  sumZ (f <$> store_entry e l)
  = sumZ (f <$> l) + f e - match entry_of l (sa_id e) with Some x => f x | None => 0 end.
Proof.
  unfold entry_of. induction l as [|y l IH]; cbn [store_entry find].
  - rewrite fmap_cons, fmap_nil, sumZ_cons, sumZ_nil. lia.
  - destruct (Z.eqb_spec (sa_id y) (sa_id e)); rewrite !fmap_cons, !sumZ_cons; [lia|]. rewrite IH. lia.
Qed.

(** ** The effect of a decision on the ledger *)

(** One window of one subject, applied to its entry (a fresh one if it has none). *)
Definition window_entry (policy : FairnessPolicy) (entries : list SubjectAccounting)
    (st : SubjectFairnessState) (e : SubjectAccounting) : Prop :=
  let before := default (created_entry (sf_id st) (sf_generation st)) (entry_of entries (sf_id st)) in
  ∃ carry,
    apply_window_carry before (window_net (sf_entitlement_units st) (sf_served_units st))
      (pol_max_carry_units policy) = Some carry
    ∧ checked_add (sa_windows_observed before) 1 = Some (sa_windows_observed e)
    ∧ checked_add (sa_total_served_units before) (sf_served_units st) = Some (sa_total_served_units e)
    ∧ e = mk_subject_accounting (sa_id before) (sa_generation before)
        (co_cumulative_deficit carry) (co_cumulative_surplus carry)
        (co_discarded_deficit carry) (co_discarded_surplus carry)
        (sf_unserved_streak st) (sf_below_floor_streak st)
        (sa_windows_observed e) (sa_total_served_units e)
        (sa_last_correction_window before) (sa_last_correction_generation before).

Lemma window_entry_id policy entries st e : window_entry policy entries st e → sa_id e = sf_id st.
Proof.
  intros (carry & _ & _ & _ & ->). cbn [sa_id].
  destruct (entry_of entries (sf_id st)) as [x|] eqn:E; [|done]. by apply entry_of_some in E as [_ ?].
Qed.

Lemma apply_state_value policy entries st entries' :
  apply_state policy entries st = Value entries' ↔
  (sf_has_authority st = false ∧ entries' = entries)
  ∨ (sf_has_authority st = true
     ∧ (∃ subject, find_subject policy (sf_id st) = Some subject ∧ subj_generation subject = sf_generation st)
     ∧ ∃ e, window_entry policy entries st e ∧ entries' = store_entry e entries).
Proof.
  unfold apply_state. destruct (sf_has_authority st); cbn [negb]; [|naive_solver].
  unfold window_entry, entry_of. set (before := default _ _).
  destruct (find_subject policy (sf_id st)) as [subject|]; [|split; [done|naive_solver]].
  rewrite reject_value, negb_false_iff, Z.eqb_eq.
  destruct (apply_window_carry _ _ _) as [carry|]; [|split; [intros [_ ?]; done|naive_solver]].
  destruct (checked_add (sa_windows_observed before) 1) as [w|] eqn:Ew;
    [|split; [intros [_ ?]; done|intros [[? _]|(_ & _ & e & (c & _ & ? & _) & _)]; done]].
  destruct (checked_add (sa_total_served_units before) _) as [t|] eqn:Et;
    [|split; [intros [_ ?]; done|intros [[? _]|(_ & _ & e & (c & _ & _ & ? & _) & _)]; done]].
  split.
  - intros [Hg H]. apply (inj Value) in H as <-. right. split; [done|]. split; [by exists subject|].
    eexists. split; [|reflexivity]. exists carry. split_and!; reflexivity.
  - intros [[? _]|(_ & (s & [= <-] & Hg) & e & (c & [= <-] & Hw & Ht & He) & ->)]; [done|].
    split; [done|]. rewrite He. cbn [sa_windows_observed sa_total_served_units]. congruence.
Qed.

(** What every commit keeps true of an entry.  The ledger's decoder wants more, a
    bound on the streaks ([entry_readable]), which no commit checks. *)
Record entry_sound (e : SubjectAccounting) : Prop := {
  es_typed : sa_typed e;
  es_deficit : sa_cumulative_deficit e <= kMaxCarryUnits;
  es_surplus : sa_cumulative_surplus e <= kMaxCarryUnits }.

(** The fields of a subject's state are words of their types, and entitlement and
    service fit [int64], to which the commit casts them before it subtracts. *)
Record state_typed (st : SubjectFairnessState) : Prop := {
  sb_id : u64 (sf_id st);
  sb_generation : u64 (sf_generation st);
  sb_entitlement : 0 <= sf_entitlement_units st <= I64_MAX;
  sb_served : 0 <= sf_served_units st <= I64_MAX;
  sb_unserved : u32 (sf_unserved_streak st);
  sb_below : u32 (sf_below_floor_streak st) }.

(** The streaks the state would leave in the ledger can be read back. *)
Definition state_readable (st : SubjectFairnessState) : Prop :=
  sf_has_authority st = true → sf_unserved_streak st <= 1000000 ∧ sf_below_floor_streak st <= 1000000.

(** What the window leaves owed to (or, negative, overdrawn by) a subject. *)
Definition net_of (st : SubjectFairnessState) : Z :=
  if sf_has_authority st then sf_entitlement_units st - sf_served_units st else 0.

Definition residual_total (entries : list SubjectAccounting) : Z := sumZ (sa_residual <$> entries).

Lemma window_net_bounded st :
  state_typed st →
  window_net (sf_entitlement_units st) (sf_served_units st) = sf_entitlement_units st - sf_served_units st
  ∧ i64 (sf_entitlement_units st - sf_served_units st).
Proof.
  intros [_ _ He Hs _ _]. unfold window_net. rewrite !to_i64_small by ulia. split; [done|ulia].
Qed.

Lemma created_entry_sound id generation :
  u64 id → u64 generation → entry_sound (created_entry id generation).
Proof.
  intros Hi Hg. unfold created_entry. constructor; [constructor|..]; cbn; try done; unfold kMaxCarryUnits; try ulia.
Qed.

Section window.
  Context (policy : FairnessPolicy).
  Hypothesis Hcarry : 0 <= pol_max_carry_units policy <= kMaxCarryUnits.

Lemma window_entry_facts entries st e :
  Forall entry_sound entries → state_typed st → window_entry policy entries st e →
  let before := default (created_entry (sf_id st) (sf_generation st)) (entry_of entries (sf_id st)) in
  entry_sound e
  ∧ sa_residual e = sa_residual before + (sf_entitlement_units st - sf_served_units st)
  ∧ sa_windows_observed e = sa_windows_observed before + 1
  ∧ sa_total_served_units e = sa_total_served_units before + sf_served_units st
  ∧ sa_unserved_streak e = sf_unserved_streak st ∧ sa_below_floor_streak e = sf_below_floor_streak st.
Proof.
  intros Hall Hst (carry & Hc & Hw & Ht & He) before.
  assert (entry_sound before) as Hb.
  { unfold before. destruct (entry_of entries (sf_id st)) as [x|] eqn:E.
    - apply entry_of_some in E as [Hin _]. rewrite Forall_forall in Hall. by apply Hall.
    - by apply created_entry_sound; destruct Hst. }
  fold before in Hc, Hw, Ht, He. destruct (window_net_bounded st Hst) as [En Hn]. rewrite En in Hc.
  pose proof (es_typed _ Hb) as [].
  apply apply_window_carry_some in Hc; [|by apply es_typed|done|unfold kMaxCarryUnits in *; ulia].
  destruct Hst as [? ? Hent Hserved ? ?].
  apply checked_add_some in Hw as [Ew ?]; [|ulia..]. apply checked_add_some in Ht as [Et ?]; [|ulia..].
  destruct Hc as [Hres [? ?] (? & ? & ? & ?) _ _ _ _ _].
  split; [|rewrite He; unfold sa_residual in *; unfold co_residual in Hres; cbn; split_and!; try done; lia].
  rewrite He. constructor; [constructor|..]; cbn; try done; ulia.
Qed.

(** The ledger's effect of a list of states. *)
Record states_applied (entries : list SubjectAccounting) (states : list SubjectFairnessState)
    (entries' : list SubjectAccounting) : Prop := {
  sta_sound : Forall entry_sound entries';
  sta_readable : Forall entry_readable entries → Forall state_readable states → Forall entry_readable entries';
  sta_residual : residual_total entries' = residual_total entries + sumZ (net_of <$> states);
  sta_distinct : NoDup (sa_id <$> entries) → NoDup (sa_id <$> entries');
  sta_ids : ∀ id, id ∈ sa_id <$> entries' ↔
    id ∈ sa_id <$> entries ∨ ∃ st, st ∈ states ∧ sf_has_authority st = true ∧ sf_id st = id;
  sta_others : ∀ id, (∀ st, st ∈ states → sf_has_authority st = true → sf_id st <> id) →
    entry_of entries' id = entry_of entries id }.

Lemma apply_state_applied entries st entries' :
  Forall entry_sound entries → state_typed st →
  apply_state policy entries st = Value entries' → states_applied entries [st] entries'.
Proof.
  intros Hall Hst H. apply apply_state_value in H as [[Ha ->]|(Ha & _ & e & He & ->)].
  - constructor; [done|done| |done| |done].
    + rewrite fmap_cons, sumZ_cons, fmap_nil, sumZ_nil. unfold net_of. rewrite Ha. lia.
    + intros id. split; [by left|]. intros [?|(x & Hx & Hxa & _)]; [done|]. apply list_elem_of_singleton in Hx as ->. congruence.
  - pose proof (window_entry_id _ _ _ _ He) as Hid.
    destruct (window_entry_facts entries st e Hall Hst He) as (Hs & Hr & _ & _ & Hun & Hbe).
    constructor.
    + by apply store_entry_Forall.
    + intros Hold [Hnew _]%Forall_cons. apply store_entry_Forall; [|done]. unfold entry_readable.
      rewrite Hun, Hbe. by apply Hnew.
    + unfold residual_total. rewrite store_entry_sum, Hid.
      rewrite fmap_cons, sumZ_cons, fmap_nil, sumZ_nil, Hr. unfold net_of. rewrite Ha.
      destruct (entry_of entries (sf_id st)) as [x|]; cbn [default from_option].
      * change (id x) with x. lia.
      * assert (sa_residual (created_entry (sf_id st) (sf_generation st)) = 0) as -> by done. lia.
    + apply store_entry_NoDup.
    + intros id. rewrite store_entry_ids, Hid. split.
      * intros Hin. destruct (decide (sf_id st = id)) as [<-|Hne].
        { right. exists st. split_and!; [set_solver|done..]. }
        left. case_decide; [done|]. apply elem_of_app in Hin as [?|Hin]; [done|].
        apply list_elem_of_singleton in Hin as ->. done.
      * intros [Hin|(x & ->%list_elem_of_singleton & _ & <-)]; case_decide; set_solver.
    + intros id Hne. rewrite store_entry_lookup. destruct (Z.eqb_spec (sa_id e) id) as [E|]; [|done].
      exfalso. apply (Hne st); [set_solver|done|congruence].
Qed.

Lemma apply_states_applied entries states entries' :
  Forall entry_sound entries → Forall state_typed states →
  fold_result (apply_state policy) entries states = Value entries' → states_applied entries states entries'.
Proof.
  intros Hall Hst. revert entries Hall. induction Hst as [|st states Hst _ IH]; intros entries Hall; cbn [fold_result].
  - intros H. apply (inj Value) in H as <-. constructor; [done|done| |done| |done].
    + rewrite fmap_nil, sumZ_nil. lia.
    + intros id. split; [by left|]. intros [?|(x & Hx & _)]; [done|]. by apply elem_of_nil in Hx.
  - intros H. apply result_bind_value in H as (mid & H1 & H2).
    apply apply_state_applied in H1; [|done..]. apply IH in H2; [|by destruct H1].
    destruct H1 as [S1 Q1 R1 D1 I1 O1], H2 as [S2 Q2 R2 D2 I2 O2]. constructor; [done| | |auto| |].
    + intros Hold [Ha Hs]%Forall_cons. apply Q2; [apply Q1; [done|by constructor]|done].
    + rewrite R2, R1, !fmap_cons, !sumZ_cons, fmap_nil, sumZ_nil. lia.
    + intros id. rewrite I2, I1. split.
      * intros [[?|(x & ->%list_elem_of_singleton & ? & ?)]|(x & ? & ? & ?)]; [by left|right..].
        { exists st. split_and!; [left|done..]. }
        exists x. split_and!; [by right|done..].
      * intros [?|(x & Hx & ? & ?)]; [by left; left|].
        apply elem_of_cons in Hx as [->|Hx]; [left; right|right]; eexists; split_and!; try done; set_solver.
    + intros id Hne. rewrite O2, O1; [done|..]; intros x Hx; apply Hne; set_solver.
Qed.
End window.

(** An entry without the marks a correction leaves on it. *)
Definition uncorrected (e : SubjectAccounting) : SubjectAccounting :=
  mk_subject_accounting (sa_id e) (sa_generation e) (sa_cumulative_deficit e) (sa_cumulative_surplus e)
    (sa_discarded_deficit e) (sa_discarded_surplus e) (sa_unserved_streak e) (sa_below_floor_streak e)
    (sa_windows_observed e) (sa_total_served_units e) 0 0.

Record intents_applied (entries entries' : list SubjectAccounting) : Prop := {
  ina_sound : Forall entry_sound entries → Forall entry_sound entries';
  ina_readable : Forall entry_readable entries → Forall entry_readable entries';
  ina_ids : sa_id <$> entries' = sa_id <$> entries;
  ina_residual : residual_total entries' = residual_total entries;
  ina_entries : ∀ id, uncorrected <$> entry_of entries' id = uncorrected <$> entry_of entries id }.

Lemma intents_applied_refl entries : intents_applied entries entries.
Proof. by constructor. Qed.

Lemma intents_applied_trans a b c : intents_applied a b → intents_applied b c → intents_applied a c.
Proof. intros [] []. constructor; [auto|auto|congruence..|]. intros id. etrans; eauto. Qed.

Lemma apply_intent_applied window entries intent :
  u64 window → u64 (ci_generation intent) → intents_applied entries (apply_intent window entries intent).
Proof.
  intros Hw Hg. unfold apply_intent. fold (entry_of entries (ci_subject intent)).
  destruct (entry_of entries (ci_subject intent)) as [e|] eqn:E; [|apply intents_applied_refl].
  case_bool; [|apply intents_applied_refl]. apply entry_of_some in E as HE. destruct HE as [Hin Hid].
  constructor.
  - intros Hall. apply store_entry_Forall; [|done]. rewrite Forall_forall in Hall. destruct (Hall e Hin) as [[] ? ?].
    by constructor; [constructor|..].
  - intros Hall. apply store_entry_Forall; [|done]. rewrite Forall_forall in Hall. exact (Hall e Hin).
  - rewrite store_entry_ids. cbn [sa_id]. rewrite decide_True; [done|]. by apply list_elem_of_fmap_2.
  - unfold residual_total. rewrite store_entry_sum. cbn [sa_id]. rewrite Hid, E. unfold sa_residual. cbn. lia.
  - intros id. rewrite store_entry_lookup. cbn [sa_id]. destruct (Z.eqb_spec (sa_id e) id) as [<-|]; [|done].
    rewrite <-Hid in E. by rewrite E.
Qed.

Lemma apply_intents_applied window intents entries :
  u64 window → Forall (λ i, u64 (ci_generation i)) intents →
  intents_applied entries (foldl (apply_intent window) entries intents).
Proof.
  intros Hw Hi. revert entries. induction Hi as [|i intents Hg _ IH]; intros entries; [apply intents_applied_refl|].
  cbn [foldl]. eapply intents_applied_trans; [apply (apply_intent_applied _ _ _ Hw Hg)|apply IH].
Qed.

(** ** Commits *)

(** A decision whose fields are words of their types: any the code can be handed. *)
Record decision_typed (d : FairnessDecision) : Prop := {
  db_window : u64 (av_window (fd_authority d));
  db_window_generation : u64 (av_window_generation (fd_authority d));
  db_states : Forall state_typed (fd_subjects d);
  db_intents : Forall (λ i, u64 (ci_generation i)) (fd_intents d) }.

(** No streak of the decision is beyond what the ledger's decoder accepts, as in
    every decision of an evaluation ([evaluation_bounded]). *)
Definition decision_readable (d : FairnessDecision) : Prop := Forall state_readable (fd_subjects d).

#[export] Instance decision_readable_dec d : Decision (decision_readable d).
Proof. unfold decision_readable, state_readable. apply _. Defined.

Definition decision_bounded (d : FairnessDecision) : Prop := decision_typed d ∧ decision_readable d.

(** The ledger a governor holds. *)
Record ledger_sound (a : FairnessAccounting) : Prop := {
  ls_typed : accounting_typed a;
  ls_distinct : NoDup (sa_id <$> acc_subjects a);
  ls_entries : Forall entry_sound (acc_subjects a) }.

Lemma max_generation_range (g : Z) (intents : list CorrectiveIntent) :
  u64 g → Forall (λ i, u64 (ci_generation i)) intents →
  let m := foldl (λ generation intent,
    if ci_generation intent >? generation then ci_generation intent else generation) g intents in
  u64 m ∧ g <= m ∧ Forall (λ i, ci_generation i <= m) intents.
Proof.
  intros Hg Hi. revert g Hg. induction Hi as [|i intents Hgi _ IH]; intros g Hg; cbn [foldl].
  { split_and!; [done|lia|constructor]. }
  destruct (IH (if ci_generation i >? g then ci_generation i else g)) as (H1 & H2 & H3); [by case_bool|].
  split_and!; [done| |constructor; [|done]]; case_bool; reflect_bools;
    rewrite ?gtb_true_lt, ?gtb_false_le in *; lia.
Qed.

Section governor.
  Context {S : Type} `{Backend S}.
  Implicit Types (g : Governor S).

(** What no store can touch. *)
Definition volatile g : Governor S := with_record_generations 0 0 (with_store None g).

Lemma commit_accounting_volatile g : volatile (commit_accounting g).2 = volatile g.
Proof.
  unfold commit_accounting. destruct (gv_store g); [|done]. by destruct (be_commit _ _ _ _ _ _) as [[]].
Qed.

Lemma commit_policy_volatile g : volatile (commit_policy g).2 = volatile g.
Proof.
  unfold commit_policy. destruct (gv_store g); [|done]. by destruct (be_commit _ _ _ _ _ _) as [[]].
Qed.

(** The effect of a decision on the ledger, as one record. *)
Record decision_applied (policy : FairnessPolicy) (epoch : Z) (writer : Incarnation)
    (before : FairnessAccounting) (d : FairnessDecision) (after : FairnessAccounting) : Prop := {
  dap_generation : acc_generation after = acc_generation before + 1;
  dap_window : acc_last_window after = av_window (fd_authority d)
    ∧ acc_last_window_generation after = av_window_generation (fd_authority d);
  dap_tags : acc_policy_id after = pol_id policy ∧ acc_policy_generation after = pol_generation policy
    ∧ acc_epoch after = epoch ∧ acc_writer_boot after = inc_boot writer;
  dap_intervention : acc_intervention_generation before <= acc_intervention_generation after
    ∧ Forall (λ i, ci_generation i <= acc_intervention_generation after) (fd_intents d);
  dap_sound : ledger_sound after;
  dap_readable : ledger_readable before → decision_readable d → ledger_readable after;
  dap_residual : residual_total (acc_subjects after)
    = residual_total (acc_subjects before) + sumZ (net_of <$> fd_subjects d);
  dap_ids : ∀ id, id ∈ sa_id <$> acc_subjects after ↔
    id ∈ sa_id <$> acc_subjects before
    ∨ ∃ st, st ∈ fd_subjects d ∧ sf_has_authority st = true ∧ sf_id st = id;
  dap_others : ∀ id, (∀ st, st ∈ fd_subjects d → sf_has_authority st = true → sf_id st <> id) →
    uncorrected <$> entry_of (acc_subjects after) id = uncorrected <$> entry_of (acc_subjects before) id }.

Lemma apply_decision_applied d g after :
  policy_typed (gv_policy g) → policy_wf (gv_policy g) → u64 (gv_epoch g) → u64 (inc_boot (gv_incarnation g)) →
  ledger_sound (gv_accounting g) → decision_typed d → apply_decision d g = Value after →
  decision_applied (gv_policy g) (gv_epoch g) (gv_incarnation g) (gv_accounting g) d after.
Proof.
  intros T W He Hb [Ta Hnd Hst] [Dw Dg Ds Di] Hrun. pose proof Ta as [].
  assert (0 <= pol_max_carry_units (gv_policy g) <= kMaxCarryUnits) as Hc.
  { pose proof (pt_carry _ T). pose proof (sw_carry _ (pw_scalars _ W)). ulia. }
  unfold apply_decision in Hrun. apply result_bind_value in Hrun as (entries & Hf & Hrun).
  apply apply_states_applied in Hf as [S1 Q1 R1 D1 I1 O1]; [|done..].
  destruct (apply_intents_applied (av_window (fd_authority d)) (fd_intents d) entries Dw Di) as [S2 Q2 I2 R2 O2].
  destruct (checked_add (acc_generation (gv_accounting g)) 1) as [next|] eqn:En; [|done].
  apply checked_add_some in En as [-> ?]; [|ulia..]. apply (inj Value) in Hrun as <-.
  destruct (max_generation_range _ (fd_intents d) act_intervention Di) as (M1 & M2 & M3).
  destruct T, W. constructor; cbn [acc_generation acc_last_window acc_last_window_generation acc_policy_id
    acc_policy_generation acc_epoch acc_writer_boot acc_intervention_generation acc_subjects]; try done.
  - constructor; cbn [acc_subjects]; [|by rewrite I2; auto|auto].
    constructor; cbn; try done. eapply Forall_impl; [by apply S2|]. by intros e [].
  - intros Hold Hnew. by apply Q2, Q1.
  - by rewrite R2, R1.
  - intros id. by rewrite I2, I1.
  - intros id Hne. by rewrite O2, O1.
Qed.
End governor.
