(* ===== verification/GovernorEval.v ===== *)
(** From evaluation to commit: the decisions the evaluation takes are in the
    bounded domain, pass the checks of a commit, and leave in the ledger exactly
    what they announced. *)
From S2P Require Import Prelude Status Core U128 Bytes Policy PolicyValid Accounting Evidence Outcome Codec Distributor DistributorSpec BuildSpec Engine Planner EngineSpec PlannerSpec EvalSpec Store Governor GovernorSpec.
#[local] Open Scope string_scope.
#[local] Open Scope list_scope.
#[local] Open Scope Z_scope.

(** ** Decisions of the evaluation are bounded *)

Lemma generation_next_range g : u64 g → u64 (generation_next g).
Proof.
  unfold generation_next. intros Hg. destruct (Z.eqb_spec g U64_MAX); [done|]. apply wrap64_range.
Qed.

Lemma emit_generation_range units make order g :
  (∀ i k, ci_generation (make i k) = k) → u64 g →
  u64 (emit units make order g).2 ∧ Forall (λ it, u64 (ci_generation it)) (emit units make order g).1.
Proof.
  intros Hm. revert g. induction order as [|i order IH]; intros g Hg; cbn [emit]; [by split; [|constructor]|].
  destruct (units i =? 0); [by apply IH|]. pose proof (generation_next_range g Hg) as Hn.
  specialize (IH _ Hn). destruct (emit units make order (generation_next g)) as [l k]. destruct IH as [Hk Hl].
  split; [done|]. constructor; [by rewrite Hm|done].
Qed.

Lemma bump_streak_range v : 0 <= v → 0 <= bump_streak v <= 1000000.
Proof.
  intros Hv. unfold bump_streak, kStreakSaturation. rewrite Z.geb_leb. destruct (Z.leb_spec 1000000 v); [lia|].
  unfold wrap32. rewrite Z.mod_small by lia. lia.
Qed.

Section evaluation.
  Context {ctx : EvaluationContext} {policy : FairnessPolicy} {accounting : FairnessAccounting}.
  Hypothesis Hctx : context_ok ctx policy accounting.
  Context {d : Distributor} {plans finals : list SubjectPlan} {decision : FairnessDecision}.
  Hypothesis Hev : evaluation policy accounting ctx d plans finals decision.
  Notation m := (length (pol_subjects policy)).

Lemma streak_found id e : accounting_find accounting id = Some e → sa_typed e.
Proof.
  intros [Hin _]%find_some_key. pose proof (lo_entries _ (co_ledger _ _ _ Hctx)) as H.
  rewrite Forall_forall in H. by destruct (H e Hin).
Qed.

(** The plan of a subject, as far as the ledger is concerned. *)
Lemma eval_plan_bounded i : (i < m)%nat →
  0 <= sp_entitlement (plan_at plans i) <= 2 ^ 62 ∧ 0 <= sp_served (plan_at plans i) <= 2 ^ 62
  ∧ 0 <= sp_unserved_streak (plan_at plans i) <= 1000000
  ∧ 0 <= sp_below_floor_streak (plan_at plans i) <= 1000000.
Proof.
  intros Hi. change (2 ^ 62) with 4611686018427387904.
  destruct (ev_assessed _ _ _ _ _ _ _ Hev i Hi) as [(oc & rc & _ & ->)|(e & o & Ee & _ & Ho & _ & Has)].
  { cbn. lia. }
  pose proof (ev_whole _ _ _ _ _ _ _ Hev) as Hw. unfold whole_bound, kMaxServiceUnits, kMaxSubjects in Hw.
  assert (u64 (sumZ (counted_service <$> plans))) as Hu by ulia.
  destruct (distributed_range policy (co_typed _ _ _ Hctx) (co_evaluable _ _ _ Hctx) _ d i Hu
    (ev_distributed _ _ _ _ _ _ _ Hev) Hi) as [Hent _].
  destruct (observed_served policy accounting ctx Hctx e _ o Ee Ho) as [_ Hserved].
  destruct (ad_entitlement _ _ _ _ _ _ _ _ Has) as [-> _]. rewrite (ad_served _ _ _ _ _ _ _ _ Has).
  rewrite (ad_unserved _ _ _ _ _ _ _ _ Has), (ad_below _ _ _ _ _ _ _ _ Has).
  unfold kMaxServiceUnits in Hserved. split; [lia|]. split; [lia|].
  destruct (co_evidence _ _ _ Hctx e Ee) as [Te We]. apply evidence_find_elem in Ho as [Hin _].
  pose proof (ew_observations _ We) as HW. rewrite Forall_forall in HW. specialize (HW o Hin).
  pose proof (et_observations _ Te) as HT. rewrite Forall_forall in HT. specialize (HT o Hin).
  destruct HW, HT. unfold unserved_after, below_floor_after, kMaxStreakWindows in *.
  set (found := accounting_find _ _). 
  assert (0 <= match found with None => 0 | Some e => sa_unserved_streak e end
    ∧ 0 <= match found with None => 0 | Some e => sa_below_floor_streak e end) as [B1 B2].
  { unfold found. destruct (accounting_find accounting _) as [en|] eqn:E; [|lia]. apply streak_found in E as []. ulia. }
  apply bump_streak_range in B1, B2. split; case_bool; ulia.
Qed.

Lemma eval_subject_typed i : (i < m)%nat → subject_typed (subject_at policy i).
Proof. intros Hi. by apply (subject_at_facts policy (co_typed _ _ _ Hctx) (co_evaluable _ _ _ Hctx)). Qed.

Lemma evaluation_bounded :
  u64 (rq_window (ctx_request ctx)) → u64 (rq_window_generation (ctx_request ctx)) → decision_bounded decision.
Proof.
  intros Hw Hg. pose proof (ev_authority _ _ _ _ _ _ _ Hev) as Ea. split; [constructor|].
  - by rewrite Ea.
  - by rewrite Ea.
  - apply Forall_forall. intros st (i & Hi & Hst)%(eval_state_find Hctx Hev).
    destruct Hst as [[Eid Egen] _ _ Eent Eserved _ _ _ _ _ Eun Ebe _].
    destruct (eval_plan_bounded i Hi) as (H1 & H2 & H3 & H4). destruct (eval_subject_typed i Hi).
    change (2 ^ 62) with 4611686018427387904 in *.
    constructor; rewrite ?Eid, ?Egen, ?Eent, ?Eserved, ?Eun, ?Ebe; done || ulia.
  - rewrite (ev_intents _ _ _ _ _ _ _ Hev). pose proof (act_intervention _ (lo_typed _ (co_ledger _ _ _ Hctx))) as Hi.
    unfold augment_list, reduce_list. rewrite Forall_app.
    destruct (emit_generation_range (λ i, sp_augment (plan_at finals i)) (make_augment policy (ctx_request ctx) finals)
      (demand_order policy plans) _ (λ _ _, eq_refl) Hi) as [H2 H1].
    split; [done|]. apply emit_generation_range; done.
  - apply Forall_forall. intros st (i & Hi & Hst)%(eval_state_find Hctx Hev) _.
    destruct Hst as [_ _ _ _ _ _ _ _ _ _ -> -> _]. destruct (eval_plan_bounded i Hi) as (_ & _ & H3 & H4). lia.
Qed.

(** ** They pass the checks of a commit *)

Lemma eval_intent_count : sizeZ (fd_intents decision) <= kMaxCorrectiveIntents.
Proof.
  rewrite (ev_intents _ _ _ _ _ _ _ Hev). unfold sizeZ. rewrite length_app.
  pose proof (order_lengths ctx policy accounting Hctx plans) as Ho.
  pose proof (emit_length (λ i, sp_augment (plan_at finals i)) (make_augment policy (ctx_request ctx) finals)
    (demand_order policy plans) (acc_intervention_generation accounting)) as H1.
  pose proof (emit_length (λ i, sp_reduce (plan_at finals i)) (make_reduce policy (ctx_request ctx) finals)
    (supply_order policy plans) (augment_list policy accounting (ctx_request ctx) plans finals).2) as H2.
  unfold reduce_list, augment_list in *. lia.
Qed.

Lemma eval_subject_count : sizeZ (fd_subjects decision) = sizeZ (pol_subjects policy).
Proof.
  rewrite (ev_subjects _ _ _ _ _ _ _ Hev). unfold sizeZ. rewrite length_zip_with.
  destruct (ev_length _ _ _ _ _ _ _ Hev) as [_ ->]. by rewrite Nat.min_id.
Qed.

Lemma intent_units_cons direction it l :
  intent_units direction (it :: l)
  = (if decide (ci_direction it = direction) then ci_units it else 0) + intent_units direction l.
Proof. unfold intent_units. rewrite filter_cons. case_decide; [by rewrite fmap_cons, sumZ_cons|lia]. Qed.

Lemma intent_units_nonneg direction l : Forall (λ it, 0 <= ci_units it) l → 0 <= intent_units direction l.
Proof.
  rewrite Forall_forall. intros Hl. apply sumZ_map_nonneg. intros it [_ Hit]%list_elem_of_filter. by apply Hl.
Qed.

Lemma add_intents l a r :
  0 <= a → 0 <= r → Forall (λ it, 0 <= ci_units it) l →
  a + intent_units CorrectionDirection.Augment l <= U64_MAX →
  r + intent_units CorrectionDirection.Reduce l <= U64_MAX →
  fold_result add_intent_units (a, r) l
  = Value (a + intent_units CorrectionDirection.Augment l, r + intent_units CorrectionDirection.Reduce l).
Proof.
  intros Ha Hr Hl. revert a r Ha Hr. induction Hl as [|it l Hit Hl IH]; intros a r Ha Hr; cbn [fold_result].
  { intros _ _. unfold intent_units. cbn. by rewrite !Z.add_0_r. }
  rewrite !intent_units_cons. intros H1 H2.
  pose proof (intent_units_nonneg CorrectionDirection.Augment l Hl).
  pose proof (intent_units_nonneg CorrectionDirection.Reduce l Hl).
  assert (add_intent_units (a, r) it
    = Value (a + (if decide (ci_direction it = CorrectionDirection.Augment) then ci_units it else 0),
             r + (if decide (ci_direction it = CorrectionDirection.Reduce) then ci_units it else 0))) as ->.
  { unfold add_intent_units. destruct (ci_direction it); repeat case_decide; try done;
      rewrite checked_add_fits by ulia; by rewrite Z.add_0_r. }
  cbn [result_bind]. rewrite IH by (repeat case_decide; lia). do 2 f_equal; lia.
Qed.

Lemma eval_intent_totals :
  fold_result add_intent_units (0, 0) (fd_intents decision)
  = Value (cor_augment_units (fd_correction decision), cor_reduce_units (fd_correction decision)).
Proof.
  destruct (eval_intent_units Hctx Hev) as [Ha Hr]. destruct (ev_correction _ _ _ _ _ _ _ Hev) as (_ & -> & -> & _).
  pose proof (eval_authorized Hctx Hev) as Hb. unfold whole_bound, kMaxServiceUnits, kMaxSubjects in Hb.
  rewrite add_intents; [by rewrite Ha, Hr|done|done| |rewrite Ha; ulia|rewrite Hr; ulia].
  apply Forall_forall. intros it Hit. destruct (eval_intent Hctx Hev it Hit) as (i & _ & _ & _ & _ & Hpos & _). lia.
Qed.
End evaluation.

(** ** Their effect is the announced one *)

Section apply.
  Context (policy : FairnessPolicy).

(** A state whose window can be applied to the entry its subject has. *)
Definition applicable (entries : list SubjectAccounting) (st : SubjectFairnessState) : Prop :=
  sf_has_authority st = true →
  (∃ subject, find_subject policy (sf_id st) = Some subject ∧ subj_generation subject = sf_generation st)
  ∧ ∃ e, window_entry policy entries st e.

Lemma window_entry_frame entries entries' st e :
  entry_of entries' (sf_id st) = entry_of entries (sf_id st) →
  window_entry policy entries st e → window_entry policy entries' st e.
Proof. unfold window_entry. by intros ->. Qed.

Lemma apply_states_value entries states :
  NoDup (sf_id <$> states) → Forall (applicable entries) states →
  ∃ entries', fold_result (apply_state policy) entries states = Value entries'
    ∧ (∀ st, st ∈ states → sf_has_authority st = true →
         ∃ e, entry_of entries' (sf_id st) = Some e ∧ window_entry policy entries st e)
    ∧ (∀ id, id ∉ sf_id <$> states → entry_of entries' id = entry_of entries id).
Proof.
  revert entries. induction states as [|st states IH]; intros entries Hnd Hall; cbn [fold_result].
  { exists entries. split_and!; [done| |done]. by intros st ?%elem_of_nil. }
  rewrite fmap_cons in Hnd. apply NoDup_cons in Hnd as [Hst Hnd]. apply Forall_cons in Hall as [H1 Hall].
  assert (∃ mid, apply_state policy entries st = Value mid
    ∧ (sf_has_authority st = true → ∃ e, entry_of mid (sf_id st) = Some e ∧ window_entry policy entries st e)
    ∧ (∀ id, id <> sf_id st → entry_of mid id = entry_of entries id)) as (mid & -> & Hmid & Hothers).
  { destruct (sf_has_authority st) eqn:Ea.
    - destruct (H1 Ea) as [Hs [e He]]. exists (store_entry e entries). pose proof (window_entry_id _ _ _ _ He) as Hid.
      split_and!; [apply apply_state_value; right; eauto| |].
      + intros _. exists e. by rewrite store_entry_lookup, Hid, Z.eqb_refl.
      + intros id Hne. rewrite store_entry_lookup, Hid. by destruct (Z.eqb_spec (sf_id st) id) as [<-|].
    - exists entries. split_and!; [apply apply_state_value; by left|done|done]. }
  cbn [result_bind]. destruct (IH mid Hnd) as (entries' & -> & Hin & Hout).
  { apply Forall_forall. intros x Hx Ha. rewrite Forall_forall in Hall. destruct (Hall x Hx Ha) as [? [e He]].
    split; [done|]. exists e. eapply window_entry_frame; [|done]. apply Hothers. intros E. apply Hst.
    rewrite <-E. by apply list_elem_of_fmap_2. }
  exists entries'. split; [done|]. split.
  - intros x Hx Ha. apply elem_of_cons in Hx as [->|Hx].
    + destruct (Hmid Ha) as (e & He & Hw). exists e. split; [by rewrite Hout|done].
    + destruct (Hin x Hx Ha) as (e & He & Hw). exists e. split; [done|]. eapply window_entry_frame; [|done].
      symmetry. apply Hothers. intros E. apply Hst. rewrite <-E. by apply list_elem_of_fmap_2.
  - intros id Hid. rewrite fmap_cons in Hid. rewrite Hout, Hothers; [done|set_solver..].
Qed.
End apply.

(** Room for one more window in the counters of the ledger. *)
Record ledger_room (a : FairnessAccounting) : Prop := {
  lr_generation : acc_generation a < U64_MAX;
  lr_counters : Forall (λ e, sa_windows_observed e < U64_MAX ∧ sa_total_served_units e <= 2 ^ 62) (acc_subjects a);
  lr_discarded : Forall (λ e, sa_discarded_deficit e <= 2 ^ 62 ∧ sa_discarded_surplus e <= 2 ^ 62) (acc_subjects a) }.

(** The entry a state announces: carry, streaks and one more window. *)
Definition announced (st : SubjectFairnessState) (before : option SubjectAccounting) (e : SubjectAccounting) : Prop :=
  sa_cumulative_deficit e = sf_cumulative_deficit_after st
  ∧ sa_cumulative_surplus e = sf_cumulative_surplus_after st
  ∧ sa_unserved_streak e = sf_unserved_streak st ∧ sa_below_floor_streak e = sf_below_floor_streak st
  ∧ sa_windows_observed e = match before with Some b => sa_windows_observed b | None => 0 end + 1
  ∧ sa_total_served_units e
    = match before with Some b => sa_total_served_units b | None => 0 end + sf_served_units st.

Lemma state_ids policy l finals :
  length finals = length l → sf_id <$> zip_with (subject_state policy) l finals = subj_id <$> l.
Proof.
  revert finals. induction l as [|s l IH]; intros [|f fs] Hl; try done. cbn [zip_with]. rewrite !fmap_cons, IH by (simpl in Hl; lia).
  f_equal. unfold subject_state. by destruct (applied_modifier _ _).
Qed.

Section governor.
  Context {S : Type} `{Backend S}.
  Implicit Types (g : Governor S).

Lemma evaluate_value rq g d :
  evaluate rq g = Value d →
  gv_stopping g = false ∧ ∃ d0, evaluate_fairness (evaluation_context g rq) = Value d0
    ∧ d = set_decision_governor (gv_incarnation g) d0.
Proof.
  unfold evaluate. destruct (gv_stopping g); [done|]. intros H0. apply result_bind_value in H0 as (d0 & E & H0).
  apply (inj Value) in H0 as <-. eauto.
Qed.

Lemma decision_digest_governor i d : decision_digest (set_decision_governor i d) = decision_digest d.
Proof. reflexivity. Qed.

Lemma incarnation_eqb_refl i : incarnation_eqb i i = true.
Proof. by apply incarnation_eqb_eq. Qed.

Section evaluated.
  Context {g : Governor S} {rq : EvaluationRequest} {d : FairnessDecision}.
  Hypothesis Hctx : context_ok (evaluation_context g rq) (gv_policy g) (gv_accounting g).
  Hypothesis Hrun : evaluate rq g = Value d.

(** A decision just taken is refused only for the window it names. *)
Lemma check_evaluated :
  check_decision d g = Value tt ↔
  rq_window rq <> 0 ∧ rq_window_generation rq <> 0
  ∧ (acc_last_window (gv_accounting g) <> 0 → acc_last_window (gv_accounting g) < rq_window rq).
Proof.
  destruct (evaluate_value _ _ _ Hrun) as (Hstop & d0 & E0 & ->).
  destruct (decision_evaluation Hctx d0 E0) as (dist & plans & finals & Hev).
  pose proof (eval_intent_totals Hctx Hev) as Ht. pose proof (eval_intent_count Hctx Hev) as Hn.
  pose proof (eval_subject_count Hev) as Hs. pose proof (ev_digest _ _ _ _ _ _ _ Hev) as Hdig.
  pose proof (ev_authority _ _ _ _ _ _ _ Hev) as Ea.
  destruct (ev_correction _ _ _ _ _ _ _ Hev) as (_ & Ha & Hr & _).
  unfold check_decision. rewrite Hstop, decision_digest_governor. unfold set_decision_governor, set_governor.
  cbn [fd_authority fd_subjects fd_content_digest fd_correction fd_intents av_governor av_epoch av_policy_id
    av_policy_generation av_accounting_generation av_window av_window_generation].
  rewrite Ea, Hs, Ht, <-Hdig, incarnation_eqb_refl.
  unfold request_authority, evaluation_context.
  cbn [ctx_request ctx_current_epoch av_epoch av_policy_id av_policy_generation av_accounting_generation
    av_window av_window_generation result_bind].
  rewrite !Z.eqb_refl, Ha, Hr, !Z.eqb_refl. cbn [negb orb].
  unfold valid. autorewrite with guards.
  rewrite andb_false_iff, negb_false_iff, Z.eqb_eq, Z.leb_gt. split.
  - intros ([H1 H2] & H3 & _). split_and!; [done..|]. intros H4. by destruct H3.
  - intros (H1 & H2 & H3). split_and!; try done.
    destruct (decide (acc_last_window (gv_accounting g) = 0)); [by left|right; auto].
Qed.

Lemma find_subject_at i : (i < length (pol_subjects (gv_policy g)))%nat →
  find_subject (gv_policy g) (subj_id (subject_at (gv_policy g) i)) = Some (subject_at (gv_policy g) i).
Proof.
  intros [s Hs]%lookup_lt_is_Some_2. rewrite (subject_at_lookup _ _ _ Hs).
  apply find_key; [apply (pe_subject_ids _ (co_evaluable _ _ _ Hctx))|by eapply list_elem_of_lookup_2].
Qed.

(** Every state of the decision applies to the ledger, and to what it announces. *)
Lemma evaluated_applicable st :
  ledger_room (gv_accounting g) → st ∈ fd_subjects d → sf_has_authority st = true →
  let entries := acc_subjects (gv_accounting g) in
  (∃ subject, find_subject (gv_policy g) (sf_id st) = Some subject ∧ subj_generation subject = sf_generation st)
  ∧ (∃ e, window_entry (gv_policy g) entries st e)
  ∧ (∀ e, window_entry (gv_policy g) entries st e → announced st (entry_of entries (sf_id st)) e).
Proof.
  intros Hroom Hin Hauth entries.
  destruct (evaluate_value _ _ _ Hrun) as (Hstop & d0 & E0 & ->).
  destruct (decision_evaluation Hctx d0 E0) as (dist & plans & finals & Hev). change (st ∈ fd_subjects d0) in Hin.
  destruct (eval_state_elem Hev st Hin) as (i & Hi & Est). pose proof (eval_state_of Hctx Hev i Hi) as Hst.
  rewrite <-Est in Hst. destruct Hst as [[Eid Egen] _ Eauth Eent Eserved _ _ _ _ _ Eun Ebe _].
  rewrite Hauth in Eauth. symmetry in Eauth.
  destruct (eval_authorised Hev i Hi Eauth) as (e & o & Ee & _ & Ho & _ & Has).
  assert (sf_cumulative_deficit_after st = co_cumulative_deficit (sp_carry (plan_at plans i))
    ∧ sf_cumulative_surplus_after st = co_cumulative_surplus (sp_carry (plan_at plans i))) as [Ecd Ecs].
  { rewrite Est. destruct (eval_final Hev i Hi) as (_ & _ & _ & _ & _ & _ & _ & _ & _ & _ & _ & _ & _ & _ & _ & <- & _).
    unfold subject_state. by destruct (applied_modifier _ _). }
  destruct (eval_plan_bounded Hctx Hev i Hi) as (B1 & B2 & B3 & B4). change (2 ^ 62) with 4611686018427387904 in *.
  split; [exists (subject_at (gv_policy g) i); rewrite Eid, Egen; split; [by apply find_subject_at|done]|].
  set (before := default (created_entry (sf_id st) (sf_generation st)) (entry_of entries (sf_id st))).
  assert (apply_window_carry before (window_net (sf_entitlement_units st) (sf_served_units st))
    (pol_max_carry_units (gv_policy g)) = Some (sp_carry (plan_at plans i))) as Hcarry.
  { rewrite <-(ad_carry _ _ _ _ _ _ _ _ Has). unfold window_net. rewrite Eent, Eserved, !to_i64_small by ulia.
    destruct (ad_entitlement _ _ _ _ _ _ _ _ Has) as [-> _]. rewrite (ad_served _ _ _ _ _ _ _ _ Has).
    unfold before. rewrite Eid. change (entry_of entries) with (accounting_find (gv_accounting g)).
    by destruct (accounting_find _ _). }
  assert (u64 (sa_windows_observed before) ∧ sa_windows_observed before < U64_MAX
    ∧ u64 (sa_total_served_units before) ∧ sa_total_served_units before <= 4611686018427387904) as (C1 & C2 & C3 & C4).
  { unfold before. destruct (entry_of entries (sf_id st)) as [x|] eqn:Ex; cbn [default from_option].
    - apply entry_of_some in Ex as [Hx _]. destruct Hroom as [_ Hr _]. rewrite Forall_forall in Hr. specialize (Hr x Hx).
      pose proof (lo_entries _ (co_ledger _ _ _ Hctx)) as Hl. rewrite Forall_forall in Hl. destruct (Hl x Hx) as [[] _ _ _].
      change (2 ^ 62) with 4611686018427387904 in Hr. destruct Hr. by split_and!.
    - unfold created_entry. cbn. ulia. }
  split.
  - eexists (mk_subject_accounting _ _ _ _ _ _ _ _ (sa_windows_observed before + 1)
      (sa_total_served_units before + sf_served_units st) _ _).
    exists (sp_carry (plan_at plans i)). fold before. cbn [sa_windows_observed sa_total_served_units].
    split_and!; [exact Hcarry|apply checked_add_fits; ulia|apply checked_add_fits; ulia|reflexivity].
  - intros x (carry & Hc & Hw & Ht & Hx). fold before in Hc, Hw, Ht, Hx.
    rewrite Hcarry in Hc. injection Hc as <-.
    apply checked_add_some in Hw as [Ew _]; [|ulia..]. apply checked_add_some in Ht as [Et _]; [|ulia..].
    assert (match entry_of entries (sf_id st) with Some b => sa_windows_observed b | None => 0 end
      = sa_windows_observed before
      ∧ match entry_of entries (sf_id st) with Some b => sa_total_served_units b | None => 0 end
      = sa_total_served_units before) as [Eb1 Eb2].
    { unfold before. by destruct (entry_of entries (sf_id st)). }
    unfold announced. rewrite Eb1, Eb2, Ecd, Ecs. split_and!; [by rewrite Hx..|exact Ew|exact Et].
Qed.

Lemma evaluated_ids : NoDup (sf_id <$> fd_subjects d).
Proof.
  destruct (evaluate_value _ _ _ Hrun) as (Hstop & d0 & E0 & ->).
  destruct (decision_evaluation Hctx d0 E0) as (dist & plans & finals & Hev).
  change (NoDup (sf_id <$> fd_subjects d0)). rewrite (ev_subjects _ _ _ _ _ _ _ Hev).
  destruct (ev_length _ _ _ _ _ _ _ Hev) as [_ Hl].
  rewrite state_ids by done. apply (pe_subject_ids _ (co_evaluable _ _ _ Hctx)).
Qed.

Lemma evaluated_bounded : u64 (rq_window rq) → u64 (rq_window_generation rq) → decision_bounded d.
Proof.
  intros Hw Hg. destruct (evaluate_value _ _ _ Hrun) as (_ & d0 & E0 & ->).
  destruct (decision_evaluation Hctx d0 E0) as (dist & plans & finals & Hev).
  destruct (evaluation_bounded Hctx Hev Hw Hg) as [[] ?]. by split; [constructor|].
Qed.

Lemma evaluated_window :
  av_window (fd_authority d) = rq_window rq ∧ av_window_generation (fd_authority d) = rq_window_generation rq.
Proof.
  destruct (evaluate_value _ _ _ Hrun) as (_ & d0 & E0 & ->).
  destruct (decision_evaluation Hctx d0 E0) as (dist & plans & finals & Hev).
  cbn. by rewrite (ev_authority _ _ _ _ _ _ _ Hev).
Qed.

(** The ledger after a decision just taken holds what its states announce. *)
Lemma apply_evaluated :
  ledger_room (gv_accounting g) → u64 (rq_window rq) → u64 (rq_window_generation rq) →
  ∃ after, apply_decision d g = Value after
    ∧ ∀ st, st ∈ fd_subjects d → sf_has_authority st = true →
        ∃ e, entry_of (acc_subjects after) (sf_id st) = Some e
          ∧ announced st (entry_of (acc_subjects (gv_accounting g)) (sf_id st)) e.
Proof.
  intros Hroom Hw Hg. destruct (evaluated_bounded Hw Hg) as [[Dw Dg Ds Di] _].
  destruct (apply_states_value (gv_policy g) (acc_subjects (gv_accounting g)) (fd_subjects d) evaluated_ids)
    as (entries & Hf & Hin & _).
  { apply Forall_forall. intros st Hst Ha. by destruct (evaluated_applicable st Hroom Hst Ha) as (? & ? & _). }
  unfold apply_decision. rewrite Hf. cbn [result_bind].
  pose proof (act_generation _ (lo_typed _ (co_ledger _ _ _ Hctx))) as Hgen. pose proof Hroom as [Hlt _ _].
  rewrite checked_add_fits by ulia. eexists. split; [reflexivity|]. cbn [acc_subjects].
  intros st Hst Ha. destruct (Hin st Hst Ha) as (e & He & Hwe).
  pose proof (ina_entries _ _ (apply_intents_applied _ _ entries Dw Di) (sf_id st)) as Hi. rewrite He in Hi.
  destruct (entry_of (foldl _ entries _) (sf_id st)) as [e'|]; [|done]. exists e'. split; [done|].
  destruct (evaluated_applicable st Hroom Hst Ha) as (_ & _ & Han).
  specialize (Han e Hwe). cbn in Hi. unfold uncorrected in Hi. injection Hi as H1 H2 H3 H4 H5 H6 H7 H8 H9 H10.
  unfold announced in *. by rewrite H3, H4, H7, H8, H9, H10.
Qed.
End evaluated.
End governor.
