(* ===== verification/GovernorInv.v ===== *)
(** The states a governor can reach: what every operation preserves, what only
    grows, and the bounds on staged evidence. *)
From S2P Require Import Prelude Status Core U128 Bytes Policy PolicyValid Accounting Evidence Outcome Codec Distributor Engine Planner EngineSpec Store Governor GovernorSpec.
#[local] Open Scope string_scope.
#[local] Open Scope list_scope.
#[local] Open Scope Z_scope.

(** ** Eviction *)

Section evict.
  Context {K A : Type} `{Countable K} (lt : K → K → bool).
  Implicit Types (m : gmap K A).

Lemma evict_while_subseteq fuel limit m : evict_while lt fuel limit m ⊆ m.
Proof.
  revert m. induction fuel as [|fuel IH]; intros m; cbn [evict_while]; [done|].
  destruct (Z.of_nat (size m) >? limit); [|done]. destruct (sort_by lt (map_to_list m).*1) as [|k l]; [done|].
  etrans; [apply IH|]. apply delete_subseteq.
Qed.

Lemma evict_while_size fuel limit m :
  0 <= limit → (size m <= fuel)%nat → Z.of_nat (size (evict_while lt fuel limit m)) <= limit.
Proof.
  intros Hl. revert m. induction fuel as [|fuel IH]; intros m Hf; cbn [evict_while]; [lia|].
  destruct (Z.of_nat (size m) >? limit) eqn:E; [apply gtb_true_lt in E|by apply gtb_false_le in E].
  destruct (sort_by lt (map_to_list m).*1) as [|k l] eqn:Es.
  - pose proof (sort_by_length lt (map_to_list m).*1) as Hlen. rewrite Es, length_fmap, length_map_to_list in Hlen.
    simpl in Hlen. lia.
  - apply IH. assert (k ∈ (map_to_list m).*1) as Hk by (rewrite <-(elem_of_sort_by lt), Es; left).
    apply list_elem_of_fmap in Hk as ([k' x] & -> & Hk). apply elem_of_map_to_list in Hk.
    rewrite map_size_delete_Some by eauto. lia.
Qed.

Lemma evict_subseteq limit m : evict lt limit m ⊆ m.
Proof. apply evict_while_subseteq. Qed.

Lemma evict_size limit m : 0 <= limit → Z.of_nat (size (evict lt limit m)) <= limit.
Proof. intros H1. by apply evict_while_size. Qed.

Lemma insert_size_le k x m : (size (<[k:=x]> m) <= size m + 1)%nat.
Proof. rewrite map_size_insert. destruct (m !! k); cbn; lia. Qed.

Lemma evict_small limit m : Z.of_nat (size m) <= limit → evict lt limit m = m.
Proof.
  intros Hs. unfold evict. destruct (size m) as [|n] eqn:E; [done|]. cbn [evict_while].
  rewrite E. rewrite (proj2 (gtb_false_le _ _) Hs). done.
Qed.
End evict.

Section governor.
  Context {S : Type} `{Backend S}.
  Implicit Types (g : Governor S).

Notation staged_limit g := (lim_max_staged_snapshots (cfg_limits (gv_config g))).

(** ** The state invariant *)

Record governor_ok g : Prop := {
  go_typed : policy_typed (gv_policy g);
  go_wf : policy_wf (gv_policy g);
  go_epoch : u64 (gv_epoch g);
  go_incarnation : u64 (inc_boot (gv_incarnation g)) ∧ u64 (inc_ordinal (gv_incarnation g));
  go_ledger : ledger_sound (gv_accounting g);
  go_tags : acc_policy_generation (gv_accounting g) = pol_generation (gv_policy g)
    ∧ acc_epoch (gv_accounting g) = gv_epoch g;
  go_staged : map_Forall (λ w e, evidence_typed e ∧ evidence_wf e ∧ ev_window e = w
    ∧ ev_epoch e = gv_epoch g) (gv_staged g);
  go_limit : 0 <= staged_limit g;
  go_sizes : Z.of_nat (size (gv_staged g)) <= staged_limit g
    ∧ Z.of_nat (size (gv_ingested g)) <= staged_limit g * 4
    ∧ Z.of_nat (size (gv_publisher_sequences g)) <= 1024 }.

(** The invariant reads nothing a store holds. *)
Lemma governor_ok_volatile g g' : volatile g' = volatile g → governor_ok g → governor_ok g'.
Proof.
  unfold volatile, with_store, with_record_generations. cbn. intros E. injection E as E1 E2 E3 E4 E5 E6 E7 E8 E9 E10.
  intros [G1 G2 G3 G4 G5 G6 G7 G8 G9].
  constructor; rewrite ?E1, ?E2, ?E3, ?E4, ?E5, ?E7, ?E8, ?E9; done.
Qed.

Lemma retag_sound generation epoch a :
  u64 generation → u64 epoch → ledger_sound a → ledger_sound (retag generation epoch a).
Proof. intros Hg He [[] Hn Hs]. constructor; [by constructor|done..]. Qed.

Lemma clear_staged_ok g : governor_ok g → governor_ok (clear_staged g).
Proof.
  intros [G1 G2 G3 G4 G5 G6 G7 G8 G9]. constructor; try done. cbn. rewrite !map_size_empty. lia.
Qed.

(** Installing a policy and an epoch over cleared or matching evidence. *)
Lemma with_policy_ok policy epoch g :
  governor_ok g → policy_typed policy → policy_wf policy → u64 epoch →
  (gv_staged g = ∅ ∨ epoch = gv_epoch g) →
  governor_ok (with_accounting (retag (pol_generation policy) epoch (gv_accounting g)) (with_policy policy epoch g)).
Proof.
  intros [G1 G2 G3 G4 G5 G6 G7 G8 G9] T W He Hs. constructor; cbn; try done.
  - destruct T. by apply retag_sound.
  - destruct Hs as [->| ->]; [apply map_Forall_empty|done].
Qed.

Lemma commit_step_ok (f : Governor S → Result unit * Governor S) g :
  (∀ g, volatile (f g).2 = volatile g) → governor_ok g → governor_ok (f g).2.
Proof. intros Hf Hg. by apply (governor_ok_volatile g). Qed.

(** *** Ingestion *)

(** The snapshot is valid, of the live epoch, within the bound, and for a window
    that is not yet committed. *)
Definition acceptable g (e : EvidenceSnapshot) : Prop :=
  evidence_wf e ∧ gv_stopping g = false ∧ ev_epoch e = gv_epoch g
  ∧ sizeZ (ev_observations e) <= lim_max_observations_per_snapshot (cfg_limits (gv_config g))
  ∧ (acc_last_window (gv_accounting g) = 0 ∨ acc_last_window (gv_accounting g) < ev_window e).

Definition known_digest g (e : EvidenceSnapshot) : option Z := gv_ingested g !! (ev_id e, ev_generation e).

(** Nothing of its identity is known, its publisher did not go backwards, and it
    supersedes what is staged for its window. *)
Definition fresh g (e : EvidenceSnapshot) : Prop :=
  known_digest g e = None
  ∧ (∀ seen, gv_publisher_sequences g !! publisher_key (ev_producer e) = Some seen → seen <= ev_sequence e)
  ∧ (∀ staged, gv_staged g !! ev_window e = Some staged → ev_generation staged < ev_generation e).

Lemma ingest_cases e g :
  evidence_typed e →
  (acceptable g e ∧ fresh g e
   ∧ ingest_evidence e g
     = (Value (ingest_result Disposition.Staged e), stage_snapshot e (evidence_digest e) g))
  ∨ (acceptable g e ∧ known_digest g e = Some (evidence_digest e)
     ∧ ingest_evidence e g = (Value (ingest_result Disposition.DuplicateIgnored e), g))
  ∨ ((∃ st, ingest_evidence e g = (Failure st, g))
     ∧ ¬ (acceptable g e ∧ (fresh g e ∨ known_digest g e = Some (evidence_digest e)))).
Proof.
  intros Te. unfold ingest_evidence, acceptable, fresh, known_digest. pose proof (validate_evidence_iff e Te) as Hv.
  destruct (validate_evidence e) as [[]|st]; [|right; right; split; [eauto|intros [[W _] _]; by apply Hv in W]].
  destruct (gv_stopping g); [right; right; split; [by eexists|naive_solver]|].
  destruct (Z.eqb_spec (ev_epoch e) (gv_epoch g)) as [He|He]; cbn [negb]; [|right; right; split; [by eexists|naive_solver]].
  destruct (sizeZ (ev_observations e) >? _) eqn:Es; [apply gtb_true_lt in Es|apply gtb_false_le in Es];
    [right; right; split; [by eexists|naive_solver lia]|].
  destruct (valid (acc_last_window (gv_accounting g)) && _) eqn:Ew.
  { apply andb_true_iff in Ew as [Hn Hle]. unfold valid in Hn. reflect_bools.
    right; right; split; [by eexists|naive_solver lia]. }
  assert (acc_last_window (gv_accounting g) = 0 ∨ acc_last_window (gv_accounting g) < ev_window e) as Hw.
  { apply andb_false_iff in Ew as [Hn|Hn]; unfold valid in *; reflect_bools; [by left|by right]. }
  pose proof (proj1 Hv eq_refl) as W.
  destruct (gv_ingested g !! (ev_id e, ev_generation e)) as [known|] eqn:Ek.
  { destruct (Z.eqb_spec known (evidence_digest e)) as [->|Hne]; cbn [negb].
    - right; left. done.
    - right; right. split; [by eexists|]. intros [_ [[? _]|[= ?]]]; done. }
  destruct (gv_publisher_sequences g !! publisher_key (ev_producer e)) as [seen|] eqn:Ep;
    [destruct (Z.ltb_spec (ev_sequence e) seen)|].
  { right; right. split; [by eexists|]. intros [_ [(_ & Hs & _)|?]]; [|done]. specialize (Hs seen eq_refl). lia. }
  all: destruct (gv_staged g !! ev_window e) as [staged|] eqn:Est;
    [destruct (Z.leb_spec (ev_generation e) (ev_generation staged))|];
    [right; right; split; [by eexists|]; intros [_ [(_ & _ & Hs)|?]]; [|done]; specialize (Hs staged eq_refl); lia|..];
    left; (split; [done|split; [|done]]); (split; [done|]); split; intros x Hx; simplify_eq; lia.
Qed.

Lemma stage_ok e g : evidence_typed e → acceptable g e → governor_ok g →
  governor_ok (stage_snapshot e (evidence_digest e) g).
Proof.
  intros Te (W & _ & He & _) [G1 G2 G3 G4 G5 G6 G7 G8 (G9 & G10 & G11)].
  constructor; try done; cbn [stage_snapshot with_evidence gv_staged gv_ingested gv_publisher_sequences gv_config gv_epoch].
  - intros w x Hx. eapply lookup_weaken in Hx; [|apply evict_subseteq].
    apply lookup_insert_Some in Hx as [[<- <-]|[_ Hx]]; [done|by apply G7].
  - split_and!; apply evict_size; lia.
Qed.

Lemma ingest_ok e g : evidence_typed e → governor_ok g → governor_ok (ingest_evidence e g).2.
Proof.
  intros Te Hg. destruct (ingest_cases e g Te) as [(Ha & _ & ->)|[(_ & _ & ->)|[[st ->] _]]]; [|done..].
  by apply stage_ok.
Qed.

(** *** Policies and epochs *)

(** Putting the policy, the epoch and the tags back after a failed commit. *)
Lemma volatile_back policy epoch g1 g2 :
  volatile g1 = volatile g2 →
  volatile (with_accounting (retag (pol_generation policy) epoch (gv_accounting g1)) (with_policy policy epoch g1))
  = volatile (with_accounting (retag (pol_generation policy) epoch (gv_accounting g2)) (with_policy policy epoch g2)).
Proof.
  unfold volatile, with_store, with_record_generations, with_policy, with_accounting. cbn.
  intros E. injection E as E1 E2 E3 E4 E5 E6 E7 E8 E9 E10. by rewrite E1, E3, E5, E6, E7, E8, E9, E10.
Qed.

(** What an operation may end in, seen past the store. *)
Lemma install_cases p g :
  volatile (install_policy p g).2 = volatile g ∧ (∃ st, (install_policy p g).1 = Failure st)
  ∨ (validate_policy p = Value tt ∧ gv_stopping g = false ∧ pol_id p = pol_id (gv_policy g)
     ∧ pol_generation (gv_policy g) < pol_generation p ∧ gv_epoch g <= pol_epoch p
     ∧ let cleared := if pol_epoch p >? gv_epoch g then clear_staged g else g in
       ((∃ st, (install_policy p g).1 = Failure st)
        ∧ volatile (install_policy p g).2
          = volatile (with_accounting (retag (pol_generation (gv_policy g)) (gv_epoch g) (gv_accounting g)) cleared)
        ∨ volatile (install_policy p g).2
          = volatile (with_accounting (retag (pol_generation p) (pol_epoch p) (gv_accounting g))
              (with_policy p (pol_epoch p) cleared)))).
Proof.
  unfold install_policy. destruct (validate_policy p) as [[]|st]; [|left; split; [done|by eexists]].
  destruct (gv_stopping g); [left; split; [done|by eexists]|].
  destruct (Z.eqb_spec (pol_id p) (pol_id (gv_policy g))); cbn [negb]; [|left; split; [done|by eexists]].
  destruct (Z.leb_spec (pol_generation p) (pol_generation (gv_policy g))); [left; split; [done|by eexists]|].
  destruct (Z.ltb_spec (pol_epoch p) (gv_epoch g)); [left; split; [done|by eexists]|].
  right. do 5 (split; [done|]).
  destruct (pol_epoch p >? gv_epoch g) eqn:E; [apply gtb_true_lt in E|apply gtb_false_le in E; assert (pol_epoch p = gv_epoch g) as Ee by lia];
  (match goal with |- context [commit_policy ?x] => pose proof (commit_policy_volatile x) as Hv;
     destruct (commit_policy x) as [[[]|st] g1] end;
   [right; rewrite commit_accounting_volatile; cbn [snd] in Hv; rewrite Hv; rewrite ?Ee; reflexivity
   |left; split; [by eexists|]; cbn [snd] in Hv |- *; rewrite (volatile_back _ _ g1 _ Hv); reflexivity]).
Qed.

Lemma advance_cases epoch g :
  volatile (advance_epoch epoch g).2 = volatile g ∧ (∃ st, (advance_epoch epoch g).1 = Failure st)
  ∨ (gv_stopping g = false ∧ gv_epoch g < epoch
     ∧ let reset e := with_accounting (retag (acc_policy_generation (gv_accounting g)) e (gv_accounting g))
                        (with_policy (gv_policy g) e (clear_staged g)) in
       ((∃ st, (advance_epoch epoch g).1 = Failure st)
        ∧ volatile (advance_epoch epoch g).2 = volatile (reset (gv_epoch g))
        ∨ (advance_epoch epoch g).1 = Value tt ∧ volatile (advance_epoch epoch g).2 = volatile (reset epoch))).
Proof.
  unfold advance_epoch. destruct (gv_stopping g); [left; split; [done|by eexists]|].
  destruct (negb (valid epoch) || (epoch <=? gv_epoch g)) eqn:E; [left; split; [done|by eexists]|].
  right. apply orb_false_iff in E as [_ E]. apply Z.leb_gt in E. do 2 (split; [done|]). cbv zeta.
  match goal with |- context [commit_accounting ?x] => pose proof (commit_accounting_volatile x) as Hv;
    destruct (commit_accounting x) as [[[]|st] g1] end; cbn [snd fst] in *; [right; by rewrite Hv|].
  left. split; [by eexists|]. clear E. revert Hv.
  unfold volatile, with_store, with_record_generations, with_policy, with_accounting, clear_staged, with_evidence. cbn.
  intros Hv. injection Hv as E1 E2 E3 E4 E5 E6 E7 E8 E9 E10. by rewrite E1, E2, E3, E5, E6, E7, E8, E9, E10.
Qed.

Lemma with_accounting_ok a g :
  ledger_sound a → acc_policy_generation a = pol_generation (gv_policy g) → acc_epoch a = gv_epoch g →
  governor_ok g → governor_ok (with_accounting a g).
Proof. intros Ha H1 H2 [G1 G2 G3 G4 G5 G6 G7 G8 G9]. by constructor. Qed.

Lemma retag_same g : governor_ok g →
  retag (pol_generation (gv_policy g)) (gv_epoch g) (gv_accounting g) = gv_accounting g.
Proof. intros [_ _ _ _ _ [<- <-] _ _ _]. by destruct (gv_accounting g). Qed.

Lemma install_ok p g : policy_typed p → governor_ok g → governor_ok (install_policy p g).2.
Proof.
  intros T Hg. destruct (install_cases p g) as [[Hv _]|(Hval & _ & _ & _ & Hle & Hc)].
  { by apply (governor_ok_volatile g). }
  pose proof (proj1 (validate_policy_iff p T) Hval) as W. cbv zeta in Hc.
  set (cleared := if pol_epoch p >? gv_epoch g then clear_staged g else g) in *.
  assert (governor_ok cleared ∧ gv_accounting cleared = gv_accounting g ∧ gv_policy cleared = gv_policy g
    ∧ gv_epoch cleared = gv_epoch g ∧ (gv_staged cleared = ∅ ∨ pol_epoch p = gv_epoch cleared))
    as (Hok & Ea & Ep & Ee & Hs).
  { unfold cleared. destruct (pol_epoch p >? gv_epoch g) eqn:E.
    - split_and!; [by apply clear_staged_ok|done..|by left].
    - apply gtb_false_le in E. split_and!; [done..|]. right. lia. }
  pose proof (go_ledger _ Hg) as Hl. pose proof (go_tags _ Hg) as [Ht1 Ht2].
  destruct Hc as [[_ Hv]|Hv]; eapply governor_ok_volatile; try exact Hv.
  - rewrite (retag_same g Hg). apply with_accounting_ok; [done|by rewrite Ep|by rewrite Ee|done].
  - rewrite <-Ea. apply with_policy_ok; try done. by apply (pt_epoch _ T).
Qed.

Lemma advance_ok epoch g : u64 epoch → governor_ok g → governor_ok (advance_epoch epoch g).2.
Proof.
  intros He Hg. pose proof (go_tags _ Hg) as [Ht _].
  assert (∀ e, u64 e → governor_ok (with_accounting (retag (acc_policy_generation (gv_accounting g)) e (gv_accounting g))
    (with_policy (gv_policy g) e (clear_staged g)))) as Hr.
  { intros e Hu. rewrite Ht. apply (with_policy_ok (gv_policy g) e (clear_staged g)); [by apply clear_staged_ok| | |done|by left].
    - apply (go_typed _ Hg).
    - apply (go_wf _ Hg). }
  destruct (advance_cases epoch g) as [[Hv _]|(_ & _ & Hc)]; [by apply (governor_ok_volatile g)|]. cbv zeta in Hc.
  destruct Hc as [[_ Hv]|[_ Hv]]; (eapply governor_ok_volatile; [exact Hv|]); apply Hr; [apply (go_epoch _ Hg)|done].
Qed.

(** *** Commits *)

(** Refused, or applied whole. *)
Lemma commit_cases d g :
  volatile (commit_decision d g).2 = volatile g ∧ (∃ st, (commit_decision d g).1 = Failure st)
  ∨ (∃ after, check_decision d g = Value tt ∧ apply_decision d g = Value after
     ∧ (commit_decision d g).1 = Value tt
     ∧ volatile (commit_decision d g).2 = volatile (with_accounting after g)).
Proof.
  unfold commit_decision. destruct (check_decision d g) as [[]|st]; [|left; split; [done|by eexists]].
  destruct (apply_decision d g) as [after|st]; [|left; split; [done|by eexists]].
  pose proof (commit_accounting_volatile (with_accounting after g)) as Hv.
  destruct (commit_accounting _) as [[[]|st] g1]; cbn [snd fst] in *; [right; by exists after|].
  left. split; [|by eexists]. revert Hv.
  unfold volatile, with_store, with_record_generations, with_accounting. cbn.
  intros Hv. injection Hv as E1 E2 E3 E4 E5 E6 E7 E8 E9 E10. rewrite E1, E2, E4, E5, E6, E7, E8, E9, E10. by destruct g.
Qed.

(** What the checks establish. *)
Lemma check_decision_facts d g :
  check_decision d g = Value tt →
  let a := fd_authority d in
  gv_stopping g = false ∧ av_governor a = gv_incarnation g ∧ av_epoch a = gv_epoch g
  ∧ av_policy_id a = pol_id (gv_policy g) ∧ av_policy_generation a = pol_generation (gv_policy g)
  ∧ av_accounting_generation a = acc_generation (gv_accounting g)
  ∧ av_window a <> 0 ∧ av_window_generation a <> 0
  ∧ (acc_last_window (gv_accounting g) = 0 ∨ acc_last_window (gv_accounting g) < av_window a)
  ∧ fd_content_digest d = decision_digest d
  ∧ cor_augment_units (fd_correction d) = cor_reduce_units (fd_correction d).
Proof.
  unfold check_decision, valid. autorewrite with guards. intros Hc. destruct_and!.
  rewrite andb_false_iff, negb_false_iff, Z.eqb_eq, Z.leb_gt in *.
  match goal with Hi : incarnation_eqb _ _ = true |- _ => apply incarnation_eqb_eq in Hi end.
  by split_and!.
Qed.

Lemma apply_decision_ok d g after :
  governor_ok g → decision_typed d → apply_decision d g = Value after →
  decision_applied (gv_policy g) (gv_epoch g) (gv_incarnation g) (gv_accounting g) d after
  ∧ governor_ok (with_accounting after g).
Proof.
  intros Hg Hd Ha. pose proof Hg as [G1 G2 G3 [G4 _] G5 G6 G7 G8 G9].
  pose proof (apply_decision_applied d g after G1 G2 G3 G4 G5 Hd Ha) as Hap. split; [done|].
  destruct Hap as [_ _ (_ & T1 & T2 & _) _ Hs _ _ _ _]. by apply with_accounting_ok.
Qed.

Lemma commit_ok d g : decision_typed d → governor_ok g → governor_ok (commit_decision d g).2.
Proof.
  intros Hd Hg. destruct (commit_cases d g) as [[Hv _]|(after & _ & Ha & _ & Hv)].
  - by apply (governor_ok_volatile g).
  - eapply governor_ok_volatile; [exact Hv|]. by apply (apply_decision_ok d g after).
Qed.

Lemma shutdown_ok g : governor_ok g → governor_ok (shutdown g).2.
Proof.
  intros Hg. unfold shutdown. destruct (gv_stopping g); [done|]. destruct Hg as [G1 G2 G3 G4 G5 G6 G7 G8 G9].
  constructor; try done. cbn. rewrite !map_size_empty. lia.
Qed.
End governor.
