(* ===== verification/GovernorReach.v ===== *)
(** Runs of a governor: its operations as a step relation, the invariant along
    every run, and what a run can only move forward. *)
From stdpp Require Import relations.
From S2P Require Import Prelude Status Core U128 Bytes Policy PolicyValid Accounting Evidence Outcome Codec CodecSpec Distributor Engine Planner EngineSpec Store Governor GovernorSpec GovernorEval GovernorInv.
#[local] Open Scope string_scope.
#[local] Open Scope list_scope.
#[local] Open Scope Z_scope.

Section governor.
  Context {S : Type} `{Backend S}.
  Implicit Types (g : Governor S).

(** One call of one operation, with any arguments of the operation's types.  The
    observers, [evaluate] among them, return no
    governor: they are no step. *)
Inductive step : Governor S → Governor S → Prop :=
  | step_install p g : policy_typed p → step g (install_policy p g).2
  | step_advance epoch g : u64 epoch → step g (advance_epoch epoch g).2
  | step_ingest e g : evidence_typed e → step g (ingest_evidence e g).2
  | step_commit d g : decision_typed d → step g (commit_decision d g).2
  | step_clear g : step g (clear_staged g)
  | step_shutdown g : step g (shutdown g).2.

Lemma step_ok g g' : step g g' → governor_ok g → governor_ok g'.
Proof.
  intros []; [by apply install_ok|by apply advance_ok|by apply ingest_ok|by apply commit_ok
    |apply clear_staged_ok|apply shutdown_ok].
Qed.

Lemma run_ok g g' : rtc step g g' → governor_ok g → governor_ok g'.
Proof. induction 1; eauto using step_ok. Qed.

(** ** What only moves forward *)

Record advanced g g' : Prop := {
  adv_incarnation : gv_incarnation g' = gv_incarnation g;
  adv_config : gv_config g' = gv_config g;
  adv_stopping : gv_stopping g = true → gv_stopping g' = true ∧ gv_policy g' = gv_policy g
    ∧ gv_epoch g' = gv_epoch g ∧ gv_accounting g' = gv_accounting g;
  adv_epoch : gv_epoch g <= gv_epoch g';
  adv_policy : pol_id (gv_policy g') = pol_id (gv_policy g)
    ∧ pol_generation (gv_policy g) <= pol_generation (gv_policy g')
    ∧ (pol_generation (gv_policy g') = pol_generation (gv_policy g) → gv_policy g' = gv_policy g);
  adv_window : acc_last_window (gv_accounting g) <= acc_last_window (gv_accounting g');
  adv_generation : acc_generation (gv_accounting g) <= acc_generation (gv_accounting g');
  adv_ledger : acc_generation (gv_accounting g') = acc_generation (gv_accounting g) →
    acc_last_window (gv_accounting g') = acc_last_window (gv_accounting g)
    ∧ acc_subjects (gv_accounting g') = acc_subjects (gv_accounting g) }.

(** The order is read off what no store can touch. *)
Lemma advanced_volatile g g1 g2 : volatile g1 = volatile g2 → advanced g g2 → advanced g g1.
Proof.
  unfold volatile, with_store, with_record_generations. cbn. intros E. injection E as E1 E2 E3 E4 E5 E6 E7 E8 E9 E10.
  intros [A1 A2 A3 A4 A5 A6 A7 A8]. constructor; rewrite ?E1, ?E2, ?E3, ?E4, ?E5, ?E10; done.
Qed.

#[global] Instance advanced_preorder : PreOrder advanced.
Proof.
  split.
  - intros g. by constructor.
  - intros g1 g2 g3 [A1 A2 A3 A4 (A5 & A6 & A7) A8 A9 A10] [B1 B2 B3 B4 (B5 & B6 & B7) B8 B9 B10].
    constructor; [congruence|congruence| |lia| |lia|lia|].
    + intros Hs. destruct (A3 Hs) as (S1 & <- & <- & <-). by apply B3.
    + split_and!; [congruence|lia|]. intros E. rewrite B7, A7 by lia. done.
    + intros E. destruct B10 as [-> ->]; [lia|]. apply A10. lia.
Qed.

(** Keeping the policy, the epoch and the ledger up to its tags. *)
Lemma advanced_same g g' :
  gv_incarnation g' = gv_incarnation g → gv_config g' = gv_config g → gv_stopping g' = gv_stopping g →
  gv_policy g' = gv_policy g → gv_epoch g' = gv_epoch g → gv_accounting g' = gv_accounting g → advanced g g'.
Proof. intros E1 E2 E3 E4 E5 E6. constructor; rewrite ?E1, ?E2, ?E3, ?E4, ?E5, ?E6; done. Qed.

Lemma install_advanced p g : governor_ok g → advanced g (install_policy p g).2.
Proof.
  intros Hg. destruct (install_cases p g) as [[Hv _]|(_ & Hstop & Hid & Hgen & Hle & Hc)].
  { by apply (advanced_volatile g _ g). }
  cbv zeta in Hc. destruct Hc as [[_ Hv]|Hv]; (eapply advanced_volatile; [exact Hv|]).
  - rewrite (retag_same g Hg). apply advanced_same; by destruct (_ >? _).
  - constructor; cbn; try by destruct (_ >? _).
    + by rewrite Hstop.
    + split_and!; [done|lia|lia].
Qed.

Lemma advance_advanced epoch g : governor_ok g → advanced g (advance_epoch epoch g).2.
Proof.
  intros Hg. pose proof (go_tags _ Hg) as [Ht _]. destruct (advance_cases epoch g) as [[Hv _]|(Hstop & Hlt & Hc)].
  { by apply (advanced_volatile g _ g). }
  cbv zeta in Hc. rewrite Ht in Hc. destruct Hc as [[_ Hv]|[_ Hv]]; (eapply advanced_volatile; [exact Hv|]).
  - rewrite (retag_same g Hg). by apply advanced_same.
  - constructor; cbn; try done; [by rewrite Hstop|lia].
Qed.

Lemma ingest_advanced e g : evidence_typed e → advanced g (ingest_evidence e g).2.
Proof. intros Te. by destruct (ingest_cases e g Te) as [(_ & _ & ->)|[(_ & _ & ->)|[[st ->] _]]]. Qed.

Lemma commit_advanced d g : decision_typed d → governor_ok g → advanced g (commit_decision d g).2.
Proof.
  intros Hd Hg. destruct (commit_cases d g) as [[Hv _]|(after & Hcheck & Ha & _ & Hv)].
  { by apply (advanced_volatile g _ g). }
  eapply advanced_volatile; [exact Hv|].
  destruct (check_decision_facts d g Hcheck) as (Hstop & _ & _ & _ & _ & _ & _ & _ & Hw & _).
  destruct (apply_decision_ok d g after Hg Hd Ha) as [[Eg [Ew _] _ _ _ _ _ _ _] _].
  pose proof (db_window _ Hd) as Hu. constructor; cbn; try done.
  - by rewrite Hstop.
  - rewrite Ew. ulia.
  - lia.
  - lia.
Qed.

Lemma shutdown_advanced g : advanced g (shutdown g).2.
Proof.
  unfold shutdown. destruct (gv_stopping g) eqn:Hs; [done|]. by constructor.
Qed.

Lemma step_advanced g g' : step g g' → governor_ok g → advanced g g'.
Proof.
  intros [] Hg; [by apply install_advanced|by apply advance_advanced|by apply ingest_advanced
    |by apply commit_advanced|by apply advanced_same|apply shutdown_advanced].
Qed.

Lemma run_advanced g g' : rtc step g g' → governor_ok g → advanced g g'.
Proof.
  induction 1 as [|g1 g2 g3 Hs _ IH]; intros Hg; [done|].
  etrans; [by apply step_advanced|]. apply IH. by eapply step_ok.
Qed.

(** ** Readable ledgers *)

(** Whether the ledger could be read back is decided by commits alone. *)
Lemma volatile_accounting g g' : volatile g = volatile g' → gv_accounting g = gv_accounting g'.
Proof. unfold volatile, with_store, with_record_generations. cbn. by intros [= _ _ -> _ _ _ _ _ _ _]. Qed.

Lemma step_readable g g' : step g g' → governor_ok g → ledger_readable (gv_accounting g) →
  ledger_readable (gv_accounting g') ∨ ∃ d, g' = (commit_decision d g).2 ∧ ¬ decision_readable d.
Proof.
  intros [p g0 T|e g0 He|e g0 Te|d g0 Hd|g0|g0] Hg Hr.
  - left. destruct (install_cases p g0) as [[Hv _]|(_ & _ & _ & _ & _ & [[_ Hv]|Hv])];
      apply volatile_accounting in Hv; rewrite Hv; try done; by destruct (_ >? _).
  - left. destruct (advance_cases e g0) as [[Hv _]|(_ & _ & [[_ Hv]|[_ Hv]])];
      apply volatile_accounting in Hv; by rewrite Hv.
  - left. by destruct (ingest_cases e g0 Te) as [(_ & _ & ->)|[(_ & _ & ->)|[[st ->] _]]].
  - destruct (commit_cases d g0) as [[Hv _]|(after & _ & Ha & _ & Hv)]; apply volatile_accounting in Hv; rewrite Hv.
    { by left. }
    destruct (decide (decision_readable d)) as [Hdr|Hdr]; [left|right; by exists d].
    destruct (apply_decision_ok d g0 after Hg Hd Ha) as [[_ _ _ _ _ Hread _ _ _] _]. by apply Hread.
  - by left.
  - left. unfold shutdown. by destruct (gv_stopping g0).
Qed.

(** ** After shutdown *)

(** Closed: stopped, the store released, no evidence held. *)
Definition closed g : Prop :=
  gv_stopping g = true ∧ gv_store g = None ∧ gv_staged g = ∅ ∧ gv_ingested g = ∅ ∧ gv_publisher_sequences g = ∅.

Lemma step_closed g g' : step g g' → closed g → g' = g.
Proof.
  intros [p g0 T|e g0 He|e g0 Te|d g0 Hd|g0|g0] (Hs & _ & H1 & H2 & H3).
  - unfold install_policy. rewrite Hs. by destruct (validate_policy p).
  - unfold advance_epoch. by rewrite Hs.
  - unfold ingest_evidence. rewrite Hs. by destruct (validate_evidence e).
  - unfold commit_decision, check_decision. by rewrite Hs.
  - unfold clear_staged, with_evidence. rewrite <-H1 at 1. rewrite <-H2 at 1. rewrite <-H3 at 1. by destruct g0.
  - unfold shutdown. by rewrite Hs.
Qed.

(** Nothing moves a closed governor. *)
Lemma run_closed g g' : rtc step g g' → closed g → g' = g.
Proof. induction 1 as [|g1 g2 g3 Hs _ IH]; intros Hc; [done|]. rewrite (step_closed _ _ Hs Hc) in *. auto. Qed.

(** ** Evaluation in service *)

(** In every reachable state an evaluation runs on a valid context. *)
Lemma serving_context rq g :
  governor_ok g → ledger_room (gv_accounting g) →
  context_ok (evaluation_context g rq) (gv_policy g) (gv_accounting g).
Proof.
  intros [G1 G2 G3 G4 [Ta _ Hs] G6 G7 G8 G9] [_ _ Hd]. constructor; try done.
  - by apply policy_wf_evaluable.
  - constructor; [done|]. rewrite Forall_forall in Hs, Hd |- *. intros e He. destruct (Hs e He), (Hd e He).
    constructor; done.
  - cbn. intros e He. by destruct (G7 _ _ He) as (? & ? & _).
Qed.

(** ** Opening in memory *)

Lemma open_in_memory_value p i g :
  open_in_memory (S:=S) p i = Value g →
  validate_policy p = Value tt
  ∧ g = fresh_governor (mk_config p "" (pol_epoch p) default_limits false) i None.
Proof.
  unfold open_in_memory, open. intros Hopen.
  destruct (check_config _) as [[]|st] eqn:E; [|done]. cbn in Hopen. apply (inj Value) in Hopen as <-.
  split; [|done]. unfold check_config in E. apply result_bind_value in E as ([] & E & _). exact E.
Qed.

Lemma fresh_governor_ok config i store :
  policy_typed (cfg_policy config) → policy_wf (cfg_policy config) → u64 (cfg_epoch config) →
  u64 (inc_boot i) → u64 (inc_ordinal i) → 0 <= lim_max_staged_snapshots (cfg_limits config) →
  governor_ok (fresh_governor (S:=S) config i store).
Proof.
  intros T W He Hb Ho Hl. pose proof T as []. constructor; cbn; try done.
  - constructor; cbn; [|apply NoDup_nil_2|done]. constructor; cbn; done || ulia.
  - rewrite !map_size_empty. lia.
Qed.
End governor.
