(* ===== verification/BackendSpec.v ===== *)
(** What a durable store promises the governor, apart from how it keeps it: the
    committed record of each kind, what every operation makes of it, and what a
    process that dies inside a commit can leave. *)
From S2P Require Import Prelude Status Core Bytes Fsutil Store StoreSpec Governor.
#[local] Open Scope string_scope.
#[local] Open Scope list_scope.
#[local] Open Scope Z_scope.

(** The abstract state of one kind of record. *)
Record Committed := mk_committed {
  cm_generation : Z;
  cm_writer : Incarnation;
  cm_payload : ByteBuffer }.

Definition committed_generation (r : option Committed) : Z :=
  match r with None => 0 | Some c => cm_generation c end.

Definition loaded_record (kind : RecordKind.t) (r : option Committed) : LoadedRecord :=
  match r with
  | None => unusable false kind StatusCode.NotFound "no committed record"
  | Some c => mk_loaded true kind (cm_generation c) (inc_boot (cm_writer c)) (inc_ordinal (cm_writer c))
                (cm_payload c) StatusCode.Ok ""
  end.

(** [dur_sound]: the store holds the record, or none, and no trace of a commit.
    [dur_traces k before new]: a commit of [new] over [before] may have been cut
    short.  [dur_torn k]: the very first commit was cut short inside its replace and
    left a piece of a record with nothing to fall back to.  [dur_crash]: what a
    commit during which I/O fails or the process dies leaves, after any number of
    recoveries that die as well. *)
Class Durability (S : Type) `{Backend S} : Type := {
  dur_record : RecordKind.t → S → option Committed;
  dur_sound : RecordKind.t → S → Prop;
  dur_traces : RecordKind.t → option Committed → Committed → S → Prop;
  dur_torn : RecordKind.t → S → Prop;
  dur_crash : RecordKind.t → Z → Z → ByteBuffer → Incarnation → S → S → Prop }.

Section apart.
  Context {S : Type} `{Durability S}.

(** Everything that concerns the other kinds is as before. *)
Record apart (kind : RecordKind.t) (s s' : S) : Prop := {
  ap_record : ∀ k, k <> kind → dur_record k s' = dur_record k s;
  ap_sound : ∀ k, k <> kind → dur_sound k s → dur_sound k s';
  ap_traces : ∀ k before new, k <> kind → dur_traces k before new s → dur_traces k before new s';
  ap_torn : ∀ k, k <> kind → dur_torn k s → dur_torn k s' }.

Lemma apart_refl kind s : apart kind s s.
Proof. by split. Qed.

Lemma apart_trans kind s1 s2 s3 : apart kind s1 s2 → apart kind s2 s3 → apart kind s1 s3.
Proof. intros [A1 A2 A3 A4] [B1 B2 B3 B4]. split; [|auto..]. intros k Hk. rewrite B1, A1; done. Qed.
End apart.

Class DurabilityLaws (S : Type) `{Durability S} : Prop := {
  dur_load k s : dur_sound k s → be_load k s = loaded_record k (dur_record k s);
  dur_recover k s : dur_sound k s →
    ∃ notes s', be_recover k s = (Value tt, notes, s')
      ∧ dur_sound k s' ∧ dur_record k s' = dur_record k s ∧ apart k s s';
  dur_recover_traces k before new s : dur_traces k before new s →
    ∃ notes s', be_recover k s = (Value tt, notes, s')
      ∧ dur_sound k s' ∧ (dur_record k s' = before ∨ dur_record k s' = Some new) ∧ apart k s s';
  dur_recover_torn k s : dur_torn k s →
    lr_present (be_load k s) = true ∧ loaded_ok (be_load k s) = false
    ∧ ∃ notes s', be_recover k s = (Value tt, notes, s') ∧ dur_torn k s' ∧ apart k s s';
  dur_commit k expected next payload writer s :
    dur_sound k s → u64 next → u64 (inc_boot writer) → u64 (inc_ordinal writer) → byte_list payload →
    ∃ r s', be_commit k expected next payload writer s = (r, s')
      ∧ (r = Value tt ↔
           sizeZ payload <= kMaxDurablePayloadBytes ∧ inc_boot writer <> 0 ∧ inc_ordinal writer <> 0
           ∧ expected < next ∧ committed_generation (dur_record k s) = expected)
      ∧ (r = Value tt →
           dur_record k s' = Some (mk_committed next writer payload) ∧ dur_sound k s' ∧ apart k s s')
      ∧ (r <> Value tt → s' = s);
  dur_crashed k expected next payload writer s s' :
    dur_sound k s → u64 next → u64 (inc_boot writer) → u64 (inc_ordinal writer) → byte_list payload →
    sizeZ payload <= kMaxDurablePayloadBytes →
    dur_crash k expected next payload writer s s' →
    (dur_traces k (dur_record k s) (mk_committed next writer payload) s' ∨ dur_record k s = None ∧ dur_torn k s')
    ∧ apart k s s' }.
