(* ===== verification/Disk.v ===== *)
(** The files of [DurableStore] as the governor's store: the operations run
    uninterrupted, a crash is a run of [commit] under an arbitrary script. *)
From S2P Require Import Prelude Status Core Bytes Fsutil Store StoreSpec Governor BackendSpec.
#[local] Open Scope string_scope.
#[local] Open Scope list_scope.
#[local] Open Scope Z_scope.

Record Disk := mk_disk { dk_store : DurableStore; dk_files : gmap string ByteBuffer }.

Definition died : Status := mk_status StatusCode.IoError "the process died".

(** Runs a program over the files to its end. *)
Definition on_disk {A} (m : Io A) (dead : A) (d : Disk) : A * Disk :=
  match m (mk_world (dk_files d) []) with
  | Done a w => (a, mk_disk (dk_store d) (w_files w))
  | Crashed files => (dead, mk_disk (dk_store d) files)
  end.

#[export] Instance disk_backend : Backend Disk := {
  be_recover k d := on_disk (recover (dk_store d) k) (Failure died, no_notes) d;
  be_load k d := (on_disk (load (dk_store d) k) (unusable false k StatusCode.IoError "") d).1;
  be_commit k expected next payload writer d :=
    on_disk (commit (dk_store d) k expected next payload writer) (Failure died) d }.

Lemma on_disk_run {A} (m : Io A) dead d a files :
  run m (dk_files d) a files → on_disk m dead d = (a, mk_disk (dk_store d) files).
Proof. unfold run, on_disk. by intros ->. Qed.

(** ** The record on disk *)

Definition disk_base (k : RecordKind.t) (d : Disk) : option ByteBuffer := dk_files d !! record_path (dk_store d) k.

Definition committed_of (k : RecordKind.t) (bytes : option ByteBuffer) : option Committed :=
  match bytes with
  | None => None
  | Some o =>
      match decode_record o k with
      | Value r => Some (mk_committed (dr_generation r) (mk_incarnation (dr_writer_boot r) (dr_writer_ordinal r))
                           (dr_payload r))
      | Failure _ => None
      end
  end.

Definition decodes (k : RecordKind.t) (bytes : option ByteBuffer) : Prop :=
  ∀ o, bytes = Some o → ∃ r, decode_record o k = Value r.

#[export] Instance disk_durability : Durability Disk := {
  dur_record k d := committed_of k (disk_base k d);
  dur_sound k d := ds_faults (dk_store d) = no_faults ∧ decodes k (disk_base k d)
    ∧ quiet (dk_store d) k (dk_files d);
  dur_traces k before new d := ds_faults (dk_store d) = no_faults
    ∧ ∃ old bytes r, decodes k old ∧ committed_of k old = before
        ∧ decode_record bytes k = Value r ∧ committed_of k (Some bytes) = Some new
        ∧ recoverable (dk_store d) k old bytes (dk_files d)
        ∧ ¬ torn_first (dk_store d) k old bytes (dk_files d);
  dur_torn k d := ∃ bytes r, decode_record bytes k = Value r ∧ torn_first (dk_store d) k None bytes (dk_files d);
  dur_crash k expected next payload writer d d' :=
    dk_store d' = dk_store d
    ∧ ∃ script reboots, Forall (Forall crash_step) reboots
        ∧ dk_files d' = recoveries (dk_store d) k reboots
            (surviving (commit (dk_store d) k expected next payload writer (mk_world (dk_files d) script))) }.

(** ** A kind's operations stay on its own paths *)

Definition keeps {A} (paths : list string) (m : Io A) : Prop :=
  ∀ w p, p ∉ paths → surviving (m w) !! p = w_files w !! p.

Lemma keeps_ret {A} paths (a : A) : keeps paths (io_ret a).
Proof. by intros w p _. Qed.

Lemma keeps_bind {A B} paths (m : Io A) (k : A → Io B) :
  keeps paths m → (∀ a, keeps paths (k a)) → keeps paths (io_bind m k).
Proof.
  intros Hm Hk w p Hp. specialize (Hm w p Hp). unfold io_bind. destruct (m w) as [a w'|files]; [|done].
  cbn in Hm. rewrite <-Hm. by apply Hk.
Qed.

Lemma keeps_exists paths p : keeps paths (exists_ p).
Proof. by intros w q _. Qed.

Lemma keeps_read paths p n : keeps paths (read_file p n).
Proof. by intros w q _. Qed.

Lemma keeps_next paths : keeps paths next_step.
Proof. intros w p _. unfold next_step. by destruct (w_script w). Qed.

Lemma keeps_crash paths : keeps paths crash.
Proof. by intros w p _. Qed.

Lemma keeps_set paths f : (∀ files p, p ∉ paths → f files !! p = files !! p) → keeps paths (set_files f).
Proof. intros Hf w p Hp. by apply Hf. Qed.

#[export] Hint Resolve keeps_ret keeps_exists keeps_read keeps_next keeps_crash : fg.

Ltac solve_keeps :=
  repeat first
    [solve [auto with fg]
    |match goal with |- keeps _ (match ?x with _ => _ end) => destruct x end
    |apply keeps_bind; [|intros]
    |apply keeps_set; intros].

Lemma keeps_remove paths p : p ∈ paths → keeps paths (remove_file p).
Proof.
  intros Hp. unfold remove_file. solve_keeps; try (destruct (0 <? progress)%nat; [|done]);
    by rewrite lookup_delete_ne by set_solver.
Qed.

Lemma keeps_write paths p data : p ∈ paths → keeps paths (write_file p data).
Proof. intros Hp. unfold write_file. solve_keeps; by rewrite lookup_insert_ne by set_solver. Qed.

Lemma renamed_other from to files p : p <> from → p <> to → renamed from to files !! p = files !! p.
Proof.
  intros H1 H2. unfold renamed. destruct (files !! from); [|done].
  by rewrite lookup_insert_ne, lookup_delete_ne by done.
Qed.

Lemma keeps_replace paths from to : from ∈ paths → to ∈ paths → keeps paths (replace_file from to).
Proof.
  intros H1 H2. unfold replace_file. solve_keeps.
  - apply renamed_other; set_solver.
  - destruct (0 <? progress)%nat; [|done]. apply renamed_other; set_solver.
  - by rewrite lookup_insert_ne by set_solver.
Qed.

Lemma keeps_load paths s k : keeps paths (load s k).
Proof. unfold load. cbv zeta. solve_keeps. Qed.

#[export] Hint Resolve keeps_remove keeps_write keeps_replace keeps_load : fg.

Section paths.
  Context (s : DurableStore) (k : RecordKind.t).
  Notation base := (record_path s k).

Lemma commit_paths_elem :
  base ∈ commit_paths s k ∧ companion_path base ".tmp" ∈ commit_paths s k
  ∧ companion_path base ".jnl" ∈ commit_paths s k ∧ companion_path base ".prev" ∈ commit_paths s k.
Proof. unfold commit_paths. set_solver. Qed.

Lemma keeps_recover : keeps (commit_paths s k) (recover s k).
Proof.
  destruct commit_paths_elem as (? & ? & ? & ?). unfold recover, recover_journalled. cbv zeta. solve_keeps.
Qed.

Lemma keeps_commit expected next payload writer :
  keeps (commit_paths s k) (commit s k expected next payload writer).
Proof.
  destruct commit_paths_elem as (? & ? & ? & ?).
  unfold commit, check_expected, stage, publish, copy_file. cbv zeta. solve_keeps.
Qed.
End paths.

(** ** The kinds have no path in common *)

Lemma record_path_shape s k x :
  record_path s k +:+ x = (ds_directory s +:+ "/fairness_") +:+ (RecordKind.name k +:+ (".rec" +:+ x)).
Proof. unfold record_path. by rewrite !string_app_assoc. Qed.

Lemma commit_paths_shape s k p : p ∈ commit_paths s k → ∃ x, p = record_path s k +:+ x.
Proof.
  unfold commit_paths, companion_path. rewrite !elem_of_cons.
  intros [->|[->|[->|[->|H]]]]; [exists ""|eexists; reflexivity..|by apply elem_of_nil in H].
  by rewrite append_empty.
Qed.

Lemma commit_paths_disjoint s k k' p : k <> k' → p ∈ commit_paths s k → p ∉ commit_paths s k'.
Proof.
  intros Hne [x ->]%commit_paths_shape [y H]%commit_paths_shape. rewrite !record_path_shape in H.
  apply append_inj in H. by destruct k, k'.
Qed.

(** Two disks that differ on the paths of one kind only. *)
Lemma disk_apart k d files :
  (∀ p, p ∉ commit_paths (dk_store d) k → files !! p = dk_files d !! p) →
  apart k d (mk_disk (dk_store d) files).
Proof.
  intros Hf.
  assert (∀ k' p, k' <> k → p ∈ commit_paths (dk_store d) k' → files !! p = dk_files d !! p) as Hk.
  { intros k' p Hne Hp. apply Hf. by eapply commit_paths_disjoint. }
  split.
  - intros k' Hne. destruct (commit_paths_elem (dk_store d) k') as (H1 & _).
    cbn. unfold disk_base. cbn. by rewrite (Hk k').
  - intros k' Hne. destruct (commit_paths_elem (dk_store d) k') as (H1 & H2 & H3 & H4).
    cbn. unfold disk_base, quiet. cbn. by rewrite !(Hk k').
  - intros k' before new Hne (Hs & old & bytes & r & Hd & Hb & Hr & Hn & Hrec). split; [done|].
    exists old, bytes, r. split_and!; try done; cbn; revert Hrec;
    destruct (commit_paths_elem (dk_store d) k') as (H1 & H2 & H3 & H4);
    unfold recoverable, torn_first; rewrite !(Hk k') by done; by intros [].
  - intros k' Hne (bytes & r & Hr & Ht). exists bytes, r. split; [done|]. revert Ht. cbn.
    destruct (commit_paths_elem (dk_store d) k') as (H1 & H2 & H3 & H4).
    unfold torn_first. by rewrite !(Hk k').
Qed.

Lemma keeps_run {A} paths (m : Io A) files a files' p :
  keeps paths m → run m files a files' → p ∉ paths → files' !! p = files !! p.
Proof. intros Hk Hr Hp. specialize (Hk (mk_world files []) p Hp). by rewrite Hr in Hk. Qed.

Lemma keeps_recoveries s k scripts files p :
  p ∉ commit_paths s k → recoveries s k scripts files !! p = files !! p.
Proof.
  intros Hp. unfold recoveries. revert files. induction scripts as [|sc scripts IH]; intros files; [done|].
  cbn. rewrite IH. by apply (keeps_recover s k (mk_world files sc)).
Qed.

(** ** The disk keeps the promises *)

Lemma committed_of_encoded k generation writer payload :
  record_ok generation writer payload →
  committed_of k (Some (encode_record k generation writer payload)) = Some (mk_committed generation writer payload).
Proof.
  intros Hok. cbn. rewrite decode_encode_record by done. cbn. by destruct writer.
Qed.

Lemma decodes_encoded k generation writer payload :
  record_ok generation writer payload → decodes k (Some (encode_record k generation writer payload)).
Proof. intros Hok o [= <-]. eexists. by apply decode_encode_record. Qed.

Lemma durable_generation_of k old : committed_generation (committed_of k old) = durable_generation k old.
Proof. destruct old as [o|]; [|done]. cbn. by destruct (decode_record o k). Qed.

Lemma recover_quiet s k files :
  quiet s k files → run (recover s k) files (Value tt, mk_notes false false false false false) files.
Proof.
  intros (Ht & Hj & Hp). unfold recover, run. cbv zeta. unfold io_bind, exists_. cbn [w_files].
  by rewrite Ht, Hj, Hp.
Qed.

(** What a commit during which the process dies leaves, and the recoveries after it. *)
Lemma disk_crashed k expected next payload writer (d d' : Disk) :
  dur_sound k d → u64 next → u64 (inc_boot writer) → u64 (inc_ordinal writer) → byte_list payload →
  sizeZ payload <= kMaxDurablePayloadBytes →
  dur_crash k expected next payload writer d d' →
  (dur_traces k (dur_record k d) (mk_committed next writer payload) d' ∨ dur_record k d = None ∧ dur_torn k d')
  ∧ apart k d d'.
Proof.
  intros (Hf & Hd & Hq) Hn Hb Ho Hp Hsize (Es & script & reboots & Hr & Ef).
  assert (record_ok next writer payload) as Hrec by done.
  destruct d' as [store files]. cbn in Es, Ef. subst store files.
  pose proof (decode_encode_record k next writer payload Hrec) as Hnew. split.
  2:{ apply disk_apart. intros p Hp'. rewrite keeps_recoveries by done.
      by apply (keeps_commit (dk_store d) k expected next payload writer (mk_world (dk_files d) script)). }
  match goal with |- context [mk_disk _ ?f] =>
    assert (recoverable (dk_store d) k (disk_base k d) (encode_record k next writer payload) f) as Hrf end.
  { eapply recoveries_recoverable; [exact Hnew|done|done|].
    apply commit_recoverable; try done; rewrite ?Hf; try done. by destruct Hq as (_ & _ & ?). }
  destruct (recoverable_cases _ _ _ _ _ Hnew Hd _ Hrf) as [Ht|[Hrf' Hno]]; [right|left; split; [done|]].
  - pose proof Ht as [Hnone _]. split; [unfold dur_record; cbn; by rewrite Hnone|].
    eexists _, _. split; [exact Hnew|]. cbn. by rewrite Hnone in Ht.
  - eexists (disk_base k d), _, _. split_and!; [done|done|exact Hnew|by apply committed_of_encoded|done|done].
Qed.

#[export] Instance disk_laws : DurabilityLaws Disk.
Proof.
  split.
  - intros k d (Hf & Hd & _). cbn. rewrite (on_disk_run _ _ _ _ _ (run_load _ _ _)). cbn.
    unfold disk_base in *. destruct (dk_files d !! record_path (dk_store d) k) as [o|] eqn:E.
    + destruct (Hd o eq_refl) as [r Hr]. rewrite (load_result_some _ _ _ _ _ E Hr). cbn. by rewrite Hr.
    + unfold load_result. by rewrite E.
  - intros k d (Hf & Hd & Hq). eexists _, _. split_and!.
    + cbn. by rewrite (on_disk_run _ _ _ _ _ (recover_quiet _ _ _ Hq)).
    + done.
    + done.
    + by apply disk_apart.
  - intros k before new d (Hf & old & bytes & r & Hd & Hb & Hr & Hn & Hrec & Hno).
    destruct (run_recover _ _ _ _ _ _ Hr Hd Hrec Hno) as (notes & files & Hrun & Hbase & Hq).
    exists notes, (mk_disk (dk_store d) files). split_and!.
    + cbn. by rewrite (on_disk_run _ _ _ _ _ Hrun).
    + split_and!; [done| |done]. unfold disk_base. cbn. destruct Hbase as [->| ->]; [done|].
      intros o [= <-]. eauto.
    + cbn. unfold disk_base. cbn. destruct Hbase as [->| ->]; auto.
    + apply disk_apart. intros p. apply (keeps_run _ _ _ _ _ _ (keeps_recover _ _) Hrun).
  - intros k d (bytes & r & Hr & Ht). destruct (torn_first_bad _ _ _ _ _ Hr _ Ht) as (_ & Hp & Hl).
    destruct (run_recover_torn _ _ _ _ _ _ Hr Ht) as (notes & files & Hrun & Ht' & _).
    cbn. rewrite (on_disk_run _ _ _ _ _ (run_load _ _ _)). split; [exact Hp|]. split; [exact Hl|].
    exists notes, (mk_disk (dk_store d) files). rewrite (on_disk_run _ _ _ _ _ Hrun). split; [done|].
    split; [by exists bytes, r|]. apply disk_apart. intros p. apply (keeps_run _ _ _ _ _ _ (keeps_recover _ _) Hrun).
  - intros k expected next payload writer d (Hf & Hd & Hq) Hn Hb Ho Hp.
    destruct (run_commit (dk_store d) k expected next payload writer (dk_files d) Hf Hn Hb Ho Hp)
      as (r & files & Hrun & Hiff & Hok & Hfail).
    exists r, (mk_disk (dk_store d) files). split_and!.
    + cbn. by apply on_disk_run.
    + rewrite Hiff. cbn. unfold disk_base. rewrite durable_generation_of. intuition.
    + intros Hr. destruct (Hok Hr) as (Hbase & _ & Hframe & Hq'). apply Hiff in Hr as (Hsize & _).
      assert (record_ok next writer payload) as Hrec by done.
      split_and!; [| |by apply disk_apart]; cbn; unfold disk_base; cbn; rewrite Hbase.
      * by apply committed_of_encoded.
      * split_and!; [done|by apply decodes_encoded|done].
    + intros Hr. rewrite (Hfail Hr). by destruct d.
  - apply disk_crashed.
Qed.
