(* ===== verification/GovernorDurable.v ===== *)
(** The governor over any store that keeps its promises ([BackendSpec]): what is
    on the store at every moment of a run, and what opening finds there, also
    after the process died inside a commit. *)
From S2P Require Import Prelude Status Core U128 Bytes Policy PolicyValid Accounting Evidence Outcome Codec CodecSpec Distributor Engine Planner EngineSpec Fsutil Store StoreSpec Governor BackendSpec GovernorSpec GovernorInv GovernorReach.
#[local] Open Scope string_scope.
#[local] Open Scope list_scope.
#[local] Open Scope Z_scope.

(** ** Encodings are bytes *)

Ltac solve_bytes :=
  repeat first [solve [auto with fg] | apply w_list_bytes; intros | apply byte_list_app; split].

Lemma encode_policy_bytes p : byte_list (encode_policy p).
Proof.
  unfold encode_policy, write_policy_fields, write_provenance, write_group, write_subject, write_ref.
  unfold w_i64, w_u64, w_u32, w_u16. solve_bytes.
Qed.

Lemma encode_accounting_bytes a : byte_list (encode_accounting a).
Proof. unfold encode_accounting, write_entry, w_u64, w_u32, w_u16. solve_bytes. Qed.

(** ** Ledgers on the store *)

(** A ledger without the tags that follow the policy being served. *)
Definition untagged (a : FairnessAccounting) : FairnessAccounting :=
  mk_accounting 0 0 0 (acc_generation a) (acc_intervention_generation a) (acc_last_window a)
    (acc_last_window_generation a) (acc_writer_boot a) (acc_subjects a).

Definition restrict (f : SubjectAccounting → bool) (a : FairnessAccounting) : FairnessAccounting :=
  mk_accounting (acc_policy_id a) (acc_policy_generation a) (acc_epoch a) (acc_generation a)
    (acc_intervention_generation a) (acc_last_window a) (acc_last_window_generation a)
    (acc_writer_boot a) (List.filter f (acc_subjects a)).

(** [b] is [a] up to tags and dropped entries. *)
Definition restricts (a b : FairnessAccounting) : Prop := ∃ f, untagged b = untagged (restrict f a).

Lemma filter_true {A} (l : list A) : List.filter (λ _, true) l = l.
Proof. induction l as [|x l IH]; [done|]. cbn. by rewrite IH. Qed.

Lemma restricts_untagged a b : untagged b = untagged a → restricts a b.
Proof. intros E. exists (λ _, true). rewrite E. unfold untagged, restrict. cbn. by rewrite filter_true. Qed.

Lemma restricts_retag generation epoch a b : restricts a b → restricts a (retag generation epoch b).
Proof. by intros [f Hf]; exists f. Qed.

Lemma restricts_fields a b : restricts a b →
  acc_generation b = acc_generation a ∧ acc_last_window b = acc_last_window a
  ∧ acc_last_window_generation b = acc_last_window_generation a
  ∧ ∀ e, e ∈ acc_subjects b → e ∈ acc_subjects a.
Proof.
  intros [f Hf]. unfold untagged, restrict in Hf. cbn in Hf. injection Hf as H1 H2 H3 H4 H5 H6.
  split_and!; [done..|]. intros e. rewrite H6, !list_elem_of_In, filter_In. by intros [].
Qed.

Lemma filter_entries_ok (f : SubjectAccounting → bool) l :
  NoDup (sa_id <$> l) → Forall entry_sound l →
  NoDup (sa_id <$> List.filter f l) ∧ Forall entry_sound (List.filter f l).
Proof.
  intros Hnd Hs. induction Hs as [|e l He Hs IH]; [by split|].
  rewrite fmap_cons, NoDup_cons in Hnd. destruct Hnd as [Hin Hnd]. destruct (IH Hnd) as [H1 H2]. cbn.
  destruct (f e); [|done]. split; [|by constructor]. rewrite fmap_cons. apply NoDup_cons. split; [|done].
  intros H. apply Hin. apply list_elem_of_fmap in H as (x & -> & Hx). apply list_elem_of_fmap_2.
  rewrite list_elem_of_In, filter_In in Hx. apply list_elem_of_In. by destruct Hx.
Qed.

(** The ledger a record stands for; no record is the empty ledger. *)
Definition stored (r : option Committed) (a : FairnessAccounting) : Prop :=
  u64 (committed_generation r) ∧ ledger_sound a
  ∧ match r with
    | None => a = empty_accounting
    | Some c => cm_payload c = encode_accounting a ∧ sizeZ (encode_accounting a) <= kMaxDurablePayloadBytes
    end.

Lemma stored_decodes c a :
  stored (Some c) a → ledger_readable a → decode_accounting (cm_payload c) = Value a.
Proof.
  intros (_ & [T Hnd Hs] & -> & Hsize) Hr. apply decode_encode_accounting. constructor; try done.
  unfold ledger_readable in Hr. rewrite Forall_forall in Hr, Hs |- *. intros e He.
  destruct (Hs e He), (Hr e He). done.
Qed.

(** A ledger with a streak beyond the bound is on the store, but not readable. *)
Lemma stored_unreadable c a :
  stored (Some c) a → ¬ ledger_readable a → ∃ st, decode_accounting (cm_payload c) = Failure st.
Proof. intros (_ & [T _ _] & -> & _). by apply decode_encode_unreadable. Qed.

Lemma empty_sound : ledger_sound empty_accounting.
Proof. constructor; [|apply NoDup_nil_2|done]. constructor; cbn; done || ulia. Qed.

Definition stored_policy (r : option Committed) (p : FairnessPolicy) : Prop :=
  ∃ c, r = Some c ∧ u64 (cm_generation c) ∧ cm_payload c = encode_policy p.

Section governor.
  Context {S : Type} `{DurabilityLaws S}.
  Implicit Types (g : Governor S).

(** ** What the store holds *)

Record backed g (s : S) : Prop := {
  ba_store : gv_store g = Some s;
  ba_sound : ∀ k, dur_sound k s;
  ba_policy : stored_policy (dur_record RecordKind.Policy s) (gv_policy g);
  ba_generations : gv_policy_record_generation g = committed_generation (dur_record RecordKind.Policy s)
    ∧ gv_accounting_record_generation g = committed_generation (dur_record RecordKind.Accounting s)
    ∧ u64 (gv_accounting_record_generation g) }.

(** The ledger in memory is the one on the store, up to tags and entries dropped. *)
Record persisted g (s : S) : Prop := {
  ps_backed : backed g s;
  ps_ledger : ∃ a, stored (dur_record RecordKind.Accounting s) a ∧ restricts a (gv_accounting g)
    ∧ gv_epoch g = Z.max (pol_epoch (gv_policy g)) (acc_epoch a) }.

(** ... and is there to the letter. *)
Definition exactly g (s : S) : Prop :=
  persisted g s ∧ stored (dur_record RecordKind.Accounting s) (gv_accounting g)
  ∧ gv_epoch g = Z.max (pol_epoch (gv_policy g)) (acc_epoch (gv_accounting g)).

(** Only these members matter. *)
Definition same_store g g' : Prop :=
  gv_store g' = gv_store g ∧ gv_policy_record_generation g' = gv_policy_record_generation g
  ∧ gv_accounting_record_generation g' = gv_accounting_record_generation g.

Lemma persisted_same g g' s :
  same_store g g' → gv_policy g' = gv_policy g → gv_epoch g' = gv_epoch g →
  untagged (gv_accounting g') = untagged (gv_accounting g) → persisted g s → persisted g' s.
Proof.
  intros (E1 & E2 & E3) E4 E5 E6 [[B1 B2 B3 B4] (a & Ha & [f Hf] & He)].
  constructor; [constructor; rewrite ?E1, ?E2, ?E3, ?E4; done|].
  exists a. split; [done|]. split; [exists f; congruence|congruence].
Qed.

Lemma with_store_id g s : gv_store g = Some s → with_store (Some s) g = g.
Proof. unfold with_store. intros <-. by destruct g. Qed.

(** A commit whose store answers: done, or as if never called. *)
Lemma commit_accounting_backed g s :
  governor_ok g → backed g s → pol_epoch (gv_policy g) <= gv_epoch g →
  (∃ s', (commit_accounting g).1 = Value tt ∧ exactly (commit_accounting g).2 s')
  ∨ (∃ st, commit_accounting g = (Failure st, g)).
Proof.
  intros Hg [B1 B2 B3 (B4 & B5 & B6)] He. destruct (go_incarnation _ Hg) as [Hb Ho]. destruct (go_tags _ Hg) as [_ Ht].
  unfold commit_accounting. rewrite B1.
  destruct (dur_commit RecordKind.Accounting (gv_accounting_record_generation g)
    (add64 (gv_accounting_record_generation g) 1) (encode_accounting (gv_accounting g)) (gv_incarnation g) s)
    as (r & s' & -> & Hiff & Hok & Hfail); [done|apply wrap64_range|done|done|apply encode_accounting_bytes|].
  destruct r as [[]|st]; cbn [fst snd].
  2:{ right. exists st. rewrite Hfail by done. by rewrite with_store_id. }
  left. exists s'. split; [done|]. destruct (Hok eq_refl) as (Hrec & Hs & [A1 A2 _ _]).
  destruct (proj1 Hiff eq_refl) as (Hsize & _ & _ & Hlt & _).
  assert (u64 (add64 (gv_accounting_record_generation g) 1)) as Hu by apply wrap64_range.
  assert (stored (dur_record RecordKind.Accounting s') (gv_accounting g)) as Hst.
  { rewrite Hrec. split; [done|]. split; [apply (go_ledger _ Hg)|done]. }
  assert (gv_epoch g = Z.max (pol_epoch (gv_policy g)) (acc_epoch (gv_accounting g))) as Hep by (rewrite Ht; lia).
  split; [|done]. constructor.
  - constructor; cbn.
    + done.
    + intros k. destruct (decide (k = RecordKind.Accounting)) as [->|]; [done|auto].
    + by rewrite A1.
    + rewrite A1 by done. rewrite Hrec. done.
  - exists (gv_accounting g). split; [done|]. split; [by apply restricts_untagged|done].
Qed.

(** When the store takes the ledger. *)
Definition store_takes g : Prop :=
  inc_boot (gv_incarnation g) <> 0 ∧ inc_ordinal (gv_incarnation g) <> 0
  ∧ gv_accounting_record_generation g < U64_MAX
  ∧ sizeZ (encode_accounting (gv_accounting g)) <= kMaxDurablePayloadBytes.

Lemma commit_accounting_exact g s :
  governor_ok g → backed g s → (commit_accounting g).1 = Value tt ↔ store_takes g.
Proof.
  intros Hg [B1 B2 B3 (B4 & B5 & B6)]. destruct (go_incarnation _ Hg) as [Hb Ho]. unfold commit_accounting. rewrite B1.
  destruct (dur_commit RecordKind.Accounting (gv_accounting_record_generation g)
    (add64 (gv_accounting_record_generation g) 1) (encode_accounting (gv_accounting g)) (gv_incarnation g) s)
    as (r & s' & -> & Hiff & _ & _); [done|apply wrap64_range|done|done|apply encode_accounting_bytes|].
  assert (gv_accounting_record_generation g < add64 (gv_accounting_record_generation g) 1
    ↔ gv_accounting_record_generation g < U64_MAX) as Hlt.
  { unfold add64. destruct (Z.eq_dec (gv_accounting_record_generation g) U64_MAX) as [->|].
    - change (wrap64 (U64_MAX + 1)) with 0. split; [|lia]. intros Hlt. by vm_compute in Hlt.
    - rewrite wrap64_small by ulia. ulia. }
  transitivity (r = Value tt); [destruct r as [[]|st]; by cbn|]. rewrite Hiff. unfold store_takes. rewrite Hlt. intuition lia.
Qed.

Lemma commit_policy_backed g s :
  governor_ok g → gv_store g = Some s → dur_sound RecordKind.Policy s →
  gv_policy_record_generation g = committed_generation (dur_record RecordKind.Policy s) →
  (∃ s', (commit_policy g).1 = Value tt
    ∧ (commit_policy g).2 = with_record_generations (add64 (gv_policy_record_generation g) 1)
        (gv_accounting_record_generation g) (with_store (Some s') g)
    ∧ dur_sound RecordKind.Policy s' ∧ stored_policy (dur_record RecordKind.Policy s') (gv_policy g)
    ∧ add64 (gv_policy_record_generation g) 1 = committed_generation (dur_record RecordKind.Policy s')
    ∧ apart RecordKind.Policy s s')
  ∨ (∃ st, commit_policy g = (Failure st, g)).
Proof.
  intros Hg B1 B2 B4. destruct (go_incarnation _ Hg) as [Hb Ho].
  unfold commit_policy. rewrite B1.
  destruct (dur_commit RecordKind.Policy (gv_policy_record_generation g)
    (add64 (gv_policy_record_generation g) 1) (encode_policy (gv_policy g)) (gv_incarnation g) s)
    as (r & s' & -> & _ & Hok & Hfail); [done|apply wrap64_range|done|done|apply encode_policy_bytes|].
  destruct r as [[]|st]; cbn [fst snd].
  2:{ right. exists st. rewrite Hfail by done. by rewrite with_store_id. }
  left. exists s'. destruct (Hok eq_refl) as (Hrec & Hs & Hap).
  split_and!; [done|done|done| |by rewrite Hrec|done].
  - rewrite Hrec. eexists. split; [done|]. split; [apply wrap64_range|done].
Qed.
(** *** Operations *)

Lemma exactly_persisted g s : exactly g s → persisted g s.
Proof. by intros []. Qed.

Lemma persisted_epoch g s : persisted g s → pol_epoch (gv_policy g) <= gv_epoch g.
Proof. intros [_ (a & _ & _ & ->)]. lia. Qed.

Lemma ingest_persisted e g s : evidence_typed e → persisted g s → persisted (ingest_evidence e g).2 s.
Proof.
  intros Te Hp. destruct (ingest_cases e g Te) as [(_ & _ & ->)|[(_ & _ & ->)|[[st ->] _]]]; [|done..].
  by apply (persisted_same g).
Qed.

Lemma clear_persisted g s : persisted g s → persisted (clear_staged g) s.
Proof. by apply persisted_same. Qed.

(** Changing the ledger in memory leaves the store as it is. *)
Lemma backed_accounting a g s : backed g s → backed (with_accounting a g) s.
Proof. by intros []. Qed.

Lemma with_accounting_id g : with_accounting (gv_accounting g) g = g.
Proof. by destruct g. Qed.

Lemma commit_persisted d g s :
  decision_typed d → governor_ok g → persisted g s →
  (∃ s', (commit_decision d g).1 = Value tt ∧ exactly (commit_decision d g).2 s')
  ∨ (∃ st, commit_decision d g = (Failure st, g)).
Proof.
  intros Hd Hg Hp. unfold commit_decision. destruct (check_decision d g) as [[]|st]; [|right; by exists st].
  destruct (apply_decision d g) as [after|st] eqn:Ea; [|right; by exists st].
  destruct (apply_decision_ok d g after Hg Hd Ea) as [_ Hok].
  destruct (commit_accounting_backed (with_accounting after g) s Hok) as [(s' & E1 & E2)|(st & E)].
  - apply backed_accounting, ps_backed, Hp.
  - apply (persisted_epoch g s Hp).
  - left. exists s'. destruct (commit_accounting _) as [[[]|st] g1]; by cbn in *.
  - right. exists st. rewrite E. cbn. by destruct g.
Qed.

Lemma set_epoch_persisted e g s :
  governor_ok g → u64 e → persisted g s → pol_epoch (gv_policy g) <= e →
  let g1 := with_accounting (retag (acc_policy_generation (gv_accounting g)) e (gv_accounting g))
              (with_policy (gv_policy g) e (clear_staged g)) in
  governor_ok g1 ∧ backed g1 s ∧ pol_epoch (gv_policy g1) <= gv_epoch g1.
Proof.
  intros Hg He [[B1 B2 B3 B4] _] Hle g1. pose proof (go_tags _ Hg) as [Ht _]. split_and!; [|by constructor|done].
  unfold g1. rewrite Ht. apply (with_policy_ok (gv_policy g) e (clear_staged g)); try done.
  - by apply clear_staged_ok.
  - apply (go_typed _ Hg).
  - apply (go_wf _ Hg).
  - by left.
Qed.

Lemma advance_persisted e g s :
  u64 e → governor_ok g → persisted g s → ∃ s', persisted (advance_epoch e g).2 s'.
Proof.
  intros He Hg Hp. unfold advance_epoch. destruct (gv_stopping g); [by exists s|].
  destruct (negb (valid e) || (e <=? gv_epoch g)) eqn:E; [by exists s|].
  apply orb_false_iff in E as [_ E]. apply Z.leb_gt in E. cbv zeta.
  pose proof (persisted_epoch g s Hp) as Hle.
  destruct (set_epoch_persisted e g s Hg He Hp ltac:(lia)) as (K1 & K2 & K3).
  change (clear_staged (with_accounting _ _)) with
    (with_accounting (retag (acc_policy_generation (gv_accounting g)) e (gv_accounting g))
       (with_policy (gv_policy g) e (clear_staged g))).
  destruct (commit_accounting_backed _ s K1 K2 K3) as [(s' & E1 & [E2 _])|(st & E1)].
  - exists s'. by destruct (commit_accounting _) as [[[]|st] g1]; cbn in *.
  - exists s. rewrite E1. cbn. by apply (persisted_same g).
Qed.

(** The state an installation makes durable: the policy in force, the ledger tagged
    after it, no evidence of an older epoch. *)
Definition installing (p : FairnessPolicy) g : Governor S :=
  let g0 := if pol_epoch p >? gv_epoch g then clear_staged (with_policy p (pol_epoch p) g)
            else with_policy p (gv_epoch g) g in
  with_accounting (retag (pol_generation p) (gv_epoch g0) (gv_accounting g0)) g0.

Arguments installing : simpl never.

Definition installable (p : FairnessPolicy) g : Prop :=
  policy_typed p ∧ validate_policy p = Value tt ∧ pol_id p = pol_id (gv_policy g)
  ∧ pol_generation (gv_policy g) < pol_generation p ∧ gv_epoch g <= pol_epoch p.

Lemma installing_ok p g :
  governor_ok g → installable p g →
  governor_ok (installing p g) ∧ same_store g (installing p g) ∧ gv_policy (installing p g) = p
  ∧ gv_epoch (installing p g) = pol_epoch p ∧ untagged (gv_accounting (installing p g)) = untagged (gv_accounting g).
Proof.
  intros Hg (T & Hval & _ & _ & Hle). apply (validate_policy_iff p T) in Hval as W. unfold installing.
  destruct (pol_epoch p >? gv_epoch g) eqn:E.
  - split_and!; try done. apply (with_policy_ok p (pol_epoch p) (clear_staged g)); try done.
    + by apply clear_staged_ok.
    + by apply pt_epoch.
    + by left.
  - apply gtb_false_le in E. split_and!; try done; [|cbn; lia].
    apply (with_policy_ok p (gv_epoch g) g); try done; [apply (go_epoch _ Hg)|by right].
Qed.

Lemma installing_persisted p g s :
  governor_ok g → installable p g → persisted g s →
  (∃ s1, (commit_policy (installing p g)).1 = Value tt ∧ governor_ok (commit_policy (installing p g)).2
     ∧ persisted (commit_policy (installing p g)).2 s1 ∧ gv_policy (commit_policy (installing p g)).2 = p
     ∧ untagged (gv_accounting (commit_policy (installing p g)).2) = untagged (gv_accounting g))
  ∨ ∃ st, commit_policy (installing p g) = (Failure st, installing p g).
Proof.
  intros Hg Hin [[B1 B2 B3 (B4 & B5 & B6)] (a & Ha & Hr & He)].
  destruct (installing_ok p g Hg Hin) as (Hg1 & (E1 & E2 & E3) & E4 & E5 & E6). destruct Hin as (_ & _ & _ & _ & Hle).
  destruct (commit_policy_backed (installing p g) s Hg1) as [(s1 & F1 & F2 & F3 & F4 & F5 & F6)|(st & F)];
    [by rewrite E1|apply B2|by rewrite E2|left|right; by exists st].
  assert (∀ k, dur_sound k s1) as F7.
  { intros k. destruct (decide (k = RecordKind.Policy)) as [->|]; [done|]. by apply F6. }
  apply (ap_record _ _ _) with (k := RecordKind.Accounting) in F6; [|done].
  exists s1. rewrite F2. split; [done|]. split; [by apply (governor_ok_volatile (installing p g))|]. split; [|done].
  constructor.
  - constructor; cbn; [done|done|done|]. rewrite E3, F6. by split_and!.
  - exists a. rewrite F6. split; [done|]. destruct Hr as [f Hf]. split; [exists f; cbn; congruence|].
    cbn. rewrite E4, E5. lia.
Qed.

Lemma install_persisted p g s :
  policy_typed p → governor_ok g → persisted g s → ∃ s', persisted (install_policy p g).2 s'.
Proof.
  intros T Hg Hp. unfold install_policy. destruct (validate_policy p) as [[]|] eqn:Hval; [|by exists s].
  destruct (gv_stopping g); [by exists s|].
  destruct (Z.eqb_spec (pol_id p) (pol_id (gv_policy g))) as [Hid|]; cbn [negb]; [|by exists s].
  destruct (Z.leb_spec (pol_generation p) (pol_generation (gv_policy g))) as [|Hgen]; [by exists s|].
  destruct (Z.ltb_spec (pol_epoch p) (gv_epoch g)) as [|Hle]; [by exists s|]. cbv zeta.
  assert (installable p g) as Hin by done. fold (installing p g).
  destruct (installing_persisted p g s Hg Hin Hp) as [(s1 & F1 & Hg2 & Hp2 & _)|(st & F)].
  2:{ exists s. rewrite F. destruct (installing_ok p g Hg Hin) as (_ & E1 & _ & _ & E2). by apply (persisted_same g). }
  destruct (commit_policy (installing p g)) as [[[]|?] g2]; [|done]. cbn [fst snd] in *.
  destruct (commit_accounting_backed g2 s1 Hg2 (ps_backed _ _ Hp2) (persisted_epoch _ _ Hp2))
    as [(s2 & _ & [? _])|(st & ->)]; by eexists.
Qed.

(** ** Opening *)

(** Where recovery ends for certain; [T] is what is known if the first record is torn. *)
Definition pending (k : RecordKind.t) (s : S) (T : Prop) (Q : option Committed → Prop) : Prop :=
  (dur_sound k s ∧ Q (dur_record k s)) ∨ (∃ before new, dur_traces k before new s ∧ Q before ∧ Q (Some new))
  ∨ (dur_torn k s ∧ Q None ∧ T).

Lemma pending_apart k k' s s' T Q : k <> k' → apart k' s s' → pending k s T Q → pending k s' T Q.
Proof.
  intros Hne [A1 A2 A3 A4] [[Hs Hq]|[(before & new & Ht & Hq)|[Ht Hq]]]; [left|right; left; exists before, new|right; right].
  - rewrite A1 by done. auto.
  - auto.
  - auto.
Qed.

(** Recovery always returns; what it leaves is sound, or the torn first record. *)
Lemma pending_recovers k s T Q : pending k s T Q →
  ∃ notes s', be_recover k s = (Value tt, notes, s') ∧ apart k s s'
    ∧ (dur_sound k s' ∧ Q (dur_record k s') ∨ dur_torn k s' ∧ Q None ∧ T).
Proof.
  intros [[Hs Hq]|[(before & new & Ht & Hq1 & Hq2)|[Ht Hq]]].
  - destruct (dur_recover k s Hs) as (notes & s' & -> & K1 & K2 & K3). exists notes, s'. rewrite K2. auto.
  - destruct (dur_recover_traces k before new s Ht) as (notes & s' & -> & K1 & [K2|K2] & K3);
      exists notes, s'; rewrite K2; auto.
  - destruct (dur_recover_torn k s Ht) as (_ & _ & notes & s' & -> & K1 & K2). exists notes, s'. auto.
Qed.

(** What opening makes of a durable ledger. *)
Definition reopened (config : GovernorConfig) (i : Incarnation) (p : FairnessPolicy) (a : FairnessAccounting) g : Prop :=
  gv_policy g = p ∧ gv_epoch g = Z.max (pol_epoch p) (acc_epoch a) ∧ gv_config g = config
  ∧ gv_incarnation g = i ∧ gv_stopping g = false
  ∧ untagged (gv_accounting g) = untagged (keep_entries p a)
  ∧ gv_staged g = ∅ ∧ gv_ingested g = ∅ ∧ gv_publisher_sequences g = ∅ ∧ governor_ok g.

Section opening.
  Context (config : GovernorConfig) (i : Incarnation).
  Hypothesis Hconfig : check_config config = Value tt.
  Hypothesis Htyped : policy_typed (cfg_policy config).
  Hypothesis Hincarnation : u64 (inc_boot i) ∧ u64 (inc_ordinal i).
  Hypothesis Hlimit : 0 <= lim_max_staged_snapshots (cfg_limits config).

Lemma config_policy : policy_wf (cfg_policy config) ∧ cfg_epoch config = pol_epoch (cfg_policy config).
Proof.
  unfold check_config in Hconfig. apply result_bind_value in Hconfig as ([] & Hv & Hc).
  split; [exact (proj1 (validate_policy_iff _ Htyped) Hv)|]. revert Hc. autorewrite with guards.
  intros (_ & He & _). by symmetry.
Qed.

Lemma fresh_ok store : governor_ok (fresh_governor config i store : Governor S).
Proof.
  destruct config_policy as [W E]. destruct Hincarnation. apply fresh_governor_ok; try done.
  rewrite E. by apply pt_epoch.
Qed.
(** The governor opening ends with, but for its report. *)
Definition settled (s : S) (policy_record accounting_record : Z) (p : FairnessPolicy) (a : FairnessAccounting)
    : Governor S :=
  let g := with_record_generations policy_record accounting_record
             (with_policy p (Z.max (pol_epoch p) (acc_epoch a)) (fresh_governor config i (Some s))) in
  with_accounting (tag_accounting g (keep_entries p a)) g.

Lemma settled_persisted s p a report n :
  (∀ k, dur_sound k s) → policy_typed p → policy_wf p →
  stored_policy (dur_record RecordKind.Policy s) p → n = committed_generation (dur_record RecordKind.Policy s) →
  stored (dur_record RecordKind.Accounting s) a →
  let g := with_recovery report
             (clear_staged (settled s n (committed_generation (dur_record RecordKind.Accounting s)) p a)) in
  reopened config i p a g ∧ persisted g s.
Proof.
  intros Hs T W Hp Hn Ha g. pose proof Ha as (Hu & [Ta Hnd He] & _). pose proof Ta as [].
  pose proof T as [? Hgen Hep _ _ _ _ _ _ _ _ _ _ _ _ _].
  destruct (filter_entries_ok (still_governed p) (acc_subjects a) Hnd He) as [F1 F2].
  split.
  - split_and!; try done. constructor; cbn; try done.
    + ulia.
    + constructor; cbn; [constructor; cbn; try done; [ulia|]|done|done].
      eapply Forall_impl; [exact F2|]. by intros e [].
    + rewrite !map_size_empty. lia.
  - constructor; [by constructor|]. exists a. split; [done|]. split; [|done]. by exists (still_governed p).
Qed.

(** A configuration does not fake the digest of the policy it finds: at the same
    generation the same digest means the same policy. *)
Definition consistent (p : FairnessPolicy) : Prop :=
  pol_generation (cfg_policy config) = pol_generation p → policy_digest (cfg_policy config) = policy_digest p →
  cfg_policy config = p.

(** The configured policy wins when it is newer. *)
Definition served (p : FairnessPolicy) : FairnessPolicy :=
  if pol_generation (cfg_policy config) >? pol_generation p then cfg_policy config else p.

(** What it takes for a configuration to find the policy as it is. *)
Definition accepts (p : FairnessPolicy) : Prop :=
  pol_id p = pol_id (cfg_policy config) ∧ pol_generation (cfg_policy config) <= pol_generation p
  ∧ (pol_generation (cfg_policy config) = pol_generation p → cfg_policy config = p).

Lemma adopt_policy_run s p :
  dur_sound RecordKind.Policy s → policy_typed p → policy_wf p → stored_policy (dur_record RecordKind.Policy s) p →
  consistent p →
  (∃ flags s' n,
     adopt_policy (fresh_governor config i (Some s)) (be_load RecordKind.Policy s)
     = (Value flags, with_record_generations n 0
         (with_policy (served p) (pol_epoch (served p)) (fresh_governor config i (Some s'))))
     ∧ pol_id p = pol_id (cfg_policy config)
     ∧ dur_sound RecordKind.Policy s' ∧ stored_policy (dur_record RecordKind.Policy s') (served p)
     ∧ n = committed_generation (dur_record RecordKind.Policy s')
     ∧ apart RecordKind.Policy s s')
  ∨ (¬ accepts p
     ∧ ∃ st g, adopt_policy (fresh_governor config i (Some s)) (be_load RecordKind.Policy s) = (Failure st, g)
        ∧ gv_store g = Some s).
Proof.
  intros Hs T W Hp Hsame. destruct config_policy as [Wc Ec]. pose proof Hp as (c & Hc & Hu & Hpay).
  rewrite (dur_load _ _ Hs), Hc. unfold adopt_policy, loaded_record, loaded_ok.
  cbn [lr_present lr_code lr_payload lr_generation]. rewrite bool_decide_eq_true_2 by done. cbn [negb].
  rewrite Hpay, (decode_encode_policy p T W). cbn [gv_policy fresh_governor with_accounting with_record_generations].
  destruct (Z.eqb_spec (pol_id p) (pol_id (cfg_policy config))) as [Hid|Hid]; cbn [negb]; unfold served.
  2:{ right. split; [by intros []|]. by do 2 eexists. }
  destruct (pol_generation p >? pol_generation (cfg_policy config)) eqn:E1; [apply gtb_true_lt in E1|apply gtb_false_le in E1].
  { left. exists (true, false), s, (cm_generation c). rewrite (proj2 (gtb_false_le _ _)) by lia.
    rewrite Hc in Hp |- *. split_and!; done. }
  destruct (Z.eqb_spec (pol_generation p) (pol_generation (cfg_policy config))) as [E2|E2].
  { destruct (Z.eqb_spec (policy_digest p) (policy_digest (cfg_policy config))) as [E3|E3]; cbn [negb].
    2:{ right. split; [|by do 2 eexists]. intros (_ & _ & Heq). rewrite (Heq (eq_sym E2)) in E3. done. }
    left. exists (true, false), s, (cm_generation c). rewrite (proj2 (gtb_false_le _ _)) by lia.
    rewrite Hc in Hp |- *. split_and!; try done.
    unfold fresh_governor. cbn. by rewrite Ec, (Hsame (eq_sym E2) (eq_sym E3)). }
  rewrite (proj2 (gtb_true_lt _ _)) by lia.
  match goal with |- context [commit_policy ?x] => set (g := x) end.
  assert (governor_ok g) as Hg by apply (governor_ok_volatile (fresh_governor config i (Some s)) g eq_refl (fresh_ok _)).
  destruct (commit_policy_backed g s Hg eq_refl Hs) as [(s' & F1 & F2 & F3 & F4 & F5 & F6)|(st & ->)];
    [by rewrite Hc|left|right].
  - exists (false, true), s'. eexists. destruct (commit_policy g) as [[[]|?] g']; [|done]. cbn in F1, F2.
    split_and!; [|done|done|done|exact F5|done]. rewrite F2. unfold g, fresh_governor. cbn. by rewrite Ec.
  - split; [intros (_ & Hle & _); lia|]. by exists st, g.
Qed.
(** The ledger is read over the policy just settled. *)
Lemma adopt_accounting_run s n p a :
  dur_sound RecordKind.Accounting s → policy_typed p → stored (dur_record RecordKind.Accounting s) a →
  ledger_readable a →
  let g0 : Governor S := with_record_generations n 0 (with_policy p (pol_epoch p) (fresh_governor config i (Some s))) in
  ∃ durable,
    adopt_accounting (with_accounting (tag_accounting g0 (gv_accounting g0)) g0) (be_load RecordKind.Accounting s)
    = (Value durable, settled s n (committed_generation (dur_record RecordKind.Accounting s)) p a).
Proof.
  intros Hs T Ha Hr g0. pose proof (pt_epoch _ T) as Hep. rewrite (dur_load _ _ Hs).
  unfold adopt_accounting. destruct (dur_record RecordKind.Accounting s) as [c|].
  - pose proof (stored_decodes c a Ha Hr) as Hdec. unfold loaded_record, loaded_ok.
    cbn [lr_present lr_code lr_payload lr_generation]. rewrite bool_decide_eq_true_2 by done. cbn [negb].
    rewrite Hdec. exists (Some a). cbn [committed_generation]. unfold g0, settled. cbn.
    assert ((if acc_epoch a >? pol_epoch p then acc_epoch a else pol_epoch p) = Z.max (pol_epoch p) (acc_epoch a)) as ->;
      [|done].
    destruct (acc_epoch a >? pol_epoch p) eqn:E; [apply gtb_true_lt in E|apply gtb_false_le in E]; lia.
  - destruct Ha as (_ & _ & ->). exists None. unfold loaded_record, g0, settled. cbn.
    assert (Z.max (pol_epoch p) 0 = pol_epoch p) as -> by ulia. done.
Qed.

(** A ledger that cannot be read is refused, and so is a torn first record. *)
Lemma adopt_accounting_refused s n p :
  (dur_sound RecordKind.Accounting s ∧ ∃ a, stored (dur_record RecordKind.Accounting s) a ∧ ¬ ledger_readable a)
  ∨ dur_torn RecordKind.Accounting s →
  let g0 : Governor S := with_record_generations n 0 (with_policy p (pol_epoch p) (fresh_governor config i (Some s))) in
  ∃ st g, adopt_accounting (with_accounting (tag_accounting g0 (gv_accounting g0)) g0) (be_load RecordKind.Accounting s)
    = (Failure st, g).
Proof.
  intros [(Hs & a & Ha & Hr)|Ht] g0; unfold adopt_accounting.
  - rewrite (dur_load _ _ Hs). destruct (dur_record RecordKind.Accounting s) as [c|].
    + destruct (stored_unreadable c a Ha Hr) as [st Hdec]. unfold loaded_record, loaded_ok.
      cbn [lr_present lr_code lr_payload lr_generation]. rewrite bool_decide_eq_true_2 by done. cbn [negb].
      rewrite Hdec. by do 2 eexists.
    + destruct Ha as (_ & _ & ->). destruct Hr. constructor.
  - destruct (dur_recover_torn _ _ Ht) as (-> & -> & _). by do 2 eexists.
Qed.

(** From the settled policy on. *)
Lemma open_settled s s1 s2 s3 notes1 notes2 flags n p a :
  be_recover RecordKind.Policy s = (Value tt, notes1, s1) →
  be_recover RecordKind.Accounting s1 = (Value tt, notes2, s2) →
  adopt_policy (fresh_governor config i (Some s2)) (be_load RecordKind.Policy s2)
  = (Value flags, with_record_generations n 0 (with_policy p (pol_epoch p) (fresh_governor config i (Some s3)))) →
  (∀ k, dur_sound k s3) → policy_typed p → policy_wf p →
  stored_policy (dur_record RecordKind.Policy s3) p → n = committed_generation (dur_record RecordKind.Policy s3) →
  stored (dur_record RecordKind.Accounting s3) a → ledger_readable a →
  ∃ g, open_durable config i s = (Value g, s3) ∧ reopened config i p a g ∧ persisted g s3.
Proof.
  intros E1 E2 E3 Hs T W Hp Hn Ha Hr. unfold open_durable. rewrite E1, E2, E3. destruct flags as [loaded committed].
  cbv beta iota. change (default s2 _) with s3.
  destruct (adopt_accounting_run s3 n p a (Hs _) T Ha Hr) as [durable ->].
  destruct (settled_persisted s3 p a (recovery_report (settled s3 n
    (committed_generation (dur_record RecordKind.Accounting s3)) p a) notes1 notes2 loaded committed
    (lr_present (be_load RecordKind.Policy s2)) durable) n Hs T W Hp Hn Ha) as [R1 R2].
  eexists. split; [reflexivity|]. by split.
Qed.

(** Both recoveries, then the policy: what is left to read the ledger from. *)
Lemma open_recovers s (P : FairnessPolicy → Prop) (T T' : Prop) (Q : option Committed → Prop) :
  pending RecordKind.Policy s T' (λ r, ∃ p, stored_policy r p ∧ P p) → pending RecordKind.Accounting s T Q →
  ∃ notes1 s1 notes2 s2 p,
    be_recover RecordKind.Policy s = (Value tt, notes1, s1) ∧ be_recover RecordKind.Accounting s1 = (Value tt, notes2, s2)
    ∧ P p ∧ dur_sound RecordKind.Policy s2 ∧ stored_policy (dur_record RecordKind.Policy s2) p
    ∧ (dur_sound RecordKind.Accounting s2 ∧ Q (dur_record RecordKind.Accounting s2)
       ∨ dur_torn RecordKind.Accounting s2 ∧ Q None ∧ T).
Proof.
  intros Hpol Hacc.
  destruct (pending_recovers _ _ _ _ Hpol) as (notes1 & s1 & E1 & A1 & [(P1 & p & P2 & Pp)|(_ & (p & (c & [=] & _) & _) & _)]).
  apply (pending_apart _ RecordKind.Policy s s1) in Hacc; [|done|done].
  destruct (pending_recovers _ _ _ _ Hacc) as (notes2 & s2 & E2 & A2 & Hor).
  exists notes1, s1, notes2, s2, p. pose proof A2 as [A3 A4 _ _]. split_and!; [done|done|done|by apply A4|by rewrite A3|].
  done.
Qed.

(** Policies a configuration can meet. *)
Definition continues (p : FairnessPolicy) : Prop := policy_typed p ∧ policy_wf p ∧ consistent p.

(** Opening, exactly: it serves the durable policy or the newer configured one over
    the durable ledger; or refuses, and then the configuration does not accept the
    policy, the ledger cannot be read, or its first record is torn ([R]). *)
Lemma open_durable_run s (P : FairnessPolicy → Prop) (Q : FairnessAccounting → Prop) (R R' : Prop) :
  pending RecordKind.Policy s R' (λ r, ∃ p, stored_policy r p ∧ P p) →
  pending RecordKind.Accounting s R (λ r, ∃ a, stored r a ∧ Q a) →
  (∀ p, P p → continues p) →
  ∃ p a, P p ∧ Q a ∧
    ((∃ g s', open_durable config i s = (Value g, s') ∧ ledger_readable a ∧ pol_id p = pol_id (cfg_policy config)
       ∧ stored (dur_record RecordKind.Accounting s') a ∧ reopened config i (served p) a g ∧ persisted g s')
     ∨ ((¬ accepts p ∨ ¬ ledger_readable a ∨ R) ∧ ∃ st s', open_durable config i s = (Failure st, s'))).
Proof.
  intros Hpol Hacc HP.
  destruct (open_recovers s P _ _ _ Hpol Hacc) as (notes1 & s1 & notes2 & s2 & p & E1 & E2 & Pp & Hs2 & Hp2 & Ha2).
  assert (∃ a, Q a ∧ (dur_sound RecordKind.Accounting s2 ∧ stored (dur_record RecordKind.Accounting s2) a
    ∨ dur_torn RecordKind.Accounting s2 ∧ R)) as (a & Qa & Ha).
  { destruct Ha2 as [(? & a & ? & ?)|(? & (a & ? & ?) & HR)]; exists a; auto. }
  exists p, a. do 2 (split; [done|]). destruct (HP p Pp) as (T & W & Hsame).
  destruct (adopt_policy_run s2 p Hs2 T W Hp2 Hsame) as [(flags & s3 & n & E3 & Hid & P9 & P10 & P11 & P12)|
    (Hno & st & g & E3 & Hst)].
  2:{ right. split; [by left|]. unfold open_durable. rewrite E1, E2, E3. cbn. rewrite Hst. by eexists _, _. }
  assert (policy_typed (served p) ∧ policy_wf (served p)) as [Ts Ws].
  { unfold served. destruct config_policy as [Wc _]. by destruct (_ >? _). }
  destruct P12 as [Q1 Q2 _ Q4].
  destruct (decide (ledger_readable a)) as [Hr|Hr]; [destruct Ha as [[Ha1 Ha]|[Ht HR]]; [left|right]|right].
  - assert (∀ k, dur_sound k s3) as Hs3 by (intros []; [done|by apply Q2]).
    assert (stored (dur_record RecordKind.Accounting s3) a) as Ha' by by rewrite Q1.
    destruct (open_settled s s1 s2 s3 notes1 notes2 flags n (served p) a) as (g & E & R1 & R2); try done.
    exists g, s3. by split_and!.
  - split; [by right; right|]. destruct (adopt_accounting_refused s3 n (served p)) as (st & g & Hf); [right; by apply Q4|].
    unfold open_durable. rewrite E1, E2, E3. destruct flags as [loaded committed]. cbv beta iota.
    change (default s2 _) with s3. rewrite Hf. by do 2 eexists.
  - split; [by right; left|]. destruct (adopt_accounting_refused s3 n (served p)) as (st & g & Hf).
    { destruct Ha as [[Ha1 Ha]|[Ht HR]]; [left; split; [by apply Q2|exists a; by rewrite Q1]|right; by apply Q4]. }
    unfold open_durable. rewrite E1, E2, E3. destruct flags as [loaded committed]. cbv beta iota.
    change (default s2 _) with s3. rewrite Hf. by do 2 eexists.
Qed.

(** The first opening makes the configured policy durable before it is served. *)
Lemma open_durable_first s g s' :
  (∀ k, dur_sound k s ∧ dur_record k s = None) → open_durable config i s = (Value g, s') →
  reopened config i (cfg_policy config) empty_accounting g ∧ persisted g s'.
Proof.
  intros Hs. destruct config_policy as [Wc Ec].
  destruct (dur_recover RecordKind.Policy s) as (notes1 & s1 & E1 & P1 & P2 & [P3 P4 _ _]); [apply Hs|].
  destruct (dur_recover RecordKind.Accounting s1) as (notes2 & s2 & E2 & P5 & P6 & [P7 P8 _ _]); [by apply P4, Hs|].
  assert (∀ k, dur_sound k s2) as Hs2 by (intros []; [by apply P8|done]).
  assert (dur_record RecordKind.Policy s2 = None) as Hn1 by (rewrite P7, P2 by done; apply Hs).
  assert (dur_record RecordKind.Accounting s2 = None) as Hn2 by (rewrite P6, P3 by done; apply Hs).
  destruct (commit_policy_backed (fresh_governor config i (Some s2)) s2 (fresh_ok _) eq_refl (Hs2 _))
    as [(s3 & F1 & F2 & F3 & F4 & F5 & F6)|(st & F)]; [by rewrite Hn1| |].
  - assert (adopt_policy (fresh_governor config i (Some s2)) (be_load RecordKind.Policy s2)
      = (Value (false, true), with_record_generations (add64 0 1) 0
          (with_policy (cfg_policy config) (pol_epoch (cfg_policy config)) (fresh_governor config i (Some s3))))) as E3.
    { unfold adopt_policy. rewrite dur_load, Hn1 by done. cbn [loaded_record lr_present unusable].
      destruct (commit_policy _) as [[[]|?] g']; [|done]. cbn in F1, F2. rewrite F2, <-Ec. done. }
    destruct (open_settled s s1 s2 s3 notes1 notes2 (false, true) (add64 0 1) (cfg_policy config) empty_accounting)
      as (g0 & E & R1 & R2); try done.
    { intros []; [done|]. by apply F6. }
    { rewrite (ap_record _ _ _ F6), Hn2 by done. split; [done|]. split; [apply empty_sound|done]. }
    { constructor. }
    rewrite E. intros Heq. by injection Heq as -> ->.
  - unfold open_durable. rewrite E1, E2. unfold adopt_policy. rewrite dur_load, Hn1 by done.
    cbn [loaded_record lr_present unusable]. by rewrite F.
Qed.
End opening.
End governor.
