(* ===== verification/GovernorLife.v ===== *)
(** The lives of a governor over one store: operations, restarts, and deaths
    inside an operation.  Nothing committed is lost or committed twice. *)
From stdpp Require Import relations.
From S2P Require Import Prelude Status Core U128 Bytes Policy PolicyValid Accounting Evidence Outcome Codec CodecSpec Engine Planner EngineSpec Fsutil Store StoreSpec Governor BackendSpec GovernorSpec GovernorInv GovernorReach GovernorDurable.
#[local] Open Scope string_scope.
#[local] Open Scope list_scope.
#[local] Open Scope Z_scope.

#[local] Arguments installing : simpl never.

Section governor.
  Context {S : Type} `{DurabilityLaws S}.
  Implicit Types (g : Governor S).

(** *** Along one process *)

(** The store is closed for good, or holds what the governor serves. *)
Definition kept g : Prop := (gv_stopping g = true ∧ gv_store g = None) ∨ ∃ s, persisted g s.

Lemma step_stopped g g' : step g g' → gv_stopping g = true → gv_store g' = gv_store g.
Proof.
  intros [p g0 _|e g0 _|e g0 _|d g0 _|g0|g0] Hs.
  - unfold install_policy. rewrite Hs. by destruct (validate_policy p).
  - unfold advance_epoch. by rewrite Hs.
  - unfold ingest_evidence. rewrite Hs. by destruct (validate_evidence e).
  - unfold commit_decision, check_decision. by rewrite Hs.
  - done.
  - unfold shutdown. by rewrite Hs.
Qed.

Lemma step_kept g g' : step g g' → governor_ok g → kept g → kept g'.
Proof.
  intros Hstep Hg [[Hs Hn]|[s Hp]].
  - left. destruct (adv_stopping _ _ (step_advanced g g' Hstep Hg) Hs) as [? _].
    by rewrite (step_stopped g g' Hstep Hs).
  - destruct Hstep as [p g T|e g He|e g Te|d g Hd|g|g].
    + right. by eapply install_persisted.
    + right. by eapply advance_persisted.
    + right. exists s. by apply ingest_persisted.
    + right. destruct (commit_persisted d g s Hd Hg Hp) as [(s' & _ & [? _])|(st & ->)]; by eexists.
    + right. exists s. by apply clear_persisted.
    + unfold shutdown. destruct (gv_stopping g); [right; by exists s|by left].
Qed.

(** *** Deaths *)

(** The process dies while the store commits the ledger, or the policy. *)
Definition ledger_dies g (s' : S) : Prop :=
  ∃ s, gv_store g = Some s ∧ sizeZ (encode_accounting (gv_accounting g)) <= kMaxDurablePayloadBytes
    ∧ dur_crash RecordKind.Accounting (gv_accounting_record_generation g)
        (add64 (gv_accounting_record_generation g) 1) (encode_accounting (gv_accounting g)) (gv_incarnation g) s s'.

Definition policy_dies g (s' : S) : Prop :=
  ∃ s, gv_store g = Some s ∧ sizeZ (encode_policy (gv_policy g)) <= kMaxDurablePayloadBytes
    ∧ dur_crash RecordKind.Policy (gv_policy_record_generation g)
        (add64 (gv_policy_record_generation g) 1) (encode_policy (gv_policy g)) (gv_incarnation g) s s'.

(** [dies g q s']: the store that a death inside [commit_decision], [advance_epoch] or
    [install_policy] leaves, at any of their durable writes; [q] is the policy that
    recovery may find there besides the one served. *)
Inductive dies : Governor S → FairnessPolicy → S → Prop :=
  | dies_commit d after g s' :
      decision_typed d → check_decision d g = Value tt → apply_decision d g = Value after →
      ledger_dies (with_accounting after g) s' → dies g (gv_policy g) s'
  | dies_advance e g s' :
      u64 e → gv_epoch g < e →
      ledger_dies (with_accounting (retag (acc_policy_generation (gv_accounting g)) e (gv_accounting g))
        (with_policy (gv_policy g) e (clear_staged g))) s' → dies g (gv_policy g) s'
  | dies_install p g s' :
      installable p g → policy_dies (installing p g) s' → dies g p s'
  | dies_install_ledger p g s' :
      installable p g → (commit_policy (installing p g)).1 = Value tt →
      ledger_dies (commit_policy (installing p g)).2 s' → dies g p s'.

(** What recovery can find on such a store. *)
Definition may_serve g (q p : FairnessPolicy) : Prop := p = gv_policy g ∨ p = q ∧ installable q g.

Definition may_hold g (a : FairnessAccounting) : Prop :=
  acc_generation (gv_accounting g) <= acc_generation a
  ∧ acc_last_window (gv_accounting g) <= acc_last_window a.

(** Intact records wait for recovery as they are. *)
Lemma persisted_pending g s :
  persisted g s →
  pending RecordKind.Policy s False (λ r, ∃ p, stored_policy r p ∧ p = gv_policy g)
  ∧ ∃ a, stored (dur_record RecordKind.Accounting s) a ∧ restricts a (gv_accounting g)
      ∧ gv_epoch g = Z.max (pol_epoch (gv_policy g)) (acc_epoch a)
      ∧ pending RecordKind.Accounting s False (λ r, ∃ b, stored r b ∧ b = a).
Proof.
  intros [[_ B2 B3 _] (a & Ha & Hr & He)]. split; [left; split; [done|eauto]|].
  exists a. split_and!; [done..|]. left. split; [done|eauto].
Qed.

Lemma pending_mono k s (T T' : Prop) (Q Q' : option Committed → Prop) :
  (T → T') → (∀ r, Q r → Q' r) → pending k s T Q → pending k s T' Q'.
Proof.
  intros HT HQ [[]|[(b & n & ? & ? & ?)|(? & ? & ?)]]; [left; auto|right; left; exists b, n; auto|right; right; auto].
Qed.

(** A death while the ledger is committed: the policy is intact, the ledger the old
    one or the new one, unless it was the first and is torn. *)
Lemma ledger_dies_pending g s s' a :
  governor_ok g → backed g s → stored (dur_record RecordKind.Accounting s) a → ledger_dies g s' →
  pending RecordKind.Policy s' False (λ r, ∃ p, stored_policy r p ∧ p = gv_policy g)
  ∧ pending RecordKind.Accounting s' (dur_record RecordKind.Accounting s = None)
      (λ r, ∃ b, stored r b ∧ (b = a ∨ b = gv_accounting g)).
Proof.
  intros Hg [B1 B2 B3 _] Ha (s0 & Es & Hsize & Hdies). rewrite B1 in Es. injection Es as <-.
  destruct (go_incarnation _ Hg) as [Hb Ho].
  destruct (dur_crashed _ _ _ _ _ _ _ (B2 _) (wrap64_range _) Hb Ho (encode_accounting_bytes _) Hsize Hdies) as [Ht Hap].
  split.
  - apply (pending_apart _ RecordKind.Accounting s); [done|done|]. left. split; [done|eauto].
  - destruct Ht as [Ht|[Hn Ht]].
    + right; left. eexists _, _. split; [exact Ht|]. split; [by eauto|]. exists (gv_accounting g).
      split; [|by right]. split; [apply wrap64_range|]. split; [apply (go_ledger _ Hg)|done].
    + right; right. split; [done|]. split; [|done]. rewrite Hn in Ha. eauto.
Qed.

Lemma policy_dies_pending g s s' p a :
  governor_ok g → gv_store g = Some s → (∀ k, dur_sound k s) → stored_policy (dur_record RecordKind.Policy s) p →
  stored (dur_record RecordKind.Accounting s) a → policy_dies g s' →
  pending RecordKind.Policy s' False (λ r, ∃ q, stored_policy r q ∧ (q = p ∨ q = gv_policy g))
  ∧ pending RecordKind.Accounting s' False (λ r, ∃ b, stored r b ∧ b = a).
Proof.
  intros Hg B1 B2 B3 Ha (s0 & Es & Hsize & Hdies). rewrite B1 in Es. injection Es as <-.
  destruct (go_incarnation _ Hg) as [Hb Ho].
  destruct (dur_crashed _ _ _ _ _ _ _ (B2 _) (wrap64_range _) Hb Ho (encode_policy_bytes _) Hsize Hdies) as [Ht Hap].
  split.
  - destruct Ht as [Ht|[Hn _]]; [|by destruct B3 as (c & E & _); rewrite E in Hn].
    right; left. eexists _, _. split; [exact Ht|]. split; [by eauto|]. exists (gv_policy g).
    split; [|by right]. eexists. split; [done|]. split; [apply wrap64_range|done].
  - apply (pending_apart _ RecordKind.Policy s); [done|done|]. left. split; [done|eauto].
Qed.

Lemma dies_store g q s' : governor_ok g → dies g q s' → ∃ s, gv_store g = Some s.
Proof.
  intros Hg [? ? ? ? _ _ _ (s & ? & _)|? ? ? _ _ (s & ? & _)|p g' ? _ (s & Hs & _)|p g' ? _ _ (s & Hs & _)];
    [by exists s|by exists s|..].
  - exists s. revert Hs. unfold installing. cbn. by destruct (_ >? _).
  - revert Hs. unfold commit_policy. destruct (gv_store (installing p g')) as [s0|] eqn:E.
    + intros _. exists s0. revert E. unfold installing. cbn. by destruct (_ >? _).
    + intros Hs. cbn in Hs. congruence.
Qed.

(** A ledger the governor computes from its own is one it may be found to hold. *)
Lemma may_hold_own g a : restricts a (gv_accounting g) → may_hold g a.
Proof. intros (E1 & E2 & _)%restricts_fields. unfold may_hold. lia. Qed.

Lemma dies_pending g q s s' :
  governor_ok g → persisted g s → dies g q s' →
  pending RecordKind.Policy s' False (λ r, ∃ p, stored_policy r p ∧ may_serve g q p)
  ∧ pending RecordKind.Accounting s' True (λ r, ∃ a, stored r a ∧ may_hold g a).
Proof.
  intros Hg Hp Hdies. pose proof Hp as [[B1 B2 B3 B4] (a & Ha & Hr & He)].
  pose proof (may_hold_own g a Hr) as Hown.
  assert (∀ r, (∃ p, stored_policy r p ∧ p = gv_policy g) → ∃ p, stored_policy r p ∧ may_serve g q p) as Hsame.
  { intros r (p & ? & ->). eexists. split; [done|by left]. }
  destruct Hdies as [d after g s' Hd Hc Happ Hdie|e g s' Hu Hlt Hdie|p g s' Hin Hdie|p g s' Hin Hcom Hdie].
  - destruct (apply_decision_ok d g after Hg Hd Happ) as [[D1 [D2 _] _ _ _ _ _ _ _] Hg'].
    destruct (check_decision_facts d g Hc) as (_ & _ & _ & _ & _ & _ & _ & _ & Hw & _). pose proof (db_window _ Hd).
    destruct (ledger_dies_pending (with_accounting after g) s s' a Hg' (backed_accounting _ _ _ (ps_backed _ _ Hp)) Ha Hdie)
      as [K1 K2].
    split; [by eapply pending_mono; [|exact Hsame|exact K1]|].
    eapply pending_mono; [done| |exact K2]. intros r (b & Hb & [->| ->]); [eauto|]. exists after. split; [done|].
    unfold may_hold. rewrite D1, D2. split; [lia|]. destruct Hw; ulia.
  - destruct (set_epoch_persisted e g s Hg Hu Hp) as (Hg' & Hb & _); [pose proof (persisted_epoch _ _ Hp); lia|].
    destruct (ledger_dies_pending _ s s' a Hg' Hb Ha Hdie) as [K1 K2].
    split; [by eapply pending_mono; [|exact Hsame|exact K1]|].
    eapply pending_mono; [done| |exact K2]. intros r (b & Hs & [->| ->]); [eauto|]. eexists. split; [done|].
    unfold may_hold. cbn. lia.
  - destruct (installing_ok p g Hg Hin) as (Hg' & (E1 & E2 & E3) & Ep & _).
    destruct (policy_dies_pending (installing p g) s s' (gv_policy g) a Hg') as [K1 K2]; [by rewrite E1|done..|].
    rewrite Ep in K1. split.
    + eapply pending_mono; [done| |exact K1]. intros r (x & Hx & [->| ->]); eexists; (split; [done|]); [by left|by right].
    + eapply pending_mono; [done| |exact K2]. intros r (b & Hs & ->). eauto.
  - destruct (installing_persisted p g s Hg Hin Hp) as [(s1 & _ & Hg2 & Hp2 & Ep & Ea)|(st & E)]; [|by rewrite E in Hcom].
    pose proof Hp2 as [Hb2 (a2 & Ha2 & Hr2 & _)].
    destruct (ledger_dies_pending _ s1 s' a2 Hg2 Hb2 Ha2 Hdie) as [K1 K2]. rewrite Ep in K1. split.
    + eapply pending_mono; [done| |exact K1]. intros r (x & Hx & ->). exists p. split; [done|by right].
    + eapply pending_mono; [done| |exact K2].
      apply (f_equal (λ x, (acc_generation x, acc_last_window x))) in Ea. cbn in Ea. injection Ea as Ea1 Ea2.
      intros r (b & Hs & [->| ->]); eexists; (split; [done|]); unfold may_hold; [|lia].
      apply restricts_fields in Hr2 as (R1 & R2 & _). lia.
Qed.

(** ** Restarts *)

(** A configuration and an incarnation of the right types that name a store. *)
Definition starts (config : GovernorConfig) (i : Incarnation) : Prop :=
  policy_typed (cfg_policy config) ∧ u64 (inc_boot i) ∧ u64 (inc_ordinal i)
  ∧ 0 <= lim_max_staged_snapshots (cfg_limits config) ∧ str_size (cfg_store_path config) <> 0.

(** Any such configuration, of an older, the same or a newer policy, that does not
    fake the digest of a policy it can find on the store. *)
Definition restarts (config : GovernorConfig) (i : Incarnation) g (q : FairnessPolicy) : Prop :=
  starts config i ∧ consistent config (gv_policy g) ∧ consistent config q.

(** One governor after another over the same store. *)
Inductive passes : Governor S → Governor S → Prop :=
  | passes_step g g' : step g g' → passes g g'
  | passes_restart config i g s g' s' :
      gv_store g = Some s → restarts config i g (gv_policy g) →
      open config i (Value s) = (Value g', Value s') → passes g g'
  | passes_death config i g q s g' s' :
      dies g q s → restarts config i g q →
      open config i (Value s) = (Value g', Value s') → passes g g'.

Record succeeds g g' : Prop := {
  su_policy : pol_id (gv_policy g') = pol_id (gv_policy g)
    ∧ pol_generation (gv_policy g) <= pol_generation (gv_policy g');
  su_generation : acc_generation (gv_accounting g) <= acc_generation (gv_accounting g');
  su_window : acc_last_window (gv_accounting g) <= acc_last_window (gv_accounting g') }.

#[global] Instance succeeds_preorder : PreOrder succeeds.
Proof.
  split; [by intros g|]. intros g1 g2 g3 [[A1 A2] A3 A4] [[B1 B2] B3 B4]. constructor; [split; [congruence|]|..]; lia.
Qed.

Lemma open_value config i s g s' :
  str_size (cfg_store_path config) <> 0 → open config i (Value s) = (Value g, Value s') →
  check_config config = Value tt ∧ open_durable config i s = (Value g, s').
Proof.
  intros Hpath. unfold open. destruct (check_config config) as [[]|]; [|done].
  rewrite (proj2 (Z.eqb_neq _ _) Hpath). destruct (open_durable config i s) as [r s0]. intros E. by injection E as -> ->.
Qed.

Lemma reopen_succeeds config i g q s1 g' s' R :
  governor_ok g → restarts config i g q →
  pending RecordKind.Policy s1 False (λ r, ∃ p, stored_policy r p ∧ may_serve g q p) →
  pending RecordKind.Accounting s1 R (λ r, ∃ a, stored r a ∧ may_hold g a) →
  open config i (Value s1) = (Value g', Value s') →
  governor_ok g' ∧ persisted g' s' ∧ succeeds g g'.
Proof.
  intros Hg ((T & Hb & Ho & Hl & Hpath) & Hc1 & Hc2) K1 K2 Hopen.
  apply open_value in Hopen as [Hc Hopen]; [|done].
  destruct (open_durable_run config i Hc T (conj Hb Ho) Hl s1 (may_serve g q) (may_hold g) R False K1 K2)
    as (p & a & Hp & Ha & [(g1 & s2 & E & _ & Hid & _ & HR & Hps)|(_ & st & s2 & E)]); [|..|by rewrite E in Hopen].
  - intros p [->|(-> & Tq & Vq & _)]; [|split; [done|split; [by apply validate_policy_iff|done]]].
    split; [apply (go_typed _ Hg)|]. split; [apply (go_wf _ Hg)|done].
  - rewrite E in Hopen. injection Hopen as -> ->.
    destruct HR as (R1 & _ & _ & _ & _ & R2 & _ & _ & _ & R3). split; [done|]. split; [done|].
    unfold untagged, keep_entries in R2. cbn in R2. injection R2 as R4 R5 R6 R7 R8 R9. destruct Ha as [A1 A2].
    constructor; [|lia|lia]. rewrite R1. unfold served.
    assert (pol_id p = pol_id (gv_policy g) ∧ pol_generation (gv_policy g) <= pol_generation p) as [Q1 Q2].
    { destruct Hp as [->|(-> & _ & _ & ? & ? & _)]; (split; [done|lia]). }
    destruct (pol_generation (cfg_policy config) >? pol_generation p) eqn:Eg; [apply gtb_true_lt in Eg|]; (split; [congruence|lia]).
Qed.

(** Whatever happens, the invariant, the store and the order survive. *)
Lemma passes_ok g g' : passes g g' → governor_ok g → kept g → governor_ok g' ∧ kept g' ∧ succeeds g g'.
Proof.
  intros [g1 g2 Hstep|config i g1 s g2 s' Hs Hr Hopen|config i g1 q s g2 s' Hs Hr Hopen] Hg Hk.
  - split; [by eapply step_ok|]. split; [by eapply step_kept|].
    destruct (step_advanced _ _ Hstep Hg) as [_ _ _ _ (A1 & A2 & _) A3 A4 _]. by constructor.
  - destruct Hk as [[_ ?]|[s0 Hp]]; [congruence|].
    assert (s0 = s) as -> by (pose proof (ba_store _ _ (ps_backed _ _ Hp)); congruence).
    destruct (persisted_pending g1 s Hp) as (K1 & a & Ha & Hra & He & K2).
    destruct (reopen_succeeds config i g1 _ s g2 s' False Hg Hr) as (G1 & G2 & G3);
      [| |exact Hopen|split; [done|]; split; [|done]; right; by eexists].
    + eapply pending_mono; [done| |exact K1]. intros r (p & ? & ->). eexists. split; [done|by left].
    + eapply pending_mono; [done| |exact K2]. intros r (b & ? & ->). eexists. split; [done|]. by eapply may_hold_own.
  - destruct Hk as [[_ ?]|[s0 Hp]]; [by apply dies_store in Hs as [s0 ?]; [congruence|]|].
    destruct (dies_pending g1 q s0 s Hg Hp Hs) as [K1 K2].
    destruct (reopen_succeeds config i g1 q s g2 s' True Hg Hr K1 K2 Hopen) as (G1 & G2 & G3).
    split; [done|]. split; [|done]. right. by eexists.
Qed.

Lemma life_ok g g' : rtc passes g g' → governor_ok g → kept g → governor_ok g' ∧ kept g' ∧ succeeds g g'.
Proof.
  induction 1 as [|g1 g2 g3 Hp _ IH]; intros Hg Hk; [done|].
  destruct (passes_ok _ _ Hp Hg Hk) as (G1 & G2 & G3). destruct (IH G1 G2) as (G4 & G5 & G6).
  split_and!; [done|done|by etrans].
Qed.

(** A configuration that accepts the policy served finds it, over the ledger the
    store holds; unless that cannot be read, or its first record is torn. *)
Lemma reopen_exact config i g s1 Q R :
  governor_ok g → starts config i → accepts config (gv_policy g) → check_config config = Value tt →
  pending RecordKind.Policy s1 False (λ r, ∃ p, stored_policy r p ∧ p = gv_policy g) →
  pending RecordKind.Accounting s1 R (λ r, ∃ a, stored r a ∧ Q a) →
  ∃ a, Q a ∧
    ((ledger_readable a ∧ ∃ g' s', open config i (Value s1) = (Value g', Value s')
        ∧ reopened config i (gv_policy g) a g' ∧ persisted g' s')
     ∨ ((¬ ledger_readable a ∨ R) ∧ ∃ st s', open config i (Value s1) = (Failure st, Value s'))).
Proof.
  intros Hg (T & Hb & Ho & Hl & Hpath) Hacc Hc K1 K2. pose proof Hacc as (_ & Hle & Hsame).
  destruct (open_durable_run config i Hc T (conj Hb Ho) Hl s1 (λ p, p = gv_policy g) Q R False K1 K2)
    as (p & a & -> & Ha & Hor).
  { intros p ->. split; [apply (go_typed _ Hg)|]. split; [apply (go_wf _ Hg)|]. intros E _. by apply Hsame. }
  exists a. split; [done|]. unfold open. rewrite Hc, (proj2 (Z.eqb_neq _ _) Hpath).
  destruct Hor as [(g' & s' & -> & Hr & _ & _ & HR & Hps)|(Hno & st & s' & ->)]; [left|right].
  - split; [done|]. exists g', s'. split; [done|]. split; [|done]. unfold served in HR.
    by rewrite (proj2 (gtb_false_le _ _) Hle) in HR.
  - split; [|by do 2 eexists]. destruct Hno as [Hno|Hno]; [by destruct Hno|done].
Qed.
End governor.
