(* ===== verification/GovernorFixture.v ===== *)
(** A governor opened over an empty directory, with one snapshot staged and the
    decision taken on it: the witnesses of the governor's theorems run here. *)
From stdpp Require Import relations.
From S2P Require Import Prelude Status Core Policy PolicyValid Accounting Evidence Outcome Codec CodecSpec Engine Planner EngineSpec Fixture FixtureSpec Fsutil Store StoreSpec Governor BackendSpec GovernorSpec GovernorEval GovernorInv GovernorReach GovernorDurable GovernorLife Disk.
#[local] Open Scope string_scope.
#[local] Open Scope list_scope.
#[local] Open Scope Z_scope.

Definition sample_incarnation : Incarnation := mk_incarnation 77 1.
Definition sample_config : GovernorConfig := mk_config sample_policy "/var/lib/fg" 1 default_limits true.
Definition empty_disk : Disk := mk_disk (mk_store "/var/lib/fg" no_faults) ∅.

(** The governor and the disk an opening leaves. *)
Definition opening (config : GovernorConfig) (i : Incarnation) (d : Disk) : Governor Disk * Disk :=
  match open config i (Value d) with
  | (Value g, Value d') => (g, d')
  | _ => (fresh_governor config i None, d)
  end.

Definition opened_governor : Governor Disk := (opening sample_config sample_incarnation empty_disk).1.
Definition opened_disk : Disk := (opening sample_config sample_incarnation empty_disk).2.

Definition serving : Governor Disk := (ingest_evidence sample_evidence opened_governor).2.

(** The value of a run that returns one. *)
Definition value_or {A} (otherwise : A) (r : Result A) : A :=
  match r with Value a => a | Failure _ => otherwise end.

Definition no_decision : FairnessDecision :=
  mk_decision no_authority Outcome.Fair no_counts [] [] [] no_correction [] 0.
Definition serving_decision : FairnessDecision :=
  value_or no_decision (evaluate sample_request serving).
Definition committed_governor : Governor Disk := (commit_decision serving_decision serving).2.

Lemma opening_value :
  open sample_config sample_incarnation (Value empty_disk) = (Value opened_governor, Value opened_disk).
Proof. vm_compute. reflexivity. Qed.

Lemma serving_decision_value : evaluate sample_request serving = Value serving_decision.
Proof. vm_compute. reflexivity. Qed.

Lemma serving_commit_value : (commit_decision serving_decision serving).1 = Value tt.
Proof. vm_compute. reflexivity. Qed.

Lemma sample_config_valid : check_config sample_config = Value tt.
Proof. vm_compute. reflexivity. Qed.

Lemma empty_disk_sound k : dur_sound k empty_disk ∧ dur_record k empty_disk = None.
Proof.
  split; [|unfold dur_record; cbn; unfold disk_base; cbn; by rewrite lookup_empty].
  split; [reflexivity|]. split.
  - intros o. unfold disk_base. cbn. by rewrite lookup_empty.
  - unfold quiet. cbn. by rewrite !lookup_empty.
Qed.

Lemma opened_ok : governor_ok opened_governor ∧ persisted opened_governor opened_disk.
Proof.
  assert (str_size (cfg_store_path sample_config) <> 0) as Hpath by (vm_compute; discriminate).
  destruct (open_value _ _ _ _ _ Hpath opening_value) as [_ E].
  destruct (open_durable_first sample_config sample_incarnation sample_config_valid sample_policy_typed
    ltac:(split; concrete) ltac:(concrete) empty_disk _ _ empty_disk_sound E) as [R Hp].
  split; [exact (proj2 (proj2 (proj2 (proj2 (proj2 (proj2 (proj2 (proj2 (proj2 R)))))))))|exact Hp].
Qed.

Lemma serving_ok : governor_ok serving.
Proof. apply ingest_ok; [apply sample_evidence_typed|apply opened_ok]. Qed.

Lemma serving_persisted : persisted serving opened_disk.
Proof. apply ingest_persisted; [apply sample_evidence_typed|apply opened_ok]. Qed.

Lemma serving_room : ledger_room (gv_accounting serving).
Proof.
  constructor; [concrete|..]; apply (bool_decide_unpack _); vm_compute; reflexivity.
Qed.

Lemma serving_bounded : decision_bounded serving_decision.
Proof.
  apply (evaluated_bounded (serving_context sample_request serving serving_ok serving_room) serving_decision_value);
    concrete.
Qed.

(** *** The commit, and a second window *)

Lemma committed_exactly : ∃ s, exactly committed_governor s.
Proof.
  destruct (commit_persisted serving_decision serving opened_disk (proj1 serving_bounded) serving_ok serving_persisted)
    as [(s & _ & Hs)|(st & E)]; [by exists s|].
  exfalso. pose proof serving_commit_value as Hv. rewrite E in Hv. discriminate Hv.
Qed.

Lemma committed_ok : governor_ok committed_governor.
Proof. apply commit_ok; [apply (proj1 serving_bounded)|apply serving_ok]. Qed.

Definition next_evidence : EvidenceSnapshot :=
  mk_snapshot 6 1 10 1 1 1500 2 (mk_producer "probe" 1 1) sample_provenance 0
    [ sample_observation 11 10 0; sample_observation 12 60 0; sample_observation 13 30 0 ].
Definition next_request : EvaluationRequest := mk_request 2 1 1 6 1 10 1 2500 1 0 true true.
Definition next_serving : Governor Disk := (ingest_evidence next_evidence committed_governor).2.
Definition next_decision : FairnessDecision :=
  value_or no_decision (evaluate next_request next_serving).

Lemma next_evidence_typed : evidence_typed next_evidence.
Proof. constructor; try concrete. concrete_list. Qed.

Lemma next_decision_value : evaluate next_request next_serving = Value next_decision.
Proof. vm_compute. reflexivity. Qed.

Lemma next_ok : governor_ok next_serving.
Proof. apply ingest_ok; [apply next_evidence_typed|apply committed_ok]. Qed.

Lemma next_bounded : decision_bounded next_decision.
Proof.
  refine (evaluated_bounded (serving_context next_request next_serving next_ok _) next_decision_value _ _);
    [|concrete|concrete].
  constructor; [concrete|..]; apply (bool_decide_unpack _); vm_compute; reflexivity.
Qed.

(** *** The same in memory *)

Definition memory_governor : Governor Disk :=
  value_or (fresh_governor sample_config sample_incarnation None) (open_in_memory sample_policy sample_incarnation).
Definition memory_serving : Governor Disk := (ingest_evidence sample_evidence memory_governor).2.

Lemma memory_value : open_in_memory sample_policy sample_incarnation = Value memory_governor.
Proof. vm_compute. reflexivity. Qed.

(** The next process, over the disk that the commit left. *)
Definition next_incarnation : Incarnation := mk_incarnation 78 1.

Lemma sample_starts : starts sample_config next_incarnation.
Proof. split_and!; [apply sample_policy_typed|concrete..]. Qed.

Lemma committed_policy : gv_policy committed_governor = sample_policy.
Proof. vm_compute. reflexivity. Qed.

Lemma committed_accepts : accepts sample_config (gv_policy committed_governor).
Proof. rewrite committed_policy. unfold accepts. cbn. split_and!; done. Qed.

Lemma committed_restarts : restarts sample_config next_incarnation committed_governor (gv_policy committed_governor).
Proof. split; [exact sample_starts|]. unfold consistent. rewrite committed_policy. done. Qed.

Lemma committed_readable : ledger_readable (gv_accounting committed_governor).
Proof. apply (bool_decide_unpack _). vm_compute. reflexivity. Qed.

Lemma committed_reopens : ∃ s1 g' s2,
  gv_store committed_governor = Some s1 ∧ gv_incarnation g' = next_incarnation
  ∧ open sample_config next_incarnation (Value s1) = (Value g', Value s2).
Proof.
  destruct committed_exactly as (s1 & Hps & Hst & _). destruct (persisted_pending _ _ Hps) as (K1 & _).
  destruct (reopen_exact sample_config next_incarnation committed_governor s1
    (λ b, b = gv_accounting committed_governor) False committed_ok
    sample_starts committed_accepts sample_config_valid K1)
    as (b & -> & [(_ & g' & s2 & Ho & R & _)|([Hno|[]] & _)]).
  - left. split; [apply (ba_sound _ _ (ps_backed _ _ Hps))|]. exists (gv_accounting committed_governor). by split.
  - exists s1, g', s2. destruct R as (_ & _ & _ & Ri & _).
    split; [exact (ba_store _ _ (ps_backed _ _ Hps))|]. split; [exact Ri|exact Ho].
  - destruct Hno. apply committed_readable.
Qed.

(** The process dies while the ledger of the second window is being committed:
    the temporary is half written. *)
Definition next_after : FairnessAccounting :=
  value_or empty_accounting (apply_decision next_decision committed_governor).
Definition committed_disk : Disk := default empty_disk (gv_store committed_governor).
Definition dead_disk : Disk :=
  let g := with_accounting next_after committed_governor in
  mk_disk (dk_store committed_disk)
    (surviving (commit (dk_store committed_disk) RecordKind.Accounting (gv_accounting_record_generation g)
      (add64 (gv_accounting_record_generation g) 1) (encode_accounting (gv_accounting g)) (gv_incarnation g)
      (mk_world (dk_files committed_disk) [IoOk; IoOk; IoOk; IoTorn 100%nat]))).

Lemma next_after_readable : ledger_readable next_after.
Proof. apply (bool_decide_unpack _). vm_compute. reflexivity. Qed.

Lemma next_after_value : apply_decision next_decision committed_governor = Value next_after.
Proof. vm_compute. reflexivity. Qed.

Lemma committed_disk_exactly : exactly committed_governor committed_disk.
Proof.
  destruct committed_exactly as (s & Hs). unfold committed_disk.
  by rewrite (ba_store _ _ (ps_backed _ _ (exactly_persisted _ _ Hs))).
Qed.

Lemma dead_disk_dies : ledger_dies (with_accounting next_after committed_governor) dead_disk.
Proof.
  exists committed_disk. split; [vm_compute; reflexivity|].
  split; [concrete|]. split; [vm_compute; reflexivity|].
  exists [IoOk; IoOk; IoOk; IoTorn 100%nat], []. split; [constructor|vm_compute; reflexivity].
Qed.

(** *** A decision no evaluation takes *)

(** The same decision but for an unserved streak beyond what the ledger's decoder
    accepts; its digest is its own, so a commit does not tell it apart. *)
Definition with_streak (streak : Z) (st : SubjectFairnessState) : SubjectFairnessState :=
  mk_subject_state (sf_id st) (sf_generation st) (sf_group st) (sf_outcome st) (sf_reason st)
    (sf_has_authority st) (sf_is_protected_obligation st) (sf_obligation_rank st)
    (sf_group_entitlement_units st) (sf_entitlement_units st) (sf_base_entitlement_units st)
    (sf_guarantee_floor_units st) (sf_priority_delta_units st) (sf_applied_modifier_bps st)
    (sf_modifier_clipped st) (sf_served_units st) (sf_deviation_units st) (sf_deficit_units st)
    (sf_surplus_units st) (sf_cumulative_deficit_after st) (sf_cumulative_surplus_after st) streak
    (sf_below_floor_streak st) (sf_starvation_limit_windows st) (sf_guarantee_starvation_limit_windows st)
    (sf_proposed_augment_units st) (sf_proposed_reduce_units st) (sf_unsatisfied_demand_units st)
    (sf_expected_priority st) (sf_observed_priority st) (sf_label st).

Definition beyond_decision : FairnessDecision :=
  let d := mk_decision (fd_authority serving_decision) (fd_outcome serving_decision) (fd_counts serving_decision)
             (with_streak 2000000 <$> fd_subjects serving_decision) (fd_groups serving_decision)
             (fd_intents serving_decision) (fd_correction serving_decision) (fd_notes serving_decision) 0 in
  mk_decision (fd_authority d) (fd_outcome d) (fd_counts d) (fd_subjects d) (fd_groups d) (fd_intents d)
    (fd_correction d) (fd_notes d) (decision_digest d).

(** The very first ledger commit, torn inside its replace. *)
Definition first_after : FairnessAccounting :=
  value_or empty_accounting (apply_decision serving_decision serving).
Lemma first_after_value : apply_decision serving_decision serving = Value first_after.
Proof. vm_compute. reflexivity. Qed.

Lemma first_after_fits : store_takes (with_accounting first_after serving).
Proof. split_and!; [vm_compute; discriminate|vm_compute; discriminate|vm_compute; reflexivity|vm_compute; discriminate]. Qed.

Definition torn_disk : Disk :=
  let g := with_accounting first_after serving in
  mk_disk (dk_store opened_disk)
    (surviving (commit (dk_store opened_disk) RecordKind.Accounting (gv_accounting_record_generation g)
      (add64 (gv_accounting_record_generation g) 1) (encode_accounting (gv_accounting g)) (gv_incarnation g)
      (mk_world (dk_files opened_disk) [IoOk; IoOk; IoTorn 100%nat]))).
