(* ===== verification/Frame.v ===== *)
(** The framed transport protocol of the evidence link: [link/frame.hpp] and
    [src/link/frame.cpp].

    A frame is a fixed 80-byte header and a payload under one checksum.  Decoding
    is in two steps, as in the code: the header alone, then the payload against
    it.  Status codes travel as their 16-bit value. *)
From S2P Require Import Prelude Status Core Bytes Fields.
#[local] Open Scope string_scope.
#[local] Open Scope list_scope.
#[local] Open Scope Z_scope.

Module FrameKind.
Inductive t : Set := Hello | HelloAck | Evidence | EvidenceAck | Goodbye | Error.

Definition value (k : t) : Z :=
  match k with
  | Hello => 1 | HelloAck => 2 | Evidence => 3 | EvidenceAck => 4 | Goodbye => 5 | Error => 6
  end.

Definition name (k : t) : string :=
  match k with
  | Hello => "HELLO" | HelloAck => "HELLO_ACK" | Evidence => "EVIDENCE"
  | EvidenceAck => "EVIDENCE_ACK" | Goodbye => "GOODBYE" | Error => "ERROR"
  end.

(** [known_kind], and the cast that follows it. *)
Definition of_value (raw : Z) : option t :=
  if (raw >=? value Hello) && (raw <=? value Error)
  then nth_error [Hello; HelloAck; Evidence; EvidenceAck; Goodbye; Error] (Z.to_nat (raw - 1))
  else None.

#[global] Instance eq_dec : EqDecision t.
Proof. solve_decision. Defined.
End FrameKind.

(** [FrameFlags]. *)
Definition kFrameFlagNone : Z := 0.
Definition kFrameFlagRequestShutdown : Z := 1.
Definition kFrameFlagUnsupportedEncoding : Z := 2.
Definition kKnownFlags : Z := Z.lor kFrameFlagRequestShutdown kFrameFlagUnsupportedEncoding.

Definition kFrameMagic : Z := 1263290182.
Definition kFrameHeaderSize : Z := 80.
Definition kFrameProtocolVersion : Z := 1.
Definition kMaxFrameDetailBytes : Z := 512.

Record FrameHeader := mk_header {
  fh_kind : FrameKind.t;
  fh_flags : Z;
  fh_payload_length : Z;
  fh_session_id : Z;
  fh_epoch : Z;
  fh_publisher : Z;
  fh_publisher_boot : Z;
  fh_publisher_ordinal : Z;
  fh_sequence : Z;
  fh_frame_checksum : Z }.

Definition with_payload_length (length : Z) (h : FrameHeader) : FrameHeader :=
  mk_header (fh_kind h) (fh_flags h) length (fh_session_id h) (fh_epoch h) (fh_publisher h)
    (fh_publisher_boot h) (fh_publisher_ordinal h) (fh_sequence h) (fh_frame_checksum h).

(** ** Frames *)

(** The fields under the checksum: the first 64 bytes of a header. *)
Definition header_fields (h : FrameHeader) : ByteBuffer :=
  w_u32 kFrameMagic ++ w_u16 kFrameProtocolVersion ++ w_u16 (FrameKind.value (fh_kind h))
  ++ w_u16 (fh_flags h) ++ w_u16 0 ++ w_u32 (fh_payload_length h) ++ w_u64 (fh_session_id h)
  ++ w_u64 (fh_epoch h) ++ w_u64 (fh_publisher h) ++ w_u64 (fh_publisher_boot h)
  ++ w_u64 (fh_publisher_ordinal h) ++ w_u64 (fh_sequence h).

(** [write_header]: the checksum and the reserved tail are left zero. *)
Definition write_header (h : FrameHeader) : ByteBuffer := header_fields h ++ w_u64 0 ++ w_u64 0.

Definition frame_checksum (header payload : ByteBuffer) : Z :=
  fnv1a64 payload (fnv1a64 (take 64 header) kFnvOffsetBasis).

Definition encode_frame (header : FrameHeader) (payload : ByteBuffer) : ByteBuffer :=
  let effective := with_payload_length (wrap32 (sizeZ payload)) header in
  let frame := write_header effective ++ payload in
  let checksum := frame_checksum frame (drop 80 frame) in
  take 64 frame ++ w_u64 checksum ++ drop 72 frame.

Definition decode_frame_header (data : ByteBuffer) (max_payload : Z) : Result FrameHeader :=
  reject (negb (sizeZ data =? kFrameHeaderSize))
    with StatusCode.FrameInvalid, "frame header is not exactly its fixed size" ;;
  reject (negb (field 0 4 data =? kFrameMagic))
    with StatusCode.FrameInvalid, "frame magic mismatch" ;;
  reject (negb (field 4 2 data =? kFrameProtocolVersion))
    with StatusCode.UnsupportedFormat, "unsupported frame protocol version" ;;
  match FrameKind.of_value (field 6 2 data) with
  | None => fail StatusCode.FrameInvalid "unknown frame kind"
  | Some kind =>
      let flags := field 8 2 data in
      reject (negb (Z.land flags (Z.lnot kKnownFlags) =? 0))
        with StatusCode.FrameInvalid, "frame carries unknown flags" ;;
      reject (negb (Z.land flags kFrameFlagUnsupportedEncoding =? 0))
        with StatusCode.Unsupported, "frame requests an unsupported payload encoding" ;;
      reject (negb (field 10 2 data =? 0) || negb (field 72 8 data =? 0))
        with StatusCode.FrameInvalid, "frame reserved fields must be zero" ;;
      let length := field 12 4 data in
      reject (length >? max_payload)
        with StatusCode.FrameTooLarge, "frame payload exceeds the negotiated bound" ;;
      Value (mk_header kind flags length (field 16 8 data) (field 24 8 data) (field 32 8 data)
               (field 40 8 data) (field 48 8 data) (field 56 8 data) (field 64 8 data))
  end.

Definition verify_frame_payload (header : FrameHeader) (payload : ByteBuffer) : Result unit :=
  reject (negb (sizeZ payload =? fh_payload_length header))
    with StatusCode.Truncated, "frame payload length mismatch" ;;
  reject (negb (frame_checksum (header_fields header) payload =? fh_frame_checksum header))
    with StatusCode.ChecksumMismatch, "frame checksum mismatch" ;;
  Value tt.

(** ** Control payloads *)

Record HelloAck := mk_hello_ack {
  ha_code : Z;
  ha_session_id : Z;
  ha_epoch : Z;
  ha_max_payload : Z;
  ha_server_boot : Z;
  ha_server_ordinal : Z;
  ha_policy_id : Z;
  ha_policy_generation : Z;
  ha_accounting_generation : Z;
  ha_detail : string }.

Definition hello_accepted (a : HelloAck) : bool := ha_code a =? StatusCode.value StatusCode.Ok.

Record EvidenceAck := mk_evidence_ack {
  ea_code : Z;
  ea_snapshot : Z;
  ea_generation : Z;
  ea_accounting_generation : Z;
  ea_disposition : Z;
  ea_detail : string }.

Definition evidence_accepted (a : EvidenceAck) : bool :=
  (ea_code a =? StatusCode.value StatusCode.Ok) || (ea_code a =? StatusCode.value StatusCode.Duplicate).

Definition encode_hello_ack (a : HelloAck) : ByteBuffer :=
  w_u16 (ha_code a) ++ w_u64 (ha_session_id a) ++ w_u64 (ha_epoch a) ++ w_u32 (ha_max_payload a)
  ++ w_u64 (ha_server_boot a) ++ w_u64 (ha_server_ordinal a) ++ w_u64 (ha_policy_id a)
  ++ w_u64 (ha_policy_generation a) ++ w_u64 (ha_accounting_generation a) ++ w_blob (ha_detail a).

Definition read_hello_ack : Reader HelloAck :=
  read code := r_u16 in
  read session_id := r_u64 in
  read epoch := r_u64 in
  read max_payload := r_u32 in
  read server_boot := r_u64 in
  read server_ordinal := r_u64 in
  read policy_id := r_u64 in
  read policy_generation := r_u64 in
  read accounting_generation := r_u64 in
  read detail := r_blob kMaxFrameDetailBytes in
  reader_ret (mk_hello_ack code session_id epoch max_payload server_boot server_ordinal policy_id
                policy_generation accounting_generation detail).

Definition decode_hello_ack (bytes : ByteBuffer) : Result HelloAck :=
  match read_hello_ack bytes with
  | Some (ack, []) =>
      reject (ha_code ack >? StatusCode.value StatusCode.Busy)
        with StatusCode.FrameInvalid, "hello acknowledgement carries an unknown status" ;;
      Value ack
  | _ => fail StatusCode.FrameInvalid "hello acknowledgement is malformed"
  end.

Definition encode_evidence_ack (a : EvidenceAck) : ByteBuffer :=
  w_u16 (ea_code a) ++ w_u64 (ea_snapshot a) ++ w_u64 (ea_generation a)
  ++ w_u64 (ea_accounting_generation a) ++ w_u8 (ea_disposition a) ++ w_blob (ea_detail a).

Definition read_evidence_ack : Reader EvidenceAck :=
  read code := r_u16 in
  read snapshot := r_u64 in
  read generation := r_u64 in
  read accounting_generation := r_u64 in
  read disposition := r_u8 in
  read detail := r_blob kMaxFrameDetailBytes in
  reader_ret (mk_evidence_ack code snapshot generation accounting_generation disposition detail).

Definition decode_evidence_ack (bytes : ByteBuffer) : Result EvidenceAck :=
  match read_evidence_ack bytes with
  | Some (ack, []) =>
      reject (ea_code ack >? StatusCode.value StatusCode.Busy)
        with StatusCode.FrameInvalid, "evidence acknowledgement carries an unknown status" ;;
      Value ack
  | _ => fail StatusCode.FrameInvalid "evidence acknowledgement is malformed"
  end.

(** An error frame's payload, written by the server and read by the client. *)
Definition encode_error (code : StatusCode.t) (detail : string) : ByteBuffer :=
  w_u16 (StatusCode.value code)
  ++ w_blob (if str_size detail >? kMaxFrameDetailBytes
             then String.substring 0 (Z.to_nat kMaxFrameDetailBytes) detail else detail).
