(* ===== verification/FrameSpec.v ===== *)
(** Frames round-trip, and a damaged frame is refused: what a header decodes to
    determines the bytes under its checksum. *)
From S2P Require Import Prelude Status Core Bytes Fields CodecSpec Frame.
#[local] Open Scope string_scope.
#[local] Open Scope list_scope.
#[local] Open Scope Z_scope.

(** ** Shapes *)

Lemma length_header_fields h : length (header_fields h) = 64%nat.
Proof. unfold header_fields, w_u16, w_u32, w_u64. rewrite !length_app, !length_store_le. done. Qed.

Lemma header_fields_bytes h : byte_list (header_fields h).
Proof. unfold header_fields. rewrite !byte_list_app. split_and!; apply store_le_bytes. Qed.

(** The header as sent: the length is the payload's. *)
Definition sent_header (h : FrameHeader) (payload : ByteBuffer) : FrameHeader :=
  with_payload_length (wrap32 (sizeZ payload)) h.

Definition sum_of (fields payload : ByteBuffer) : Z := fnv1a64 payload (fnv1a64 fields kFnvOffsetBasis).

Lemma take_fields (fields rest : ByteBuffer) : length fields = 64%nat → take 64 (fields ++ rest) = fields.
Proof. intros <-. apply take_app_length. Qed.

Lemma encode_frame_shape h payload :
  let fields := header_fields (sent_header h payload) in
  encode_frame h payload = fields ++ w_u64 (sum_of fields payload) ++ w_u64 0 ++ payload.
Proof.
  cbv zeta. unfold encode_frame, write_header, frame_checksum, sum_of. fold (sent_header h payload).
  set (fields := header_fields (sent_header h payload)).
  assert (length fields = 64%nat) as Hl by apply length_header_fields.
  rewrite <-!app_assoc, !take_fields by done. f_equal.
Qed.

Lemma length_encode_frame h payload : length (encode_frame h payload) = (80 + length payload)%nat.
Proof.
  rewrite encode_frame_shape. unfold w_u64. rewrite !length_app, length_header_fields, !length_store_le. lia.
Qed.

Lemma sum_of_range fields payload : u64 (sum_of fields payload).
Proof. apply fnv1a64_range, fnv1a64_range. unfold kFnvOffsetBasis. ulia. Qed.

(** ** Round trips *)

(** Fields within their width, and flags the protocol knows and supports. *)
Record header_ok (h : FrameHeader) : Prop := {
  hk_flags : fh_flags h = kFrameFlagNone ∨ fh_flags h = kFrameFlagRequestShutdown;
  hk_session : u64 (fh_session_id h);
  hk_epoch : u64 (fh_epoch h);
  hk_publisher : u64 (fh_publisher h);
  hk_boot : u64 (fh_publisher_boot h);
  hk_ordinal : u64 (fh_publisher_ordinal h);
  hk_sequence : u64 (fh_sequence h) }.

Lemma kind_of_value k : FrameKind.of_value (FrameKind.value k) = Some k.
Proof. by destruct k. Qed.

Lemma kind_value_of raw k : FrameKind.of_value raw = Some k → FrameKind.value k = raw.
Proof.
  unfold FrameKind.of_value. destruct ((raw >=? _) && (raw <=? _)) eqn:E; [|done].
  apply andb_true_iff in E as [H1 H2]. rewrite Z.geb_leb in H1. cbn in H1, H2. reflect_bools.
  assert (raw = 1 ∨ raw = 2 ∨ raw = 3 ∨ raw = 4 ∨ raw = 5 ∨ raw = 6) as Hr by lia.
  destruct Hr as [->|[->|[->|[->|[->| ->]]]]]; cbn; by intros [= <-].
Qed.

Lemma encoded_fields h payload rest :
  header_ok h → sizeZ payload <= U32_MAX →
  let data := header_fields (sent_header h payload) ++ rest in
  field 0 4 data = kFrameMagic ∧ field 4 2 data = kFrameProtocolVersion
  ∧ field 6 2 data = FrameKind.value (fh_kind h) ∧ field 8 2 data = fh_flags h ∧ field 10 2 data = 0
  ∧ field 12 4 data = sizeZ payload ∧ field 16 8 data = fh_session_id h ∧ field 24 8 data = fh_epoch h
  ∧ field 32 8 data = fh_publisher h ∧ field 40 8 data = fh_publisher_boot h
  ∧ field 48 8 data = fh_publisher_ordinal h ∧ field 56 8 data = fh_sequence h.
Proof.
  intros [Hf H1 H2 H3 H4 H5 H6] Hs data. destruct (wrap32_size payload Hs) as [Hu Hw].
  assert (u16 (FrameKind.value (fh_kind h))) by (destruct (fh_kind h); unfold u16; cbn; lia).
  assert (u16 (fh_flags h)) by (destruct Hf as [-> | ->]; unfold u16, kFrameFlagNone, kFrameFlagRequestShutdown; lia).
  unfold data, header_fields, sent_header, with_payload_length, kFrameMagic, kFrameProtocolVersion.
  cbn [fh_kind fh_flags fh_payload_length fh_session_id fh_epoch fh_publisher fh_publisher_boot fh_publisher_ordinal
    fh_sequence]. rewrite Hw, <-!app_assoc.
  split_and!; read_field; reflexivity.
Qed.

Definition with_checksum (c : Z) (h : FrameHeader) : FrameHeader :=
  mk_header (fh_kind h) (fh_flags h) (fh_payload_length h) (fh_session_id h) (fh_epoch h) (fh_publisher h)
    (fh_publisher_boot h) (fh_publisher_ordinal h) (fh_sequence h) c.

(** What arrives of a frame: the header as sent, with its checksum. *)
Definition received_header (h : FrameHeader) (payload : ByteBuffer) : FrameHeader :=
  with_checksum (sum_of (header_fields (sent_header h payload)) payload) (sent_header h payload).

Lemma frame_header_part h payload :
  take 80 (encode_frame h payload)
  = header_fields (sent_header h payload) ++ w_u64 (sum_of (header_fields (sent_header h payload)) payload) ++ w_u64 0
  ∧ drop 80 (encode_frame h payload) = payload.
Proof.
  rewrite encode_frame_shape. set (fields := header_fields (sent_header h payload)). set (c := sum_of fields payload).
  assert (length (fields ++ w_u64 c ++ w_u64 0) = 80%nat) as E.
  { rewrite !length_app. unfold fields, w_u64. by rewrite length_header_fields, !length_store_le. }
  replace (fields ++ w_u64 c ++ w_u64 0 ++ payload) with ((fields ++ w_u64 c ++ w_u64 0) ++ payload)
    by by rewrite <-!app_assoc.
  rewrite <-E. by rewrite take_app_length, drop_app_length.
Qed.

Lemma decode_encode_frame h payload max_payload :
  header_ok h → sizeZ payload <= max_payload → max_payload <= U32_MAX →
  decode_frame_header (take 80 (encode_frame h payload)) max_payload = Value (received_header h payload)
  ∧ verify_frame_payload (received_header h payload) payload = Value tt.
Proof.
  intros Hh Hs Hm. destruct (frame_header_part h payload) as [-> _].
  set (fields := header_fields (sent_header h payload)). set (c := sum_of fields payload).
  assert (u64 c) as Hc by apply sum_of_range.
  destruct (encoded_fields h payload (w_u64 c ++ w_u64 0) Hh ltac:(lia))
    as (F1 & F2 & F3 & F4 & F5 & F6 & F7 & F8 & F9 & F10 & F11 & F12).
  fold fields in F1, F2, F3, F4, F5, F6, F7, F8, F9, F10, F11, F12.
  assert (length fields = 64%nat) as Hl by apply length_header_fields.
  assert (field 64 8 (fields ++ w_u64 c ++ w_u64 0) = c) as F13.
  { rewrite field_skip, Hl by lia. cbn [Nat.sub]. rewrite field_here by apply length_store_le.
    unfold w_u64. apply load_store_le. word_range. }
  assert (field 72 8 (fields ++ w_u64 c ++ w_u64 0) = 0) as F14.
  { rewrite field_skip, Hl by lia. cbn [Nat.sub]. unfold w_u64 at 1.
    rewrite field_skip, length_store_le by (rewrite length_store_le; lia). cbn [Nat.sub].
    rewrite <-(app_nil_r (w_u64 0)), field_here by apply length_store_le. unfold w_u64. apply load_store_le. word_range. }
  assert (sizeZ (fields ++ w_u64 c ++ w_u64 0) = 80) as F15.
  { unfold sizeZ, w_u64. rewrite !length_app, Hl, !length_store_le. lia. }
  destruct (wrap32_size payload ltac:(lia)) as [_ Hw]. split.
  - unfold decode_frame_header. rewrite F1, F2, F3, F4, F5, F6, F7, F8, F9, F10, F11, F12, F13, F14, F15, kind_of_value.
    assert (Z.land (fh_flags h) (Z.lnot kKnownFlags) = 0 ∧ Z.land (fh_flags h) kFrameFlagUnsupportedEncoding = 0) as [L1 L2]
      by (by destruct (hk_flags _ Hh) as [-> | ->]).
    rewrite L1, L2. autorewrite with guards. split_and!; try done.
    unfold received_header. fold fields c. clearbody c. unfold with_checksum, sent_header, with_payload_length.
    cbn. by rewrite Hw.
  - unfold verify_frame_payload.
    assert (header_fields (received_header h payload) = fields) as -> by reflexivity.
    assert (fh_payload_length (received_header h payload) = sizeZ payload) as -> by exact Hw.
    assert (fh_frame_checksum (received_header h payload) = c) as -> by reflexivity.
    unfold frame_checksum. rewrite <-Hl, firstn_all. fold (sum_of fields payload) c. by rewrite !Z.eqb_refl.
Qed.

(** ** Damage *)

(** What an accepted header says about its bytes. *)
Lemma decode_header_checks data max_payload h :
  decode_frame_header data max_payload = Value h →
  sizeZ data = 80 ∧ field 0 4 data = kFrameMagic ∧ field 4 2 data = kFrameProtocolVersion
  ∧ field 10 2 data = 0 ∧ field 72 8 data = 0 ∧ fh_payload_length h <= max_payload
  ∧ FrameKind.value (fh_kind h) = field 6 2 data ∧ fh_flags h = field 8 2 data
  ∧ fh_payload_length h = field 12 4 data ∧ fh_session_id h = field 16 8 data ∧ fh_epoch h = field 24 8 data
  ∧ fh_publisher h = field 32 8 data ∧ fh_publisher_boot h = field 40 8 data
  ∧ fh_publisher_ordinal h = field 48 8 data ∧ fh_sequence h = field 56 8 data
  ∧ fh_frame_checksum h = field 64 8 data.
Proof.
  unfold decode_frame_header. intros Hd.
  apply reject_value in Hd as [H1 Hd]. apply reject_value in Hd as [H2 Hd]. apply reject_value in Hd as [H3 Hd].
  destruct (FrameKind.of_value _) as [k|] eqn:Ek; [|done]. cbv zeta in Hd.
  apply reject_value in Hd as [_ Hd]. apply reject_value in Hd as [_ Hd].
  apply reject_value in Hd as [H6 Hd]. apply reject_value in Hd as [H7 Hd].
  apply (inj Value) in Hd as <-. apply kind_value_of in Ek. apply orb_false_iff in H6 as [H6 H8].
  rewrite negb_false_iff, Z.eqb_eq in H1, H2, H3, H6, H8. apply gtb_false_le in H7.
  by split_and!.
Qed.

Lemma store_field offset width l :
  byte_list l → (offset + width <= length l)%nat →
  store_le width (field offset width l) = take width (drop offset l).
Proof.
  intros Hl Hlen. unfold field.
  assert (length (take width (drop offset l)) = width) as E by (rewrite length_take, length_drop; lia).
  rewrite <-E at 1. apply store_load_le. by apply Forall_take, Forall_drop.
Qed.

Lemma take_split {A} a b o (l : list A) : take (a + b) (drop o l) = take a (drop o l) ++ take b (drop (o + a) l).
Proof. rewrite <-take_take_drop. by rewrite drop_drop. Qed.

(** An accepted header determines the 64 bytes under the checksum. *)
Lemma header_fields_canonical data max_payload h :
  byte_list data → decode_frame_header data max_payload = Value h → header_fields h = take 64 data.
Proof.
  intros Hb Hd. destruct (decode_header_checks _ _ _ Hd)
    as (Hs & F1 & F2 & F3 & _ & _ & F4 & F5 & F6 & F7 & F8 & F9 & F10 & F11 & F12 & _).
  assert (length data = 80%nat) as Hl by (unfold sizeZ in Hs; lia).
  unfold header_fields, w_u16, w_u32, w_u64.
  rewrite <-F1, <-F2, <-F3, F4, F5, F6, F7, F8, F9, F10, F11, F12, !store_field by (done || (rewrite Hl; lia)).
  rewrite <-(drop_0 data) at 13.
  change 64%nat with (4 + (2 + (2 + (2 + (2 + (4 + (8 + (8 + (8 + (8 + (8 + 8)))))))))))%nat.
  by rewrite !take_split.
Qed.

(** The whole frame is accepted: its header, then its payload against it. *)
Definition accepted (bytes : ByteBuffer) (max_payload : Z) (h : FrameHeader) : Prop :=
  decode_frame_header (take 80 bytes) max_payload = Value h ∧ verify_frame_payload h (drop 80 bytes) = Value tt.

Lemma accepted_checks bytes max_payload h :
  byte_list bytes → accepted bytes max_payload h →
  (80 <= length bytes)%nat ∧ field 72 8 bytes = 0 ∧ sizeZ bytes = 80 + field 12 4 bytes
  ∧ sum_of (take 64 bytes) (drop 80 bytes) = field 64 8 bytes.
Proof.
  intros Hb [Hd Hv]. assert (byte_list (take 80 bytes)) as Hb80 by by apply Forall_take.
  pose proof (header_fields_canonical _ _ _ Hb80 Hd) as Hf.
  destruct (decode_header_checks _ _ _ Hd) as (Hs & _ & _ & _ & F & _ & _ & _ & Fl & _ & _ & _ & _ & _ & _ & Fc).
  unfold sizeZ in Hs. rewrite length_take in Hs. assert (80 <= length bytes)%nat as Hl by lia.
  rewrite field_take in F, Fl, Fc by lia. rewrite take_take in Hf. change (64 `min` 80)%nat with 64%nat in Hf.
  unfold verify_frame_payload in Hv. apply reject_value in Hv as [H1 Hv]. apply reject_value in Hv as [H2 _].
  rewrite negb_false_iff, Z.eqb_eq in H1, H2. rewrite Fl in H1. rewrite Fc, Hf in H2.
  unfold frame_checksum in H2. rewrite take_take in H2. change (64 `min` 64)%nat with 64%nat in H2.
  unfold sizeZ in *. rewrite length_drop in H1. split_and!; [done|done|lia|done].
Qed.

(** One wrong byte anywhere in a frame and it is refused. *)
Lemma accepted_single_byte bytes m h i b b' m' h' :
  byte_list bytes → accepted bytes m h → bytes !! i = Some b → u8 b' → b <> b' →
  ¬ accepted (<[i:=b']> bytes) m' h'.
Proof.
  intros Hb Ha Hi Hb' Hne Ha'.
  assert (byte_list (<[i:=b']> bytes)) as Hbb by by apply Forall_insert.
  destruct (accepted_checks _ _ _ Hb Ha) as (Hl & Hz & _ & Hc).
  destruct (accepted_checks _ _ _ Hbb Ha') as (_ & Hz' & _ & Hc'). clear Ha Ha'.
  pose proof (lookup_lt_Some _ _ _ Hi) as Hlt. assert (u8 b) as Hub by by eapply Forall_lookup in Hi.
  assert (u64 kFnvOffsetBasis) as Hbasis by (unfold kFnvOffsetBasis; ulia). unfold sum_of in *.
  destruct (decide (i < 64)%nat) as [H1|H1]; [|destruct (decide (i < 80)%nat) as [H2|H2]].
  - rewrite field_insert_outside, <-Hc, drop_insert_lt, take_insert_lt in Hc' by lia.
    apply fnv1a64_seed_inj in Hc'; [|by apply Forall_drop|by apply fnv1a64_range..].
    revert Hc'. rewrite <-(app_nil_r (take 64 bytes)), <-(app_nil_r (<[i:=b']> _)).
    rewrite (app_nil_r (take 64 bytes)) at 1.
    apply (checksum_insert i b b'); [by apply Forall_take|constructor| |done..]. by rewrite lookup_take_lt by lia.
  - assert (∀ o, field o 8 (<[i:=b']> bytes) = field o 8 bytes → (o <= i < o + 8)%nat → (o + 8 <= length bytes)%nat → False) as Hw.
    { intros o Hf Ho Ho8. apply field_inj in Hf; [|done|done|done|by rewrite length_insert].
      apply (f_equal (λ m, m !! (i - o)%nat)) in Hf.
      rewrite !lookup_take_lt, !lookup_drop in Hf by lia. replace (o + (i - o))%nat with i in Hf by lia.
      rewrite list_lookup_insert_eq in Hf by done. congruence. }
    destruct (decide (i < 72)%nat) as [H3|H3].
    + rewrite drop_insert_lt, take_insert_ge in Hc' by lia. rewrite Hc in Hc'. apply (Hw 64%nat); [by symmetry|lia..].
    + apply (Hw 72%nat); [congruence|lia..].
  - rewrite field_insert_outside, <-Hc, drop_insert_ge, take_insert_ge in Hc' by lia.
    revert Hc'. assert (drop 80 bytes !! (i - 80)%nat = Some b) as Hd.
    { rewrite lookup_drop. by replace (80 + (i - 80))%nat with i by lia. }
    pose proof (lookup_lt_Some _ _ _ Hd). rewrite insert_take_drop by done.
    rewrite <-(take_drop_middle _ _ _ Hd) at 3. intros E. symmetry in E. revert E.
    apply fnv1a64_single_byte; [by apply fnv1a64_range|done|done| |done]. by apply Forall_drop, Forall_drop.
Qed.

(** A frame cut short anywhere is refused. *)
Lemma accepted_cut bytes m h k m' h' :
  byte_list bytes → accepted bytes m h → (k < length bytes)%nat → ¬ accepted (take k bytes) m' h'.
Proof.
  intros Hb Ha Hk Ha'. destruct (accepted_checks _ _ _ Hb Ha) as (_ & _ & Hs & _).
  assert (byte_list (take k bytes)) as Hbk by by apply Forall_take.
  destruct (accepted_checks _ _ _ Hbk Ha') as (Hl & _ & Hs' & _).
  unfold sizeZ in *. rewrite length_take_le in Hl, Hs' by lia. rewrite field_take in Hs' by lia. lia.
Qed.

Lemma encode_frame_bytes h payload : byte_list payload → byte_list (encode_frame h payload).
Proof.
  intros Hp. rewrite encode_frame_shape, !byte_list_app.
  split_and!; [apply header_fields_bytes|apply store_le_bytes|apply store_le_bytes|done].
Qed.

Lemma encode_frame_accepted h payload max_payload :
  header_ok h → sizeZ payload <= max_payload → max_payload <= U32_MAX →
  accepted (encode_frame h payload) max_payload (received_header h payload).
Proof.
  intros Hh Hs Hm. unfold accepted. destruct (frame_header_part h payload) as [_ ->]. by apply decode_encode_frame.
Qed.

(** ** Acknowledgements *)

Record hello_ack_ok (a : HelloAck) : Prop := {
  hao_code : 0 <= ha_code a <= StatusCode.value StatusCode.Busy;
  hao_session : u64 (ha_session_id a); hao_epoch : u64 (ha_epoch a); hao_max : u32 (ha_max_payload a);
  hao_boot : u64 (ha_server_boot a); hao_ordinal : u64 (ha_server_ordinal a); hao_policy : u64 (ha_policy_id a);
  hao_policy_generation : u64 (ha_policy_generation a); hao_accounting : u64 (ha_accounting_generation a);
  hao_detail : str_size (ha_detail a) <= kMaxFrameDetailBytes }.

Record evidence_ack_ok (a : EvidenceAck) : Prop := {
  eao_code : 0 <= ea_code a <= StatusCode.value StatusCode.Busy;
  eao_snapshot : u64 (ea_snapshot a); eao_generation : u64 (ea_generation a);
  eao_accounting : u64 (ea_accounting_generation a); eao_disposition : u8 (ea_disposition a);
  eao_detail : str_size (ea_detail a) <= kMaxFrameDetailBytes }.

Lemma detail_short s : str_size s <= kMaxFrameDetailBytes → str_size s <= kMaxFrameDetailBytes ∧ u32 (str_size s).
Proof. unfold kMaxFrameDetailBytes. pose proof (str_size_nonneg s). ulia. Qed.

Lemma decode_encode_hello_ack a : hello_ack_ok a → decode_hello_ack (encode_hello_ack a) = Value a.
Proof.
  intros [Hc ? ? ? ? ? ? ? ? Hd]. apply detail_short in Hd. cbn in Hc. assert (u16 (ha_code a)) by (unfold u16; lia).
  unfold decode_hello_ack. rewrite <-(app_nil_r (encode_hello_ack a)). unfold encode_hello_ack, read_hello_ack.
  read_fields. cbn [ha_code]. rewrite (proj2 (gtb_false_le _ _)) by (cbn; lia). by destruct a.
Qed.

Lemma decode_encode_evidence_ack a : evidence_ack_ok a → decode_evidence_ack (encode_evidence_ack a) = Value a.
Proof.
  intros [Hc ? ? ? ? Hd]. apply detail_short in Hd. cbn in Hc. assert (u16 (ea_code a)) by (unfold u16; lia).
  unfold decode_evidence_ack. rewrite <-(app_nil_r (encode_evidence_ack a)). unfold encode_evidence_ack, read_evidence_ack.
  read_fields. cbn [ea_code]. rewrite (proj2 (gtb_false_le _ _)) by (cbn; lia). by destruct a.
Qed.
