(* ===== verification/Socket.v ===== *)
(** The socket routines of [src/link/link.cpp]: [read_exact], [read_frame] and
    [write_all].

    A socket is what the operating system answers to the calls made on it, in
    order.  On the receiving side these are the [arrival]s: bytes, of which a
    [recv] takes at most what it asked for, a poll interval that passes with
    nothing to read, an error, and the point from which the server's stop flag
    reads true.  A list that has ended is a peer that has closed.  The sending side
    is a script of [send] outcomes; when it has ended the rest goes out whole. *)
From S2P Require Import Prelude Status Core Bytes Fields Frame.
#[local] Open Scope string_scope.
#[local] Open Scope list_scope.
#[local] Open Scope Z_scope.

Inductive arrival : Type :=
  | Arrived (bytes : ByteBuffer)
  | Idle
  | Fault
  | StopSet.

(** A [send] of nothing is an error or a would-block, as [errno] says. *)
Inductive departure : Type :=
  | Wrote (count_less_one : nat)
  | SendBlocked
  | SendFailed.

(** [stop.load()]: once set it stays set. *)
Definition stop_loaded (w : list arrival) : bool :=
  match w with StopSet :: _ => true | _ => false end.

Definition socket_error {A} (what : string) : Result A :=
  fail StatusCode.TransportError (what +:+ " failed").

(** ** Receiving *)

(** Where a receive loop leaves off. *)
Inductive loop_end : Set := Filled | Stopped | Shut | Stalled | Broken.

(** The loop of [read_exact], and of the header in [read_frame]: receive until
    [size] bytes are there, loading the stop flag before every [recv] and counting
    the idle polls since the last byte. *)
Fixpoint recv_loop (size : nat) (idle_polls idle : Z) (got : ByteBuffer) (w : list arrival)
    : loop_end * ByteBuffer * list arrival :=
  if (size <=? length got)%nat then (Filled, got, w)
  else
    match w with
    | [] => (Shut, got, [])
    | StopSet :: _ => (Stopped, got, w)
    | Idle :: w' =>
        let idle := wrap32 (idle + 1) in
        if idle >? idle_polls then (Stalled, got, w') else recv_loop size idle_polls idle got w'
    | Fault :: w' => (Broken, got, w')
    | Arrived bytes :: w' =>
        let wanted := (size - length got)%nat in
        if (length bytes =? 0)%nat then (Shut, got, w')
        else if (length bytes <=? wanted)%nat then recv_loop size idle_polls 0 (got ++ bytes) w'
        else (Filled, got ++ take wanted bytes, Arrived (drop wanted bytes) :: w')
    end.

Module ReadOutcome.
Inductive t : Set := Complete | Timeout | Closed | Error.
End ReadOutcome.

Definition read_exact (size : nat) (idle_polls : Z) (w : list arrival)
    : ReadOutcome.t * ByteBuffer * list arrival :=
  let '(ended, out, w) := recv_loop size idle_polls 0 [] w in
  (match ended with
   | Filled => ReadOutcome.Complete
   | Stopped | Shut => ReadOutcome.Closed
   | Stalled => ReadOutcome.Timeout
   | Broken => ReadOutcome.Error
   end, out, w).

Record InboundFrame := mk_inbound { if_header : FrameHeader; if_payload : ByteBuffer }.

(** Returns the frame or its refusal, [closed] (false on entry), and what is left
    of the arrivals. *)
Definition read_frame (max_payload idle_polls : Z) (w : list arrival)
    : Result InboundFrame * bool * list arrival :=
  let '(ended, header_bytes, w) := recv_loop 80 idle_polls 0 [] w in
  match ended with
  | Stopped => (fail StatusCode.LinkClosed "link is stopping", true, w)
  | Shut =>
      (if (length header_bytes =? 0)%nat
       then fail StatusCode.LinkClosed "peer closed the link between frames"
       else fail StatusCode.Truncated "peer closed the link inside a frame header", true, w)
  | Stalled => (fail StatusCode.IdleTimeout "peer went idle inside a frame header", true, w)
  | Broken => (socket_error "recv", true, w)
  | Filled =>
      match decode_frame_header header_bytes max_payload with
      | Failure st => (Failure st, false, w)
      | Value header =>
          let size := Z.to_nat (fh_payload_length header) in
          let '(outcome, payload, w) :=
            if (size =? 0)%nat then (ReadOutcome.Complete, [], w)
            else read_exact size idle_polls w in
          match outcome with
          | ReadOutcome.Complete =>
              (let? _ := verify_frame_payload header payload in Value (mk_inbound header payload),
               false, w)
          | ReadOutcome.Timeout =>
              (fail StatusCode.IdleTimeout "frame payload was truncated or stalled", false, w)
          | ReadOutcome.Closed =>
              (fail StatusCode.Truncated "frame payload was truncated or stalled", true, w)
          | ReadOutcome.Error =>
              (fail StatusCode.Truncated "frame payload was truncated or stalled", false, w)
          end
      end
  end.

(** ** Sending *)

(** The result, the bytes that went out, and what is left of the script. *)
Fixpoint write_all (data : ByteBuffer) (script : list departure)
    : Result unit * ByteBuffer * list departure :=
  if (length data =? 0)%nat then (Value tt, [], script)
  else
    match script with
    | [] => (Value tt, data, [])
    | Wrote n :: script' =>
        let '(status, out, script') := write_all (drop (S n) data) script' in
        (status, take (S n) data ++ out, script')
    | SendBlocked :: script' => write_all data script'
    | SendFailed :: script' => (socket_error "send", [], script')
    end.
