(* ===== verification/SocketSpec.v ===== *)
(** What the socket routines promise: a frame is reassembled from any division of
    the stream into chunks, and a frame that does not arrive whole is never
    delivered. *)
From S2P Require Import Prelude Status Core Bytes Fields CodecSpec Frame FrameSpec Socket.
#[local] Open Scope string_scope.
#[local] Open Scope list_scope.
#[local] Open Scope Z_scope.

(** ** Deliveries *)

(** Chunks, each after some idle polls. *)
Abbreviation Delivery := (list (nat * ByteBuffer)) (only parsing).

Definition arrivals_of (d : Delivery) : list arrival :=
  d ≫= λ p, replicate p.1 Idle ++ [Arrived p.2].
Definition bytes_of (d : Delivery) : ByteBuffer := d ≫= snd.

(** No empty chunk, and no pause longer than the reader tolerates. *)
Definition timely (idle_polls : Z) (d : Delivery) : Prop :=
  Forall (λ p, Z.of_nat p.1 <= idle_polls ∧ p.2 <> []) d.

Lemma arrivals_of_cons pauses chunk (d : Delivery) rest :
  arrivals_of ((pauses, chunk) :: d) ++ rest
  = replicate pauses Idle ++ Arrived chunk :: arrivals_of d ++ rest.
Proof. unfold arrivals_of. cbn. by rewrite <-!app_assoc. Qed.

Lemma recv_loop_filled size idle_polls idle got w :
  (size <= length got)%nat → recv_loop size idle_polls idle got w = (Filled, got, w).
Proof. intros Hl. destruct w; cbn; by rewrite (proj2 (Nat.leb_le _ _)). Qed.

Lemma recv_loop_pauses size idle_polls idle got pauses w :
  (length got < size)%nat → 0 <= idle → idle + Z.of_nat pauses <= idle_polls → idle_polls <= U32_MAX →
  recv_loop size idle_polls idle got (replicate pauses Idle ++ w)
  = recv_loop size idle_polls (idle + Z.of_nat pauses) got w.
Proof.
  intros Hl. revert idle. induction pauses as [|pauses IH]; intros idle Hi Hs Hm; [cbn; f_equal; lia|].
  cbn [replicate app recv_loop]. rewrite (proj2 (Nat.leb_gt _ _)) by done.
  assert (wrap32 (idle + 1) = idle + 1) as -> by (unfold wrap32, U32_MAX in *; apply Z.mod_small; lia).
  rewrite (proj2 (gtb_false_le _ _)), IH by lia. f_equal. lia.
Qed.

(** Reading [size] bytes of a timely delivery returns exactly the next [size]
    bytes, and leaves a timely delivery of the others. *)
Lemma recv_loop_delivery size idle_polls got (d : Delivery) rest :
  0 <= idle_polls <= U32_MAX → timely idle_polls d → (length got <= size)%nat →
  (size <= length got + length (bytes_of d))%nat →
  ∃ d' : Delivery,
    recv_loop size idle_polls 0 got (arrivals_of d ++ rest)
    = (Filled, got ++ take (size - length got) (bytes_of d), arrivals_of d' ++ rest)
    ∧ timely idle_polls d' ∧ bytes_of d' = drop (size - length got) (bytes_of d).
Proof.
  intros Hm Hd. revert got. induction Hd as [|[pauses chunk] d [Hp Hc] Hd IH]; intros got Hg Hs.
  { cbn in Hs. exists []. rewrite recv_loop_filled by lia. unfold bytes_of. cbn [mbind list_bind].
    rewrite take_nil, drop_nil, app_nil_r. split_and!; [done|constructor|done]. }
  change (bytes_of ((pauses, chunk) :: d)) with (chunk ++ bytes_of d) in *. rewrite length_app in Hs. cbn in Hp, Hc.
  destruct (decide (length got = size)) as [E|Hlt].
  { exists ((pauses, chunk) :: d). rewrite recv_loop_filled, E, Nat.sub_diag, drop_0, app_nil_r by lia.
    split_and!; [done|by constructor|done]. }
  rewrite arrivals_of_cons, recv_loop_pauses by lia. cbn [recv_loop].
  rewrite (proj2 (Nat.leb_gt _ _)), (proj2 (Nat.eqb_neq _ _)) by (rewrite ?length_zero_iff_nil; done || lia).
  destruct (Nat.leb_spec (length chunk) (size - length got)) as [Hle|Hgt].
  - destruct (IH (got ++ chunk)) as (d' & -> & Ht & Hb); rewrite ?length_app in *; [lia|lia|].
    exists d'. replace (size - (length got + length chunk))%nat with (size - length got - length chunk)%nat in * by lia.
    rewrite take_app_ge, drop_app_ge, <-app_assoc by lia. done.
  - exists ((0%nat, drop (size - length got) chunk) :: d).
    rewrite take_app_le, drop_app_le by lia. split_and!; [by rewrite arrivals_of_cons| |done].
    constructor; [|done]. cbn. split; [lia|]. intros E. apply (f_equal length) in E. rewrite length_drop in E.
    cbn in E. lia.
Qed.

Lemma read_exact_delivery size idle_polls (d : Delivery) rest :
  0 <= idle_polls <= U32_MAX → timely idle_polls d → (size <= length (bytes_of d))%nat →
  ∃ d' : Delivery,
    read_exact size idle_polls (arrivals_of d ++ rest)
    = (ReadOutcome.Complete, take size (bytes_of d), arrivals_of d' ++ rest)
    ∧ timely idle_polls d' ∧ bytes_of d' = drop size (bytes_of d).
Proof.
  intros Hm Hd Hs. destruct (recv_loop_delivery size idle_polls [] d rest) as (d' & E & Ht & Hb); [done..|cbn; lia|cbn; lia|].
  exists d'. unfold read_exact. rewrite E. cbn [length] in *. by rewrite Nat.sub_0_r in *.
Qed.

(** ** Frames *)

(** A frame is read whole, as it was sent, however the stream is divided, and
    what follows it stays for the next read. *)
Lemma read_frame_delivery h payload max_payload idle_polls (d : Delivery) more rest :
  header_ok h → sizeZ payload <= max_payload → max_payload <= U32_MAX →
  0 <= idle_polls <= U32_MAX → timely idle_polls d → bytes_of d = encode_frame h payload ++ more →
  ∃ d' : Delivery,
    read_frame max_payload idle_polls (arrivals_of d ++ rest)
    = (Value (mk_inbound (received_header h payload) payload), false, arrivals_of d' ++ rest)
    ∧ timely idle_polls d' ∧ bytes_of d' = more.
Proof.
  intros Hh Hs Hm Hi Hd Hb.
  assert (length (bytes_of d) = (80 + length payload + length more)%nat) as Hlen
    by (rewrite Hb, length_app, length_encode_frame; done).
  destruct (recv_loop_delivery 80 idle_polls [] d rest) as (d1 & E1 & Ht1 & Hb1); [done|done|cbn; lia|cbn; lia|].
  destruct (decode_encode_frame h payload max_payload Hh Hs Hm) as [Ed Ev].
  destruct (frame_header_part h payload) as [_ Hdrop].
  cbn [length app] in E1, Hb1. rewrite Nat.sub_0_r, Hb in E1, Hb1.
  rewrite take_app_le in E1 by (rewrite length_encode_frame; lia).
  rewrite drop_app_le, Hdrop in Hb1 by (rewrite length_encode_frame; lia).
  unfold read_frame. rewrite E1, Ed. cbv zeta.
  assert (Z.to_nat (fh_payload_length (received_header h payload)) = length payload) as ->.
  { cbn. destruct (wrap32_size payload ltac:(lia)) as [_ ->]. unfold sizeZ. lia. }
  destruct (Nat.eqb_spec (length payload) 0) as [E|E].
  - apply length_zero_iff_nil in E as ->. rewrite Ev. exists d1. split_and!; [reflexivity|exact Ht1|exact Hb1].
  - destruct (read_exact_delivery (length payload) idle_polls d1 rest) as (d2 & E2 & Ht2 & Hb2); [done|done| |].
    { rewrite Hb1, length_app. lia. }
    rewrite E2, Hb1, take_app_length, Ev. exists d2. rewrite Hb2, Hb1, drop_app_length. done.
Qed.

(** ** Everything read was on the stream *)

(** The bytes that arrive before anything else but pauses happens. *)
Fixpoint stream (w : list arrival) : ByteBuffer :=
  match w with
  | Arrived bytes :: w => bytes ++ stream w
  | Idle :: w => stream w
  | _ => []
  end.

Lemma recv_loop_stream size idle_polls idle got w ended out w' :
  recv_loop size idle_polls idle got w = (ended, out, w') →
  ∃ taken, out = got ++ taken ∧ (ended = Filled → stream w = taken ++ stream w' ∧ (size <= length out)%nat)
    ∧ ((length got <= size)%nat → (length out <= size)%nat).
Proof.
  revert idle got. induction w as [|a w IH]; intros idle got; cbn [recv_loop];
    destruct (Nat.leb_spec size (length got)) as [Hl|Hl].
  1,3: intros [= <- <- <-]; exists []; rewrite app_nil_r; done.
  { intros [= <- <- <-]. exists []. rewrite app_nil_r. split_and!; [done|done|lia]. }
  destruct a as [bytes| | |].
  - destruct (Nat.eqb_spec (length bytes) 0).
    { intros [= <- <- <-]. exists []. rewrite app_nil_r. split_and!; [done|done|lia]. }
    destruct (Nat.leb_spec (length bytes) (size - length got)) as [Hle|Hgt].
    + intros E. apply IH in E as (taken & -> & Hf & Hs). exists (bytes ++ taken). rewrite app_assoc. split; [done|]. split.
      * intros Hef. destruct (Hf Hef) as [Est Hsz]. split; [|done]. cbn [stream]. by rewrite Est, app_assoc.
      * intros _. apply Hs. rewrite length_app. lia.
    + intros [= <- <- <-]. exists (take (size - length got) bytes). split_and!; [done| |].
      * intros _. cbn [stream]. rewrite app_assoc, take_drop, length_app, length_take. split; [done|lia].
      * rewrite length_app, length_take. lia.
  - destruct (_ >? _).
    + intros [= <- <- <-]. exists []. rewrite app_nil_r. split_and!; [done|done|lia].
    + intros E. apply IH in E. exact E.
  - intros [= <- <- <-]. exists []. rewrite app_nil_r. split_and!; [done|done|lia].
  - intros [= <- <- <-]. exists []. rewrite app_nil_r. split_and!; [done|done|lia].
Qed.

Lemma read_exact_stream size idle_polls w out w' :
  read_exact size idle_polls w = (ReadOutcome.Complete, out, w') → stream w = out ++ stream w' ∧ length out = size.
Proof.
  unfold read_exact. destruct (recv_loop size idle_polls 0 [] w) as [[ended got] v] eqn:E.
  destruct ended; intros [= <- <-]. apply recv_loop_stream in E as (taken & -> & Hf & Hs).
  destruct (Hf eq_refl) as [-> Hl]. cbn in *. split; [done|]. specialize (Hs ltac:(lia)). lia.
Qed.

(** Whatever the peer sends and however it stalls, a frame that is delivered is
    the next stretch of the stream, accepted by the two checks. *)
Lemma read_frame_stream max_payload idle_polls w frame closed w' :
  read_frame max_payload idle_polls w = (Value frame, closed, w') →
  ∃ bytes, stream w = bytes ++ stream w' ∧ accepted bytes max_payload (if_header frame)
    ∧ if_payload frame = drop 80 bytes ∧ closed = false ∧ (80 <= length bytes)%nat.
Proof.
  unfold read_frame. destruct (recv_loop 80 idle_polls 0 [] w) as [[ended got] v] eqn:E.
  destruct ended; [|by intros [=]|destruct (_ =? _)%nat; by intros [=]|by intros [=]|by intros [=]].
  apply recv_loop_stream in E as (taken & -> & Hf & Hs). destruct (Hf eq_refl) as [-> Hl]. cbn [app length] in *.
  assert (length taken = 80%nat) as H80 by (specialize (Hs ltac:(lia)); lia). clear Hl Hs Hf.
  destruct (decode_frame_header taken max_payload) as [header|st] eqn:Ed; [|by intros [=]]. cbv zeta.
  set (size := Z.to_nat (fh_payload_length header)).
  assert (∀ outcome payload u,
    (if (size =? 0)%nat then (ReadOutcome.Complete, [], v) else read_exact size idle_polls v) = (outcome, payload, u) →
    outcome = ReadOutcome.Complete → stream v = payload ++ stream u) as Hp.
  { intros outcome payload u. destruct (_ =? _)%nat; [by intros [= <- <- <-]|]. intros Er ->.
    by apply read_exact_stream in Er as [? _]. }
  destruct (if (size =? 0)%nat then _ else _) as [[outcome payload] u]. specialize (Hp _ _ _ eq_refl).
  destruct outcome; [|by intros [=]..]. rewrite (Hp eq_refl).
  destruct (verify_frame_payload header payload) as [[]|st] eqn:Ev; [|by intros [=]]. intros [= <- <- <-].
  exists (taken ++ payload). cbn [if_header if_payload].
  unfold accepted. rewrite <-H80, take_app_length, drop_app_length, <-app_assoc, length_app.
  split_and!; [done|done|done|done|done|lia].
Qed.

(** ** Progress *)

Lemma write_all_out data script : (write_all data script).1.1 = Value tt → (write_all data script).1.2 = data.
Proof.
  revert data. induction script as [|d script IH]; intros data; destruct data as [|b data]; cbn; try done.
  destruct d; cbn.
  - specialize (IH (drop count_less_one data)). destruct (write_all (drop count_less_one data) script) as [[status out] s].
    cbn in *. intros ->. rewrite IH by done. by rewrite take_drop.
  - apply (IH (b :: data)).
  - done.
Qed.

(** What a failed send leaves out is a suffix. *)
Lemma write_all_prefix data script : (write_all data script).1.2 `prefix_of` data.
Proof.
  revert data. induction script as [|d script IH]; intros data; destruct data as [|b data]; cbn; try apply prefix_nil; [done|].
  destruct d; cbn.
  - specialize (IH (drop count_less_one data)). destruct (write_all (drop count_less_one data) script) as [[status out] s].
    cbn in *. destruct IH as [k E]. exists k. cbn. by rewrite <-app_assoc, <-E, take_drop.
  - apply (IH (b :: data)).
  - apply prefix_nil.
Qed.

(** A peer that does not read is waited for without bound. *)
Lemma write_all_blocked data polls script :
  write_all data (replicate polls SendBlocked ++ script)
  = if (length data =? 0)%nat then (Value tt, [], replicate polls SendBlocked ++ script) else write_all data script.
Proof.
  induction polls as [|polls IH]; cbn.
  - destruct data; [by destruct script|done].
  - destruct data; cbn in *; [done|exact IH].
Qed.

(** Everything in one chunk. *)
Definition at_once (bytes : ByteBuffer) : list (nat * ByteBuffer) :=
  match bytes with [] => [] | _ => [(0%nat, bytes)] end.

Lemma at_once_delivers idle_polls bytes :
  0 <= idle_polls → timely idle_polls (at_once bytes) ∧ bytes_of (at_once bytes) = bytes.
Proof.
  intros Hi. destruct bytes as [|b bytes]; [by split; [constructor|]|].
  split; [by repeat constructor|]. unfold bytes_of. cbn. by rewrite app_nil_r.
Qed.
