(* ===== verification/LinkServer.v ===== *)
(** The server of the evidence link: [EvidenceLinkServer] of [link/link.hpp] and
    [src/link/link.cpp].

    One connection is one worker thread: a program of commands, which is executed
    here on its own connection and interleaved with the others in LinkThreads.  What
    it shares with the other threads is the governor, whose every call is atomic, the
    counters and the stop flag.  The other threads are the [interference]: what they do to the governor before each
    of this worker's calls.  The counters are only ever added to, so a worker's are
    its own contribution.  The stop flag as the worker reads it is part of the
    arrivals of its socket. *)
From S2P Require Import Prelude Status Core Bytes Policy Accounting Evidence Outcome Codec Engine Frame Socket Store Governor.
#[local] Open Scope string_scope.
#[local] Open Scope list_scope.
#[local] Open Scope Z_scope.

(** ** Counters and options *)

Module LinkStats.
Inductive counter : Set :=
  | connections_accepted | connections_rejected
  | handshakes_completed | handshakes_rejected
  | frames_received | frames_rejected
  | evidence_accepted | evidence_duplicate | evidence_rejected
  | checksum_failures | oversized_frames | sequence_violations
  | windows_committed | evaluations_failed
  | bytes_received | bytes_sent
  | shutdown_requests | connections_idle_dropped.

#[global] Instance counter_eq_dec : EqDecision counter.
Proof. solve_decision. Defined.

(** The struct of counters, each a [uint64_t]. *)
Definition t : Type := counter → Z.

Definition zero : t := λ _, 0.

(** [value.c += n] and [++value.c]. *)
Definition add (c : counter) (n : Z) (stats : t) : t :=
  λ c', if decide (c' = c) then add64 (stats c) n else stats c'.
Definition count (c : counter) : t → t := add c 1.
End LinkStats.

Record LinkServerOptions := mk_server_options {
  so_bind_address : string;
  so_port : Z;
  so_max_connections : Z;
  so_accept_backlog : Z;
  so_max_payload : Z;
  so_receive_poll_ms : Z;
  so_idle_polls : Z;
  so_evaluate_on_ingest : bool }.

Definition default_server_options : LinkServerOptions :=
  mk_server_options "127.0.0.1" 0 4 8 kMaxFramePayloadBytes 200 50 false.

(** What [start] settles before it touches a socket. *)
Definition check_server_options (options : LinkServerOptions) : Result LinkServerOptions :=
  reject ((so_max_payload options =? 0) || (so_max_payload options >? kMaxFramePayloadBytes))
    with StatusCode.OutOfRange, "max payload is outside the permitted range" ;;
  reject ((so_max_connections options =? 0) || (so_max_connections options >? 64))
    with StatusCode.OutOfRange, "max connections is outside the permitted range" ;;
  Value (mk_server_options (so_bind_address options) (so_port options) (so_max_connections options)
           (so_accept_backlog options) (so_max_payload options)
           (Z.max (so_receive_poll_ms options) 20) (so_idle_polls options)
           (so_evaluate_on_ingest options)).

(** ** A connection *)

Section server.
  Context {S : Type} `{Backend S}.

Record Connection := mk_connection {
  cn_governor : Governor S;
  cn_interference : list (Governor S → Governor S);
  cn_stats : LinkStats.t;
  cn_arrivals : list arrival;
  cn_departures : list departure;
  cn_sent : ByteBuffer;
  cn_stop : bool }.

(** *** Commands *)

(** What a worker does beside computing: it calls the governor, under its lock;
    it moves the counters, under theirs; it uses its own socket; and it stores and
    loads the stop flag.  Each is one step of its thread. *)
Inductive Command : Type → Type :=
  | CallGovernor {A} (f : Governor S → A * Governor S) : Command A
  | UpdateStats (update : LinkStats.t → LinkStats.t) : Command unit
  | ReceiveFrame (options : LinkServerOptions) : Command (Result InboundFrame * bool)
  | WriteBytes (data : ByteBuffer) : Command (Result unit)
  | StoreStop : Command unit
  | LoadStop : Command bool.

(** The program of a worker: a result, or a command and what follows it. *)
Inductive Link (A : Type) : Type :=
  | Return (a : A)
  | Perform {B} (m : Command B) (k : B → Link A).
#[global] Arguments Return {A} a.
#[global] Arguments Perform {A B} m k.

Definition link_ret {A} (a : A) : Link A := Return a.

Fixpoint link_bind {A B} (m : Link A) (k : A → Link B) : Link B :=
  match m with
  | Return a => k a
  | Perform command rest => Perform command (λ b, link_bind (rest b) k)
  end.

(** One command on a connection.  A call of the governor: the other threads run
    first, then the call. *)
Definition perform {A} (m : Command A) : Connection → A * Connection :=
  match m with
  | CallGovernor f => λ c,
      let '(others, rest) :=
        match cn_interference c with
        | [] => (id, [])
        | others :: rest => (others, rest)
        end in
      let '(a, g) := f (others (cn_governor c)) in
      (a, mk_connection g rest (cn_stats c) (cn_arrivals c) (cn_departures c) (cn_sent c) (cn_stop c))
  | UpdateStats update => λ c,
      (tt, mk_connection (cn_governor c) (cn_interference c) (update (cn_stats c)) (cn_arrivals c)
             (cn_departures c) (cn_sent c) (cn_stop c))
  | ReceiveFrame options => λ c,
      let '(frame, closed, arrivals) :=
        read_frame (so_max_payload options) (so_idle_polls options) (cn_arrivals c) in
      ((frame, closed),
       mk_connection (cn_governor c) (cn_interference c) (cn_stats c) arrivals (cn_departures c)
         (cn_sent c) (cn_stop c))
  | WriteBytes data => λ c,
      let '(status, out, departures) := write_all data (cn_departures c) in
      (status,
       mk_connection (cn_governor c) (cn_interference c) (cn_stats c) (cn_arrivals c) departures
         (cn_sent c ++ out) (cn_stop c))
  | StoreStop => λ c,
      (tt, mk_connection (cn_governor c) (cn_interference c) (cn_stats c) (cn_arrivals c)
             (cn_departures c) (cn_sent c) true)
  | LoadStop => λ c, (stop_loaded (cn_arrivals c), c)
  end.

(** The worker on its own, from the first command to the last. *)
Fixpoint exec {A} (p : Link A) (c : Connection) : A * Connection :=
  match p with
  | Return a => (a, c)
  | Perform m k => let '(b, c) := perform m c in exec (k b) c
  end.
End server.
Arguments Connection S : clear implicits.
Arguments Command S A : clear implicits.
Arguments Link S A : clear implicits.

(** A program applied to a connection is its execution. *)
Coercion exec : Link >-> Funclass.

Notation "'run' x := m 'in' k" := (link_bind m (λ x, k))
  (at level 10, x pattern, m at level 100, k at level 200) : fg_scope.
#[local] Open Scope fg_scope.

Section serving.
  Context {S : Type} `{Backend S}.
  Implicit Types (c : Connection S).

Definition once {A} (m : Command S A) : Link S A := Perform m link_ret.

Definition call {A} (f : Governor S → A * Governor S) : Link S A := once (CallGovernor f).

  (** A call that only reads. *)
Definition ask {A} (f : Governor S → A) : Link S A := call (λ g, (f g, g)).

Definition record (update : LinkStats.t → LinkStats.t) : Link S unit := once (UpdateStats update).

Definition receive_frame (options : LinkServerOptions) : Link S (Result InboundFrame * bool) :=
    once (ReceiveFrame options).

Definition write (data : ByteBuffer) : Link S (Result unit) := once (WriteBytes data).

  (** [stop.store(true)] and [stop.load()]. *)
Definition store_stop : Link S unit := once StoreStop.
Definition load_stop : Link S bool := once LoadStop.

  (** The header [send_frame] fills in. *)
Definition reply_header (kind : FrameKind.t) (flags session sequence : Z) (live : LiveAuthority)
      : FrameHeader :=
    mk_header kind flags 0 session (la_epoch live) 0 (inc_boot (la_governor live))
      (inc_ordinal (la_governor live)) sequence 0.

Definition send_frame (kind : FrameKind.t) (payload : ByteBuffer) (session sequence flags : Z)
      : Link S (Result unit) :=
    run live := ask authority in
    let frame := encode_frame (reply_header kind flags session sequence live) payload in
    run status := write frame in
    run _ := match status with
             | Value _ => record (LinkStats.add LinkStats.bytes_sent (sizeZ frame))
             | Failure _ => link_ret tt
             end in
    link_ret status.

Definition send_error (session : Z) (code : StatusCode.t) (detail : string) : Link S unit :=
    run _ := send_frame FrameKind.Error (encode_error code detail) session 0 kFrameFlagNone in
    link_ret tt.

  (** *** Handshake *)

Definition note_unread_handshake (code : StatusCode.t) (stats : LinkStats.t) : LinkStats.t :=
    let stats := LinkStats.count LinkStats.frames_rejected stats in
    let stats :=
      match code with
      | StatusCode.IdleTimeout => LinkStats.count LinkStats.connections_idle_dropped stats
      | StatusCode.LinkClosed => stats
      | _ => LinkStats.count LinkStats.handshakes_rejected stats
      end in
    match code with
    | StatusCode.ChecksumMismatch => LinkStats.count LinkStats.checksum_failures stats
    | StatusCode.FrameTooLarge => LinkStats.count LinkStats.oversized_frames stats
    | _ => stats
    end.

Definition session_of (hello : FrameHeader) : Z :=
    let session :=
      Z.lxor (Z.lxor (Z.lxor 4027383808 (mul64 (fh_publisher hello) 11400714819323198485))
                (fh_sequence hello))
        (Z.shiftr (fh_publisher_boot hello) 17) in
    if session =? 0 then 1 else session.

Definition stale_hello_ack (live : LiveAuthority) : HelloAck :=
    mk_hello_ack (StatusCode.value StatusCode.StaleEpoch) 0 (la_epoch live) kMaxFramePayloadBytes
      (inc_boot (la_governor live)) (inc_ordinal (la_governor live)) 0 0 0
      "publisher epoch is not the live fabric epoch".

Definition accepting_hello_ack (options : LinkServerOptions) (session : Z) (live : LiveAuthority)
      : HelloAck :=
    mk_hello_ack (StatusCode.value StatusCode.Ok) session (la_epoch live) (so_max_payload options)
      (inc_boot (la_governor live)) (inc_ordinal (la_governor live)) (la_policy_id live)
      (la_policy_generation live) (la_accounting_generation live) "handshake accepted".

Definition refuse_handshake (code : StatusCode.t) (detail : string) : Link S (option Z) :=
    run _ := record (LinkStats.count LinkStats.handshakes_rejected) in
    run _ := send_error 0 code detail in
    link_ret None.

  (** The session that was agreed, or [None] when the connection is over. *)
Definition handshake (options : LinkServerOptions) : Link S (option Z) :=
    run (received, _) := receive_frame options in
    match received with
    | Failure st =>
        run _ := record (note_unread_handshake (status_code st)) in link_ret None
    | Value frame =>
        let hello := if_header frame in
        run _ := record (LinkStats.count LinkStats.frames_received) in
        if negb (bool_decide (fh_kind hello = FrameKind.Hello)) then
          refuse_handshake StatusCode.HandshakeRejected "expected a HELLO frame"
        else if negb (valid (fh_publisher hello)) || negb (valid (fh_publisher_boot hello))
                || (fh_publisher_ordinal hello =? 0) then
          refuse_handshake StatusCode.HandshakeRejected
            "publisher identity or incarnation is missing"
        else
          run epoch := ask gv_epoch in
          if negb (fh_epoch hello =? epoch) then
            run _ := record (LinkStats.count LinkStats.handshakes_rejected) in
            run live := ask authority in
            run _ := send_frame FrameKind.HelloAck (encode_hello_ack (stale_hello_ack live)) 0 0
                       kFrameFlagNone in
            link_ret None
          else
            run stopping := ask gv_stopping in
            if stopping : bool then
              refuse_handshake StatusCode.ShuttingDown "governor is shutting down"
            else
              let session := session_of hello in
              run live := ask authority in
              run status := send_frame FrameKind.HelloAck
                              (encode_hello_ack (accepting_hello_ack options session live))
                              session 0 kFrameFlagNone in
              run _ := record (LinkStats.count LinkStats.handshakes_completed) in
              link_ret (match status with Value _ => Some session | Failure _ => None end)
    end.

  (** *** Evidence *)

Definition make_request_for (snapshot : EvidenceSnapshot) (live : LiveAuthority) : EvaluationRequest :=
    mk_request (la_policy_id live) (la_policy_generation live) (la_epoch live) (ev_id snapshot)
      (ev_generation snapshot) (ev_window snapshot) (ev_window_generation snapshot)
      (ev_captured_at_ns snapshot) (ev_sequence snapshot) 0 true true.

  (** Stage, evaluate, commit: [evaluate_on_ingest]. *)
Definition evaluate_and_commit (request : EvaluationRequest) : Link S unit :=
    run decision := ask (evaluate request) in
    match decision with
    | Failure _ => record (LinkStats.count LinkStats.evaluations_failed)
    | Value decision =>
        run committed := call (commit_decision decision) in
        match committed with
        | Value _ => record (LinkStats.count LinkStats.windows_committed)
        | Failure _ => record (LinkStats.count LinkStats.evaluations_failed)
        end
    end.

Definition refused_evidence (snapshot generation accounting_generation : Z) (st : Status) : EvidenceAck :=
    mk_evidence_ack (StatusCode.value (status_code st)) snapshot generation accounting_generation 0
      (status_detail st).

  (** From the payload of an evidence frame to its acknowledgement. *)
Definition take_evidence (options : LinkServerOptions) (payload : ByteBuffer) : Link S EvidenceAck :=
    run accounting_generation := ask (λ g, acc_generation (gv_accounting g)) in
    match decode_evidence payload with
    | Failure st =>
        run _ := record (LinkStats.count LinkStats.evidence_rejected) in
        link_ret (refused_evidence 0 0 accounting_generation st)
    | Value snapshot =>
        run live := ask authority in
        let request := make_request_for snapshot live in
        run ingested := call (ingest_evidence snapshot) in
        match ingested with
        | Failure st =>
            run _ := record (LinkStats.count LinkStats.evidence_rejected) in
            link_ret (refused_evidence (ev_id snapshot) (ev_generation snapshot) accounting_generation st)
        | Value result =>
            run disposition :=
              match ir_disposition result with
              | Disposition.Staged =>
                  run _ := record (LinkStats.count LinkStats.evidence_accepted) in
                  run _ := (if so_evaluate_on_ingest options then evaluate_and_commit request
                            else link_ret tt) in
                  link_ret (StatusCode.Ok, 0)
              | Disposition.DuplicateIgnored =>
                  run _ := record (LinkStats.count LinkStats.evidence_duplicate) in
                  link_ret (StatusCode.Duplicate, 1)
              end in
            run accounting_generation := ask (λ g, acc_generation (gv_accounting g)) in
            link_ret (mk_evidence_ack (StatusCode.value disposition.1) (ev_id snapshot)
                        (ev_generation snapshot) accounting_generation disposition.2
                        "evidence accepted")
        end
    end.

  (** *** The frame loop *)

Definition note_unread_frame (code : StatusCode.t) (stats : LinkStats.t) : LinkStats.t :=
    let stats := LinkStats.count LinkStats.frames_rejected stats in
    match code with
    | StatusCode.ChecksumMismatch => LinkStats.count LinkStats.checksum_failures stats
    | StatusCode.FrameTooLarge => LinkStats.count LinkStats.oversized_frames stats
    | StatusCode.IdleTimeout => LinkStats.count LinkStats.connections_idle_dropped stats
    | _ => stats
    end.

Definition refuse_frame (session : Z) (code : StatusCode.t) (detail : string) : Link S (option Z) :=
    run _ := record (LinkStats.count LinkStats.frames_rejected) in
    run _ := send_error session code detail in
    link_ret None.

Definition violate_sequence (session : Z) (detail : string) : Link S (option Z) :=
    run _ := record (λ stats, LinkStats.count LinkStats.sequence_violations
                                (LinkStats.count LinkStats.frames_rejected stats)) in
    run _ := send_error session StatusCode.SequenceViolation detail in
    link_ret None.

  (** What is made of a frame that was read whole. *)
Definition serve_frame (options : LinkServerOptions) (session expected : Z) (frame : InboundFrame)
      : Link S (option Z) :=
    let header := if_header frame in
    run _ := record (λ stats,
               LinkStats.add LinkStats.bytes_received
                 (add64 (sizeZ (if_payload frame)) kFrameHeaderSize)
                 (LinkStats.count LinkStats.frames_received stats)) in
    if negb (fh_session_id header =? session) then
      refuse_frame session StatusCode.FrameInvalid "frame session does not match"
    else
      run epoch := ask gv_epoch in
      if negb (fh_epoch header =? epoch) then
        refuse_frame session StatusCode.StaleEpoch "frame epoch is not the live epoch"
      else
        match fh_kind header with
        | FrameKind.Goodbye =>
            if negb (Z.land (fh_flags header) kFrameFlagRequestShutdown =? 0) then
              run _ := record (LinkStats.count LinkStats.shutdown_requests) in
              run _ := send_frame FrameKind.Goodbye [] session expected kFrameFlagNone in
              run _ := store_stop in
              link_ret None
            else link_ret None
        | FrameKind.Evidence =>
            if fh_sequence header <? expected then
              violate_sequence session "frame sequence went backwards"
            else if fh_sequence header >? expected then
              violate_sequence session "frame sequence skipped"
            else
              let expected := add64 expected 1 in
              run ack := take_evidence options (if_payload frame) in
              run sent := send_frame FrameKind.EvidenceAck (encode_evidence_ack ack) session
                            (fh_sequence header) kFrameFlagNone in
              link_ret (match sent with Value _ => Some expected | Failure _ => None end)
        | _ => refuse_frame session StatusCode.FrameInvalid "unexpected frame kind"
        end.

  (** One round: the sequence number expected next, or [None] to return. *)
Definition serve_next (options : LinkServerOptions) (session expected : Z) : Link S (option Z) :=
    run stopping := load_stop in
    if stopping : bool then link_ret None
    else
      run (received, closed) := receive_frame options in
      match received with
      | Failure st =>
          if closed : bool then link_ret None
          else
            run _ := record (note_unread_frame (status_code st)) in
            run _ := send_error session (status_code st) (status_detail st) in
            link_ret None
      | Value frame => serve_frame options session expected frame
      end.

Fixpoint frame_loop (fuel : nat) (options : LinkServerOptions) (session expected : Z) c
      : option (Connection S) :=
    match fuel with
    | O => None
    | Datatypes.S fuel =>
        let '(next, c) := serve_next options session expected c in
        match next with
        | None => Some c
        | Some expected => frame_loop fuel options session expected c
        end
    end.

  (** Bytes and events still to come: the fuel of the frame loop. *)
Definition arrival_size (a : arrival) : nat :=
    match a with Arrived bytes => 1 + length bytes | _ => 1 end.
Definition pending (w : list arrival) : nat := sum_list (arrival_size <$> w).

Definition serve_connection (options : LinkServerOptions) c : option (Connection S) :=
    let '(session, c) := handshake options c in
    match session with
    | None => Some c
    | Some session => frame_loop (Datatypes.S (pending (cn_arrivals c))) options session 1 c
    end.
End serving.
