(* ===== verification/LinkClient.v ===== *)
(** The publisher's side of the evidence link: [EvidenceLinkClient] of
    [link/link.hpp] and [src/link/link.cpp].

    A status code that came over the wire is cast to the enumeration without a
    check, so a refusal carries the 16-bit value.  The boot identity a client
    without one draws from the system's entropy is a parameter. *)
From S2P Require Import Prelude Status Core Bytes Policy Accounting Evidence Codec Frame Socket.
#[local] Open Scope string_scope.
#[local] Open Scope list_scope.
#[local] Open Scope Z_scope.

(** ** Results *)

(** [Result<T>] with the code as it is represented. *)
Inductive Answer (A : Type) : Type :=
  | Answered (a : A)
  | Refusal (code : Z) (detail : string).
Arguments Answered {A} a.
Arguments Refusal {A} code detail.

Definition refusal {A} (st : Status) : Answer A :=
  Refusal (StatusCode.value (status_code st)) (status_detail st).
Definition refuse {A} (code : StatusCode.t) (detail : string) : Answer A :=
  Refusal (StatusCode.value code) detail.

(** ** State *)

(** A connected socket: what will arrive, what becomes of sends, what was sent. *)
Record Socket := mk_socket {
  sk_arrivals : list arrival;
  sk_departures : list departure;
  sk_sent : ByteBuffer }.

Record LinkClientOptions := mk_client_options {
  co_host : string;
  co_port : Z;
  co_epoch : Z;
  co_publisher : Z;
  co_publisher_boot : Z;
  co_publisher_ordinal : Z;
  co_receive_poll_ms : Z;
  co_connect_attempts : Z;
  co_connect_retry_ms : Z }.

(** [kInvalidSocket] is [None]. *)
Record Client := mk_client {
  cl_socket : option Socket;
  cl_options : LinkClientOptions;
  cl_session : Z;
  cl_sequence : Z }.

Definition kClientIdlePolls : Z := 8.

Definition socket_write (data : ByteBuffer) (s : Socket) : Result unit * Socket :=
  let '(status, out, departures) := write_all data (sk_departures s) in
  (status, mk_socket (sk_arrivals s) departures (sk_sent s ++ out)).

Definition socket_read (s : Socket) : Result InboundFrame * Socket :=
  let '(frame, _, arrivals) := read_frame kMaxFramePayloadBytes kClientIdlePolls (sk_arrivals s) in
  (frame, mk_socket arrivals (sk_departures s) (sk_sent s)).

(** ** Connecting *)

(** What becomes of one round of [socket] and [connect]. *)
Inductive dialled : Type :=
  | NoSocket
  | NotAccepted
  | Connected (s : Socket).

Fixpoint dial (attempts : nat) (rounds : list dialled) : Answer Socket :=
  match attempts with
  | O => refuse StatusCode.TransportError "could not connect to the evidence link"
  | Datatypes.S attempts =>
      match rounds with
      | NoSocket :: _ => refuse StatusCode.TransportError "socket failed"
      | Connected s :: _ => Answered s
      | NotAccepted :: rounds => dial attempts rounds
      | [] => dial attempts []
      end
  end.

(** The identity of the publisher, completed. *)
Definition with_identity (fresh_boot : Z) (o : LinkClientOptions) : LinkClientOptions :=
  mk_client_options (co_host o) (co_port o) (co_epoch o) (co_publisher o)
    (if valid (co_publisher_boot o) then co_publisher_boot o else fresh_boot)
    (if co_publisher_ordinal o =? 0 then 1 else co_publisher_ordinal o)
    (co_receive_poll_ms o) (co_connect_attempts o) (co_connect_retry_ms o).

Definition hello_header (o : LinkClientOptions) : FrameHeader :=
  mk_header FrameKind.Hello kFrameFlagNone 0 0 (co_epoch o) (co_publisher o) (co_publisher_boot o)
    (co_publisher_ordinal o) 0 0.

(** Returns the client, or the refusal, and [ack_out]. *)
Definition connect (options : LinkClientOptions) (fresh_boot : Z) (rounds : list dialled)
    (ack_out : HelloAck) : Answer Client * HelloAck :=
  if co_port options =? 0 then
    (refuse StatusCode.InvalidArgument "a destination port is required", ack_out)
  else if negb (valid (co_epoch options)) || negb (valid (co_publisher options)) then
    (refuse StatusCode.InvalidArgument "epoch and publisher identity are required", ack_out)
  else
    let o := with_identity fresh_boot options in
    match dial (Z.to_nat (Z.max (co_connect_attempts options) 1)) rounds with
    | Refusal code detail => (Refusal code detail, ack_out)
    | Answered s =>
        let '(sent, s) := socket_write (encode_frame (hello_header o) []) s in
        match sent with
        | Failure st => (refusal st, ack_out)
        | Value _ =>
            let '(response, s) := socket_read s in
            match response with
            | Failure st => (refusal st, ack_out)
            | Value response =>
                if negb (bool_decide (fh_kind (if_header response) = FrameKind.HelloAck)) then
                  (refuse StatusCode.HandshakeRejected "server did not answer the handshake", ack_out)
                else
                  match decode_hello_ack (if_payload response) with
                  | Failure st => (refusal st, ack_out)
                  | Value ack =>
                      if hello_accepted ack then
                        (Answered (mk_client (Some s) o (ha_session_id ack) 0), ack)
                      else
                        (Refusal (ha_code ack)
                           (if str_size (ha_detail ack) =? 0 then "handshake rejected"
                            else ha_detail ack), ack)
                  end
            end
        end
    end.

(** ** Publishing *)

Definition with_socket (s : option Socket) (sequence : Z) (c : Client) : Client :=
  mk_client s (cl_options c) (cl_session c) sequence.

Definition evidence_header (c : Client) (sequence epoch : Z) : FrameHeader :=
  let o := cl_options c in
  mk_header FrameKind.Evidence kFrameFlagNone 0 (cl_session c) epoch (co_publisher o)
    (co_publisher_boot o) (co_publisher_ordinal o) sequence 0.

Definition read_error : Reader (Z * string) :=
  read code := r_u16 in
  read detail := r_blob kMaxFrameDetailBytes in
  reader_ret (code, detail).

(** What [submit] makes of the answer to an evidence frame. *)
Definition read_response (response : InboundFrame) : Answer EvidenceAck :=
  match fh_kind (if_header response) with
  | FrameKind.EvidenceAck =>
      match decode_evidence_ack (if_payload response) with
      | Failure st => refusal st
      | Value ack => Answered ack
      end
  | FrameKind.Error =>
      match read_error (if_payload response) with
      | Some ((code, detail), _) => Refusal code detail
      | None => refuse StatusCode.FrameInvalid "unexpected acknowledgement frame"
      end
  | _ => refuse StatusCode.FrameInvalid "unexpected acknowledgement frame"
  end.

Definition submit (snapshot : EvidenceSnapshot) (c : Client) : Answer EvidenceAck * Client :=
  match cl_socket c with
  | None => (refuse StatusCode.LinkClosed "the link is closed", c)
  | Some s =>
      let sequence := add64 (cl_sequence c) 1 in
      let frame := encode_frame (evidence_header c sequence (ev_epoch snapshot))
                     (encode_evidence snapshot) in
      let '(sent, s) := socket_write frame s in
      match sent with
      | Failure st => (refusal st, with_socket (Some s) sequence c)
      | Value _ =>
          let '(response, s) := socket_read s in
          (match response with Failure st => refusal st | Value response => read_response response end,
           with_socket (Some s) sequence c)
      end
  end.

Definition goodbye_header (request_shutdown : bool) (c : Client) : FrameHeader :=
  let o := cl_options c in
  mk_header FrameKind.Goodbye (if request_shutdown then kFrameFlagRequestShutdown else kFrameFlagNone)
    0 (cl_session c) (co_epoch o) (co_publisher o) (co_publisher_boot o) (co_publisher_ordinal o) 0 0.

Definition goodbye (request_shutdown : bool) (c : Client) : Result unit * Client :=
  match cl_socket c with
  | None => (Value tt, c)
  | Some s =>
      let '(sent, s) := socket_write (encode_frame (goodbye_header request_shutdown c) []) s in
      (sent, with_socket (Some s) (cl_sequence c) c)
  end.

Definition close (c : Client) : Client := with_socket None (cl_sequence c) c.

Definition next_sequence (c : Client) : Z := add64 (cl_sequence c) 1.
