(* ===== verification/LinkSpec.v ===== *)
(** Serving a connection always ends: every round of the frame loop takes
    something off the arrivals, so that their size is fuel enough.  The lemmas on
    sequences of commands are shared by the two views of a connection, the
    publisher's session and the arbitrary peer. *)
From S2P Require Import Prelude Status Core Bytes Fields Policy Accounting Evidence Outcome Codec CodecSpec Engine Frame FrameSpec Socket SocketSpec Store Governor GovernorSpec GovernorInv LinkServer LinkClient.
#[local] Open Scope string_scope.
#[local] Open Scope list_scope.
#[local] Open Scope Z_scope.
#[local] Open Scope fg_scope.

(** ** Serving ends *)

Lemma recv_loop_pending size idle_polls idle got w ended out w' :
  recv_loop size idle_polls idle got w = (ended, out, w') →
  (pending w' + length out <= pending w + length got)%nat.
Proof.
  revert idle got. induction w as [|a w IH]; intros idle got; cbn [recv_loop]; destruct (_ <=? _)%nat.
  1-3: by intros [= <- <- <-].
  destruct a as [bytes| | |].
  - change (pending (Arrived bytes :: w)) with (Datatypes.S (length bytes + pending w))%nat.
    destruct (_ =? _)%nat; [intros [= <- <- <-]; lia|].
    destruct (length bytes <=? size - length got)%nat.
    + intros E. apply IH in E. rewrite length_app in E. lia.
    + intros [= <- <- <-]. rewrite length_app, length_take.
      match goal with |- context [pending (Arrived ?b :: w)] =>
        change (pending (Arrived b :: w)) with (Datatypes.S (length b + pending w))%nat end.
      rewrite length_drop. lia.
  - change (pending (Idle :: w)) with (Datatypes.S (pending w)).
    destruct (_ >? _); [intros [= <- <- <-]; lia|]. intros E. apply IH in E. lia.
  - change (pending (Fault :: w)) with (Datatypes.S (pending w)). intros [= <- <- <-]. lia.
  - intros [= <- <- <-]. lia.
Qed.

Lemma read_exact_pending size idle_polls w r :
  read_exact size idle_polls w = r → (pending r.2 <= pending w)%nat.
Proof.
  unfold read_exact. destruct (recv_loop _ _ _ _ _) as [[ended out] v] eqn:E. intros <-. cbn [snd].
  apply recv_loop_pending in E. cbn [length] in E. lia.
Qed.

(** A frame that was read took its header off the stream. *)
Lemma read_frame_pending max_payload idle_polls w :
  let '(frame, _, w') := read_frame max_payload idle_polls w in
  (pending w' <= pending w)%nat ∧ ((∃ f, frame = Value f) → (pending w' < pending w)%nat).
Proof.
  unfold read_frame. destruct (recv_loop 80 idle_polls 0 [] w) as [[ended got] v] eqn:E.
  pose proof (recv_loop_pending _ _ _ _ _ _ _ _ E) as Hp. cbn [length] in Hp.
  destruct ended; try (split; [lia|by intros [f [=]]]); [|split; [lia|]; destruct (_ =? _)%nat; by intros [f [=]]].
  apply recv_loop_stream in E as (got' & -> & Hf & _). destruct (Hf eq_refl) as [_ Hl].
  destruct (decode_frame_header _ _) as [header|st]; [|split; [lia|by intros [f [=]]]]. cbv zeta.
  set (size := Z.to_nat _).
  assert (∀ r, (if (size =? 0)%nat then (ReadOutcome.Complete, [], v) else read_exact size idle_polls v) = r →
    (pending r.2 <= pending v)%nat) as Hr.
  { intros r. destruct (_ =? _)%nat; [by intros <-|]. apply read_exact_pending. }
  destruct (if (size =? 0)%nat then _ else _) as [[outcome payload] u]. specialize (Hr _ eq_refl). cbn [snd] in Hr.
  destruct outcome; split; lia.
Qed.

(** A command run once is that command. *)
Lemma once_eq {S A} (m : Command S A) c : once m c = perform m c.
Proof. cbn. by destruct (perform m c). Qed.

Lemma load_stop_eq {S} (c : Connection S) : load_stop c = (stop_loaded (cn_arrivals c), c).
Proof. done. Qed.

Lemma call_eq {S A} (f : Governor S → A * Governor S) c :
  call f c
  = (let '(others, rest) := match cn_interference c with [] => (id, []) | others :: rest => (others, rest) end in
     let '(a, g) := f (others (cn_governor c)) in
     (a, mk_connection g rest (cn_stats c) (cn_arrivals c) (cn_departures c) (cn_sent c) (cn_stop c))).
Proof. exact (once_eq (CallGovernor f) c). Qed.

Lemma write_eq {S} data (c : Connection S) :
  write data c
  = (let '(status, out, departures) := write_all data (cn_departures c) in
     (status, mk_connection (cn_governor c) (cn_interference c) (cn_stats c) (cn_arrivals c) departures
                (cn_sent c ++ out) (cn_stop c))).
Proof. exact (once_eq (WriteBytes data) c). Qed.

Lemma bind_eq {S A B} (m : Link S A) (k : A → Link S B) c : link_bind m k c = k (m c).1 (m c).2.
Proof.
  revert c. induction m as [a|B' m rest IH]; intros c; [done|]. cbn. destruct (perform m c) as [b c']. apply IH.
Qed.

Lemma bind_assoc {S A B C} (m : Link S A) (k : A → Link S B) (h : B → Link S C) c :
  link_bind (link_bind m k) h c = link_bind m (λ a, link_bind (k a) h) c.
Proof. by rewrite !bind_eq. Qed.

Lemma bind_ret {S A B} (a : A) (k : A → Link S B) c : link_bind (link_ret a) k c = k a c.
Proof. done. Qed.

Ltac link_step := rewrite ?bind_assoc, ?bind_ret, bind_eq; cbv beta.

Section ends.
  Context {S : Type} `{Backend S}.
  Implicit Types (c : Connection S) (o : LinkServerOptions).

(** Nothing but reading a frame touches the arrivals. *)
Definition keeps_arrivals {A} (m : Link S A) : Prop := ∀ c, cn_arrivals (m c).2 = cn_arrivals c.

Lemma arrivals_ret {A} (a : A) : keeps_arrivals (link_ret a).
Proof. done. Qed.
Lemma arrivals_bind {A B} (m : Link S A) (k : A → Link S B) :
  keeps_arrivals m → (∀ a, keeps_arrivals (k a)) → keeps_arrivals (link_bind m k).
Proof. intros Hm Hk c. link_step. by rewrite Hk. Qed.
Lemma arrivals_record update : keeps_arrivals (record update).
Proof. done. Qed.
Lemma arrivals_stop : keeps_arrivals store_stop.
Proof. done. Qed.
Lemma arrivals_call {A} (f : Governor S → A * Governor S) : keeps_arrivals (call f).
Proof. intros c. rewrite call_eq. by destruct (cn_interference c); cbn; destruct (f _). Qed.
Lemma arrivals_write data : keeps_arrivals (write data).
Proof. intros c. rewrite write_eq. by destruct (write_all _ _) as [[]]. Qed.
#[local] Hint Resolve arrivals_ret arrivals_record arrivals_stop arrivals_call arrivals_write : keeps.

Ltac keeps :=
  repeat first
    [ solve [eauto with keeps]
    | apply arrivals_bind; [|intros]
    | match goal with |- keeps_arrivals (match ?x with _ => _ end) => destruct x end ].

Lemma arrivals_send_frame kind payload session sequence flags :
  keeps_arrivals (send_frame kind payload session sequence flags).
Proof. unfold send_frame, ask. cbv zeta. keeps. Qed.
#[local] Hint Resolve arrivals_send_frame : keeps.

Lemma arrivals_take_evidence o payload : keeps_arrivals (take_evidence o payload).
Proof. unfold take_evidence, evaluate_and_commit, ask. cbv zeta. keeps. Qed.
#[local] Hint Resolve arrivals_take_evidence : keeps.

Lemma arrivals_serve_frame o session expected frame : keeps_arrivals (serve_frame o session expected frame).
Proof. unfold serve_frame, refuse_frame, violate_sequence, send_error, ask. cbv zeta. keeps. Qed.

Lemma receive_frame_eq o c :
  receive_frame o c
  = (let '(frame, closed, w) := read_frame (so_max_payload o) (so_idle_polls o) (cn_arrivals c) in
     ((frame, closed), mk_connection (cn_governor c) (cn_interference c) (cn_stats c) w (cn_departures c)
                         (cn_sent c) (cn_stop c))).
Proof. exact (once_eq (ReceiveFrame o) c). Qed.

(** The handshake puts nothing back. *)
Lemma handshake_pending o c : (pending (cn_arrivals (handshake o c).2) <= pending (cn_arrivals c))%nat.
Proof.
  unfold handshake. rewrite bind_eq, receive_frame_eq.
  pose proof (read_frame_pending (so_max_payload o) (so_idle_polls o) (cn_arrivals c)) as Hp.
  destruct (read_frame _ _ _) as [[frame closed] w]. destruct Hp as [Hp _]. cbn [fst snd].
  match goal with |- context [exec ?p ?c1] => assert (keeps_arrivals p) as -> end; [|done].
  unfold refuse_handshake, send_error, ask. cbv zeta. keeps.
Qed.

(** A round that asks for another has taken something off the stream. *)
Lemma serve_next_pending o session expected c next :
  (serve_next o session expected c).1 = Some next →
  (pending (cn_arrivals (serve_next o session expected c).2) < pending (cn_arrivals c))%nat.
Proof.
  unfold serve_next. rewrite bind_eq, load_stop_eq. cbn [fst snd]. destruct (stop_loaded _); [done|].
  rewrite bind_eq, receive_frame_eq.
  pose proof (read_frame_pending (so_max_payload o) (so_idle_polls o) (cn_arrivals c)) as Hp.
  destruct (read_frame _ _ _) as [[frame closed] w]. cbn [fst snd]. destruct Hp as [_ Hp].
  destruct frame as [frame|st].
  - intros _. rewrite arrivals_serve_frame. apply Hp. eauto.
  - destruct closed; [done|]. rewrite !bind_eq. done.
Qed.

(** *** Enough fuel *)

Lemma frame_loop_ends fuel o session expected c :
  (pending (cn_arrivals c) < fuel)%nat → ∃ c', frame_loop fuel o session expected c = Some c'.
Proof.
  revert expected c. induction fuel as [|fuel IH]; intros expected c Hf; [lia|]. cbn [frame_loop].
  pose proof (serve_next_pending o session expected c) as Hp.
  destruct (serve_next o session expected c) as [[next|] c']; [|eauto]. cbn [fst snd] in Hp.
  apply IH. specialize (Hp next eq_refl). lia.
Qed.

Lemma frame_loop_more fuel fuel' o session expected c c' :
  frame_loop fuel o session expected c = Some c' → (fuel <= fuel')%nat →
  frame_loop fuel' o session expected c = Some c'.
Proof.
  revert fuel' expected c. induction fuel as [|fuel IH]; intros fuel' expected c; [done|].
  destruct fuel' as [|fuel']; [lia|]. cbn [frame_loop].
  destruct (serve_next o session expected c) as [[next|] c1]; [|done]. intros Hc Hf. apply IH; [done|lia].
Qed.

Lemma frame_loop_same fuel fuel' o session expected c c' :
  frame_loop fuel o session expected c = Some c' → (pending (cn_arrivals c) < fuel')%nat →
  frame_loop fuel' o session expected c = Some c'.
Proof.
  intros Hc Hf. destruct (frame_loop_ends fuel' o session expected c Hf) as [c1 E]. rewrite E.
  apply (frame_loop_more _ (fuel + fuel')) in Hc, E; [congruence|lia|lia].
Qed.

Lemma serve_connection_ends o c : ∃ c', serve_connection o c = Some c'.
Proof.
  unfold serve_connection. destruct (handshake o c) as [[session|] c1]; [|eauto]. apply frame_loop_ends. lia.
Qed.
End ends.
