(* ===== verification/LinkSession.v ===== *)
(** A publishing session, both ends.  The contract of the server is
    [ingest_and_commit]: what one snapshot does to the governor and what is
    acknowledged.  [session_up] and [session_down] are the bytes of a session of
    each direction; the server turns the one into the other, and the client the
    other into the one, however the network divides them. *)
From S2P Require Import Prelude Status Core Bytes Fields Policy Accounting Evidence Outcome Codec CodecSpec Engine Frame FrameSpec Socket SocketSpec Store Governor GovernorSpec GovernorInv LinkServer LinkClient LinkSpec.
#[local] Open Scope string_scope.
#[local] Open Scope list_scope.
#[local] Open Scope Z_scope.
#[local] Open Scope fg_scope.

(** ** Sends that succeed *)

Definition sendable (script : list departure) : Prop := Forall (λ d, d <> SendFailed) script.

Lemma write_all_sendable data script :
  sendable script → ∃ script', write_all data script = (Value tt, data, script') ∧ sendable script'.
Proof.
  intros Hs. revert data. induction Hs as [|d script Hd Hs IH]; intros data; destruct data as [|b data]; cbn.
  - exists []. split; [done|constructor].
  - exists []. split; [done|constructor].
  - exists (d :: script). split; [done|by constructor].
  - destruct d; [|by apply (IH (b :: data))|done].
    destruct (IH (drop count_less_one data)) as (script' & -> & Hs'). exists script'. cbn. by rewrite take_drop.
Qed.

Section session.
  Context {S : Type} `{Backend S}.
  Implicit Types (g : Governor S) (c : Connection S) (o : LinkServerOptions).

(** ** The contract of the server *)

(** One snapshot: staged, and with [evaluate_on_ingest] evaluated and committed. *)
Definition ingest_and_commit o (e : EvidenceSnapshot) g : EvidenceAck * Governor S :=
  match ingest_evidence e g with
  | (Failure st, g') =>
      (refused_evidence (ev_id e) (ev_generation e) (acc_generation (gv_accounting g)) st, g')
  | (Value result, g') =>
      let staged := match ir_disposition result with Disposition.Staged => true | _ => false end in
      let g'' :=
        if staged && so_evaluate_on_ingest o then
          match evaluate (make_request_for e (authority g)) g' with
          | Value decision => (commit_decision decision g').2
          | Failure _ => g'
          end
        else g' in
      (mk_evidence_ack (StatusCode.value (if staged then StatusCode.Ok else StatusCode.Duplicate)) (ev_id e)
         (ev_generation e) (acc_generation (gv_accounting g'')) (if staged then 0 else 1) "evidence accepted", g'')
  end.

(** A whole session's snapshots, in order. *)
Fixpoint govern o (es : list EvidenceSnapshot) g : list EvidenceAck * Governor S :=
  match es with
  | [] => ([], g)
  | e :: es =>
      let '(ack, g) := ingest_and_commit o e g in
      let '(acks, g) := govern o es g in
      (ack :: acks, g)
  end.

(** *** What the wire carries *)

Fixpoint replies o (session sequence : Z) (es : list EvidenceSnapshot) g : ByteBuffer :=
  match es with
  | [] => []
  | e :: es =>
      let '(ack, g) := ingest_and_commit o e g in
      encode_frame (reply_header FrameKind.EvidenceAck kFrameFlagNone session sequence (authority g))
        (encode_evidence_ack ack)
      ++ replies o session (add64 sequence 1) es g
  end.

(** The number the frame after a session's snapshots would bear. *)
Definition sequence_after (sequence : Z) (es : list EvidenceSnapshot) : Z :=
  foldl (λ sequence _, add64 sequence 1) sequence es.

(** A publisher past its handshake; its headers read only the identity and the
    session. *)
Definition publisher (co : LinkClientOptions) (session : Z) : Client := mk_client None co session 0.

Fixpoint submissions (co : LinkClientOptions) (session sequence : Z) (es : list EvidenceSnapshot)
    : ByteBuffer :=
  match es with
  | [] => []
  | e :: es =>
      encode_frame (evidence_header (publisher co session) sequence (ev_epoch e)) (encode_evidence e)
      ++ submissions co session (add64 sequence 1) es
  end.

(** What a publisher sends in a session, and what it is answered. *)
Definition session_up (co : LinkClientOptions) (request_shutdown : bool) (es : list EvidenceSnapshot)
    : ByteBuffer :=
  let session := session_of (hello_header co) in
  encode_frame (hello_header co) [] ++ submissions co session 1 es
  ++ encode_frame (goodbye_header request_shutdown (publisher co session)) [].

Definition hello_reply o (session : Z) g : ByteBuffer :=
  encode_frame (reply_header FrameKind.HelloAck kFrameFlagNone session 0 (authority g))
    (encode_hello_ack (accepting_hello_ack o session (authority g))).

Definition farewell (session sequence : Z) (request_shutdown : bool) g : ByteBuffer :=
  if request_shutdown
  then encode_frame (reply_header FrameKind.Goodbye kFrameFlagNone session sequence (authority g)) []
  else [].

Definition session_down o (co : LinkClientOptions) (request_shutdown : bool) (es : list EvidenceSnapshot) g
    : ByteBuffer :=
  let session := session_of (hello_header co) in
  hello_reply o session g ++ replies o session 1 es g
  ++ farewell session (sequence_after 1 es) request_shutdown (govern o es g).2.

(** *** What the counters gain *)

(** A frame read whole, and a frame sent. *)
Definition frame_counts (payload : ByteBuffer) (stats : LinkStats.t) : LinkStats.t :=
  LinkStats.add LinkStats.bytes_received (add64 (sizeZ payload) kFrameHeaderSize)
    (LinkStats.count LinkStats.frames_received stats).
Definition reply_counts (frame : ByteBuffer) : LinkStats.t → LinkStats.t :=
  LinkStats.add LinkStats.bytes_sent (sizeZ frame).

Definition hello_counts o (session : Z) g (stats : LinkStats.t) : LinkStats.t :=
  LinkStats.count LinkStats.handshakes_completed
    (reply_counts (hello_reply o session g) (LinkStats.count LinkStats.frames_received stats)).

Definition committed_counts (request : EvaluationRequest) g : LinkStats.t → LinkStats.t :=
  match evaluate request g with
  | Failure _ => LinkStats.count LinkStats.evaluations_failed
  | Value decision =>
      match (commit_decision decision g).1 with
      | Value _ => LinkStats.count LinkStats.windows_committed
      | Failure _ => LinkStats.count LinkStats.evaluations_failed
      end
  end.

Definition evidence_counts o (e : EvidenceSnapshot) g (stats : LinkStats.t) : LinkStats.t :=
  match ingest_evidence e g with
  | (Failure _, _) => LinkStats.count LinkStats.evidence_rejected stats
  | (Value result, g') =>
      match ir_disposition result with
      | Disposition.Staged =>
          let stats := LinkStats.count LinkStats.evidence_accepted stats in
          if so_evaluate_on_ingest o then committed_counts (make_request_for e (authority g)) g' stats else stats
      | Disposition.DuplicateIgnored => LinkStats.count LinkStats.evidence_duplicate stats
      end
  end.

Fixpoint submission_counts o (session sequence : Z) (es : list EvidenceSnapshot) g (stats : LinkStats.t) : LinkStats.t :=
  match es with
  | [] => stats
  | e :: es =>
      let '(ack, g') := ingest_and_commit o e g in
      let reply := encode_frame (reply_header FrameKind.EvidenceAck kFrameFlagNone session sequence (authority g'))
        (encode_evidence_ack ack) in
      submission_counts o session (add64 sequence 1) es g'
        (reply_counts reply (evidence_counts o e g (frame_counts (encode_evidence e) stats)))
  end.

Definition farewell_counts (session sequence : Z) (request_shutdown : bool) g (stats : LinkStats.t) : LinkStats.t :=
  if request_shutdown
  then reply_counts (farewell session sequence true g)
         (LinkStats.count LinkStats.shutdown_requests (frame_counts [] stats))
  else frame_counts [] stats.

Definition session_counts o (co : LinkClientOptions) (request_shutdown : bool) (es : list EvidenceSnapshot) g
    (stats : LinkStats.t) : LinkStats.t :=
  let session := session_of (hello_header co) in
  farewell_counts session (sequence_after 1 es) request_shutdown (govern o es g).2
    (submission_counts o session 1 es g (hello_counts o session g stats)).

(** A publisher that knows who it is. *)
Record publisher_ok (co : LinkClientOptions) : Prop := {
  po_epoch : u64 (co_epoch co) ∧ co_epoch co <> 0;
  po_publisher : u64 (co_publisher co) ∧ co_publisher co <> 0;
  po_boot : u64 (co_publisher_boot co) ∧ co_publisher_boot co <> 0;
  po_ordinal : u64 (co_publisher_ordinal co) ∧ co_publisher_ordinal co <> 0;
  po_port : co_port co <> 0 }.

(** A snapshot of the live epoch that is valid and fits a frame. *)
Record publishable o (epoch : Z) (e : EvidenceSnapshot) : Prop := {
  pb_typed : evidence_typed e;
  pb_wf : evidence_wf e;
  pb_epoch : ev_epoch e = epoch;
  pb_size : sizeZ (encode_evidence e) <= so_max_payload o }.

Record server_ok o : Prop := {
  sv_max_payload : 0 < so_max_payload o <= kMaxFramePayloadBytes;
  sv_idle_polls : u32 (so_idle_polls o) }.

(** ** A connection at rest *)

(** No other thread at work, every send succeeding, and the counters so far. *)
Record standing g (w : list arrival) (sent : ByteBuffer) (stop : bool) (stats : LinkStats.t) c : Prop := {
  st_governor : cn_governor c = g;
  st_alone : cn_interference c = [];
  st_arrivals : cn_arrivals c = w;
  st_departures : sendable (cn_departures c);
  st_sent : cn_sent c = sent;
  st_stop : cn_stop c = stop;
  st_stats : cn_stats c = stats }.

Lemma call_standing {A} (f : Governor S → A * Governor S) g w sent stop stats c :
  standing g w sent stop stats c →
  (call f c).1 = (f g).1 ∧ standing (f g).2 w sent stop stats (call f c).2.
Proof.
  intros [<- E2 <- E4 <- <- <-]. rewrite call_eq, E2. cbn. destruct (f _) as [a g']. done.
Qed.

Lemma ask_standing {A} (f : Governor S → A) g w sent stop stats c :
  standing g w sent stop stats c → (ask f c).1 = f g ∧ standing g w sent stop stats (ask f c).2.
Proof. apply (call_standing (λ g, (f g, g))). Qed.

Lemma record_standing update g w sent stop stats c :
  standing g w sent stop stats c → standing g w sent stop (update stats) (record update c).2.
Proof. intros [A1 A2 A3 A4 A5 A6 <-]. by constructor. Qed.

Lemma send_frame_standing kind payload session sequence flags g w sent stop stats c :
  standing g w sent stop stats c →
  (send_frame kind payload session sequence flags c).1 = Value tt
  ∧ standing g w (sent ++ encode_frame (reply_header kind flags session sequence (authority g)) payload) stop
      (reply_counts (encode_frame (reply_header kind flags session sequence (authority g)) payload) stats)
      (send_frame kind payload session sequence flags c).2.
Proof.
  intros Hc. unfold send_frame. link_step. destruct (ask_standing authority _ _ _ _ _ _ Hc) as [-> Hc'].
  revert Hc'. generalize (ask authority c).2. clear Hc c. intros c [<- E2 <- E4 <- <- <-]. cbv zeta. link_step.
  rewrite write_eq. destruct (write_all_sendable (encode_frame (reply_header kind flags session sequence
    (authority (cn_governor c))) payload) _ E4) as (script & -> & Hs).
  cbn [fst snd]. link_step. split; [done|]. by constructor.
Qed.

Lemma receive_frame_standing o h payload d more rest g sent stop stats c :
  header_ok h → sizeZ payload <= so_max_payload o → so_max_payload o <= U32_MAX →
  0 <= so_idle_polls o <= U32_MAX → timely (so_idle_polls o) d → bytes_of d = encode_frame h payload ++ more →
  standing g (arrivals_of d ++ rest) sent stop stats c →
  ∃ d', (receive_frame o c).1 = (Value (mk_inbound (received_header h payload) payload), false)
    ∧ standing g (arrivals_of d' ++ rest) sent stop stats (receive_frame o c).2
    ∧ timely (so_idle_polls o) d' ∧ bytes_of d' = more.
Proof.
  intros Hh Hs Hm Hi Hd Hb [<- E2 E3 E4 <- <- <-]. rewrite receive_frame_eq, E3.
  destruct (read_frame_delivery h payload (so_max_payload o) (so_idle_polls o) d more rest) as (d' & -> & Ht & Hb'); try done.
  exists d'. split_and!; try done; by constructor.
Qed.

(** Runs one command of a standing connection. *)
Ltac stand :=
  link_step;
  match goal with
  | Hc : standing ?g ?w ?sent ?stop ?stats ?c |- context [exec (ask ?f) ?c] =>
      let E := fresh "E" in let Hc' := fresh "Hc" in
      destruct (ask_standing f g w sent stop stats c Hc) as [E Hc']; rewrite ?E; clear E
  | Hc : standing ?g ?w ?sent ?stop ?stats ?c |- context [exec (call ?f) ?c] =>
      let E := fresh "E" in let Hc' := fresh "Hc" in
      destruct (call_standing f g w sent stop stats c Hc) as [E Hc']; rewrite ?E; clear E
  | Hc : standing ?g ?w ?sent ?stop ?stats ?c |- context [exec (send_frame ?k ?p ?s ?q ?f) ?c] =>
      let E := fresh "E" in let Hc' := fresh "Hc" in
      destruct (send_frame_standing k p s q f g w sent stop stats c Hc) as [E Hc']; rewrite ?E; clear E
  | Hc : standing ?g ?w ?sent ?stop ?stats ?c |- context [exec (record ?u) ?c] =>
      let Hc' := fresh "Hc" in
      pose proof (record_standing u g w sent stop stats c Hc) as Hc'
  end;
  match goal with
  | Hc : standing _ _ _ _ _ ?c, Hc' : standing _ _ _ _ _ (exec ?m ?c).2 |- _ =>
      clear Hc; revert Hc'; generalize (exec m c).2; clear c; intros c Hc
  end.

Definition committed_after (request : EvaluationRequest) g : Governor S :=
  match evaluate request g with
  | Value decision => (commit_decision decision g).2
  | Failure _ => g
  end.

Lemma evaluate_and_commit_standing request g w sent stop stats c :
  standing g w sent stop stats c →
  standing (committed_after request g) w sent stop (committed_counts request g stats) (evaluate_and_commit request c).2.
Proof.
  intros Hc. unfold evaluate_and_commit, committed_after, committed_counts. stand.
  destruct (evaluate request g) as [decision|st]; [|by apply record_standing].
  stand. destruct (commit_decision decision g).1 as [[]|st]; by apply record_standing.
Qed.

Lemma take_evidence_standing o e g w sent stop stats c :
  evidence_typed e → evidence_wf e → standing g w sent stop stats c →
  (take_evidence o (encode_evidence e) c).1 = (ingest_and_commit o e g).1
  ∧ standing (ingest_and_commit o e g).2 w sent stop (evidence_counts o e g stats) (take_evidence o (encode_evidence e) c).2.
Proof.
  intros Te We Hc. unfold take_evidence, ingest_and_commit, evidence_counts. stand. rewrite decode_encode_evidence by done.
  stand. cbv zeta. stand. destruct (ingest_evidence e g) as [[result|st] g']; cbn [fst snd] in *.
  2: { stand. done. }
  destruct (ir_disposition result); cbn [andb].
  - rewrite bind_assoc. stand. rewrite bind_assoc. destruct (so_evaluate_on_ingest o).
    + link_step. pose proof (evaluate_and_commit_standing (make_request_for e (authority g)) _ _ _ _ _ _ Hc) as Hc'.
      revert Hc'. unfold committed_after. generalize (evaluate_and_commit (make_request_for e (authority g)) c).2.
      clear Hc c. intros c Hc. rewrite bind_ret. stand. done.
    + rewrite !bind_ret. stand. done.
  - rewrite bind_assoc. stand. rewrite bind_ret. stand. done.
Qed.

(** ** What stays within its width *)

Record on_link (epoch : Z) g : Prop := {
  ol_epoch : gv_epoch g = epoch;
  ol_width : u64 epoch;
  ol_boot : u64 (inc_boot (gv_incarnation g));
  ol_ordinal : u64 (inc_ordinal (gv_incarnation g));
  ol_policy : u64 (pol_id (gv_policy g));
  ol_policy_generation : u64 (pol_generation (gv_policy g));
  ol_accounting : u64 (acc_generation (gv_accounting g)) }.

Lemma governor_on_link g : governor_ok g → on_link (gv_epoch g) g.
Proof. intros [[] _ ? [] [[] _ _] _ _ _ _]. by constructor. Qed.

Lemma on_link_volatile epoch g g' : volatile g' = volatile g → on_link epoch g → on_link epoch g'.
Proof.
  intros E [A1 A2 A3 A4 A5 A6 A7].
  pose proof (f_equal gv_epoch E) as E1. pose proof (f_equal gv_incarnation E) as E2.
  pose proof (f_equal gv_policy E) as E3. pose proof (f_equal gv_accounting E) as E4. cbn in E1, E2, E3, E4.
  constructor; rewrite ?E1, ?E2, ?E3, ?E4; done.
Qed.

Lemma apply_decision_generation d g after :
  u64 (acc_generation (gv_accounting g)) → apply_decision d g = Value after → u64 (acc_generation after).
Proof.
  unfold apply_decision. intros Hu Ha. apply result_bind_value in Ha as (entries & _ & Ha).
  destruct (checked_add _ 1) as [next|] eqn:E; [|done]. injection Ha as <-. cbn.
  by apply checked_add_some in E as [_ ?]; [|done|ulia].
Qed.

Lemma commit_on_link epoch d g : on_link epoch g → on_link epoch (commit_decision d g).2.
Proof.
  intros Hg. destruct (commit_cases d g) as [[Hv _]|(after & _ & Ha & _ & Hv)]; (eapply on_link_volatile; [exact Hv|]).
  - done.
  - destruct Hg as [A1 A2 A3 A4 A5 A6 A7]. constructor; try done. by eapply apply_decision_generation.
Qed.

Lemma ingest_on_link epoch e g : evidence_typed e → on_link epoch g → on_link epoch (ingest_evidence e g).2.
Proof.
  intros Te []. by destruct (ingest_cases e g Te) as [(_ & _ & ->)|[(_ & _ & ->)|[[st ->] _]]].
Qed.

Lemma ingest_and_commit_on_link o epoch e g :
  evidence_typed e → on_link epoch g → on_link epoch (ingest_and_commit o e g).2.
Proof.
  intros Te Hg. pose proof (ingest_on_link epoch e g Te Hg) as Hi. unfold ingest_and_commit.
  destruct (ingest_evidence e g) as [[result|st] g']; cbn [snd] in *; [|done].
  destruct (_ && _); [|done]. destruct (evaluate _ g') as [d|st]; [by apply commit_on_link|done].
Qed.

(** The refusals of a valid snapshot fit an acknowledgement. *)
Lemma ingest_detail_short e g st :
  evidence_typed e → evidence_wf e → (ingest_evidence e g).1 = Failure st →
  str_size (status_detail st) <= kMaxFrameDetailBytes.
Proof.
  intros Te We. unfold ingest_evidence. rewrite (proj2 (validate_evidence_iff e Te) We).
  repeat match goal with
  | |- (fail _ _, _).1 = _ → _ => let E := fresh in intros E; injection E as <-; vm_compute; congruence
  | |- (Value _, _).1 = _ → _ => discriminate
  | |- context [if ?b then _ else _] => destruct b
  | |- context [match ?x with Some _ => _ | None => _ end] => destruct x
  end.
Qed.

Lemma ingest_and_commit_ack_ok o epoch e g :
  evidence_typed e → evidence_wf e → on_link epoch g → evidence_ack_ok (ingest_and_commit o e g).1.
Proof.
  intros Te We Hg. pose proof (ol_accounting _ _ (ingest_and_commit_on_link o epoch e g Te Hg)) as Ha.
  pose proof (ingest_detail_short e g) as Hd. destruct (et_id e Te), (et_generation e Te). revert Ha.
  unfold ingest_and_commit. destruct (ingest_evidence e g) as [[result|st] g']; cbn [fst snd] in *; intros Ha.
  - constructor; cbn; try done.
    + by destruct (ir_disposition result).
    + by destruct (ir_disposition result).
  - constructor; cbn; try done.
    + destruct (status_code st); done.
    + apply (ol_accounting _ _ Hg).
    + by apply Hd.
Qed.

(** ** The server's side *)

Lemma session_of_range h : u64 (fh_publisher_boot h) → u64 (fh_sequence h) → u64 (session_of h).
Proof.
  intros Hb Hs. unfold session_of. cbv zeta.
  assert (u64 (Z.shiftr (fh_publisher_boot h) 17)) as Hr.
  { rewrite Z.shiftr_div_pow2 by lia. change (2 ^ 17) with 131072. unfold u64 in *.
    split; [apply Z.div_pos; lia|]. apply Z.div_lt_upper_bound; lia. }
  assert (∀ x, u64 x → u64 (if x =? 0 then 1 else x)) as Hz by (intros x Hx; case_bool; ulia).
  apply Hz. repeat apply lxor_u64; try done. apply wrap64_range.
Qed.

Lemma evidence_header_ok co session sequence epoch :
  publisher_ok co → u64 session → u64 sequence → u64 epoch →
  header_ok (evidence_header (publisher co session) sequence epoch).
Proof. intros [[] [] [] [] ?] ???. constructor; try done. by left. Qed.

Lemma hello_header_ok co : publisher_ok co → header_ok (hello_header co).
Proof. intros [[] [] [] [] ?]. constructor; cbn; try done; [by left|ulia..]. Qed.

Lemma goodbye_header_ok co session request :
  publisher_ok co → u64 session → header_ok (goodbye_header request (publisher co session)).
Proof. intros [[] [] [] [] ?] ?. constructor; cbn; try done; [destruct request; [by right|by left]|ulia..]. Qed.

Lemma delivery_not_stopping d rest : bytes_of d <> [] → stop_loaded (arrivals_of d ++ rest) = false.
Proof. destruct d as [|[[|n] chunk] d]; done. Qed.

Lemma encode_frame_not_nil h payload more : encode_frame h payload ++ more <> [].
Proof.
  intros E. apply (f_equal length) in E. rewrite length_app, length_encode_frame in E. cbn in E. lia.
Qed.

Lemma handshake_standing o co more d rest g sent stop stats c :
  server_ok o → publisher_ok co → on_link (co_epoch co) g → gv_stopping g = false →
  timely (so_idle_polls o) d → bytes_of d = encode_frame (hello_header co) [] ++ more →
  standing g (arrivals_of d ++ rest) sent stop stats c →
  let session := session_of (hello_header co) in
  ∃ d', (handshake o c).1 = Some session
    ∧ standing g (arrivals_of d' ++ rest) (sent ++ hello_reply o session g) stop (hello_counts o session g stats) (handshake o c).2
    ∧ timely (so_idle_polls o) d' ∧ bytes_of d' = more.
Proof.
  intros [[Hm1 Hm2] Hi] Hco Hg Hstop Hd Hb Hc session. pose proof (hello_header_ok co Hco) as Hh.
  unfold kMaxFramePayloadBytes in Hm2.
  destruct (receive_frame_standing o (hello_header co) [] d more rest g sent stop stats c) as (d' & E & Hc' & Ht & Hb');
    try done; [change (sizeZ []) with 0; lia|unfold U32_MAX; lia|unfold u32, U32_MAX in *; lia|].
  exists d'. split; [|split; [|done]].
  all: unfold handshake; link_step; rewrite E; revert Hc'; generalize (receive_frame o c).2; clear Hc c E; intros c Hc.
  all: cbv zeta; cbn [if_header].
  all: stand; cbn [received_header fh_kind fh_publisher fh_publisher_boot fh_publisher_ordinal fh_epoch
    sent_header with_payload_length with_checksum hello_header].
  all: destruct Hco as [[_ _] [_ H1] [_ H2] [_ H3] _]; unfold valid.
  all: rewrite (bool_decide_eq_true_2 _ eq_refl), !(proj2 (Z.eqb_neq _ _)) by done; cbn [negb orb].
  all: stand; rewrite (ol_epoch _ _ Hg), Z.eqb_refl; cbn [negb].
  all: stand; rewrite Hstop; stand; cbv zeta; stand; stand; done.
Qed.

(** The answer to a publisher of another epoch. *)
Definition stale_reply g : ByteBuffer :=
  encode_frame (reply_header FrameKind.HelloAck kFrameFlagNone 0 0 (authority g))
    (encode_hello_ack (stale_hello_ack (authority g))).

Definition stale_counts g (stats : LinkStats.t) : LinkStats.t :=
  reply_counts (stale_reply g)
    (LinkStats.count LinkStats.handshakes_rejected (LinkStats.count LinkStats.frames_received stats)).

(** It is turned away, and the governor is left alone. *)
Lemma serve_stale o co d rest g stats script :
  server_ok o → publisher_ok co → co_epoch co <> gv_epoch g → sendable script → timely (so_idle_polls o) d →
  bytes_of d = encode_frame (hello_header co) [] →
  ∃ c', serve_connection o (mk_connection g [] stats (arrivals_of d ++ rest) script [] false) = Some c'
    ∧ cn_governor c' = g ∧ cn_sent c' = stale_reply g ∧ cn_stop c' = false ∧ cn_stats c' = stale_counts g stats.
Proof.
  intros [[Hm1 Hm2] Hi] Hco He Hscript Hd Hb. pose proof (hello_header_ok co Hco) as Hh. unfold kMaxFramePayloadBytes in Hm2.
  set (c := mk_connection _ _ _ _ _ _ _).
  assert (standing g (arrivals_of d ++ rest) [] false stats c) as Hc by by constructor.
  destruct (receive_frame_standing o (hello_header co) [] d [] rest g [] false stats c) as (d' & E & Hc' & _ & _);
    try done; [change (sizeZ []) with 0; lia|unfold U32_MAX; lia|unfold u32, U32_MAX in *; lia|].
  cut ((handshake o c).1 = None ∧ standing g (arrivals_of d' ++ rest) (stale_reply g) false (stale_counts g stats) (handshake o c).2).
  { unfold serve_connection. destruct (handshake o c) as [r c']. cbn [fst snd]. intros [-> [E1 _ _ _ E2 E3 E4]]. by exists c'. }
  clearbody c. unfold handshake. link_step. rewrite E. revert Hc'. generalize (receive_frame o c).2. clear Hc c E. intros c Hc.
  cbv zeta. cbn [if_header]. stand.
  cbn [received_header fh_kind fh_publisher fh_publisher_boot fh_publisher_ordinal fh_epoch
    sent_header with_payload_length with_checksum hello_header].
  destruct Hco as [[_ _] [_ H1] [_ H2] [_ H3] _]. unfold valid.
  rewrite (bool_decide_eq_true_2 _ eq_refl), !(proj2 (Z.eqb_neq _ _)) by done. cbn [negb orb].
  stand. rewrite (proj2 (Z.eqb_neq _ _)) by done. cbn [negb]. stand. stand. stand. done.
Qed.

(** Reads the next frame of a standing connection, in the goal. *)
Ltac receive E Hc Hc' c :=
  rewrite E; revert Hc'; match goal with |- context [exec (receive_frame ?o) c] =>
    generalize (receive_frame o c).2 end; clear Hc c E; intros c Hc; cbn [fst snd].

Lemma serve_next_evidence o co session sequence e more d rest g sent stop stats c :
  server_ok o → publisher_ok co → on_link (co_epoch co) g → publishable o (co_epoch co) e →
  u64 session → u64 sequence → timely (so_idle_polls o) d →
  bytes_of d = submissions co session sequence [e] ++ more →
  standing g (arrivals_of d ++ rest) sent stop stats c →
  ∃ d', (serve_next o session sequence c).1 = Some (add64 sequence 1)
    ∧ standing (ingest_and_commit o e g).2 (arrivals_of d' ++ rest) (sent ++ replies o session sequence [e] g) stop
        (submission_counts o session sequence [e] g stats) (serve_next o session sequence c).2
    ∧ timely (so_idle_polls o) d' ∧ bytes_of d' = more.
Proof.
  intros [[Hm1 Hm2] Hi] Hco Hg [Te We He Hs] Hses Hseq Hd Hb Hc. cbn [submissions] in Hb. rewrite app_nil_r in Hb.
  pose proof (evidence_header_ok co session sequence (ev_epoch e) Hco Hses Hseq (et_epoch e Te)) as Hh.
  unfold kMaxFramePayloadBytes in Hm2.
  assert (stop_loaded (cn_arrivals c) = false) as Hstop.
  { rewrite (st_arrivals _ _ _ _ _ _ Hc). apply delivery_not_stopping. rewrite Hb. apply encode_frame_not_nil. }
  destruct (receive_frame_standing o _ (encode_evidence e) d more rest g sent stop stats c Hh Hs) as (d' & E & Hc' & Ht & Hb');
    try done; [unfold U32_MAX; lia|unfold u32, U32_MAX in *; lia|].
  exists d'. split; [|split; [|done]].
  all: unfold serve_next; link_step; rewrite load_stop_eq; cbn [fst snd]; rewrite Hstop; clear Hstop; link_step; receive E Hc Hc' c.
  all: unfold serve_frame; cbv zeta; stand; cbn [if_header if_payload received_header fh_session_id fh_kind fh_epoch
    fh_sequence sent_header with_payload_length with_checksum evidence_header publisher cl_session].
  all: rewrite Z.eqb_refl; cbn [negb]; stand; rewrite (ol_epoch _ _ Hg), He, Z.eqb_refl; cbn [negb].
  all: rewrite Z.ltb_irrefl, (proj2 (gtb_false_le _ _)) by lia; link_step.
  all: destruct (take_evidence_standing o e g _ _ _ _ c Te We Hc) as [-> Hc'].
  all: revert Hc'; generalize (take_evidence o (encode_evidence e) c).2; clear Hc c; intros c Hc; stand.
  { done. }
  cbn [replies submission_counts]. rewrite (surjective_pairing (ingest_and_commit o e g)), app_nil_r. exact Hc.
Qed.

Lemma serve_next_goodbye o co request session sequence more d rest g sent stop stats c :
  server_ok o → publisher_ok co → on_link (co_epoch co) g → u64 session →
  timely (so_idle_polls o) d → bytes_of d = encode_frame (goodbye_header request (publisher co session)) [] ++ more →
  standing g (arrivals_of d ++ rest) sent stop stats c →
  ∃ d', (serve_next o session sequence c).1 = None
    ∧ standing g (arrivals_of d' ++ rest) (sent ++ farewell session sequence request g) (stop || request)
        (farewell_counts session sequence request g stats) (serve_next o session sequence c).2
    ∧ bytes_of d' = more.
Proof.
  intros [[Hm1 Hm2] Hi] Hco Hg Hses Hd Hb Hc.
  pose proof (goodbye_header_ok co session request Hco Hses) as Hh. unfold kMaxFramePayloadBytes in Hm2.
  assert (stop_loaded (cn_arrivals c) = false) as Hstop.
  { rewrite (st_arrivals _ _ _ _ _ _ Hc). apply delivery_not_stopping. rewrite Hb. apply encode_frame_not_nil. }
  destruct (receive_frame_standing o _ [] d more rest g sent stop stats c Hh) as (d' & E & Hc' & Ht & Hb');
    try done; [change (sizeZ []) with 0; lia|unfold U32_MAX; lia|unfold u32, U32_MAX in *; lia|].
  exists d'. split; [|split; [|done]].
  all: unfold serve_next; link_step; rewrite load_stop_eq; cbn [fst snd]; rewrite Hstop; clear Hstop; link_step; receive E Hc Hc' c.
  all: unfold serve_frame; cbv zeta; stand; cbn [if_header if_payload received_header fh_session_id fh_kind fh_epoch
    fh_flags sent_header with_payload_length with_checksum goodbye_header publisher cl_session cl_options].
  all: rewrite Z.eqb_refl; cbn [negb]; stand; rewrite (ol_epoch _ _ Hg), Z.eqb_refl; cbn [negb].
  all: destruct request; cbn [farewell farewell_counts orb]; [|rewrite ?app_nil_r, ?orb_false_r; done].
  all: change (negb (Z.land kFrameFlagRequestShutdown kFrameFlagRequestShutdown =? 0)) with true; cbv iota.
  all: stand; stand; link_step.
  { done. }
  destruct Hc as [E1 E2 E3 E4 E5 E6 E7]. constructor; try done. cbn. by rewrite orb_true_r.
Qed.

Lemma frame_loop_session o co request session sequence es more d rest g sent stop stats c :
  server_ok o → publisher_ok co → on_link (co_epoch co) g → Forall (publishable o (co_epoch co)) es →
  u64 session → u64 sequence → timely (so_idle_polls o) d →
  bytes_of d = submissions co session sequence es ++ encode_frame (goodbye_header request (publisher co session)) [] ++ more →
  standing g (arrivals_of d ++ rest) sent stop stats c →
  ∃ c' d', frame_loop (Datatypes.S (length es)) o session sequence c = Some c'
    ∧ standing (govern o es g).2 (arrivals_of d' ++ rest)
        (sent ++ replies o session sequence es g ++ farewell session (sequence_after sequence es) request (govern o es g).2)
        (stop || request)
        (farewell_counts session (sequence_after sequence es) request (govern o es g).2
           (submission_counts o session sequence es g stats)) c'
    ∧ bytes_of d' = more.
Proof.
  intros Ho Hco Hg Hes Hses. revert g sequence sent stats d c Hg. induction Hes as [|e es He Hes IH];
    intros g sequence sent stats d c Hg Hseq Hd Hb Hc; cbn [length frame_loop].
  - destruct (serve_next_goodbye o co request session sequence more d rest g sent stop stats c) as (d' & E & Hc' & Hb'); try done.
    destruct (serve_next o session sequence c) as [next c']. cbn [fst snd] in *. subst next. by exists c', d'.
  - assert (bytes_of d = submissions co session sequence [e] ++ submissions co session (add64 sequence 1) es
      ++ encode_frame (goodbye_header request (publisher co session)) [] ++ more) as Hb1.
    { rewrite Hb. cbn [submissions]. by rewrite app_nil_r, <-app_assoc. }
    destruct (serve_next_evidence o co session sequence e _ d rest g sent stop stats c Ho Hco Hg He Hses Hseq Hd Hb1 Hc)
      as (d1 & E & Hc1 & Hd1 & Hb2).
    destruct (serve_next o session sequence c) as [next c1]. cbn [fst snd] in *. subst next.
    pose proof (ingest_and_commit_on_link o (co_epoch co) e g (pb_typed _ _ _ He) Hg) as Hg1.
    destruct (IH _ _ _ _ d1 c1 Hg1 (wrap64_range _) Hd1 Hb2 Hc1) as (c' & d' & El & Hc' & Hb').
    exists c', d'. split; [exact El|]. split; [|done]. cbn [replies govern submission_counts] in *.
    rewrite (surjective_pairing (ingest_and_commit o e g)), app_nil_r in Hc'. rewrite (surjective_pairing (ingest_and_commit o e g)).
    rewrite (surjective_pairing (govern o es (ingest_and_commit o e g).2)). cbn [fst snd].
    rewrite <-!app_assoc in Hc'. rewrite <-!app_assoc. exact Hc'.
Qed.

(** The server turns what a publisher sends into what it is answered, and the
    governor it serves into the one the contract gives. *)
Lemma serve_session o co request es d rest g stats script :
  server_ok o → publisher_ok co → on_link (co_epoch co) g → gv_stopping g = false →
  Forall (publishable o (co_epoch co)) es → sendable script → timely (so_idle_polls o) d →
  bytes_of d = session_up co request es →
  ∃ c', serve_connection o (mk_connection g [] stats (arrivals_of d ++ rest) script [] false) = Some c'
    ∧ cn_governor c' = (govern o es g).2 ∧ cn_sent c' = session_down o co request es g ∧ cn_stop c' = request
    ∧ cn_stats c' = session_counts o co request es g stats.
Proof.
  intros Ho Hco Hg Hstop Hes Hscript Hd Hb. unfold session_up in Hb. cbv zeta in Hb.
  set (c0 := mk_connection _ _ _ _ _ _ _).
  assert (standing g (arrivals_of d ++ rest) [] false stats c0) as Hc by by constructor.
  destruct (handshake_standing o co _ d rest g [] false stats c0 Ho Hco Hg Hstop Hd Hb Hc) as (d1 & E & Hc1 & Hd1 & Hb1).
  set (session := session_of (hello_header co)) in *.
  assert (u64 session) as Hses by (apply session_of_range; cbn; [apply Hco|ulia]).
  unfold serve_connection. destruct (handshake o c0) as [ses c1]. cbn [fst snd] in *. subst ses.
  destruct (frame_loop_session o co request session 1 es [] d1 rest g ([] ++ hello_reply o session g) false
      (hello_counts o session g stats) c1 Ho Hco Hg Hes Hses ltac:(ulia) Hd1)
    as (c' & d' & El & Hc' & _); [by rewrite Hb1, app_nil_r|exact Hc1|].
  exists c'. split; [eapply frame_loop_same; [exact El|lia]|]. destruct Hc' as [E1 _ _ _ E2 E3 E4].
  split_and!; [exact E1|exact E2|exact E3|exact E4].
Qed.

(** ** The publisher's side *)

(** Submits the snapshots in turn. *)
Fixpoint publish_all (es : list EvidenceSnapshot) (cl : Client) : list (Answer EvidenceAck) * Client :=
  match es with
  | [] => ([], cl)
  | e :: es =>
      let '(answer, cl) := submit e cl in
      let '(answers, cl) := publish_all es cl in
      (answer :: answers, cl)
  end.

Definition client_sent (cl : Client) : ByteBuffer :=
  match cl_socket cl with Some s => sk_sent s | None => [] end.

Record dialled_in (co : LinkClientOptions) (session sequence : Z) (w : list arrival) (sent : ByteBuffer)
    (cl : Client) : Prop := {
  di_options : cl_options cl = co;
  di_session : cl_session cl = session;
  di_sequence : cl_sequence cl = sequence;
  di_socket : ∃ script, cl_socket cl = Some (mk_socket w script sent) ∧ sendable script }.

Lemma reply_header_ok epoch g kind session sequence :
  on_link epoch g → u64 session → u64 sequence →
  header_ok (reply_header kind kFrameFlagNone session sequence (authority g)).
Proof. intros [E ? ? ? ? ? ?] ? ?. constructor; cbn; try done; [by left|by rewrite E]. Qed.

Lemma ack_size a : str_size (ea_detail a) <= kMaxFrameDetailBytes → sizeZ (encode_evidence_ack a) <= kMaxFramePayloadBytes.
Proof.
  intros Hd. unfold encode_evidence_ack. size_of_fields.
  unfold str_size, kMaxFrameDetailBytes, kMaxFramePayloadBytes in *. lia.
Qed.

Lemma hello_ack_size o session live :
  sizeZ (encode_hello_ack (accepting_hello_ack o session live)) <= kMaxFramePayloadBytes.
Proof.
  unfold encode_hello_ack. size_of_fields. vm_compute. congruence.
Qed.

Lemma socket_read_delivery h payload (d : list (nat * ByteBuffer)) more rest script sent :
  header_ok h → sizeZ payload <= kMaxFramePayloadBytes → timely kClientIdlePolls d →
  bytes_of d = encode_frame h payload ++ more →
  ∃ d', socket_read (mk_socket (arrivals_of d ++ rest) script sent)
    = (Value (mk_inbound (received_header h payload) payload), mk_socket (arrivals_of d' ++ rest) script sent)
    ∧ timely kClientIdlePolls d' ∧ bytes_of d' = more.
Proof.
  intros Hh Hs Hd Hb.
  destruct (read_frame_delivery h payload kMaxFramePayloadBytes kClientIdlePolls d more rest) as (d' & E & Ht & Hb');
    try done.
  exists d'. unfold socket_read. cbn [sk_arrivals sk_departures sk_sent]. by rewrite E.
Qed.

Lemma submit_dialled o co session sequence e more d rest g sent cl :
  publisher_ok co → on_link (co_epoch co) g → publishable o (co_epoch co) e → u64 session → u64 sequence →
  timely kClientIdlePolls d → bytes_of d = replies o session (add64 sequence 1) [e] g ++ more →
  dialled_in co session sequence (arrivals_of d ++ rest) sent cl →
  ∃ d', (submit e cl).1 = Answered (ingest_and_commit o e g).1
    ∧ dialled_in co session (add64 sequence 1) (arrivals_of d' ++ rest)
        (sent ++ submissions co session (add64 sequence 1) [e]) (submit e cl).2
    ∧ timely kClientIdlePolls d' ∧ bytes_of d' = more.
Proof.
  intros Hco Hg [Te We He Hs] Hses Hseq Hd Hb [E1 E2 E3 (script & E4 & Hsc)].
  pose proof (ingest_and_commit_ack_ok o (co_epoch co) e g Te We Hg) as Hack.
  pose proof (ingest_and_commit_on_link o (co_epoch co) e g Te Hg) as Hg'.
  cbn [replies] in Hb. rewrite (surjective_pairing (ingest_and_commit o e g)), app_nil_r in Hb.
  destruct (write_all_sendable (encode_frame (evidence_header cl (add64 sequence 1) (ev_epoch e)) (encode_evidence e))
    script Hsc) as (script' & Hw & Hsc').
  destruct (socket_read_delivery _ _ d more rest script'
    (sent ++ encode_frame (evidence_header cl (add64 sequence 1) (ev_epoch e)) (encode_evidence e))
    (reply_header_ok _ _ FrameKind.EvidenceAck session (add64 sequence 1) Hg' Hses (wrap64_range _))
    (ack_size _ (eao_detail _ Hack)) Hd Hb) as (d' & Er & Ht & Hb').
  exists d'. unfold submit. rewrite E4. cbv zeta. rewrite E3. unfold socket_write at 1 2. cbn [sk_departures sk_arrivals sk_sent].
  rewrite Hw, Er. cbn [fst snd].
  unfold read_response. cbn [if_header if_payload received_header fh_kind sent_header with_payload_length with_checksum
    reply_header]. rewrite decode_encode_evidence_ack by done. split; [done|]. split; [|done].
  constructor; [exact E1|exact E2|done|]. cbn. exists script'. split; [|done]. unfold evidence_header.
  rewrite E1, E2, app_nil_r. done.
Qed.

Lemma publish_dialled o co session sequence es more d rest g sent cl :
  publisher_ok co → on_link (co_epoch co) g → Forall (publishable o (co_epoch co)) es → u64 session → u64 sequence →
  timely kClientIdlePolls d → bytes_of d = replies o session (add64 sequence 1) es g ++ more →
  dialled_in co session sequence (arrivals_of d ++ rest) sent cl →
  ∃ d', (publish_all es cl).1 = Answered <$> (govern o es g).1
    ∧ dialled_in co session (sequence_after sequence es) (arrivals_of d' ++ rest)
        (sent ++ submissions co session (add64 sequence 1) es) (publish_all es cl).2
    ∧ timely kClientIdlePolls d' ∧ bytes_of d' = more.
Proof.
  intros Hco Hg Hes Hses. revert g sequence sent d cl Hg.
  induction Hes as [|e es He Hes IH]; intros g sequence sent d cl Hg Hseq Hd Hb Hcl.
  { exists d. split; [done|]. split; [|done]. cbn [submissions publish_all snd sequence_after foldl]. by rewrite app_nil_r. }
  assert (bytes_of d = replies o session (add64 sequence 1) [e] g
    ++ replies o session (add64 (add64 sequence 1) 1) es (ingest_and_commit o e g).2 ++ more) as Hb1.
  { rewrite Hb. cbn [replies]. rewrite (surjective_pairing (ingest_and_commit o e g)). cbn [fst snd].
    by rewrite app_nil_r, <-app_assoc. }
  destruct (submit_dialled o co session sequence e _ d rest g sent cl Hco Hg He Hses Hseq Hd Hb1 Hcl)
    as (d1 & E & Hcl1 & Hd1 & Hb2).
  pose proof (ingest_and_commit_on_link o (co_epoch co) e g (pb_typed _ _ _ He) Hg) as Hg1.
  destruct (IH _ _ _ d1 _ Hg1 (wrap64_range _) Hd1 Hb2 Hcl1) as (d' & Ep & Hcl' & Hd' & Hb').
  exists d'. cbn [publish_all govern]. rewrite (surjective_pairing (submit e cl)), (surjective_pairing (publish_all es _)).
  rewrite (surjective_pairing (ingest_and_commit o e g)), (surjective_pairing (govern o es _)). cbn [fst snd].
  rewrite E, Ep. split; [done|]. split; [|done]. cbn [submissions] in *. rewrite app_nil_r in Hcl'.
  by rewrite <-app_assoc in Hcl'.
Qed.

Lemma with_identity_given co fresh_boot : publisher_ok co → with_identity fresh_boot co = co.
Proof.
  intros [_ _ [_ H1] [_ H2] _]. unfold with_identity, valid. rewrite !(proj2 (Z.eqb_neq _ _)) by done. by destruct co.
Qed.

Lemma connect_dialled o co fresh_boot rounds ack_out more d rest script g :
  server_ok o → publisher_ok co → on_link (co_epoch co) g → sendable script →
  let session := session_of (hello_header co) in
  timely kClientIdlePolls d → bytes_of d = hello_reply o session g ++ more →
  ∃ cl d', connect co fresh_boot (Connected (mk_socket (arrivals_of d ++ rest) script []) :: rounds) ack_out
      = (Answered cl, accepting_hello_ack o session (authority g))
    ∧ dialled_in co session 0 (arrivals_of d' ++ rest) (encode_frame (hello_header co) []) cl
    ∧ timely kClientIdlePolls d' ∧ bytes_of d' = more.
Proof.
  intros [[Hm1 Hm2] Hi] Hco Hg Hs session Hd Hb. unfold kMaxFramePayloadBytes in Hm2.
  assert (u64 session) as Hses by (apply session_of_range; cbn; [apply Hco|ulia]).
  destruct (write_all_sendable (encode_frame (hello_header co) []) script Hs) as (script' & Hw & Hs').
  destruct (socket_read_delivery _ _ d more rest script' (encode_frame (hello_header co) [])
    (reply_header_ok _ _ FrameKind.HelloAck session 0 Hg Hses ltac:(ulia)) (hello_ack_size o session (authority g)) Hd Hb)
    as (d' & Er & Ht & Hb').
  assert (hello_ack_ok (accepting_hello_ack o session (authority g))) as Hack.
  { destruct Hg as [E A1 A2 A3 A4 A5 A6]. constructor; cbn; try done; [by rewrite E|ulia]. }
  exists (mk_client (Some (mk_socket (arrivals_of d' ++ rest) script' (encode_frame (hello_header co) []))) co session 0), d'.
  split; [|split; [|done]]; [|constructor; try done; by eexists].
  unfold connect. rewrite with_identity_given by done.
  destruct Hco as [[_ H1] [_ H2] _ _ H3]. unfold valid. rewrite !(proj2 (Z.eqb_neq _ _)) by done. cbn [negb orb].
  assert (∃ n, Z.to_nat (Z.max (co_connect_attempts co) 1) = Datatypes.S n) as [n ->].
  { exists (Z.to_nat (Z.max (co_connect_attempts co) 1) - 1)%nat. lia. }
  cbn [dial]. unfold socket_write. cbn [sk_departures sk_arrivals sk_sent app]. rewrite Hw, Er. cbv iota beta.
  cbn [if_header if_payload received_header fh_kind sent_header with_payload_length with_checksum reply_header].
  rewrite (bool_decide_eq_true_2 _ eq_refl), decode_encode_hello_ack by done. done.
Qed.

(** The publisher of another epoch learns why it was turned away. *)
Lemma connect_stale co fresh_boot rounds ack_out d rest script g :
  publisher_ok co → on_link (gv_epoch g) g → sendable script → timely kClientIdlePolls d → bytes_of d = stale_reply g →
  (connect co fresh_boot (Connected (mk_socket (arrivals_of d ++ rest) script []) :: rounds) ack_out).1
  = Refusal (StatusCode.value StatusCode.StaleEpoch) "publisher epoch is not the live fabric epoch".
Proof.
  intros Hco Hg Hs Hd Hb.
  destruct (write_all_sendable (encode_frame (hello_header co) []) script Hs) as (script' & Hw & Hs').
  destruct (socket_read_delivery (reply_header FrameKind.HelloAck kFrameFlagNone 0 0 (authority g))
    (encode_hello_ack (stale_hello_ack (authority g))) d [] rest script' (encode_frame (hello_header co) [])) as (d' & Er & _ & _);
    [by eapply reply_header_ok; [done|ulia|ulia]| |done|by rewrite app_nil_r|].
  { unfold encode_hello_ack. size_of_fields. vm_compute. congruence. }
  assert (hello_ack_ok (stale_hello_ack (authority g))) as Hack.
  { destruct Hg as [E A1 A2 A3 A4 A5 A6]. constructor; cbn; try done; ulia. }
  unfold connect. rewrite with_identity_given by done.
  destruct Hco as [[_ H1] [_ H2] _ _ H3]. unfold valid. rewrite !(proj2 (Z.eqb_neq _ _)) by done. cbn [negb orb].
  assert (∃ n, Z.to_nat (Z.max (co_connect_attempts co) 1) = Datatypes.S n) as [n ->].
  { exists (Z.to_nat (Z.max (co_connect_attempts co) 1) - 1)%nat. lia. }
  cbn [dial]. unfold socket_write. cbn [sk_departures sk_arrivals sk_sent app]. rewrite Hw, Er. cbv iota beta.
  cbn [if_header if_payload received_header fh_kind sent_header with_payload_length with_checksum reply_header].
  rewrite (bool_decide_eq_true_2 _ eq_refl), decode_encode_hello_ack by done. done.
Qed.

(** The publisher turns what it is answered into what it sends, and learns of
    every snapshot exactly what the contract acknowledges. *)
Lemma publish_session o co fresh_boot rounds ack_out request es d rest script g :
  server_ok o → publisher_ok co → on_link (co_epoch co) g → Forall (publishable o (co_epoch co)) es →
  sendable script → timely kClientIdlePolls d → bytes_of d = session_down o co request es g →
  ∃ cl,
    connect co fresh_boot (Connected (mk_socket (arrivals_of d ++ rest) script []) :: rounds) ack_out
    = (Answered cl, accepting_hello_ack o (session_of (hello_header co)) (authority g))
    ∧ (publish_all es cl).1 = Answered <$> (govern o es g).1
    ∧ (goodbye request (publish_all es cl).2).1 = Value tt
    ∧ client_sent (goodbye request (publish_all es cl).2).2 = session_up co request es.
Proof.
  intros Ho Hco Hg Hes Hs Hd Hb. unfold session_down in Hb. cbv zeta in Hb.
  set (session := session_of (hello_header co)) in *.
  assert (u64 session) as Hses by (apply session_of_range; cbn; [apply Hco|ulia]).
  destruct (connect_dialled o co fresh_boot rounds ack_out _ d rest script g Ho Hco Hg Hs Hd Hb)
    as (cl & d1 & E & Hcl & Hd1 & Hb1).
  destruct (publish_dialled o co session 0 es _ d1 rest g _ cl Hco Hg Hes Hses ltac:(ulia) Hd1 Hb1 Hcl)
    as (d2 & Ep & Hcl' & _ & _).
  exists cl. split; [exact E|]. split; [exact Ep|]. destruct Hcl' as [E1 E2 _ (script' & E3 & Hs')].
  unfold goodbye. rewrite E3. cbv zeta. unfold socket_write. cbn [sk_departures sk_arrivals sk_sent].
  destruct (write_all_sendable (encode_frame (goodbye_header request (publish_all es cl).2) []) script' Hs')
    as (script'' & -> & _). split; [done|].
  cbn. unfold session_up, goodbye_header. cbv zeta. rewrite E1, E2. by rewrite <-app_assoc.
Qed.
End session.
