(* ===== verification/LinkEvents.v ===== *)
(** What may happen on a connection of the server, without its counters: the frames
    that are read off the wire, the state of the governor that each call finds, what
    it answers and what goes out.  Every frame is an event with one verdict, and the
    counters of a connection are defined as what its events call for; LinkSafety
    shows that the server's are. *)
From stdpp Require Import relations.
From S2P Require Import Prelude Status Core Bytes Policy Accounting Evidence Outcome Codec Engine Frame Socket Store Governor LinkServer.
#[local] Open Scope string_scope.
#[local] Open Scope list_scope.
#[local] Open Scope Z_scope.

(** ** Events *)

(** What follows a snapshot that was staged. *)
Inductive evaluation : Set := NotEvaluated | WindowCommitted | EvaluationFailed.

Inductive verdict : Set :=
  | HelloUnread (code : StatusCode.t)
  | HelloRefused
  | HelloAccepted
  | EvidenceStaged (after : evaluation)
  | EvidenceKnown
  | EvidenceRefused
  | FrameUnread (code : StatusCode.t)
  | FrameRefused
  | FrameOutOfSequence
  | FrameGoodbye
  | FrameShutdown.

Definition counted_after (after : evaluation) : list LinkStats.counter :=
  match after with
  | NotEvaluated => []
  | WindowCommitted => [LinkStats.windows_committed]
  | EvaluationFailed => [LinkStats.evaluations_failed]
  end.

(** The counters a verdict adds one to. *)
Definition counted (v : verdict) : list LinkStats.counter :=
  match v with
  | HelloUnread code =>
      LinkStats.frames_rejected
      :: match code with
         | StatusCode.IdleTimeout => [LinkStats.connections_idle_dropped]
         | StatusCode.LinkClosed => []
         | _ => [LinkStats.handshakes_rejected]
         end
      ++ match code with
         | StatusCode.ChecksumMismatch => [LinkStats.checksum_failures]
         | StatusCode.FrameTooLarge => [LinkStats.oversized_frames]
         | _ => []
         end
  | HelloRefused => [LinkStats.frames_received; LinkStats.handshakes_rejected]
  | HelloAccepted => [LinkStats.frames_received; LinkStats.handshakes_completed]
  | EvidenceStaged after =>
      LinkStats.frames_received :: LinkStats.evidence_accepted :: counted_after after
  | EvidenceKnown => [LinkStats.frames_received; LinkStats.evidence_duplicate]
  | EvidenceRefused => [LinkStats.frames_received; LinkStats.evidence_rejected]
  | FrameUnread code =>
      LinkStats.frames_rejected
      :: match code with
         | StatusCode.ChecksumMismatch => [LinkStats.checksum_failures]
         | StatusCode.FrameTooLarge => [LinkStats.oversized_frames]
         | StatusCode.IdleTimeout => [LinkStats.connections_idle_dropped]
         | _ => []
         end
  | FrameRefused => [LinkStats.frames_received; LinkStats.frames_rejected]
  | FrameOutOfSequence =>
      [LinkStats.frames_received; LinkStats.frames_rejected; LinkStats.sequence_violations]
  | FrameGoodbye => [LinkStats.frames_received]
  | FrameShutdown => [LinkStats.frames_received; LinkStats.shutdown_requests]
  end.

(** A frame: its verdict, and the bytes it adds to the two counters of bytes; those of
    the handshake's frame are not counted, and an answer counts once it went out
    whole. *)
Record event := mk_event { le_verdict : verdict; le_received : Z; le_sent : Z }.

(** ** Counters *)

Definition occurrences (k : LinkStats.counter) (l : list LinkStats.counter) : Z :=
  Z.of_nat (count_occ LinkStats.counter_eq_dec l k).

(** What an event adds to a counter, and what a list of them adds. *)
Definition event_gain (e : event) (k : LinkStats.counter) : Z :=
  match k with
  | LinkStats.bytes_received => le_received e
  | LinkStats.bytes_sent => le_sent e
  | _ => occurrences k (counted (le_verdict e))
  end.

Definition tally (es : list event) (k : LinkStats.counter) : Z := sumZ ((λ e, event_gain e k) <$> es).

(** The handshake was accepted. *)
Definition admitted (es : list event) : bool :=
  match es with e :: _ => match le_verdict e with HelloAccepted => true | _ => false end | [] => false end.

(** ** The wire *)

(** What is still to come of a connection's arrivals, how its next sends go, what it
    has sent, and whether it asked for the stop. *)
Record Wire := mk_wire {
  wi_arrivals : list arrival;
  wi_departures : list departure;
  wi_sent : ByteBuffer;
  wi_stop : bool }.

Definition with_arrivals (w : list arrival) (x : Wire) : Wire :=
  mk_wire w (wi_departures x) (wi_sent x) (wi_stop x).

Definition with_stop (x : Wire) : Wire := mk_wire (wi_arrivals x) (wi_departures x) (wi_sent x) true.

Definition wire {S} (c : Connection S) : Wire :=
  mk_wire (cn_arrivals c) (cn_departures c) (cn_sent c) (cn_stop c).

Definition frame_size (frame : InboundFrame) : Z := add64 (sizeZ (if_payload frame)) kFrameHeaderSize.

(** ** Conversations *)

(** What is wrong with a hello before the governor is asked. *)
Definition hello_complaint (hello : FrameHeader) : option string :=
  if negb (bool_decide (fh_kind hello = FrameKind.Hello)) then Some "expected a HELLO frame"
  else if negb (valid (fh_publisher hello)) || negb (valid (fh_publisher_boot hello)) || (fh_publisher_ordinal hello =? 0)
  then Some "publisher identity or incarnation is missing"
  else None.

(** What is wrong with a later frame, in the live epoch. *)
Definition frame_complaint (session expected epoch : Z) (header : FrameHeader)
    : option (verdict * StatusCode.t * string) :=
  if negb (fh_session_id header =? session) then
    Some (FrameRefused, StatusCode.FrameInvalid, "frame session does not match")
  else if negb (fh_epoch header =? epoch) then
    Some (FrameRefused, StatusCode.StaleEpoch, "frame epoch is not the live epoch")
  else
    match fh_kind header with
    | FrameKind.Goodbye => None
    | FrameKind.Evidence =>
        if fh_sequence header <? expected then
          Some (FrameOutOfSequence, StatusCode.SequenceViolation, "frame sequence went backwards")
        else if fh_sequence header >? expected then
          Some (FrameOutOfSequence, StatusCode.SequenceViolation, "frame sequence skipped")
        else None
    | _ => Some (FrameRefused, StatusCode.FrameInvalid, "unexpected frame kind")
    end.

Section conversation.
  Context {S : Type} `{Backend S} (others : relation (Governor S)) (o : LinkServerOptions).
  Implicit Types (g : Governor S) (x : Wire).

(** The next frame off the wire. *)
Definition reading x : Result InboundFrame * bool * list arrival :=
  read_frame (so_max_payload o) (so_idle_polls o) (wi_arrivals x).

(** An answer goes out, with the authority of the moment; [n] are the bytes that are
    counted. *)
Inductive answers kind payload (session sequence : Z) : Governor S * Wire → Z → Result unit → Governor S * Wire → Prop :=
  | answers_intro g g' x status out departures :
      rtc others g g' →
      let frame := encode_frame (reply_header kind kFrameFlagNone session sequence (authority g')) payload in
      write_all frame (wi_departures x) = (status, out, departures) →
      answers kind payload session sequence (g, x) (match status with Value _ => sizeZ frame | Failure _ => 0 end) status
        (g', mk_wire (wi_arrivals x) departures (wi_sent x ++ out) (wi_stop x)).

(** The handshake: its event, and the session if one was agreed. *)
Inductive greets : Governor S * Wire → event → option Z → Governor S * Wire → Prop :=
  | greets_unread g x st closed w :
      reading x = (Failure st, closed, w) →
      greets (g, x) (mk_event (HelloUnread (status_code st)) 0 0) None (g, with_arrivals w x)
  | greets_malformed g x frame closed w detail n status p :
      reading x = (Value frame, closed, w) → hello_complaint (if_header frame) = Some detail →
      answers FrameKind.Error (encode_error StatusCode.HandshakeRejected detail) 0 0 (g, with_arrivals w x) n status p →
      greets (g, x) (mk_event HelloRefused 0 n) None p
  | greets_stale g g1 g2 x frame closed w n status p :
      reading x = (Value frame, closed, w) → hello_complaint (if_header frame) = None →
      rtc others g g1 → fh_epoch (if_header frame) <> gv_epoch g1 → rtc others g1 g2 →
      answers FrameKind.HelloAck (encode_hello_ack (stale_hello_ack (authority g2))) 0 0 (g2, with_arrivals w x) n status p →
      greets (g, x) (mk_event HelloRefused 0 n) None p
  | greets_stopping g g1 g2 x frame closed w n status p :
      reading x = (Value frame, closed, w) → hello_complaint (if_header frame) = None →
      rtc others g g1 → fh_epoch (if_header frame) = gv_epoch g1 → rtc others g1 g2 → gv_stopping g2 = true →
      answers FrameKind.Error (encode_error StatusCode.ShuttingDown "governor is shutting down") 0 0
        (g2, with_arrivals w x) n status p →
      greets (g, x) (mk_event HelloRefused 0 n) None p
  | greets_accepted g g1 g2 g3 x frame closed w n status p :
      reading x = (Value frame, closed, w) → hello_complaint (if_header frame) = None →
      rtc others g g1 → fh_epoch (if_header frame) = gv_epoch g1 → rtc others g1 g2 → gv_stopping g2 = false →
      rtc others g2 g3 →
      let session := session_of (if_header frame) in
      answers FrameKind.HelloAck (encode_hello_ack (accepting_hello_ack o session (authority g3))) session 0
        (g3, with_arrivals w x) n status p →
      greets (g, x) (mk_event HelloAccepted 0 n) (match status with Value _ => Some session | Failure _ => None end) p.

(** A staged snapshot: evaluated on the governor as it then is, and the decision
    committed to the governor as it then is. *)
Inductive evaluates request : Governor S → evaluation → Governor S → Prop :=
  | evaluates_not g : so_evaluate_on_ingest o = false → evaluates request g NotEvaluated g
  | evaluates_refused g g1 st :
      so_evaluate_on_ingest o = true → rtc others g g1 → evaluate request g1 = Failure st →
      evaluates request g EvaluationFailed g1
  | evaluates_lost g g1 g2 g3 d st :
      so_evaluate_on_ingest o = true → rtc others g g1 → evaluate request g1 = Value d → rtc others g1 g2 →
      commit_decision d g2 = (Failure st, g3) → evaluates request g EvaluationFailed g3
  | evaluates_committed g g1 g2 g3 d :
      so_evaluate_on_ingest o = true → rtc others g g1 → evaluate request g1 = Value d → rtc others g1 g2 →
      commit_decision d g2 = (Value tt, g3) → evaluates request g WindowCommitted g3.

(** The payload of an evidence frame: its verdict and its acknowledgement. *)
Inductive files payload : Governor S → verdict → EvidenceAck → Governor S → Prop :=
  | files_undecoded g g1 st :
      rtc others g g1 → decode_evidence payload = Failure st →
      files payload g EvidenceRefused (refused_evidence 0 0 (acc_generation (gv_accounting g1)) st) g1
  | files_refused g g1 g2 g3 g4 e st :
      rtc others g g1 → decode_evidence payload = Value e → rtc others g1 g2 → rtc others g2 g3 →
      ingest_evidence e g3 = (Failure st, g4) →
      files payload g EvidenceRefused
        (refused_evidence (ev_id e) (ev_generation e) (acc_generation (gv_accounting g1)) st) g4
  | files_known g g1 g2 g3 g4 g5 e result :
      rtc others g g1 → decode_evidence payload = Value e → rtc others g1 g2 → rtc others g2 g3 →
      ingest_evidence e g3 = (Value result, g4) → ir_disposition result = Disposition.DuplicateIgnored →
      rtc others g4 g5 →
      files payload g EvidenceKnown
        (mk_evidence_ack (StatusCode.value StatusCode.Duplicate) (ev_id e) (ev_generation e)
           (acc_generation (gv_accounting g5)) 1 "evidence accepted") g5
  | files_staged g g1 g2 g3 g4 g5 g6 e result after :
      rtc others g g1 → decode_evidence payload = Value e → rtc others g1 g2 → rtc others g2 g3 →
      ingest_evidence e g3 = (Value result, g4) → ir_disposition result = Disposition.Staged →
      evaluates (make_request_for e (authority g2)) g4 after g5 → rtc others g5 g6 →
      files payload g (EvidenceStaged after)
        (mk_evidence_ack (StatusCode.value StatusCode.Ok) (ev_id e) (ev_generation e)
           (acc_generation (gv_accounting g6)) 0 "evidence accepted") g6.

(** A round of the frame loop: its event if there is one, and the sequence number
    expected next if there is another round. *)
Inductive round (session expected : Z) : Governor S * Wire → list event → option Z → Governor S * Wire → Prop :=
  | round_stopping g x :
      stop_loaded (wi_arrivals x) = true → round session expected (g, x) [] None (g, x)
  | round_closed g x st w :
      stop_loaded (wi_arrivals x) = false → reading x = (Failure st, true, w) →
      round session expected (g, x) [] None (g, with_arrivals w x)
  | round_unread g x st w n status p :
      stop_loaded (wi_arrivals x) = false → reading x = (Failure st, false, w) →
      answers FrameKind.Error (encode_error (status_code st) (status_detail st)) session 0 (g, with_arrivals w x) n status p →
      round session expected (g, x) [mk_event (FrameUnread (status_code st)) 0 n] None p
  | round_refused g g1 x frame closed w v code detail n status p :
      stop_loaded (wi_arrivals x) = false → reading x = (Value frame, closed, w) →
      rtc others g g1 → frame_complaint session expected (gv_epoch g1) (if_header frame) = Some (v, code, detail) →
      answers FrameKind.Error (encode_error code detail) session 0 (g1, with_arrivals w x) n status p →
      round session expected (g, x) [mk_event v (frame_size frame) n] None p
  | round_goodbye g g1 x frame closed w :
      stop_loaded (wi_arrivals x) = false → reading x = (Value frame, closed, w) →
      rtc others g g1 → frame_complaint session expected (gv_epoch g1) (if_header frame) = None →
      fh_kind (if_header frame) = FrameKind.Goodbye →
      Z.land (fh_flags (if_header frame)) kFrameFlagRequestShutdown = 0 →
      round session expected (g, x) [mk_event FrameGoodbye (frame_size frame) 0] None (g1, with_arrivals w x)
  | round_shutdown g g1 g2 x x' frame closed w n status :
      stop_loaded (wi_arrivals x) = false → reading x = (Value frame, closed, w) →
      rtc others g g1 → frame_complaint session expected (gv_epoch g1) (if_header frame) = None →
      fh_kind (if_header frame) = FrameKind.Goodbye →
      Z.land (fh_flags (if_header frame)) kFrameFlagRequestShutdown <> 0 →
      answers FrameKind.Goodbye [] session expected (g1, with_arrivals w x) n status (g2, x') →
      round session expected (g, x) [mk_event FrameShutdown (frame_size frame) n] None (g2, with_stop x')
  | round_evidence g g1 g2 x frame closed w v ack n status p :
      stop_loaded (wi_arrivals x) = false → reading x = (Value frame, closed, w) →
      rtc others g g1 → frame_complaint session expected (gv_epoch g1) (if_header frame) = None →
      fh_kind (if_header frame) = FrameKind.Evidence →
      files (if_payload frame) g1 v ack g2 →
      answers FrameKind.EvidenceAck (encode_evidence_ack ack) session (fh_sequence (if_header frame))
        (g2, with_arrivals w x) n status p →
      round session expected (g, x) [mk_event v (frame_size frame) n]
        (match status with Value _ => Some (add64 expected 1) | Failure _ => None end) p.

Inductive rounds (session : Z) : Z → Governor S * Wire → list event → Governor S * Wire → Prop :=
  | rounds_last expected p es p' : round session expected p es None p' → rounds session expected p es p'
  | rounds_next expected next p1 p2 p3 es1 es2 :
      round session expected p1 es1 (Some next) p2 → rounds session next p2 es2 p3 →
      rounds session expected p1 (es1 ++ es2) p3.

(** A connection from the first byte to the last. *)
Inductive conversation : Governor S * Wire → list event → Governor S * Wire → Prop :=
  | conversation_refused p e p' : greets p e None p' → conversation p [e] p'
  | conversation_served p1 p2 p3 e session es :
      greets p1 e (Some session) p2 → rounds session 1 p2 es p3 → conversation p1 (e :: es) p3.
End conversation.
