(* ===== verification/LinkSafety.v ===== *)
(** The server against any peer: whatever arrives on a connection, however its sends
    go and whatever the other threads do meanwhile, what the worker does is a
    conversation of LinkEvents, and every counter gains what the events of that
    conversation call for. *)
From stdpp Require Import relations.
From S2P Require Import Prelude Status Core Bytes Fields Policy Accounting Evidence Outcome Codec CodecSpec DecodeSpec Engine Frame FrameSpec Socket SocketSpec Store Governor GovernorReach LinkServer LinkSpec LinkEvents.
#[local] Open Scope string_scope.
#[local] Open Scope list_scope.
#[local] Open Scope Z_scope.
#[local] Open Scope fg_scope.

(** ** Counting *)

Lemma occurrences_app k l l' : occurrences k (l ++ l') = occurrences k l + occurrences k l'.
Proof. unfold occurrences. rewrite count_occ_app. lia. Qed.

Lemma occurrences_cons k x l : occurrences k (x :: l) = occurrences k [x] + occurrences k l.
Proof. apply (occurrences_app k [x] l). Qed.

Lemma tally_app es es' k : tally (es ++ es') k = tally es k + tally es' k.
Proof. unfold tally. by rewrite fmap_app, sumZ_app. Qed.

Lemma tally_cons e es k : tally (e :: es) k = event_gain e k + tally es k.
Proof. unfold tally. by rewrite fmap_cons, sumZ_cons. Qed.

(** No verdict is one of bytes. *)
Lemma counted_bytes v :
  occurrences LinkStats.bytes_received (counted v) = 0 ∧ occurrences LinkStats.bytes_sent (counted v) = 0.
Proof. destruct v; try destruct code; try destruct after; done. Qed.

(** What some work adds to each counter. *)
Definition gains : Type := LinkStats.counter → Z.

(** One for each entry; so many for one counter. *)
Definition ticks (l : list LinkStats.counter) : gains := λ k, occurrences k l.
Definition amount (c : LinkStats.counter) (n : Z) : gains := λ k, if LinkStats.counter_eq_dec k c then n else 0.

(** An update of the counters that adds [n], on 64 bits. *)
Definition adds_up (update : LinkStats.t → LinkStats.t) (n : gains) : Prop :=
  ∀ stats : LinkStats.t, (∀ k, u64 (stats k)) →
    (∀ k, u64 (update stats k)) ∧ ∀ k, update stats k = wrap64 (stats k + n k).

Lemma adds_up_weaken update (n m : gains) : adds_up update n → (∀ k, n k = m k) → adds_up update m.
Proof. intros Hu E stats Hs. destruct (Hu stats Hs) as [U1 U2]. split; [done|]. intros k. by rewrite U2, E. Qed.

Lemma u64_wrap z : u64 z → z = wrap64 (z + 0).
Proof. intros Hz. rewrite Z.add_0_r. symmetry. apply Z.mod_small, Hz. Qed.

Lemma add_at c n stats k :
  LinkStats.add c n stats k = if LinkStats.counter_eq_dec k c then add64 (stats c) n else stats k.
Proof. done. Qed.

Lemma adds_up_amount c n : adds_up (LinkStats.add c n) (amount c n).
Proof.
  intros stats Hs. unfold amount. split; intros k; rewrite add_at; (destruct (LinkStats.counter_eq_dec k c) as [->|]).
  - apply wrap64_range.
  - apply Hs.
  - done.
  - by apply u64_wrap.
Qed.

Lemma adds_up_count c : adds_up (LinkStats.count c) (ticks [c]).
Proof.
  apply (adds_up_weaken _ _ _ (adds_up_amount c 1)). intros k. unfold amount, ticks, occurrences. cbn [count_occ].
  destruct (LinkStats.counter_eq_dec k c) as [->|Hne]; [by destruct (LinkStats.counter_eq_dec c c)|].
  by destruct (LinkStats.counter_eq_dec c k); [congruence|].
Qed.

Lemma adds_up_then u v n m : adds_up u n → adds_up v m → adds_up (λ stats, v (u stats)) (λ k, n k + m k).
Proof.
  intros Hu Hv stats Hs. destruct (Hu stats Hs) as [U1 U2]. destruct (Hv (u stats) U1) as [V1 V2].
  split; [exact V1|]. intros k. rewrite V2, U2. unfold wrap64. rewrite Zplus_mod_idemp_l. f_equal. lia.
Qed.

Lemma adds_up_id : adds_up (λ stats, stats) (λ _, 0).
Proof. intros stats Hs. split; [done|]. intros k. by apply u64_wrap. Qed.

Lemma adds_up_counts c c' : adds_up (λ stats, LinkStats.count c' (LinkStats.count c stats)) (ticks [c; c']).
Proof.
  apply (adds_up_weaken _ _ _ (adds_up_then _ _ _ _ (adds_up_count c) (adds_up_count c'))). intros k.
  unfold ticks. by rewrite (occurrences_cons k c [c']).
Qed.

Lemma note_unread_handshake_adds_up code : adds_up (note_unread_handshake code) (ticks (counted (HelloUnread code))).
Proof.
  destruct code; first [exact (adds_up_count LinkStats.frames_rejected)
    |exact (adds_up_counts LinkStats.frames_rejected _)
    |eapply adds_up_weaken; [exact (adds_up_then _ _ _ _ (adds_up_counts LinkStats.frames_rejected _) (adds_up_count _))
      |intros k; unfold ticks; by destruct k]].
Qed.

Lemma note_unread_frame_adds_up code : adds_up (note_unread_frame code) (ticks (counted (FrameUnread code))).
Proof.
  destruct code; first [exact (adds_up_count LinkStats.frames_rejected)|exact (adds_up_counts LinkStats.frames_rejected _)].
Qed.

(** A frame that was received, and its payload. *)
Lemma received_adds_up n :
  adds_up (λ stats, LinkStats.add LinkStats.bytes_received n (LinkStats.count LinkStats.frames_received stats))
    (λ k, ticks [LinkStats.frames_received] k + amount LinkStats.bytes_received n k).
Proof. apply (adds_up_then _ _ _ _ (adds_up_count _) (adds_up_amount _ _)). Qed.

(** Compares what was gained counter by counter. *)
Ltac by_gain := intros k; unfold event_gain, ticks, amount, occurrences; destruct k; cbn; lia.

(** ** What arrives *)

(** Only octets arrive. *)
Definition octets (w : list arrival) : Prop :=
  Forall (λ a, match a with Arrived bytes => byte_list bytes | _ => True end) w.

Lemma recv_loop_octets size idle_polls idle got w ended out w' :
  recv_loop size idle_polls idle got w = (ended, out, w') → octets w → octets w'.
Proof.
  revert idle got. induction w as [|a w IH]; intros idle got; cbn [recv_loop]; destruct (_ <=? _)%nat.
  1-3: by intros [= <- <- <-].
  intros E Ho. pose proof Ho as Ho'. apply Forall_cons in Ho as [Ha Ho].
  destruct a as [bytes| | |]; [| |by injection E as <- <- <-|by injection E as <- <- <-].
  - destruct (_ =? _)%nat; [by injection E as <- <- <-|]. destruct (_ <=? _)%nat; [by eapply IH|].
    injection E as <- <- <-. constructor; [by apply Forall_drop|done].
  - destruct (_ >? _); [by injection E as <- <- <-|]. by eapply IH.
Qed.

Lemma read_frame_octets max_payload idle_polls w :
  octets w → octets (read_frame max_payload idle_polls w).2.
Proof.
  intros Ho. unfold read_frame. destruct (recv_loop 80 idle_polls 0 [] w) as [[ended got] v] eqn:E.
  pose proof (recv_loop_octets _ _ _ _ _ _ _ _ E Ho) as Hv. destruct ended; try done.
  destruct (decode_frame_header _ _) as [header|st]; [|done]. cbv zeta.
  destruct (_ =? 0)%nat; [done|]. unfold read_exact.
  destruct (recv_loop (Z.to_nat (fh_payload_length header)) idle_polls 0 [] v) as [[ended' got'] u] eqn:E'.
  pose proof (recv_loop_octets _ _ _ _ _ _ _ _ E' Hv). by destruct ended'.
Qed.

Lemma stream_bytes w : octets w → byte_list (stream w).
Proof.
  induction 1 as [|a w Ha Hw IH]; [constructor|]. destruct a; cbn; [by apply byte_list_app|done|constructor..].
Qed.

(** The payload of a frame that was read is octets. *)
Lemma read_payload_octets max_payload idle_polls w frame closed w' :
  octets w → read_frame max_payload idle_polls w = (Value frame, closed, w') → byte_list (if_payload frame).
Proof.
  intros Ho E. apply read_frame_stream in E as (bytes & E & _ & -> & _). apply stream_bytes in Ho. rewrite E in Ho.
  apply byte_list_app in Ho as [Hb _]. by apply Forall_drop.
Qed.

(** ** A connection on its way *)

Section midway.
  Context {S : Type} `{Backend S} (others : relation (Governor S)) (o : LinkServerOptions).
  Implicit Types (c : Connection S) (g : Governor S) (x : Wire) (n m : gains).

(** A connection that other threads disturb only by [others]. *)
Record sound c : Prop := {
  so_tended : Forall (λ f, ∀ g, others g (f g)) (cn_interference c);
  so_octets : octets (cn_arrivals c);
  so_counters : ∀ k, u64 (cn_stats c k) }.

(** The governor, the wire, and what the counters have gained since [base]. *)
Record midway (base : LinkStats.t) n g x c : Prop := {
  mi_governor : cn_governor c = g;
  mi_wire : wire c = x;
  mi_sound : sound c;
  mi_gains : ∀ k, cn_stats c k = wrap64 (base k + n k) }.

Lemma midway_start c : sound c → midway (cn_stats c) (λ _, 0) (cn_governor c) (wire c) c.
Proof. intros Hc. constructor; try done. intros k. apply u64_wrap, Hc. Qed.

Lemma midway_gain base n m g x c : (∀ k, n k = m k) → midway base n g x c → midway base m g x c.
Proof. intros E []. constructor; try done. intros k. by rewrite <-E. Qed.

(** *** Commands *)

(** A call: the others run, then the call. *)
Lemma call_midway {A} (f : Governor S → A * Governor S) base n g x c :
  midway base n g x c →
  ∃ g', rtc others g g' ∧ (call f c).1 = (f g').1 ∧ midway base n (f g').2 x (call f c).2.
Proof.
  intros [<- <- [H1 H2 H3] H4]. rewrite call_eq. destruct (cn_interference c) as [|other rest].
  - exists (cn_governor c). split; [done|]. change (id (cn_governor c)) with (cn_governor c). by destruct (f _).
  - apply Forall_cons in H1 as [Ho H1]. exists (other (cn_governor c)). split; [by apply rtc_once|].
    by destruct (f (other (cn_governor c))).
Qed.

Lemma ask_midway {A} (f : Governor S → A) base n g x c :
  midway base n g x c →
  ∃ g', rtc others g g' ∧ (ask f c).1 = f g' ∧ midway base n g' x (ask f c).2.
Proof. apply (call_midway (λ g, (f g, g))). Qed.

Lemma record_midway update m base n g x c :
  adds_up update m → midway base n g x c → midway base (λ k, n k + m k) g x (record update c).2.
Proof.
  intros Hu [<- <- [H1 H2 H3] H4]. destruct (Hu (cn_stats c) H3) as [U1 U2]. constructor; try done.
  intros k. cbn. rewrite U2, H4. unfold wrap64. rewrite Zplus_mod_idemp_l. f_equal. lia.
Qed.

Lemma receive_midway base n g x c :
  midway base n g x c →
  (receive_frame o c).1 = (reading o x).1 ∧ midway base n g (with_arrivals (reading o x).2 x) (receive_frame o c).2
  ∧ ∀ frame, (reading o x).1.1 = Value frame → byte_list (if_payload frame).
Proof.
  intros [<- <- [H1 H2 H3] H4]. rewrite receive_frame_eq. unfold reading. cbn [wire wi_arrivals].
  pose proof (read_frame_octets (so_max_payload o) (so_idle_polls o) (cn_arrivals c) H2) as Ho.
  pose proof (read_payload_octets (so_max_payload o) (so_idle_polls o) (cn_arrivals c)) as Hp.
  destruct (read_frame _ _ _) as [[frame closed] w]. cbn [fst snd] in *. split; [done|]. split; [done|].
  intros f ->. by eapply Hp.
Qed.

Lemma stop_midway base n g x c : midway base n g x c → midway base n g (with_stop x) (store_stop c).2.
Proof. intros [<- <- [] ?]. done. Qed.

(** An answer. *)
Lemma send_frame_midway kind payload session sequence base n g x c :
  midway base n g x c →
  ∃ sent status g' x', answers others kind payload session sequence (g, x) sent status (g', x')
    ∧ (send_frame kind payload session sequence kFrameFlagNone c).1 = status
    ∧ midway base (λ k, n k + amount LinkStats.bytes_sent sent k) g' x'
        (send_frame kind payload session sequence kFrameFlagNone c).2.
Proof.
  intros Hc. unfold send_frame. link_step. destruct (ask_midway authority _ _ _ _ _ Hc) as (g' & Hr & -> & Hc').
  revert Hc'. generalize (ask authority c).2. clear Hc c. intros c Hc. cbv zeta. link_step. rewrite write_eq.
  set (frame := encode_frame (reply_header kind kFrameFlagNone session sequence (authority g')) payload).
  destruct Hc as [<- <- [H1 H2 H3] H4].
  pose proof (answers_intro others kind payload session sequence g (cn_governor c) (wire c)) as Ha.
  destruct (write_all frame (cn_departures c)) as [[status out] departures] eqn:Ew. specialize (Ha status out departures Hr Ew).
  cbn [fst snd]. link_step. eexists _, status, _, _. split; [exact Ha|]. split; [done|]. destruct status as [[]|st].
  - apply (record_midway _ (amount LinkStats.bytes_sent (sizeZ frame))); [apply adds_up_amount|by constructor].
  - apply (midway_gain base n); [|by constructor]. intros k. unfold amount. by destruct (LinkStats.counter_eq_dec _ _); lia.
Qed.

Lemma send_error_midway code detail session base n g x c :
  midway base n g x c →
  ∃ sent status g' x', answers others FrameKind.Error (encode_error code detail) session 0 (g, x) sent status (g', x')
    ∧ midway base (λ k, n k + amount LinkStats.bytes_sent sent k) g' x' (send_error session code detail c).2.
Proof.
  intros Hc. unfold send_error. rewrite bind_eq.
  destruct (send_frame_midway FrameKind.Error (encode_error code detail) session 0 _ _ _ _ _ Hc)
    as (sent & status & g' & x' & Ha & _ & Hm). by exists sent, status, g', x'.
Qed.
End midway.

(** ** Programs on a connection *)

Section leads.
  Context {S : Type} `{Backend S} (others : relation (Governor S)) (o : LinkServerOptions) (base : LinkStats.t).
  Implicit Types (c : Connection S) (g : Governor S) (x : Wire) (n : gains).

(** [m], run from [c], ends with a result, gains, a governor and a wire of [Q]. *)
Definition leads {A} (m : Link S A) c (Q : A → gains → Governor S → Wire → Prop) : Prop :=
  ∃ n g x, Q (m c).1 n g x ∧ midway others base n g x (m c).2.

Lemma leads_ret {A} (a : A) n g x c (Q : A → gains → Governor S → Wire → Prop) :
  midway others base n g x c → Q a n g x → leads (link_ret a) c Q.
Proof. intros Hc HQ. by exists n, g, x. Qed.

Lemma leads_bind {A B} (m : Link S A) (k : A → Link S B) c Q :
  leads m c (λ a n g x, ∀ c', midway others base n g x c' → leads (k a) c' Q) → leads (link_bind m k) c Q.
Proof. intros (n & g & x & Hk & Hm). unfold leads. rewrite bind_eq. by apply Hk. Qed.

Lemma leads_weaken {A} (m : Link S A) c (Q Q' : A → gains → Governor S → Wire → Prop) :
  leads m c Q → (∀ a n g x, Q a n g x → Q' a n g x) → leads m c Q'.
Proof. intros (n & g & x & HQ & Hm) HQ'. exists n, g, x. auto. Qed.

Lemma leads_call {A B} (f : Governor S → A * Governor S) (k : A → Link S B) n g x c Q :
  midway others base n g x c →
  (∀ g' c', rtc others g g' → midway others base n (f g').2 x c' → leads (k (f g').1) c' Q) →
  leads (link_bind (call f) k) c Q.
Proof.
  intros Hc Hk. destruct (call_midway others f _ _ _ _ _ Hc) as (g' & Hr & E & Hc'). unfold leads. rewrite bind_eq, E.
  by apply Hk.
Qed.

Lemma leads_ask {A B} (f : Governor S → A) (k : A → Link S B) n g x c Q :
  midway others base n g x c →
  (∀ g' c', rtc others g g' → midway others base n g' x c' → leads (k (f g')) c' Q) →
  leads (link_bind (ask f) k) c Q.
Proof. apply (leads_call (λ g, (f g, g))). Qed.

Lemma leads_record {B} update m (k : unit → Link S B) n g x c Q :
  midway others base n g x c → adds_up update m →
  (∀ c', midway others base (λ k, n k + m k) g x c' → leads (k tt) c' Q) →
  leads (link_bind (record update) k) c Q.
Proof. intros Hc Hu Hk. unfold leads. rewrite bind_eq. apply Hk. by apply record_midway. Qed.

Lemma leads_load_stop {B} (k : bool → Link S B) n g x c Q :
  midway others base n g x c → leads (k (stop_loaded (wi_arrivals x))) c Q → leads (link_bind load_stop k) c Q.
Proof. intros [_ <- _ _] Hk. unfold leads. by rewrite bind_eq, load_stop_eq. Qed.

Lemma leads_receive {B} (k : Result InboundFrame * bool → Link S B) n g x c Q :
  midway others base n g x c →
  (∀ c', midway others base n g (with_arrivals (reading o x).2 x) c' →
     (∀ frame, (reading o x).1.1 = Value frame → byte_list (if_payload frame)) → leads (k (reading o x).1) c' Q) →
  leads (link_bind (receive_frame o) k) c Q.
Proof.
  intros Hc Hk. destruct (receive_midway others o _ _ _ _ _ Hc) as (E & Hc' & Hb). unfold leads. rewrite bind_eq, E.
  by apply Hk.
Qed.

Lemma leads_send {B} kind payload session sequence (k : Result unit → Link S B) n g x c Q :
  midway others base n g x c →
  (∀ sent status g' x' c', answers others kind payload session sequence (g, x) sent status (g', x') →
     midway others base (λ k, n k + amount LinkStats.bytes_sent sent k) g' x' c' → leads (k status) c' Q) →
  leads (link_bind (send_frame kind payload session sequence kFrameFlagNone) k) c Q.
Proof.
  intros Hc Hk. destruct (send_frame_midway others kind payload session sequence _ _ _ _ _ Hc)
    as (sent & status & g' & x' & Ha & E & Hc'). unfold leads. rewrite bind_eq, E. by eapply Hk.
Qed.

Lemma leads_error {B} code detail session (k : unit → Link S B) n g x c Q :
  midway others base n g x c →
  (∀ sent status g' x' c', answers others FrameKind.Error (encode_error code detail) session 0 (g, x) sent status (g', x') →
     midway others base (λ k, n k + amount LinkStats.bytes_sent sent k) g' x' c' → leads (k tt) c' Q) →
  leads (link_bind (send_error session code detail) k) c Q.
Proof.
  intros Hc Hk. destruct (send_error_midway others code detail session _ _ _ _ _ Hc) as (sent & status & g' & x' & Ha & Hc').
  unfold leads. rewrite bind_eq. destruct (send_error session code detail c) as [[] c']. by eapply Hk.
Qed.

(** Count, report, be done. *)
Lemma leads_refusal update m session code detail n g x c (Q : option Z → gains → Governor S → Wire → Prop) :
  midway others base n g x c → adds_up update m →
  (∀ sent status g' x', answers others FrameKind.Error (encode_error code detail) session 0 (g, x) sent status (g', x') →
     Q None (λ k, n k + m k + amount LinkStats.bytes_sent sent k) g' x') →
  leads (link_bind (record update) (λ _, link_bind (send_error session code detail) (λ _, link_ret None))) c Q.
Proof.
  intros Hc Hu HQ. eapply leads_record; [done..|]. intros c1 Hc1. eapply leads_error; [done|]. intros sent status g' x' c2 Ha Hc2.
  eapply leads_ret; [done|]. by eapply HQ.
Qed.

(** ** The server's programs are conversations *)

Lemma handshake_leads n g x c :
  midway others base n g x c →
  leads (handshake o) c (λ r m g' x', ∃ e, greets others o (g, x) e r (g', x') ∧ ∀ k, m k = n k + event_gain e k).
Proof.
  intros Hc. unfold handshake. eapply leads_receive; [done|]. clear c Hc. intros c Hc _.
  destruct (reading o x) as [[[frame|st] closed] w] eqn:Er; cbn [fst snd] in *.
  2: { eapply leads_record; [done|apply note_unread_handshake_adds_up|]. clear c Hc. intros c Hc.
       eapply leads_ret; [done|]. eexists. split; [by eapply greets_unread|]. intros k. cbn.
       destruct (status_code st); destruct k; reflexivity. }
  cbv zeta. eapply leads_record; [done|apply adds_up_count|]. clear c Hc. intros c Hc.
  unfold refuse_handshake. pose proof (eq_refl (hello_complaint (if_header frame))) as Ec. unfold hello_complaint in Ec at 2.
  destruct (negb (bool_decide _)).
  { eapply leads_refusal; [done|apply adds_up_count|]. intros sent status g' x' Ha.
    eexists. split; [by eapply greets_malformed|by_gain]. }
  destruct (_ || _).
  { eapply leads_refusal; [done|apply adds_up_count|]. intros sent status g' x' Ha.
    eexists. split; [by eapply greets_malformed|by_gain]. }
  eapply leads_ask; [done|]. clear c Hc. intros g1 c Hr1 Hc. destruct (Z.eqb_spec (fh_epoch (if_header frame)) (gv_epoch g1)) as [He|He]; cbn [negb].
  2: { eapply leads_record; [done|apply adds_up_count|]. clear c Hc. intros c Hc.
       eapply leads_ask; [done|]. clear c Hc. intros g2 c Hr2 Hc.
       eapply leads_send; [done|]. clear c Hc. intros sent status g' x' c Ha Hc. eapply leads_ret; [done|].
       eexists. split; [by eapply greets_stale|by_gain]. }
  eapply leads_ask; [done|]. clear c Hc. intros g2 c Hr2 Hc. destruct (gv_stopping g2) eqn:Es.
  { eapply leads_refusal; [done|apply adds_up_count|]. intros sent status g' x' Ha.
    eexists. split; [by eapply greets_stopping|by_gain]. }
  eapply leads_ask; [done|]. clear c Hc. intros g3 c Hr3 Hc.
  eapply leads_send; [done|]. clear c Hc. intros sent status g' x' c Ha Hc.
  eapply leads_record; [done|apply adds_up_count|]. clear c Hc. intros c Hc. eapply leads_ret; [done|].
  eexists. split; [by eapply greets_accepted|by_gain].
Qed.

Lemma evaluate_and_commit_leads request n g x c :
  so_evaluate_on_ingest o = true → midway others base n g x c →
  leads (evaluate_and_commit request) c (λ _ m g' x', x' = x ∧ ∃ after, evaluates others o request g after g'
    ∧ ∀ k, m k = n k + occurrences k (counted_after after)).
Proof.
  intros Ho Hc. unfold evaluate_and_commit.
  assert (∀ u l c g' after, midway others base n g' x c → adds_up u (ticks l) → evaluates others o request g after g' →
    l = counted_after after →
    leads (record u) c (λ _ m g' x', x' = x ∧ ∃ after, evaluates others o request g after g'
    ∧ ∀ k, m k = n k + occurrences k (counted_after after))) as Hlast.
  { intros u l c1 g' after Hc1 Hu He ->. eexists _, _, _. split; [|by apply record_midway].
    split; [done|]. exists after. by split. }
  eapply leads_ask; [done|]. clear c Hc. intros g1 c Hr1 Hc. destruct (evaluate request g1) as [d|st] eqn:Ed.
  2: { eapply Hlast; [done|apply adds_up_count|by eapply evaluates_refused|done]. }
  eapply leads_call; [done|]. clear c Hc. intros g2 c Hr2 Hc.
  destruct (commit_decision d g2) as [[[]|st] g3] eqn:Ec; cbn [fst snd] in *.
  - eapply Hlast; [done|apply adds_up_count|by eapply evaluates_committed|done].
  - eapply Hlast; [done|apply adds_up_count|by eapply evaluates_lost|done].
Qed.

(** The frame itself was counted before. *)
Lemma take_evidence_leads payload n g x c :
  midway others base n g x c →
  leads (take_evidence o payload) c (λ ack m g' x', x' = x ∧ ∃ v, files others o payload g v ack g'
    ∧ ∀ k, m k + occurrences k [LinkStats.frames_received] = n k + occurrences k (counted v)).
Proof.
  intros Hc. unfold take_evidence.
  eapply leads_ask; [done|]. clear c Hc. intros g1 c Hr1 Hc. destruct (decode_evidence payload) as [e|st] eqn:Ed.
  2: { eapply leads_record; [done|apply adds_up_count|]. clear c Hc. intros c Hc. eapply leads_ret; [done|].
       split; [done|]. eexists. split; [by eapply files_undecoded|by_gain]. }
  eapply leads_ask; [done|]. clear c Hc. intros g2 c Hr2 Hc. cbv zeta.
  eapply leads_call; [done|]. clear c Hc. intros g3 c Hr3 Hc.
  destruct (ingest_evidence e g3) as [[result|st] g4] eqn:Ei; cbn [fst snd] in *.
  2: { eapply leads_record; [done|apply adds_up_count|]. clear c Hc. intros c Hc. eapply leads_ret; [done|].
       split; [done|]. eexists. split; [by eapply files_refused|by_gain]. }
  apply leads_bind. destruct (ir_disposition result) eqn:Edis.
  - eapply leads_record; [done|apply adds_up_count|]. clear c Hc. intros c Hc. apply leads_bind.
    eapply (leads_weaken _ _ (λ _ m g' x', x' = x ∧ ∃ after, evaluates others o (make_request_for e (authority g2)) g4 after g'
      ∧ ∀ k, m k + occurrences k [LinkStats.frames_received] = n k + occurrences k (counted (EvidenceStaged after)))).
    { destruct (so_evaluate_on_ingest o) eqn:Eo.
      - eapply leads_weaken; [by eapply evaluate_and_commit_leads|]. intros _ m g' x' [-> (after & Ha & Hm)].
        split; [done|]. exists after. split; [done|]. intros k. rewrite Hm. destruct after; revert k; by_gain.
      - eapply leads_ret; [done|]. split; [done|]. exists NotEvaluated. split; [by apply evaluates_not|by_gain]. }
    intros _ m g5 x' [-> (after & Ha & Hm)] c1 Hc1. eapply leads_ret; [done|]. clear c Hc. intros c Hc.
    eapply leads_ask; [done|]. intros g6 c2 Hr6 Hc2. eapply leads_ret; [done|]. split; [done|].
    exists (EvidenceStaged after). split; [by eapply files_staged|done].
  - eapply leads_record; [done|apply adds_up_count|]. clear c Hc. intros c Hc. eapply leads_ret; [done|]. clear c Hc. intros c Hc.
    eapply leads_ask; [done|]. clear c Hc. intros g5 c Hr5 Hc. eapply leads_ret; [done|]. split; [done|].
    eexists. split; [by eapply files_known|by_gain].
Qed.

(** What follows a frame that was read whole: one event. *)
Lemma serve_frame_leads session expected frame closed w n g x c :
  stop_loaded (wi_arrivals x) = false → reading o x = (Value frame, closed, w) →
  midway others base n g (with_arrivals w x) c →
  leads (serve_frame o session expected frame) c (λ r m g' x', ∃ e,
    round others o session expected (g, x) [e] r (g', x') ∧ ∀ k, m k = n k + event_gain e k).
Proof.
  intros Hstop Er Hc. unfold serve_frame. cbv zeta. fold (frame_size frame).
  eapply leads_record; [done|apply received_adds_up|]. clear c Hc. intros c Hc.
  unfold refuse_frame, violate_sequence.
  assert (∀ g1 v code detail u l c1, midway others base (λ k, n k + (ticks [LinkStats.frames_received] k
      + amount LinkStats.bytes_received (frame_size frame) k)) g1 (with_arrivals w x) c1 →
    rtc others g g1 → frame_complaint session expected (gv_epoch g1) (if_header frame) = Some (v, code, detail) →
    adds_up u (ticks l) → counted v = LinkStats.frames_received :: l →
    leads (link_bind (record u) (λ _, link_bind (send_error session code detail) (λ _, link_ret None))) c1 (λ r m g' x', ∃ e,
      round others o session expected (g, x) [e] r (g', x') ∧ ∀ k, m k = n k + event_gain e k)) as Hrefuse.
  { intros g1 v code detail u l c1 Hc1 Hr1 Hcomp Hu Hv. eapply leads_refusal; [done..|]. intros sent status g' x' Ha.
    eexists. split; [by eapply round_refused|]. intros k. destruct (counted_bytes v) as [B1 B2]. revert B1 B2.
    unfold event_gain. cbn [le_verdict le_received le_sent]. rewrite Hv. unfold ticks, amount, occurrences. destruct k; cbn; lia. }
  unfold frame_complaint in Hrefuse. destruct (negb (fh_session_id _ =? _)) eqn:Es.
  { eapply Hrefuse; [done|done|done|apply adds_up_count|done]. }
  eapply leads_ask; [done|]. clear c Hc. intros g1 c Hr1 Hc. specialize (Hrefuse g1). destruct (negb (_ =? gv_epoch g1)) eqn:Ee.
  { eapply Hrefuse; [done|done|done|apply adds_up_count|done]. }
  assert (∀ r, frame_complaint session expected (gv_epoch g1) (if_header frame) = r →
    match fh_kind (if_header frame) with
    | FrameKind.Goodbye => None
    | FrameKind.Evidence =>
        if fh_sequence (if_header frame) <? expected then
          Some (FrameOutOfSequence, StatusCode.SequenceViolation, "frame sequence went backwards")
        else if fh_sequence (if_header frame) >? expected then
          Some (FrameOutOfSequence, StatusCode.SequenceViolation, "frame sequence skipped")
        else None
    | _ => Some (FrameRefused, StatusCode.FrameInvalid, "unexpected frame kind")
    end = r) as Hcomp by (intros r <-; unfold frame_complaint; by rewrite Es, Ee).
  specialize (Hcomp _ eq_refl). destruct (fh_kind (if_header frame)) eqn:Ek;
    try (eapply Hrefuse; [done|done|done|apply adds_up_count|done]).
  - destruct (_ <? _); [eapply Hrefuse; [done|done|done|apply adds_up_counts|done]|].
    destruct (_ >? _); [eapply Hrefuse; [done|done|done|apply adds_up_counts|done]|]. clear Hrefuse.
    apply leads_bind. eapply leads_weaken; [by apply take_evidence_leads|].
    intros ack m g2 x' [-> (v & Hf & Hm)] c1 Hc1. eapply leads_send; [done|]. intros sent status g' x' c2 Ha Hc2.
    eapply leads_ret; [done|]. eexists. split; [by eapply round_evidence|]. intros k. specialize (Hm k).
    destruct (counted_bytes v) as [B1 B2]. revert Hm B1 B2. unfold event_gain, ticks, amount. cbn [le_verdict le_received le_sent].
    generalize (counted v). unfold occurrences. intros l. destruct k; cbn; lia.
  - destruct (Z.eqb_spec (Z.land (fh_flags (if_header frame)) kFrameFlagRequestShutdown) 0) as [Hfl|Hfl]; cbn [negb].
    { eapply leads_ret; [done|]. eexists. split; [by eapply round_goodbye|by_gain]. }
    eapply leads_record; [done|apply adds_up_count|]. clear c Hc. intros c Hc.
    eapply leads_send; [done|]. clear c Hc. intros sent status g2 x' c Ha Hc.
    apply leads_bind. eexists _, _, _. split; [|by apply stop_midway]. intros c1 Hc1. eapply leads_ret; [done|].
    eexists. split; [by eapply round_shutdown|by_gain].
Qed.

Lemma serve_next_leads session expected n g x c :
  midway others base n g x c →
  leads (serve_next o session expected) c (λ r m g' x', ∃ es,
    round others o session expected (g, x) es r (g', x') ∧ ∀ k, m k = n k + tally es k).
Proof.
  intros Hc. assert (∀ e k, tally [e] k = event_gain e k) as Hone by (intros e k; unfold tally; cbn; rewrite sumZ_cons, sumZ_nil; lia).
  assert (∀ k, tally [] k = 0) as Hnone by done.
  unfold serve_next. eapply leads_load_stop; [done|]. destruct (stop_loaded (wi_arrivals x)) eqn:Hstop.
  { eapply leads_ret; [done|]. exists []. split; [by apply round_stopping|]. intros k. rewrite Hnone. lia. }
  eapply leads_receive; [done|]. clear c Hc. intros c Hc _. destruct (reading o x) as [[[frame|st] closed] w] eqn:Er; cbn [fst snd] in *.
  - eapply leads_weaken; [by eapply serve_frame_leads|]. intros r m g' x' (e & He & Hm). exists [e]. split; [done|].
    intros k. by rewrite Hone.
  - destruct closed.
    { eapply leads_ret; [done|]. exists []. split; [by eapply round_closed|]. intros k. rewrite Hnone. lia. }
    eapply leads_refusal; [done|apply note_unread_frame_adds_up|]. intros sent status g' x' Ha. eexists.
    split; [by eapply round_unread|]. intros k. rewrite Hone. revert k. destruct (status_code st); by_gain.
Qed.

Lemma frame_loop_leads fuel session : ∀ expected n g x c c',
  midway others base n g x c → frame_loop fuel o session expected c = Some c' →
  ∃ es m g' x', rounds others o session expected (g, x) es (g', x') ∧ midway others base m g' x' c'
    ∧ ∀ k, m k = n k + tally es k.
Proof.
  induction fuel as [|fuel IH]; intros expected n g x c c' Hc; [done|]. cbn [frame_loop].
  destruct (serve_next_leads session expected n g x c Hc) as (m & g1 & x1 & (es & He & Hm) & Hc1).
  destruct (serve_next o session expected c) as [[next|] c1]; cbn [fst snd] in *.
  - intros El. destruct (IH next m g1 x1 c1 c' Hc1 El) as (es' & m' & g' & x' & He' & Hc' & Hm').
    exists (es ++ es'), m', g', x'. split; [by eapply rounds_next|]. split; [done|]. intros k. rewrite Hm', Hm, tally_app. lia.
  - intros [= <-]. exists es, m, g1, x1. split; [by apply rounds_last|]. by split.
Qed.
End leads.

(** Serving ends, and is a conversation whose events the counters add up to. *)
Lemma serve_connection_converses {S} `{Backend S} others o (c : Connection S) :
  sound others c →
  ∃ c' es, serve_connection o c = Some c' ∧ sound others c'
    ∧ conversation others o (cn_governor c, wire c) es (cn_governor c', wire c')
    ∧ ∀ k, cn_stats c' k = wrap64 (cn_stats c k + tally es k).
Proof.
  intros Hc. destruct (serve_connection_ends o c) as [c' E]. exists c'. pose proof E as Ec. unfold serve_connection in E.
  destruct (handshake_leads others o (cn_stats c) _ _ _ c (midway_start others c Hc)) as (n & g1 & x1 & (e & He & Hn) & Hc1).
  destruct (handshake o c) as [r c1]; cbn [fst snd] in *. destruct r as [session|].
  - destruct (frame_loop_leads others o (cn_stats c) _ session _ _ _ _ _ _ Hc1 E) as (es & m & g' & x' & Hr & [<- <- Hc' Hs] & Hm).
    exists (e :: es). split; [exact Ec|]. split; [done|]. split; [by eapply conversation_served|].
    intros k. by rewrite Hs, Hm, Hn, tally_cons.
  - injection E as <-. destruct Hc1 as [<- <- Hc1 Hs]. exists [e]. split; [exact Ec|]. split; [done|].
    split; [by apply conversation_refused|]. intros k. rewrite Hs, Hn, tally_cons. f_equal. unfold tally. cbn. rewrite sumZ_nil. lia.
Qed.

(** ** The shape of a conversation *)

(** An evidence frame; it is evaluated exactly when the server is asked to. *)
Definition evidence_verdict (o : LinkServerOptions) (v : verdict) : Prop :=
  match v with
  | EvidenceStaged NotEvaluated => so_evaluate_on_ingest o = false
  | EvidenceStaged _ => so_evaluate_on_ingest o = true
  | EvidenceKnown | EvidenceRefused => True
  | _ => False
  end.

(** A frame after which the connection is over. *)
Definition closing_verdict (v : verdict) : Prop :=
  match v with
  | FrameUnread _ | FrameRefused | FrameOutOfSequence | FrameGoodbye | FrameShutdown => True
  | _ => False
  end.

(** The verdicts of a connection, in order. *)
Inductive session_verdicts (o : LinkServerOptions) : list verdict → Prop :=
  | session_unread code : session_verdicts o [HelloUnread code]
  | session_refused : session_verdicts o [HelloRefused]
  | session_served evidence : Forall (evidence_verdict o) evidence →
      session_verdicts o (HelloAccepted :: evidence)
  | session_closed evidence last : Forall (evidence_verdict o) evidence → closing_verdict last →
      session_verdicts o (HelloAccepted :: evidence ++ [last]).

Section shape.
  Context {S : Type} `{Backend S} (others : relation (Governor S)) (o : LinkServerOptions).
  Implicit Types (g : Governor S) (x : Wire) (p : Governor S * Wire).

Lemma files_verdict payload g v ack g' : files others o payload g v ack g' → evidence_verdict o v.
Proof. intros Hf. destruct Hf; try done. by match goal with He : evaluates _ _ _ _ _ _ |- _ => destruct He end. Qed.

Lemma complaint_closes session expected epoch header v code detail :
  frame_complaint session expected epoch header = Some (v, code, detail) → closing_verdict v.
Proof.
  unfold frame_complaint. repeat case_match; intros E; try discriminate E; injection E as <- <- <-; exact I.
Qed.

Lemma round_verdicts session expected p es r p' :
  round others o session expected p es r p' →
  (∃ e, es = [e] ∧ evidence_verdict o (le_verdict e)) ∨ r = None ∧ (es = [] ∨ ∃ e, es = [e] ∧ closing_verdict (le_verdict e)).
Proof.
  intros Hr. destruct Hr; try (right; split; [done|]; first [by left|right; eexists; by split]).
  - right. split; [done|]. right. eexists. split; [done|]. by eapply complaint_closes.
  - left. eexists. split; [done|]. by eapply files_verdict.
Qed.

Lemma rounds_verdicts session expected p es p' :
  rounds others o session expected p es p' →
  ∃ evidence last, le_verdict <$> es = evidence ++ last ∧ Forall (evidence_verdict o) evidence
    ∧ (last = [] ∨ ∃ v, last = [v] ∧ closing_verdict v).
Proof.
  induction 1 as [expected p es p' Hr|expected next p1 p2 p3 es1 es2 Hr _ (evidence & last & E & He & Hl)];
    apply round_verdicts in Hr as [(e & -> & Hv)|[Hn Hc]].
  - exists [le_verdict e], []. split; [done|]. split; [by constructor|by left].
  - destruct Hc as [->|(e & -> & Hv)]; [exists [], []; auto|]. exists [], [le_verdict e].
    split; [done|]. split; [done|]. right. by eexists.
  - exists (le_verdict e :: evidence), last. cbn. rewrite E. split; [done|]. split; [by constructor|done].
  - discriminate Hn.
Qed.

Lemma greets_verdict p e r p' :
  greets others o p e r p' →
  le_verdict e = HelloAccepted ∨ r = None ∧ (le_verdict e = HelloRefused ∨ ∃ code, le_verdict e = HelloUnread code).
Proof. intros Hg. destruct Hg; eauto. Qed.

Lemma conversation_verdicts p es p' : conversation others o p es p' → session_verdicts o (le_verdict <$> es).
Proof.
  intros [p1 e p2 Hg|p1 p2 p3 e session es' Hg Hr]; apply greets_verdict in Hg as [E|[Hn Hc]]; cbn; rewrite ?E.
  - by apply session_served.
  - destruct Hc as [->|[code ->]]; constructor.
  - apply rounds_verdicts in Hr as (evidence & last & -> & He & [->|(v & -> & Hv)]); [rewrite app_nil_r|]; by constructor.
  - discriminate Hn.
Qed.

(** *** The governor *)

Lemma answers_moves kind payload session sequence p n status p' :
  answers others kind payload session sequence p n status p' → rtc others p.1 p'.1 ∧ wi_arrivals p'.2 = wi_arrivals p.2.
Proof. intros Ha. by destruct Ha. Qed.

Lemma reading_octets x : octets (wi_arrivals x) → octets (reading o x).2.
Proof. apply read_frame_octets. Qed.

(** A server that only stages moves the governor by the others' steps and by
    ingesting valid snapshots. *)
Variable R : relation (Governor S).
Hypothesis HR : ∀ g g', others g g' → R g g'.
Hypothesis HI : ∀ e g, evidence_typed e → evidence_wf e → R g (ingest_evidence e g).2.

Lemma others_move g g' : rtc others g g' → rtc R g g'.
Proof. by apply rtc_subrel. Qed.

Lemma files_moves payload g v ack g' :
  so_evaluate_on_ingest o = false → byte_list payload → files others o payload g v ack g' → rtc R g g'.
Proof.
  intros Ho Hb Hf.
  assert (∀ g g' e r, decode_evidence payload = Value e → ingest_evidence e g = (r, g') → rtc R g g') as Hi.
  { intros g0 g1 e r Ed Ei. destruct (decode_evidence_sound payload e Hb Ed) as [Te We]. apply rtc_once.
    pose proof (HI e g0 Te We) as Hm. by rewrite Ei in Hm. }
  destruct Hf as [g g1 st Hr1 Hd|g g1 g2 g3 g4 e st Hr1 Hd Hr2 Hr3 Ei|g g1 g2 g3 g4 g5 e result Hr1 Hd Hr2 Hr3 Ei _ Hr5
    |g g1 g2 g3 g4 g5 g6 e result after Hr1 Hd Hr2 Hr3 Ei _ He Hr6].
  - by apply others_move.
  - etrans; [apply others_move; etrans; [exact Hr1|]; by etrans|by eapply Hi].
  - etrans; [apply others_move; etrans; [exact Hr1|]; by etrans|]. etrans; [by eapply Hi|by apply others_move].
  - etrans; [apply others_move; etrans; [exact Hr1|]; by etrans|]. etrans; [by eapply Hi|].
    destruct He; [by apply others_move|congruence..].
Qed.

Lemma round_moves session expected p es r p' :
  so_evaluate_on_ingest o = false → octets (wi_arrivals p.2) → round others o session expected p es r p' →
  rtc R p.1 p'.1 ∧ octets (wi_arrivals p'.2).
Proof.
  intros Ho Hoct Hr. pose proof (reading_octets p.2 Hoct) as Hw.
  destruct Hr as [g x Hs|g x st w Hs E|g x st w n status p' Hs E Ha|g g1 x frame closed w v code detail n status p' Hs E Hr1 _ Ha
    |g g1 x frame closed w Hs E Hr1 _ _ _|g g1 g2 x x' frame closed w n status Hs E Hr1 _ _ _ Ha
    |g g1 g2 x frame closed w v ack n status p' Hs E Hr1 _ _ Hf Ha]; cbn [fst snd] in *; rewrite ?E in Hw; try done.
  - apply answers_moves in Ha as [Ha ->]. split; [by apply others_move|done].
  - apply answers_moves in Ha as [Ha ->]. split; [apply others_move; by etrans|done].
  - split; [by apply others_move|done].
  - apply answers_moves in Ha as [Ha Ew]. split; [apply others_move; by etrans|]. cbn in *. by rewrite Ew.
  - apply answers_moves in Ha as [Ha ->]. split; [|done].
    pose proof (read_payload_octets _ _ _ _ _ _ Hoct E) as Hb. etrans; [by apply others_move|].
    etrans; [by eapply files_moves|by apply others_move].
Qed.

Lemma rounds_moves session expected p es p' :
  so_evaluate_on_ingest o = false → octets (wi_arrivals p.2) → rounds others o session expected p es p' → rtc R p.1 p'.1.
Proof.
  intros Ho Hoct Hr. induction Hr as [expected p es p' Hr|expected next p1 p2 p3 es1 es2 Hr _ IH].
  - by eapply round_moves.
  - destruct (round_moves session expected p1 es1 _ p2 Ho Hoct Hr) as [H1 H2]. etrans; [exact H1|by apply IH].
Qed.

Lemma greets_moves p e r p' :
  greets others o p e r p' → rtc others p.1 p'.1 ∧ (octets (wi_arrivals p.2) → octets (wi_arrivals p'.2)).
Proof.
  intros Hg. pose proof (reading_octets p.2) as Hw.
  destruct Hg as [g x st closed w E|g x frame closed w detail n status p' E _ Ha|g g1 g2 x frame closed w n status p' E _ Hr1 _ Hr2 Ha
    |g g1 g2 x frame closed w n status p' E _ Hr1 _ Hr2 _ Ha|g g1 g2 g3 x frame closed w n status p' E _ Hr1 _ Hr2 _ Hr3 session Ha];
    cbn [fst snd] in *; rewrite E in Hw; cbn [snd] in Hw; [by split|..]; apply answers_moves in Ha as [Ha ->]; cbn [fst snd] in *; (split; [|exact Hw]).
  - done.
  - etrans; [exact Hr1|]. by etrans.
  - etrans; [exact Hr1|]. by etrans.
  - etrans; [exact Hr1|]. etrans; [exact Hr2|]. by etrans.
Qed.

Lemma conversation_moves p es p' :
  so_evaluate_on_ingest o = false → octets (wi_arrivals p.2) → conversation others o p es p' → rtc R p.1 p'.1.
Proof.
  intros Ho Hoct Hc. revert Hoct. destruct Hc as [p1 e p2 Hg|p1 p2 p3 e session es' Hg Hr]; intros Hoct;
    apply greets_moves in Hg as [Hg Hw].
  - by apply others_move.
  - etrans; [by apply others_move|]. apply (rounds_moves session 1 p2 es' p3 Ho (Hw Hoct) Hr).
Qed.

(** Without an accepted handshake the worker leaves the governor alone. *)
Lemma conversation_unadmitted p es p' : conversation others o p es p' → admitted es = false → rtc others p.1 p'.1.
Proof.
  intros [p1 e p2 Hg|p1 p2 p3 e session es' Hg Hr].
  - intros _. by apply greets_moves in Hg as [Hg _].
  - apply greets_verdict in Hg as [E|[Hn _]]; [|discriminate Hn]. cbn. by rewrite E.
Qed.
End shape.

(** ** What the counters add up to *)

Definition total (es : list event) (ks : list LinkStats.counter) : Z := sumZ (tally es <$> ks).

Lemma total_cons e es ks : total (e :: es) ks = sumZ (event_gain e <$> ks) + total es ks.
Proof. unfold total. by rewrite <-sumZ_map_add. Qed.

Lemma total_app es es' ks : total (es ++ es') ks = total es ks + total es' ks.
Proof. unfold total. rewrite <-sumZ_map_add. f_equal. apply list_fmap_ext. intros i k _. apply tally_app. Qed.

(** Frames received are the handshake, the evidence frames with their three
    outcomes, and at most one more; snapshots are evaluated one for one. *)
Lemma evidence_totals o evidence :
  Forall (λ e, evidence_verdict o (le_verdict e)) evidence →
  tally evidence LinkStats.frames_received
    = total evidence [LinkStats.evidence_accepted; LinkStats.evidence_duplicate; LinkStats.evidence_rejected]
  ∧ total evidence [LinkStats.windows_committed; LinkStats.evaluations_failed]
    = (if so_evaluate_on_ingest o then tally evidence LinkStats.evidence_accepted else 0).
Proof.
  induction 1 as [|[v received sent] evidence Hv _ (IH1 & IH2)]; [by destruct (so_evaluate_on_ingest o)|].
  rewrite !total_cons, !tally_cons, <-IH1, IH2. cbn [fmap list_fmap event_gain le_verdict] in *. unfold occurrences, evidence_verdict in *.
  destruct v as [| | |after| | | | | | |]; try done; [destruct after|..]; cbn in *;
    destruct (so_evaluate_on_ingest o); try done; cbn; rewrite ?sumZ_cons, ?sumZ_nil; split; lia.
Qed.

(** A frame that is no evidence is at most one frame received. *)
Lemma other_totals e :
  ¬ (∃ o, evidence_verdict o (le_verdict e)) →
  total [e] [LinkStats.evidence_accepted; LinkStats.evidence_duplicate; LinkStats.evidence_rejected] = 0
  ∧ 0 <= tally [e] LinkStats.frames_received <= 1
  ∧ total [e] [LinkStats.windows_committed; LinkStats.evaluations_failed] = 0
  ∧ tally [e] LinkStats.evidence_accepted = 0.
Proof.
  destruct e as [v received sent]. cbn [le_verdict]. intros Hv. destruct v as [code| | |after| | |code| | | |]; try done.
  - by destruct code.
  - exfalso. apply Hv. destruct after; [exists default_server_options|..]; try done;
      by exists (mk_server_options "" 0 0 0 0 0 0 true).
  - exfalso. apply Hv. by exists default_server_options.
  - exfalso. apply Hv. by exists default_server_options.
  - by destruct code.
Qed.

Lemma session_totals o es :
  session_verdicts o (le_verdict <$> es) →
  let evidence := total es [LinkStats.evidence_accepted; LinkStats.evidence_duplicate; LinkStats.evidence_rejected] in
  (evidence <= tally es LinkStats.frames_received <= 2 + evidence)
  ∧ total es [LinkStats.windows_committed; LinkStats.evaluations_failed]
    = (if so_evaluate_on_ingest o then tally es LinkStats.evidence_accepted else 0).
Proof.
  intros Hvs evidence. remember (le_verdict <$> es) as vs eqn:E. symmetry in E.
  assert (∀ e, le_verdict e = HelloAccepted ∨ le_verdict e = HelloRefused ∨ (∃ code, le_verdict e = HelloUnread code)
    ∨ closing_verdict (le_verdict e) → ¬ ∃ o, evidence_verdict o (le_verdict e)) as Hother.
  { intros e [->|[->|[[code ->]|Hc]]] [o' Ho']; try done. by destruct (le_verdict e). }
  destruct Hvs as [code| |evs He|evs last He Hl]; unfold evidence; clear evidence.
  - apply fmap_cons_inv in E as (e & [|? ?] & Ee & E & ->); [|done].
    destruct (other_totals e (Hother e ltac:(eauto))) as (-> & ? & -> & ->). split; [lia|by destruct (so_evaluate_on_ingest o)].
  - apply fmap_cons_inv in E as (e & [|? ?] & Ee & E & ->); [|done].
    destruct (other_totals e (Hother e ltac:(eauto))) as (-> & ? & -> & ->). split; [lia|by destruct (so_evaluate_on_ingest o)].
  - apply fmap_cons_inv in E as (e & es' & Ee & E & ->). change (e :: es') with ([e] ++ es').
    rewrite E in He. apply (Forall_fmap le_verdict) in He. rewrite !total_app, !tally_app.
    destruct (evidence_totals o es' He) as (E1 & E2). rewrite E2, E1.
    destruct (other_totals e (Hother e ltac:(eauto))) as (-> & ? & -> & ->).
    split; [lia|by destruct (so_evaluate_on_ingest o)].
  - apply fmap_cons_inv in E as (e & es' & Ee & E & ->). symmetry in E. apply fmap_app_inv in E as (evidence & tail & -> & E & ->).
    symmetry in E. apply fmap_cons_inv in E as (e' & [|? ?] & Ee' & E & ->); [|done].
    change (e :: evidence ++ [e']) with ([e] ++ evidence ++ [e']). apply (Forall_fmap le_verdict) in He. rewrite !total_app, !tally_app.
    destruct (evidence_totals o evidence He) as (E1 & E2). rewrite E2, E1.
    destruct (other_totals e (Hother e ltac:(eauto))) as (-> & ? & -> & ->).
    rewrite Ee' in Hl. destruct (other_totals e' (Hother e' ltac:(eauto))) as (-> & ? & -> & ->).
    split; [lia|destruct (so_evaluate_on_ingest o); lia].
Qed.
