(* ===== verification/LinkWorkers.v ===== *)
(** The threads of the link server: the accept loop [EvidenceLinkServer::serve],
    its workers, and [shutdown] ([src/link/link.cpp]).

    The state is what the threads share: the stop flag, the count of active
    workers, the registry under its mutex, and what each worker has reached.  A
    step is one access to it by one thread; the steps interleave freely. *)
From stdpp Require Import relations.
From S2P Require Import Prelude Status Core LinkServer.
#[local] Open Scope string_scope.
#[local] Open Scope list_scope.
#[local] Open Scope Z_scope.

(** Where a worker's thread is: created, between the increment and the decrement
    of [active_workers], past the decrement, past [done->store(true)]. *)
Inductive phase : Set := Spawned | Serving | Leaving | Finished.

#[global] Instance phase_eq_dec : EqDecision phase.
Proof. solve_decision. Defined.

(** Where the accept loop is: not in [serve], selecting, or holding a connection
    that passed the check of the connection budget. *)
Inductive accepting : Set := Outside | Selecting | Admitting.

Record Service := mk_service {
  sv_stop : bool;
  sv_loop : accepting;
  sv_active_workers : Z;
  sv_workers : list phase;
  sv_draining : bool;
  sv_pending : list phase;
  sv_stats : LinkStats.t }.

Definition started : Service := mk_service false Outside 0 [] false [] LinkStats.zero.

(** ** The accept loop *)

Definition with_loop (loop : accepting) (stats : LinkStats.t) (s : Service) : Service :=
  mk_service (sv_stop s) loop (sv_active_workers s) (sv_workers s) (sv_draining s) (sv_pending s) stats.

Definition with_workers (workers : list phase) (s : Service) : Service :=
  mk_service (sv_stop s) (sv_loop s) (sv_active_workers s) workers (sv_draining s) (sv_pending s)
    (sv_stats s).

(** [serve] begins. *)
Definition enter (s : Service) : Service := with_loop Selecting (sv_stats s) s.

(** [prune_workers]: the workers that are done leave the registry; joining them
    does not wait. *)
Definition prune_workers (s : Service) : Service :=
  with_workers (filter (λ p, p <> Finished) (sv_workers s)) s.

(** A connection was accepted: the budget is checked against the active workers. *)
Definition take_connection (o : LinkServerOptions) (s : Service) : Service :=
  if sv_active_workers s >=? so_max_connections o
  then with_loop Selecting (LinkStats.count LinkStats.connections_rejected (sv_stats s)) s
  else with_loop Admitting (LinkStats.count LinkStats.connections_accepted (sv_stats s)) s.

(** Under the registry's mutex: a stop that came in the meantime retires the
    connection and leaves the loop, otherwise a worker is created and registered. *)
Definition register (s : Service) : Service :=
  if sv_stop s then with_loop Outside (sv_stats s) s
  else with_workers (sv_workers s ++ [Spawned]) (with_loop Selecting (sv_stats s) s).

(** The loop sees the stop flag. *)
Definition leave (s : Service) : Service := with_loop Outside (sv_stats s) s.

(** ** Stopping *)

(** [request_stop], a goodbye with shutdown, and the first act of [shutdown]. *)
Definition request_stop (s : Service) : Service :=
  mk_service true (sv_loop s) (sv_active_workers s) (sv_workers s) (sv_draining s) (sv_pending s)
    (sv_stats s).

(** [pending.swap(workers)]; the wait for the accept loop that precedes it is
    bounded, so it guarantees nothing here. *)
Definition drain_workers (s : Service) : Service :=
  mk_service (sv_stop s) (sv_loop s) (sv_active_workers s) [] true (sv_pending s ++ sv_workers s)
    (sv_stats s).

(** [join] of the next worker returns when its thread has ended. *)
Definition join_next (s : Service) : Service :=
  mk_service (sv_stop s) (sv_loop s) (sv_active_workers s) (sv_workers s) (sv_draining s)
    (tail (sv_pending s)) (sv_stats s).

(** ** Workers *)

Definition set_active (n : Z) (s : Service) : Service :=
  mk_service (sv_stop s) (sv_loop s) n (sv_workers s) (sv_draining s) (sv_pending s) (sv_stats s).

(** A worker's next move; it is in the registry or among the pending. *)
Definition moved (p : phase) : phase :=
  match p with Spawned => Serving | Serving => Leaving | _ => Finished end.

(** [active_workers.fetch_add] and [fetch_sub], on 32 bits. *)
Definition counts (p : phase) (active : Z) : Z :=
  match p with
  | Spawned => wrap32 (active + 1)
  | Serving => wrap32 (active - 1)
  | _ => active
  end.

Definition move_worker (i : nat) (p : phase) (s : Service) : Service :=
  set_active (counts p (sv_active_workers s)) (with_workers (<[i := moved p]> (sv_workers s)) s).

Definition move_pending (i : nat) (p : phase) (s : Service) : Service :=
  set_active (counts p (sv_active_workers s))
    (mk_service (sv_stop s) (sv_loop s) (sv_active_workers s) (sv_workers s) (sv_draining s)
       (<[i := moved p]> (sv_pending s)) (sv_stats s)).

(** ** Interleavings *)

Inductive service_step (o : LinkServerOptions) : Service → Service → Prop :=
  | step_enter s : sv_loop s = Outside → service_step o s (enter s)
  | step_prune s : sv_loop s = Selecting → service_step o s (prune_workers s)
  | step_take s : sv_loop s = Selecting → service_step o s (take_connection o s)
  | step_register s : sv_loop s = Admitting → service_step o s (register s)
  | step_leave s : sv_loop s = Selecting → sv_stop s = true → service_step o s (leave s)
  | step_stop s : service_step o s (request_stop s)
  | step_drain s : sv_stop s = true → service_step o s (drain_workers s)
  | step_join s : head (sv_pending s) = Some Finished → service_step o s (join_next s)
  | step_worker s i p : sv_workers s !! i = Some p → service_step o s (move_worker i p s)
  | step_pending s i p : sv_pending s !! i = Some p → service_step o s (move_pending i p s).

(** ** Invariant *)

(** Workers between their increment and their decrement. *)
Definition serving_count (l : list phase) : Z := Z.of_nat (length (filter (λ p, p = Serving) l)).

Record service_ok (s : Service) : Prop := {
  sk_active : sv_active_workers s = wrap32 (serving_count (sv_workers s ++ sv_pending s));
  sk_drained : sv_draining s = true → sv_stop s = true ∧ sv_workers s = [];
  sk_pending : sv_draining s = false → sv_pending s = [] }.

Lemma serving_count_app l k : serving_count (l ++ k) = serving_count l + serving_count k.
Proof. unfold serving_count. rewrite filter_app, length_app. lia. Qed.

Lemma serving_count_cons p l : serving_count (p :: l) = (if decide (p = Serving) then 1 else 0) + serving_count l.
Proof. unfold serving_count. rewrite filter_cons. case_decide; cbn; lia. Qed.

Lemma serving_count_prune l : serving_count (filter (λ p, p <> Finished) l) = serving_count l.
Proof.
  induction l as [|p l IH]; [done|]. rewrite filter_cons. case_decide as Hp.
  - by rewrite !serving_count_cons, IH.
  - rewrite serving_count_cons, IH. by destruct p.
Qed.

Lemma counts_serving p active n :
  active = wrap32 (n + (if decide (p = Serving) then 1 else 0)) →
  counts p active = wrap32 (n + (if decide (moved p = Serving) then 1 else 0)).
Proof.
  intros ->. destruct p; cbn [counts moved]; repeat case_decide; rewrite ?Z.add_0_r; try done; unfold wrap32.
  - by rewrite Zplus_mod_idemp_l.
  - rewrite Zminus_mod_idemp_l. by replace (n + 1 - 1) with n by lia.
Qed.

Lemma serving_count_insert i p q l :
  l !! i = Some p →
  ∃ n, serving_count l = n + (if decide (p = Serving) then 1 else 0)
    ∧ serving_count (<[i := q]> l) = n + (if decide (q = Serving) then 1 else 0).
Proof.
  intros Hi. pose proof (lookup_lt_Some _ _ _ Hi). exists (serving_count (take i l ++ drop (Datatypes.S i) l)).
  rewrite <-(take_drop_middle l i p Hi) at 1. rewrite insert_take_drop by done.
  rewrite !serving_count_app, !serving_count_cons. lia.
Qed.

Lemma service_step_ok o s s' : service_step o s s' → service_ok s → service_ok s'.
Proof.
  intros Hs [H1 H2 H3]. destruct Hs as [s E|s E|s E|s E|s E Es|s|s Es|s E|s i p E|s i p E].
  - by constructor.
  - constructor; cbn; [|intros Hd; destruct (H2 Hd) as [? ->]; done|done].
    by rewrite H1, !serving_count_app, serving_count_prune.
  - unfold take_connection. destruct (_ >=? _); by constructor.
  - unfold register. destruct (sv_stop s) eqn:Es; [constructor; cbn; [done|by rewrite Es|done]|].
    constructor; cbn; [|intros Hd; by destruct (H2 Hd)|done].
    rewrite H1, !serving_count_app. f_equal. change (serving_count [Spawned]) with 0. lia.
  - by constructor.
  - constructor; cbn; [done|intros Hd; by destruct (H2 Hd)|done].
  - constructor; cbn; [|done|done]. rewrite H1, !serving_count_app. f_equal.
    change (serving_count []) with 0. lia.
  - destruct s as [stop loop active workers draining [|p l] stats]; cbn in *; [done|]. injection E as ->.
    constructor; cbn; [|done|intros Hd; by specialize (H3 Hd)].
    by rewrite H1, !serving_count_app, serving_count_cons.
  - destruct (serving_count_insert i p (moved p) _ E) as (n & E1 & E2).
    constructor; cbn; [|intros Hd; destruct (H2 Hd) as [_ E0]; by rewrite E0 in E|done].
    rewrite serving_count_app, E2. rewrite (counts_serving p _ (n + serving_count (sv_pending s))).
    + f_equal. lia.
    + rewrite H1, serving_count_app, E1. f_equal. lia.
  - destruct (serving_count_insert i p (moved p) _ E) as (n & E1 & E2).
    constructor; cbn; [|done|intros Hd; by rewrite (H3 Hd) in E].
    rewrite serving_count_app, E2. rewrite (counts_serving p _ (serving_count (sv_workers s) + n)).
    + f_equal. lia.
    + rewrite H1, serving_count_app, E1. f_equal. lia.
Qed.

Lemma service_run_ok o s : rtc (service_step o) started s → service_ok s.
Proof.
  intros Hr. assert (service_ok started) as H0 by by constructor. revert H0.
  induction Hr as [|s1 s2 s3 Hs _ IH]; [done|]. intros H1. by apply IH, (service_step_ok o s1).
Qed.

(** What stopping fixes. *)
Lemma service_step_stopped o s s' :
  service_step o s s' → sv_draining s = true → service_ok s →
  sv_draining s' = true ∧ sv_workers s' = [] ∧ (length (sv_pending s') <= length (sv_pending s))%nat.
Proof.
  intros Hs Hd Hok. pose proof (service_step_ok o s s' Hs Hok) as Hok'.
  destruct Hok as [_ H2 _]. destruct (H2 Hd) as [Hstop Hw].
  assert (sv_draining s' = true) as Hd'.
  { destruct Hs; cbn; try done; unfold take_connection, register; by repeat case_bool. }
  split; [done|]. destruct Hok' as [_ H2' _]. destruct (H2' Hd') as [_ Hw']. split; [done|].
  destruct Hs as [s E|s E|s E|s E|s E Es|s|s Es|s E|s i p E|s i p E]; cbn; try lia.
  - unfold take_connection. by destruct (_ >=? _).
  - unfold register. by rewrite Hstop.
  - rewrite Hw, app_nil_r. lia.
  - destruct (sv_pending s); cbn; lia.
  - rewrite length_insert. lia.
Qed.

Lemma service_run_stopped o s s' :
  rtc (service_step o) s s' → sv_draining s = true → service_ok s →
  sv_draining s' = true ∧ service_ok s' ∧ (length (sv_pending s') <= length (sv_pending s))%nat.
Proof.
  induction 1 as [|s1 s2 s3 Hs _ IH]; intros Hd Hok; [done|].
  destruct (service_step_stopped o s1 s2 Hs Hd Hok) as (Hd2 & _ & Hl).
  destruct (IH Hd2 (service_step_ok o s1 s2 Hs Hok)) as (? & ? & ?). split_and!; [done|done|lia].
Qed.
