(* ===== verification/LinkThreads.v ===== *)
(** The server as a whole: the workers of [EvidenceLinkServer], each at its own place
    in the program of its connection, over one governor, one set of counters and
    what other users of the governor do.

    A step is one command of one worker, and leaves an entry in the log of the run.
    Between two commands of a worker any other may run, so a connection's interference
    is what the rest of the server did since its last call, which is read off the log:
    every worker does what it would do alone on that connection, and what LinkSafety
    says of a connection holds of it. *)
From stdpp Require Import relations.
From S2P Require Import Prelude Status Core Bytes Policy Accounting Evidence Outcome Codec CodecSpec DecodeSpec Engine EngineSpec Frame FrameSpec Socket SocketSpec Store Governor GovernorSpec GovernorEval GovernorInv GovernorReach LinkServer LinkSpec LinkEvents LinkSafety.
#[local] Open Scope string_scope.
#[local] Open Scope list_scope.
#[local] Open Scope Z_scope.
#[local] Open Scope fg_scope.

(** ** Workers *)

Section workers.
  Context {S : Type} `{Backend S} (o : LinkServerOptions).

(** The frame loop as a program; false when the fuel does not do. *)
Fixpoint frame_rounds (fuel : nat) (session expected : Z) : Link S bool :=
  match fuel with
  | O => link_ret false
  | Datatypes.S fuel =>
      run next := serve_next o session expected in
      match next with
      | None => link_ret true
      | Some expected => frame_rounds fuel session expected
      end
  end.

(** [run_worker], up to the closing of the socket. *)
Definition worker_program (fuel : nat) : Link S bool :=
  run session := handshake o in
  match session with
  | None => link_ret true
  | Some session => frame_rounds fuel session 1
  end.

(** A connection beyond the budget, refused by the accept loop. *)
Definition refuse_connection : Link S unit :=
  run _ := record (LinkStats.count LinkStats.connections_rejected) in
  send_error 0 StatusCode.LinkBusy "connection budget is exhausted".

(** [wk_given] is what the accept loop handed over, the rest is where the worker is. *)
Record Worker := mk_worker {
  wk_given : list arrival * list departure;
  wk_program : Link S bool;
  wk_arrivals : list arrival;
  wk_departures : list departure;
  wk_sent : ByteBuffer;
  wk_stop : bool }.

Definition spawn (given : list arrival * list departure) : Worker :=
  mk_worker given (worker_program (Datatypes.S (pending given.1))) given.1 given.2 [] false.

Definition finished (w : Worker) : Prop := wk_program w = link_ret true.

Record Server := mk_server {
  srv_governor : Governor S;
  srv_stats : LinkStats.t;
  srv_workers : list Worker }.

(** What a worker sees of the server. *)
Definition view (srv : Server) (w : Worker) : Connection S :=
  mk_connection (srv_governor srv) [] (srv_stats srv) (wk_arrivals w) (wk_departures w) (wk_sent w) (wk_stop w).

(** Where a worker is after a command. *)
Definition resume (w : Worker) (program : Link S bool) (c : Connection S) : Worker :=
  mk_worker (wk_given w) program (cn_arrivals c) (cn_departures c) (cn_sent c) (cn_stop c).

Definition take_command {B} (i : nat) (w : Worker) (m : Command S B) (k : B → Link S bool) (srv : Server) : Server :=
  let '(b, c) := perform m (view srv w) in
  mk_server (cn_governor c) (cn_stats c) (<[i := resume w (k b) c]> (srv_workers srv)).

Definition accept (given : list arrival * list departure) (srv : Server) : Server :=
  mk_server (srv_governor srv) (LinkStats.count LinkStats.connections_accepted (srv_stats srv))
    (srv_workers srv ++ [spawn given]).

Definition refuse (departures : list departure) (srv : Server) : Server :=
  let c := (refuse_connection (mk_connection (srv_governor srv) [] (srv_stats srv) [] departures [] false)).2 in
  mk_server (srv_governor srv) (cn_stats c) (srv_workers srv).

(** *** Runs *)

(** What a command does to the governor. *)
Definition effect {B} (m : Command S B) : Governor S → Governor S :=
  match m with CallGovernor f => λ g, (f g).2 | _ => id end.

(** An entry of the log: a connection accepted or refused, what another user of the
    governor did, a worker's call of the governor, or another command of a worker. *)
Inductive entry :=
  | Accepted (given : list arrival * list departure)
  | Refused (departures : list departure)
  | OtherUser (f : Governor S → Governor S)
  | Called (i : nat) (f : Governor S → Governor S)
  | Worked (i : nat).

Definition command_entry {B} (i : nat) (m : Command S B) : entry :=
  match m with CallGovernor _ => Called i (effect m) | _ => Worked i end.

(** A step of the server: a worker's, another user's of the governor, or the accept
    loop's. *)
Inductive server_step (others : relation (Governor S)) (srv : Server) : entry → Server → Prop :=
  | step_command i w B (m : Command S B) k :
      srv_workers srv !! i = Some w → wk_program w = Perform m k →
      server_step others srv (command_entry i m) (take_command i w m k srv)
  | step_other f : (∀ g, others g (f g)) →
      server_step others srv (OtherUser f) (mk_server (f (srv_governor srv)) (srv_stats srv) (srv_workers srv))
  | step_accept given : octets given.1 → server_step others srv (Accepted given) (accept given srv)
  | step_refuse departures : server_step others srv (Refused departures) (refuse departures srv).

Definition opened_server (g : Governor S) : Server := mk_server g LinkStats.zero [].

(** A run from the opening, and its log. *)
Inductive server_run (others : relation (Governor S)) (g : Governor S) : list entry → Server → Prop :=
  | run_opened : server_run others g [] (opened_server g)
  | run_step log srv e srv' :
      server_run others g log srv → server_step others srv e srv' → server_run others g (log ++ [e]) srv'.

(** *** Reading the log *)

(** A worker in the log: the connection it was given, the governor it found, what the
    rest of the server did before each of its calls, and since the last. *)
Record Track := mk_track {
  tr_given : list arrival * list departure;
  tr_start : Governor S;
  tr_tended : list (Governor S → Governor S);
  tr_since : Governor S → Governor S }.

Definition later (f : Governor S → Governor S) (t : Track) : Track :=
  mk_track (tr_given t) (tr_start t) (tr_tended t) (λ g, f (tr_since t g)).

Definition tend (t : Track) : Track := mk_track (tr_given t) (tr_start t) (tr_tended t ++ [tr_since t]) id.

(** The state of the governor, the workers, and the connections that were refused,
    each with the governor at that time. *)
Record Account := mk_account {
  at_governor : Governor S;
  at_tracks : list Track;
  at_refused : list (Governor S * list departure) }.

Definition follow (a : Account) (e : entry) : Account :=
  let '(mk_account g ts rs) := a in
  match e with
  | Accepted given => mk_account g (ts ++ [mk_track given g [] id]) rs
  | Refused departures => mk_account g ts (rs ++ [(g, departures)])
  | OtherUser f => mk_account (f g) (later f <$> ts) rs
  | Called i f => mk_account (f g) (imap (λ j t, if decide (j = i) then tend t else later f t) ts) rs
  | Worked _ => a
  end.

Definition account (g : Governor S) (log : list entry) : Account := foldl follow (mk_account g [] []) log.

(** The connection a worker serves, with counters of its own. *)
Definition lone (t : Track) : Connection S :=
  mk_connection (tr_start t) (tr_tended t) LinkStats.zero (tr_given t).1 (tr_given t).2 [] false.

(** What refusing a connection adds to the counters. *)
Definition refusal_gain (r : Governor S * list departure) (k : LinkStats.counter) : Z :=
  let frame := encode_frame (reply_header FrameKind.Error kFrameFlagNone 0 0 (authority r.1))
                 (encode_error StatusCode.LinkBusy "connection budget is exhausted") in
  match k with
  | LinkStats.connections_rejected => 1
  | LinkStats.bytes_sent => match (write_all frame r.2).1.1 with Value _ => sizeZ frame | Failure _ => 0 end
  | _ => 0
  end.

(** *** What a log may hold *)

(** The states of the governor so far. *)
Definition visited (g : Governor S) (log : list entry) (g0 : Governor S) : Prop :=
  ∃ log0, log0 `prefix_of` log ∧ g0 = at_governor (account g log0).

(** What a worker may do to a governor with this past: read it, ingest a valid
    snapshot, or commit a decision that was evaluated on a state of it. *)
Inductive worker_call (past : Governor S → Prop) : (Governor S → Governor S) → Prop :=
  | calls_read : worker_call past (λ g, g)
  | calls_ingest e : evidence_typed e → evidence_wf e → worker_call past (λ g, (ingest_evidence e g).2)
  | calls_commit e g0 g1 d :
      so_evaluate_on_ingest o = true → evidence_typed e → past g0 → past g1 →
      evaluate (make_request_for e (authority g0)) g1 = Value d → worker_call past (λ g, (commit_decision d g).2).

Inductive conduct (others : relation (Governor S)) (g : Governor S) : list entry → Prop :=
  | conduct_opened : conduct others g []
  | conduct_other log f : conduct others g log → (∀ g, others g (f g)) → conduct others g (log ++ [OtherUser f])
  | conduct_call log i f : conduct others g log → worker_call (visited g log) f → conduct others g (log ++ [Called i f])
  | conduct_quiet log e :
      conduct others g log → match e with OtherUser _ | Called _ _ => False | _ => True end → conduct others g (log ++ [e]).
End workers.
Arguments Worker S : clear implicits.
Arguments Server S : clear implicits.
Arguments entry S : clear implicits.
Arguments Track S : clear implicits.
Arguments Account S : clear implicits.

(** ** A worker on its own *)

Section alone.
  Context {S : Type} `{Backend S} (o : LinkServerOptions).
  Implicit Types (c : Connection S).

Lemma frame_rounds_loop fuel session : ∀ expected c c',
  frame_loop fuel o session expected c = Some c' → frame_rounds o fuel session expected c = (true, c').
Proof.
  induction fuel as [|fuel IH]; intros expected c c'; [done|]. cbn [frame_loop frame_rounds]. rewrite bind_eq.
  destruct (serve_next o session expected c) as [[next|] c1]; [apply IH|by intros [= <-]].
Qed.

(** The program carries the connection through: it never runs out. *)
Lemma worker_program_serves fuel c :
  (pending (cn_arrivals c) < fuel)%nat →
  ∃ c', serve_connection o c = Some c' ∧ worker_program o fuel c = (true, c').
Proof.
  intros Hf. pose proof (handshake_pending o c) as Hp. unfold serve_connection, worker_program. rewrite bind_eq.
  destruct (handshake o c) as [[session|] c1]; cbn [fst snd] in *; [|by exists c1].
  destruct (frame_loop_ends (Datatypes.S (pending (cn_arrivals c1))) o session 1 c1 ltac:(lia)) as [c' E].
  exists c'. split; [done|]. apply frame_rounds_loop. eapply frame_loop_same; [exact E|lia].
Qed.
End alone.

(** ** Programs that are safe to interleave *)

Section safe.
  Context {S : Type} `{Backend S} (o : LinkServerOptions).
  Implicit Types (past : Governor S → Prop).

(** A command calls the governor as a worker may, and adds to the counters. *)
Definition allowed {B} past (m : Command S B) : Prop :=
  match m with
  | CallGovernor f => worker_call o past (λ g, (f g).2)
  | UpdateStats update => ∃ n, adds_up update n
  | _ => True
  end.

(** What a command may answer. *)
Definition yields {B} past (m : Command S B) : B → Prop :=
  match m with
  | CallGovernor f => λ a, ∃ g, past g ∧ a = (f g).1
  | ReceiveFrame _ => λ r, ∀ frame, r.1 = Value frame → byte_list (if_payload frame)
  | _ => λ _, True
  end.

Fixpoint safe {A} past (p : Link S A) : Prop :=
  match p with
  | Return _ => True
  | Perform m k =>
      allowed past m ∧ ∀ past' : Governor S → Prop, (∀ g, past g → past' g) → ∀ b, yields past' m b → safe past' (k b)
  end.

Lemma allowed_mono {B} past past' (m : Command S B) : (∀ g, past g → past' g) → allowed past m → allowed past' m.
Proof. intros Hp. destruct m; cbn; try done. intros [|e Te We|e g0 g1 d Ho Te H0 H1 E].
  - constructor.
  - by constructor.
  - apply (calls_commit o _ e g0 g1 d); auto.
Qed.

Lemma safe_mono {A} past past' (p : Link S A) : (∀ g, past g → past' g) → safe past p → safe past' p.
Proof.
  intros Hp. destruct p as [a|B m k]; [done|]. intros [Ha Hk]. split; [by eapply allowed_mono|].
  intros past'' Hp'. apply Hk. auto.
Qed.

Lemma safe_bind {A B} past (m : Link S A) (k : A → Link S B) :
  safe past m → (∀ past', (∀ g, past g → past' g) → ∀ a, safe past' (k a)) → safe past (link_bind m k).
Proof.
  revert past. induction m as [a|B' m rest IH]; intros past Hm Hk; cbn in *; [by apply Hk|]. destruct Hm as [Ha Hr].
  split; [done|]. intros past' Hp b Hb. apply IH; [by apply Hr|]. intros past'' Hp'. apply Hk. auto.
Qed.

Lemma safe_then {A B} past (m : Command S A) (k : A → Link S B) :
  allowed past m → (∀ past', (∀ g, past g → past' g) → ∀ a, yields past' m a → safe past' (k a)) →
  safe past (link_bind (once m) k).
Proof. done. Qed.

Lemma safe_ask {A B} past (f : Governor S → A) (k : A → Link S B) :
  (∀ past', (∀ g, past g → past' g) → ∀ g, past' g → safe past' (k (f g))) → safe past (link_bind (ask f) k).
Proof. intros Hk. split; [constructor|]. intros past' Hp a (g & Hg & ->). by apply Hk. Qed.

Lemma safe_count {B} past update n (k : unit → Link S B) :
  adds_up update n → (∀ past', (∀ g, past g → past' g) → safe past' (k tt)) → safe past (link_bind (record update) k).
Proof. intros Hu Hk. split; [by exists n|]. intros past' Hp [] _. by apply Hk. Qed.

Lemma safe_record past update n : adds_up update n → safe past (record update).
Proof. intros Hu. split; [by exists n|done]. Qed.

Lemma safe_send_frame past kind payload session sequence flags : safe past (send_frame kind payload session sequence flags).
Proof.
  unfold send_frame. apply safe_ask. intros past1 _ g _. cbv zeta. apply safe_then; [done|]. intros past2 _ status _.
  apply safe_bind; [|done]. destruct status; [|done]. eapply safe_record, adds_up_amount.
Qed.

Lemma safe_send_error past session code detail : safe past (send_error session code detail).
Proof. apply safe_bind; [apply safe_send_frame|done]. Qed.

Lemma safe_refusal past update n session code detail (r : option Z) :
  adds_up update n → safe past (link_bind (record update) (λ _, link_bind (send_error session code detail) (λ _, link_ret r))).
Proof. intros Hu. apply (safe_count _ _ n); [done|]. intros past' _. by apply safe_bind; [apply safe_send_error|]. Qed.

Lemma safe_handshake past : safe past (handshake o).
Proof.
  unfold handshake. apply safe_then; [done|]. intros past1 _ [[frame|st] closed] _.
  2: { eapply safe_count; [apply note_unread_handshake_adds_up|done]. }
  cbv zeta. eapply safe_count; [apply adds_up_count|]. intros past2 _. unfold refuse_handshake.
  destruct (negb _); [eapply safe_refusal, adds_up_count|].
  destruct (_ || _); [eapply safe_refusal, adds_up_count|].
  apply safe_ask. intros past3 _ g1 _. destruct (negb _).
  { eapply safe_count; [apply adds_up_count|]. intros past4 _. apply safe_ask. intros past5 _ g2 _.
    by apply safe_bind; [apply safe_send_frame|]. }
  apply safe_ask. intros past4 _ g2 _. destruct (gv_stopping g2); [eapply safe_refusal, adds_up_count|].
  apply safe_ask. intros past5 _ g3 _. apply safe_bind; [apply safe_send_frame|]. intros past6 _ status.
  by eapply safe_count; [apply adds_up_count|].
Qed.

Lemma safe_evaluate_and_commit past e g0 :
  so_evaluate_on_ingest o = true → evidence_typed e → past g0 → safe past (evaluate_and_commit (make_request_for e (authority g0))).
Proof.
  intros Ho Te Hg0. unfold evaluate_and_commit. apply safe_ask. intros past1 Hp1 g1 Hg1.
  destruct (evaluate _ g1) as [d|st] eqn:Ed; [|eapply safe_record, adds_up_count].
  apply safe_then; [by apply (calls_commit o _ e g0 g1 d); auto|].
  intros past2 _ [[]|st] _; eapply safe_record, adds_up_count.
Qed.

Lemma safe_take_evidence past payload : byte_list payload → safe past (take_evidence o payload).
Proof.
  intros Hb. unfold take_evidence. apply safe_ask. intros past1 _ g0 _.
  destruct (decode_evidence payload) as [e|st] eqn:Ed; [|by eapply safe_count; [apply adds_up_count|]].
  destruct (decode_evidence_sound payload e Hb Ed) as [Te We]. apply safe_ask. intros past2 _ g1 Hg1. cbv zeta.
  apply safe_then; [by apply calls_ingest|].
  intros past3 Hp3 [result|st] _; [|by eapply safe_count; [apply adds_up_count|]].
  apply safe_bind; [|intros past4 _ disposition; by apply safe_ask].
  destruct (ir_disposition result); (eapply safe_count; [apply adds_up_count|]); intros past4 Hp4; [|done].
  apply safe_bind; [|done]. destruct (so_evaluate_on_ingest o) eqn:Eo; [|done]. apply safe_evaluate_and_commit; auto.
Qed.

Lemma safe_serve_frame past session expected frame : byte_list (if_payload frame) → safe past (serve_frame o session expected frame).
Proof.
  intros Hb. unfold serve_frame. cbv zeta. eapply safe_count; [apply received_adds_up|]. intros past1 _.
  unfold refuse_frame, violate_sequence. destruct (negb _); [eapply safe_refusal, adds_up_count|].
  apply safe_ask. intros past2 _ g1 _. destruct (negb _); [eapply safe_refusal, adds_up_count|].
  destruct (fh_kind (if_header frame)); try (eapply safe_refusal, adds_up_count).
  - destruct (_ <? _); [eapply safe_refusal, adds_up_counts|]. destruct (_ >? _); [eapply safe_refusal, adds_up_counts|].
    apply safe_bind; [by apply safe_take_evidence|]. intros past3 _ ack. by apply safe_bind; [apply safe_send_frame|].
  - destruct (negb _); [|done]. eapply safe_count; [apply adds_up_count|]. intros past3 _.
    apply safe_bind; [apply safe_send_frame|]. intros past4 _ _. by apply safe_then.
Qed.

Lemma safe_serve_next past session expected : safe past (serve_next o session expected).
Proof.
  unfold serve_next. apply safe_then; [done|]. intros past1 _ [] _; [done|]. apply safe_then; [done|].
  intros past2 _ [[frame|st] closed] Hr; [apply safe_serve_frame; by apply Hr|].
  destruct closed; [done|]. eapply safe_refusal, note_unread_frame_adds_up.
Qed.

Lemma safe_worker past fuel : safe past (worker_program o fuel).
Proof.
  apply safe_bind; [apply safe_handshake|]. intros past' _ [session|]; [|done]. clear past. revert past'. generalize 1.
  induction fuel as [|fuel IH]; intros expected past; [done|]. apply safe_bind; [apply safe_serve_next|].
  intros past' _ [next|]; [apply IH|done].
Qed.
End safe.

(** ** Every worker does what it would do alone *)

Lemma wrap64_sum l l' :
  Forall2 (λ a b, wrap64 a = wrap64 b) l l' → ∀ n, wrap64 (n + sumZ l) = wrap64 (n + sumZ l').
Proof.
  induction 1 as [|a b l l' E _ IH]; intros n; [done|]. rewrite !sumZ_cons, !Z.add_assoc, IH. unfold wrap64 in *.
  rewrite <-(Zplus_mod_idemp_l (n + a)), <-(Zplus_mod_idemp_l (n + b)).
  rewrite <-(Zplus_mod_idemp_r a), E, Zplus_mod_idemp_r. done.
Qed.

(** A prefix of a log that went on is one of before, or all of it. *)
Lemma prefix_snoc_inv {A} (l k : list A) a : k `prefix_of` l ++ [a] → k `prefix_of` l ∨ k = l ++ [a].
Proof.
  intros [k' E]. destruct k' as [|b k' _] using rev_ind; [right; by rewrite app_nil_r in E|left].
  rewrite app_assoc in E. apply app_inj_tail in E as [-> _]. by exists k'.
Qed.

(** Only what the rest of the server did between the worker's calls. *)
Definition by_rest {S} (t : Track S) : relation (Governor S) := λ g g', ∃ f, f ∈ tr_tended t ∧ g' = f g.

Section tracking.
  Context {S : Type} `{Backend S} (others : relation (Governor S)) (o : LinkServerOptions) (g0 : Governor S).
  Implicit Types (c : Connection S) (w : Worker S) (srv : Server S) (g : Governor S) (t : Track S) (log : list (entry S)).

(** Where a worker is: the governor after its last call, and its own counters. *)
Record Progress := mk_progress { pg_governor : Governor S; pg_stats : LinkStats.t }.

(** Alone on the connection that the log gives it, whatever comes next, the worker
    would be where it is. *)
Record tracks g log w t (pg : Progress) : Prop := {
  tk_given : wk_given w = tr_given t;
  tk_run : ∀ rest,
    worker_program o (Datatypes.S (pending (wk_given w).1))
      (mk_connection (tr_start t) (tr_tended t ++ rest) LinkStats.zero (wk_given w).1 (wk_given w).2 [] false)
    = wk_program w (mk_connection (pg_governor pg) rest (pg_stats pg) (wk_arrivals w) (wk_departures w) (wk_sent w) (wk_stop w));
  tk_governor : g = tr_since t (pg_governor pg);
  tk_octets : octets (wk_arrivals w) ∧ octets (wk_given w).1;
  tk_widths : ∀ k, u64 (pg_stats pg k);
  tk_safe : safe o (visited g0 log) (wk_program w) }.

Lemma tracks_spawn g log given : octets given.1 →
  tracks g log (spawn o given) (mk_track given g [] id) (mk_progress g LinkStats.zero).
Proof. intros Ho. constructor; try done. apply safe_worker. Qed.

Lemma tracks_later g log w t pg f : tracks g log w t pg → tracks (f g) log w (later f t) pg.
Proof. intros [A1 A2 -> A4 A5 A6]. by constructor. Qed.

Lemma visited_mono log e g : visited g0 log g → visited g0 (log ++ [e]) g.
Proof. intros (log0 & Hp & ->). exists log0. split; [by apply prefix_app_r|done]. Qed.

Lemma visited_now log : visited g0 log (at_governor (account g0 log)).
Proof. by exists log. Qed.

Lemma account_snoc log e : account g0 (log ++ [e]) = follow (account g0 log) e.
Proof. unfold account. by rewrite foldl_app. Qed.

Lemma tracks_log g log w t pg e : tracks g log w t pg → tracks g (log ++ [e]) w t pg.
Proof.
  intros [A1 A2 A3 A4 A5 A6]. constructor; try done. eapply safe_mono; [|exact A6]. intros g'. apply visited_mono.
Qed.

(** The worker's own track after a command of its own. *)
Definition tended {B} (m : Command S B) t : Track S := match m with CallGovernor _ => tend t | _ => t end.

(** One command: the worker's own step, whatever it answers. *)
Lemma tracks_command {B} g stats log w t pg (m : Command S B) k :
  tracks g log w t pg → g = at_governor (account g0 log) → wk_program w = Perform m k →
  let '(b, c) := perform m (mk_connection g [] stats (wk_arrivals w) (wk_departures w) (wk_sent w) (wk_stop w)) in
  ∃ pg' n, (∀ e, visited g0 (log ++ [e]) (effect m g) → tracks (effect m g) (log ++ [e]) (resume w (k b) c) (tended m t) pg')
    ∧ cn_governor c = effect m g ∧ allowed o (visited g0 log) m ∧ (∀ k, pg_stats pg' k = wrap64 (pg_stats pg k + n k))
    ∧ ((∀ k, u64 (stats k)) → (∀ k, u64 (cn_stats c k)) ∧ ∀ k, cn_stats c k = wrap64 (stats k + n k)).
Proof.
  intros [A1 A2 A3 [A4 A4'] A5 A6] Eg Ep. rewrite Ep in A2, A6. destruct A6 as [Ha Hk].
  assert (∀ u : LinkStats.t, (∀ k, u64 (u k)) → ∀ k, u k = wrap64 (u k + 0)) as Hnil by (intros u Hu k'; by apply u64_wrap).
  assert (∀ e g, visited g0 log g → visited g0 (log ++ [e]) g) as Hmono by (intros e g'; apply visited_mono).
  destruct m as [A f|update|options|data| |]; cbn [perform cn_interference cn_governor cn_stats cn_arrivals cn_departures
    cn_sent cn_stop effect tended] in *; try done.
  - change (id g) with g. destruct (f g) as [a g'] eqn:Ef. exists (mk_progress g' (pg_stats pg)), (λ _, 0).
    cbn [cn_governor cn_stats]. split_and!; try done; [|by apply Hnil|by split; [|apply Hnil]].
    intros e Hv. constructor; cbn; try done.
    + intros rest. specialize (A2 (tr_since t :: rest)). cbn in A2. rewrite <-app_assoc. cbn. rewrite A2. cbn. by rewrite <-A3, Ef.
    + apply Hk; [apply Hmono|]. exists g. split; [apply Hmono; rewrite Eg; apply visited_now|]. by rewrite Ef.
  - destruct Ha as [n Hu]. destruct (Hu (pg_stats pg) A5) as [U1 U2].
    exists (mk_progress (pg_governor pg) (update (pg_stats pg))), n. split_and!; try done; [|by exists n|by apply Hu].
    intros e _. constructor; cbn; try done. apply Hk; [apply Hmono|done].
  - pose proof (read_frame_octets (so_max_payload options) (so_idle_polls options) (wk_arrivals w) A4) as Ho.
    pose proof (read_payload_octets (so_max_payload options) (so_idle_polls options) (wk_arrivals w)) as Hb.
    destruct (read_frame _ _ _) as [[frame closed] w'] eqn:Er. exists pg, (λ _, 0).
    cbn [cn_governor cn_stats snd] in *. split_and!; try done; [|by apply Hnil|by split; [|apply Hnil]].
    intros e _. constructor; cbn; try done.
    + intros rest. etrans; [exact (A2 rest)|]. cbn. by rewrite Er.
    + apply Hk; [apply Hmono|]. intros f Ef. cbn in Ef. subst frame. by eapply Hb.
  - destruct (write_all _ _) as [[status out] departures] eqn:Ew. exists pg, (λ _, 0).
    cbn [cn_governor cn_stats]. split_and!; try done; [|by apply Hnil|by split; [|apply Hnil]].
    intros e _. constructor; cbn; try done; [|by apply Hk; [apply Hmono|]].
    intros rest. etrans; [exact (A2 rest)|]. cbn. by rewrite Ew.
  - exists pg, (λ _, 0). split_and!; try done; [|by apply Hnil|by split; [|apply Hnil]].
    intros e _. constructor; cbn; try done. by apply Hk; [apply Hmono|].
  - exists pg, (λ _, 0). split_and!; try done; [|by apply Hnil|by split; [|apply Hnil]].
    intros e _. constructor; cbn; try done. by apply Hk; [apply Hmono|].
Qed.

(** *** The server *)

(** What the accept loop has counted. *)
Definition entry_gain (a : Account S) (k : LinkStats.counter) : Z :=
  (match k with LinkStats.connections_accepted => Z.of_nat (length (at_tracks a)) | _ => 0 end)
  + sumZ ((λ r, refusal_gain r k) <$> at_refused a).

Record serving log srv (ps : list Progress) : Prop := {
  sg_governor : srv_governor srv = at_governor (account g0 log);
  sg_lengths : length (at_tracks (account g0 log)) = length (srv_workers srv) ∧ length ps = length (srv_workers srv);
  sg_workers : ∀ i w t pg, srv_workers srv !! i = Some w → at_tracks (account g0 log) !! i = Some t → ps !! i = Some pg →
    tracks (srv_governor srv) log w t pg;
  sg_conduct : conduct o others g0 log;
  sg_widths : ∀ k, u64 (srv_stats srv k);
  sg_stats : ∀ k, srv_stats srv k
    = wrap64 (entry_gain (account g0 log) k + sumZ ((λ pg, pg_stats pg k) <$> ps)) }.

Lemma serving_opened : serving [] (opened_server g0) [].
Proof. constructor; try done; [constructor|]. intros k. by destruct k. Qed.

(** Steps that leave the workers where they are. *)
Lemma serving_moved log srv ps f :
  (∀ g, others g (f g)) → serving log srv ps →
  serving (log ++ [OtherUser f]) (mk_server (f (srv_governor srv)) (srv_stats srv) (srv_workers srv)) ps.
Proof.
  intros Hf [A1 [A2 A2'] A3 A4 A5 A6]. pose proof (account_snoc log (OtherUser f)) as E.
  destruct (account g0 log) as [g ts rs] eqn:Ea. cbn in *. constructor; cbn; rewrite ?E; cbn; try done.
  - by rewrite A1.
  - by rewrite length_fmap.
  - intros i w t pg Hw Ht Hp. rewrite list_lookup_fmap in Ht. destruct (ts !! i) as [t0|] eqn:Et; [|done].
    injection Ht as <-. apply tracks_log, tracks_later. by eapply A3.
  - by apply conduct_other.
  - intros k. rewrite A6. unfold entry_gain. cbn. by rewrite length_fmap.
Qed.

Lemma serving_accept log srv ps given :
  octets given.1 → serving log srv ps →
  serving (log ++ [Accepted given]) (accept o given srv) (ps ++ [mk_progress (srv_governor srv) LinkStats.zero]).
Proof.
  intros Ho [A1 [A2 A2'] A3 A4 A5 A6]. pose proof (account_snoc log (Accepted given)) as E.
  destruct (adds_up_count LinkStats.connections_accepted (srv_stats srv) A5) as [U1 U2].
  destruct (account g0 log) as [g ts rs] eqn:Ea. cbn in *. constructor; cbn; rewrite ?E; cbn; try done.
  - rewrite !length_app. cbn. lia.
  - intros i w t pg Hw Ht Hp. apply tracks_log. apply lookup_app_Some in Hw as [Hw|[Hi Hw]].
    + pose proof (lookup_lt_Some _ _ _ Hw). rewrite lookup_app_l in Ht by lia. rewrite lookup_app_l in Hp by lia. by eapply A3.
    + rewrite lookup_app_r in Ht by lia. rewrite lookup_app_r in Hp by lia. replace (i - length ts)%nat with (i - length (srv_workers srv))%nat in Ht by lia.
      replace (i - length ps)%nat with (i - length (srv_workers srv))%nat in Hp by lia.
      destruct (i - length (srv_workers srv))%nat; [|done]. injection Hw as <-. injection Ht as <-. injection Hp as <-.
      rewrite A1. by apply tracks_spawn.
  - by apply conduct_quiet.
  - intros k. rewrite U2, A6. unfold wrap64. rewrite Zplus_mod_idemp_l, fmap_app, sumZ_app. f_equal.
    unfold entry_gain, ticks, occurrences. cbn. rewrite sumZ_cons, sumZ_nil, length_app. cbn [length].
    change (LinkStats.zero k) with 0. destruct k; cbn; lia.
Qed.

Lemma refuse_counts departures srv :
  (∀ k, u64 (srv_stats srv k)) →
  (∀ k, u64 (srv_stats (refuse departures srv) k))
  ∧ ∀ k, srv_stats (refuse departures srv) k = wrap64 (srv_stats srv k + refusal_gain (srv_governor srv, departures) k).
Proof.
  intros Hs. unfold refuse. cbn [srv_stats].
  set (c := mk_connection (srv_governor srv) [] (srv_stats srv) [] departures [] false).
  assert (midway (λ _ _, False) (srv_stats srv) (λ _, 0) (srv_governor srv) (wire c) c) as Hc.
  { apply (midway_start (λ _ _, False) c). constructor; [constructor|constructor|exact Hs]. }
  unfold refuse_connection. rewrite bind_eq.
  pose proof (record_midway _ _ _ _ _ _ _ _ (adds_up_count LinkStats.connections_rejected) Hc) as Hc1.
  revert Hc1. generalize (record (LinkStats.count LinkStats.connections_rejected) c).2. clear Hc. intros c1 Hc1.
  destruct (send_error_midway _ StatusCode.LinkBusy "connection budget is exhausted" 0 _ _ _ _ _ Hc1)
    as (sent & status & g' & x' & Ha & [_ _ [_ _ H3] H4]).
  split; [exact H3|]. intros k. rewrite H4. f_equal. f_equal.
  inversion Ha as [? ? ? ? out deps Hr frame Hw E1 E2 E3]; subst. apply rtc_inv in Hr as [<-|(? & [] & _)].
  unfold refusal_gain. cbn [fst snd]. change (wi_departures (wire c)) with departures in Hw. subst frame. rewrite Hw.
  unfold ticks, amount, occurrences. destruct status; destruct k; cbn; lia.
Qed.

Lemma serving_refuse log srv ps departures :
  serving log srv ps → serving (log ++ [Refused departures]) (refuse departures srv) ps.
Proof.
  intros [A1 [A2 A2'] A3 A4 A5 A6]. pose proof (account_snoc log (Refused departures)) as E.
  destruct (refuse_counts departures srv A5) as [U1 U2].
  destruct (account g0 log) as [g ts rs] eqn:Ea. cbn in A1, A2, A3, E. constructor; rewrite ?E; try done.
  - intros i w t pg Hw Ht Hp. apply tracks_log. by eapply A3.
  - by apply conduct_quiet.
  - intros k. rewrite U2, A6. unfold wrap64. rewrite Zplus_mod_idemp_l. f_equal. unfold entry_gain. cbn.
    rewrite A1, fmap_app, sumZ_app. cbn. rewrite sumZ_cons, sumZ_nil. lia.
Qed.

(** A worker's command, and the others since. *)
Lemma follow_command {B} g ts rs i w t (m : Command S B) j u :
  ts !! i = Some t → at_tracks (follow (mk_account g ts rs) (command_entry i m)) !! j = Some u →
  (j = i ∧ u = tended m t) ∨ (j <> i ∧ ∃ u0, ts !! j = Some u0 ∧ ∀ g log w pg,
    tracks g log w u0 pg → tracks (effect m g) log w u pg).
Proof.
  intros Ht Hu. destruct m as [A f|update|options|data| |]; cbn in Hu;
    try (destruct (decide (j = i)) as [->|Hne]; [left; split; [done|]; cbn; congruence|right; split; [done|]; by exists u]).
  rewrite list_lookup_imap in Hu. destruct (ts !! j) as [u0|] eqn:Ej; [|done]. injection Hu as Hu.
  destruct (decide (j = i)) as [->|Hne]; [left; split; [done|]; cbn; congruence|right; split; [done|]].
  exists u0. split; [done|]. intros g1 log w1 pg Htr. rewrite <-Hu. by apply tracks_later.
Qed.

Lemma serving_command {B} log srv ps i w (m : Command S B) k :
  serving log srv ps → srv_workers srv !! i = Some w → wk_program w = Perform m k →
  ∃ ps', serving (log ++ [command_entry i m]) (take_command i w m k srv) ps'.
Proof.
  intros [A1 [A2 A2'] A3 A4 A5 A6] Hi Ep. pose proof (lookup_lt_Some _ _ _ Hi) as Hlt.
  destruct (lookup_lt_is_Some_2 (at_tracks (account g0 log)) i ltac:(lia)) as [t Ht].
  destruct (lookup_lt_is_Some_2 ps i ltac:(lia)) as [pg Hp].
  pose proof (tracks_command (srv_governor srv) (srv_stats srv) log w t pg m k (A3 i w t pg Hi Ht Hp) A1 Ep) as Hc.
  unfold take_command, view. destruct (perform m _) as [b c]. destruct Hc as (pg' & n & Htr & Eg & Hal & Epg & Hs). destruct (Hs A5) as [U1 U2].
  pose proof (account_snoc log (command_entry i m)) as E.
  assert (effect m (srv_governor srv) = at_governor (account g0 (log ++ [command_entry i m]))) as Enow.
  { rewrite E, A1. destruct (account g0 log). by destruct m. }
  assert (at_refused (account g0 (log ++ [command_entry i m])) = at_refused (account g0 log)
    ∧ length (at_tracks (account g0 (log ++ [command_entry i m]))) = length (at_tracks (account g0 log))) as [Eref Elen].
  { rewrite E. destruct (account g0 log). destruct m; cbn; by rewrite ?length_imap. }
  exists (<[i := pg']> ps). constructor; cbn [srv_governor srv_stats srv_workers].
  - by rewrite Eg, Enow.
  - rewrite Elen, !length_insert. lia.
  - intros j w' u pg1 Hw Hu Hp1. rewrite Eg. rewrite E in Hu. destruct (account g0 log) as [g ts rs] eqn:Ea.
    destruct (follow_command g ts rs i w t m j u Ht Hu) as [[-> ->]|(Hne & u0 & Hu0 & Hlater)].
    + rewrite list_lookup_insert_eq in Hw by lia. rewrite list_lookup_insert_eq in Hp1 by lia. injection Hw as <-. injection Hp1 as <-.
      apply Htr. rewrite Enow. apply visited_now.
    + rewrite list_lookup_insert_ne in Hw by done. rewrite list_lookup_insert_ne in Hp1 by done. apply Hlater, tracks_log. by eapply A3.
  - destruct m; cbn; first [by apply conduct_quiet|by apply conduct_call].
  - exact U1.
  - intros k'. rewrite U2, A6. unfold wrap64. rewrite Zplus_mod_idemp_l. unfold entry_gain. rewrite Eref, Elen.
    rewrite list_fmap_insert, (sumZ_insert _ i _ (pg_stats pg k')) by (by rewrite list_lookup_fmap, Hp).
    rewrite Epg. unfold wrap64. rewrite !Z.add_assoc, Zplus_mod_idemp_r. f_equal. lia.
Qed.

Lemma serving_run log srv : server_run o others g0 log srv → ∃ ps, serving log srv ps.
Proof.
  induction 1 as [|log srv e srv' _ [ps Hs] Hstep]; [exists []; apply serving_opened|].
  destruct Hstep as [i w B m k Hi Ep|f Hf|given Hg|departures].
  - by eapply serving_command.
  - exists ps. by apply serving_moved.
  - eexists. by apply serving_accept.
  - exists ps. by apply serving_refuse.
Qed.

(** *** What a worker has done when it is done *)

(** The worker served the connection that the log gives it exactly as it would alone,
    a conversation with these events among what the rest of the server did between its
    calls, from the governor the log has at its start to the one it has now. *)
Definition ran log srv (i : nat) w (es : list event) : Prop :=
  ∃ t c, at_tracks (account g0 log) !! i = Some t ∧ tr_given t = wk_given w
    ∧ serve_connection o (lone t) = Some c ∧ cn_sent c = wk_sent w ∧ cn_stop c = wk_stop w
    ∧ conversation (by_rest t) o (tr_start t, wire (lone t)) es (cn_governor c, wire c)
    ∧ (∀ k, cn_stats c k = wrap64 (tally es k))
    ∧ srv_governor srv = tr_since t (cn_governor c).

Lemma worker_runs log srv i w t pg b :
  tracks (srv_governor srv) log w t pg → at_tracks (account g0 log) !! i = Some t → wk_program w = link_ret b →
  b = true ∧ ∃ es, ran log srv i w es ∧ ∀ k, pg_stats pg k = wrap64 (tally es k).
Proof.
  intros [A1 A2 A3 [_ A4] A5 _] Ht Ep. specialize (A2 []). rewrite Ep, app_nil_r in A2.
  assert (lone t = mk_connection (tr_start t) (tr_tended t) LinkStats.zero (wk_given w).1 (wk_given w).2 [] false) as El
    by (unfold lone; by rewrite A1).
  rewrite <-El in A2.
  destruct (worker_program_serves o (Datatypes.S (pending (wk_given w).1)) (lone t)) as (c & Es & Ew);
    [rewrite El; apply Nat.lt_succ_diag_r|]. rewrite Ew in A2. cbn in A2. injection A2 as -> ->. split; [done|].
  assert (sound (by_rest t) (lone t)) as Hc.
  { rewrite El. constructor; cbn; [|done|intros k; unfold LinkStats.zero, u64; lia].
    apply Forall_forall. intros f Hf g. exists f. by split. }
  destruct (serve_connection_converses (by_rest t) o (lone t) Hc) as (c2 & es & E2 & _ & Hconv & Hk).
  rewrite Es in E2. injection E2 as <-. exists es. split; [|exact Hk].
  eexists t, _. split; [done|]. split; [done|]. split; [exact Es|]. do 2 (split; [done|]). split; [exact Hconv|]. by split.
Qed.

Lemma serving_finished log srv ps i w b :
  serving log srv ps → srv_workers srv !! i = Some w → wk_program w = link_ret b →
  finished w ∧ ∃ es pg, ran log srv i w es ∧ ps !! i = Some pg ∧ ∀ k, pg_stats pg k = wrap64 (tally es k).
Proof.
  intros [A1 [A2 A2'] A3 A4 A5 A6] Hi Eb. pose proof (lookup_lt_Some _ _ _ Hi) as Hlt.
  destruct (lookup_lt_is_Some_2 (at_tracks (account g0 log)) i ltac:(lia)) as [t Ht].
  destruct (lookup_lt_is_Some_2 ps i ltac:(lia)) as [pg Hp].
  destruct (worker_runs log srv i w t pg b (A3 i w t pg Hi Ht Hp) Ht Eb) as [-> (es & Hr & Hk)]. split; [exact Eb|eauto].
Qed.

(** When every worker is done, the counters are what the accept loop counted and the
    sum of what their events call for. *)
Lemma serving_done log srv ps :
  serving log srv ps → Forall finished (srv_workers srv) →
  ∃ ess, length ess = length (srv_workers srv)
    ∧ (∀ i w es, srv_workers srv !! i = Some w → ess !! i = Some es → ran log srv i w es)
    ∧ ∀ k, srv_stats srv k = wrap64 (entry_gain (account g0 log) k + sumZ ((λ es, tally es k) <$> ess)).
Proof.
  intros Hs Hf. pose proof (sg_lengths _ _ _ Hs) as [_ Hl].
  assert (∀ n, (n <= length ps)%nat → ∃ ess, length ess = n
    ∧ (∀ i w es, srv_workers srv !! i = Some w → ess !! i = Some es → ran log srv i w es)
    ∧ Forall2 (λ pg es, ∀ k, wrap64 (pg_stats pg k) = wrap64 (tally es k)) (take n ps) ess) as Hall.
  { induction n as [|n IH]; intros Hn; [by exists []|]. destruct (IH ltac:(lia)) as (ess & H1 & H2 & H3).
    destruct (lookup_lt_is_Some_2 (srv_workers srv) n ltac:(lia)) as [w Hw].
    rewrite Forall_lookup in Hf. destruct (serving_finished log srv ps n w true Hs Hw (Hf n w Hw)) as [_ (es & pg & Hr & Hp & Hk)].
    exists (ess ++ [es]). rewrite length_app. split; [cbn; lia|]. split.
    - intros i w' es' Hw' Hes. apply lookup_app_Some in Hes as [Hes|[Hi Hes]]; [by eapply H2|].
      destruct (i - length ess)%nat eqn:En; [|done]. injection Hes as <-. assert (i = n) as -> by lia. congruence.
    - rewrite (take_S_r _ _ pg Hp). apply Forall2_app; [done|]. constructor; [|done]. intros k. rewrite Hk.
      unfold wrap64. by rewrite Zmod_mod. }
  destruct (Hall (length ps) (le_n _)) as (ess & H1 & H2 & H3). rewrite firstn_all in H3. exists ess. split; [lia|]. split; [done|].
  intros k. rewrite (sg_stats _ _ _ Hs). apply wrap64_sum. apply Forall2_fmap. eapply Forall2_impl; [exact H3|]. intros pg es Hk. apply Hk.
Qed.

(** *** Any worker can be carried to its end *)

Definition of_worker (e : entry S) : Prop := match e with Called _ _ | Worked _ => True | _ => False end.

Lemma command_of_worker {B} i (m : Command S B) : of_worker (command_entry i m).
Proof. by destruct m. Qed.

Lemma worker_drains (p : Link S bool) : ∀ log srv i w,
  server_run o others g0 log srv → srv_workers srv !! i = Some w → wk_program w = p →
  ∃ more srv' w' b, server_run o others g0 (log ++ more) srv' ∧ Forall of_worker more
    ∧ srv_workers srv' = <[i := w']> (srv_workers srv) ∧ wk_program w' = link_ret b.
Proof.
  induction p as [b|B m k IH]; intros log srv i w Hrun Hi Ep.
  - exists [], srv, w, b. rewrite app_nil_r. split_and!; [done|done| |done]. symmetry. by apply list_insert_id.
  - pose proof (step_command o others srv i w B m k Hi Ep) as Hstep. pose proof (run_step _ _ _ _ _ _ _ Hrun Hstep) as Hrun'.
    unfold take_command in Hrun'. destruct (perform m (view srv w)) as [b c].
    destruct (IH b _ _ i (resume w (k b) c) Hrun' (list_lookup_insert_eq _ _ _ (lookup_lt_Some _ _ _ Hi)) eq_refl)
      as (more & srv' & w' & b' & Hr & Hm & E & Ew).
    exists (command_entry i m :: more), srv', w', b'. rewrite <-app_assoc in Hr. split; [exact Hr|].
    split; [constructor; [apply command_of_worker|done]|]. split; [|done]. rewrite E. cbn. by rewrite list_insert_insert_eq.
Qed.

Lemma workers_drain n : ∀ log srv,
  server_run o others g0 log srv →
  ∃ more srv', server_run o others g0 (log ++ more) srv' ∧ Forall of_worker more
    ∧ length (srv_workers srv') = length (srv_workers srv)
    ∧ Forall (λ w, ∃ b, wk_program w = link_ret b) (take n (srv_workers srv')).
Proof.
  induction n as [|n IH]; intros log srv Hrun; [exists [], srv; by rewrite app_nil_r|].
  destruct (IH log srv Hrun) as (more & srv1 & Hr & Hm & Hl & Hf).
  destruct (srv_workers srv1 !! n) as [w|] eqn:Hn.
  - destruct (worker_drains (wk_program w) _ srv1 n w Hr Hn eq_refl) as (more2 & srv2 & w' & b & Hr2 & Hm2 & E & Ew).
    exists (more ++ more2), srv2. rewrite app_assoc. split; [done|]. split; [by apply Forall_app|].
    rewrite E, length_insert. split; [done|].
    rewrite (take_S_r _ _ w') by (apply list_lookup_insert_eq; by eapply lookup_lt_Some).
    apply Forall_app. split; [by rewrite take_insert_ge|]. constructor; [by exists b|done].
  - exists more, srv1. split_and!; [done..|]. rewrite take_ge in *; [done|..]; apply lookup_ge_None in Hn; lia.
Qed.

(** *** The governor stays well formed *)

(** A server that only stages, or whose ledger has room at every state of the run. *)
Definition roomy log : Prop :=
  so_evaluate_on_ingest o = false ∨ ∀ g, visited g0 log g → ledger_room (gv_accounting g).

Lemma roomy_before log e : roomy (log ++ [e]) → roomy log.
Proof. intros [Ho|Hr]; [by left|]. right. intros g Hg. by apply Hr, visited_mono. Qed.

Lemma conduct_ok log :
  (∀ g g', others g g' → step g g') → roomy log → governor_ok g0 → conduct o others g0 log →
  ∀ g, visited g0 log g → rtc step g0 g.
Proof.
  intros Hothers Hroom Hg0 Hc.
  assert (∀ g, rtc step g0 g → governor_ok g) as Hok by (intros g Hr; by eapply run_ok).
  induction Hc as [|log f Hc IH Hf|log i f Hc IH Hf|log e Hc IH He].
  - intros g (log0 & Hp & ->). by apply prefix_nil_inv in Hp as ->.
  - specialize (IH (roomy_before _ _ Hroom)). intros g (log0 & [Hp| ->]%prefix_snoc_inv & ->); [apply IH; by exists log0|].
    rewrite account_snoc. pose proof (IH _ (visited_now log)) as Hr. destruct (account g0 log). cbn in *.
    eapply rtc_r; [exact Hr|]. apply Hothers, Hf.
  - apply roomy_before in Hroom as Hroom'. specialize (IH Hroom'). intros g (log0 & [Hp| ->]%prefix_snoc_inv & ->); [apply IH; by exists log0|].
    rewrite account_snoc. pose proof (IH _ (visited_now log)) as Hr. destruct (account g0 log) as [g ts rs]. cbn in *.
    destruct Hf as [|e Te We|e g1 g2 d Ho Te H1 H2 E]; [done|eapply rtc_r; [exact Hr|]; by apply step_ingest|].
    eapply rtc_r; [exact Hr|]. apply step_commit. destruct Hroom' as [?|Hroom']; [congruence|].
    apply (evaluated_bounded (serving_context _ g2 (Hok g2 (IH g2 H2)) (Hroom' g2 H2)) E); apply Te.
  - specialize (IH (roomy_before _ _ Hroom)). intros g (log0 & [Hp| ->]%prefix_snoc_inv & ->); [apply IH; by exists log0|].
    rewrite account_snoc. pose proof (IH _ (visited_now log)) as Hr. destruct (account g0 log). by destruct e.
Qed.
End tracking.
