(* ===== verification/LinkCounts.v ===== *)
(** What the server's counters say of a session carried out to its end: which
    verdict each frame of it has, and how many of each there are, in terms of the
    acknowledgements of the contract and of the ledger it leaves. *)
From S2P Require Import Prelude Status Core Bytes Policy Accounting Evidence Outcome Codec Engine Frame FrameSpec Fsutil Store Governor GovernorInv LinkServer LinkClient LinkSession LinkEvents LinkSafety.
#[local] Open Scope string_scope.
#[local] Open Scope list_scope.
#[local] Open Scope Z_scope.

Section counts.
  Context {S : Type} `{Backend S}.
  Implicit Types (g : Governor S) (o : LinkServerOptions).

(** ** Verdicts of the contract *)

Definition evaluation_outcome (request : EvaluationRequest) g : evaluation :=
  match evaluate request g with
  | Failure _ => EvaluationFailed
  | Value decision =>
      match (commit_decision decision g).1 with Value _ => WindowCommitted | Failure _ => EvaluationFailed end
  end.

Definition evidence_outcome o (e : EvidenceSnapshot) g : verdict :=
  match ingest_evidence e g with
  | (Failure _, _) => EvidenceRefused
  | (Value result, g') =>
      match ir_disposition result with
      | Disposition.Staged =>
          EvidenceStaged
            (if so_evaluate_on_ingest o then evaluation_outcome (make_request_for e (authority g)) g' else NotEvaluated)
      | Disposition.DuplicateIgnored => EvidenceKnown
      end
  end.

(** The event of a snapshot, and those of a session. *)
Definition evidence_event o (session sequence : Z) (e : EvidenceSnapshot) g : event :=
  mk_event (evidence_outcome o e g) (add64 (sizeZ (encode_evidence e)) kFrameHeaderSize)
    (sizeZ (replies o session sequence [e] g)).

Fixpoint evidence_events o (session sequence : Z) (es : list EvidenceSnapshot) g : list event :=
  match es with
  | [] => []
  | e :: es =>
      evidence_event o session sequence e g
      :: evidence_events o session (add64 sequence 1) es (ingest_and_commit o e g).2
  end.

Definition farewell_event (session sequence : Z) (request_shutdown : bool) g : event :=
  mk_event (if request_shutdown then FrameShutdown else FrameGoodbye) (add64 (sizeZ ([] : ByteBuffer)) kFrameHeaderSize)
    (sizeZ (farewell session sequence request_shutdown g)).

Definition session_events o (co : LinkClientOptions) (request_shutdown : bool) (es : list EvidenceSnapshot) g : list event :=
  let session := session_of (hello_header co) in
  mk_event HelloAccepted 0 (sizeZ (hello_reply o session g))
  :: evidence_events o session 1 es g ++ [farewell_event session (sequence_after 1 es) request_shutdown (govern o es g).2].

(** ** The counters follow the events *)

Lemma frame_counts_add payload :
  adds_up (frame_counts payload)
    (λ k, ticks [LinkStats.frames_received] k + amount LinkStats.bytes_received (add64 (sizeZ payload) kFrameHeaderSize) k).
Proof. apply received_adds_up. Qed.

Lemma reply_counts_add frame : adds_up (reply_counts frame) (amount LinkStats.bytes_sent (sizeZ frame)).
Proof. apply adds_up_amount. Qed.

(** Two updates, and what they gain together. *)
Lemma adds_up_both u v (n m l : gains) :
  adds_up u n → adds_up v m → (∀ k, n k + m k = l k) → adds_up (λ stats, v (u stats)) l.
Proof. intros Hu Hv E. by apply (adds_up_weaken _ _ _ (adds_up_then _ _ _ _ Hu Hv)). Qed.

Lemma hello_counts_add o session g :
  adds_up (hello_counts o session g) (event_gain (mk_event HelloAccepted 0 (sizeZ (hello_reply o session g)))).
Proof.
  eapply (adds_up_both _ (LinkStats.count LinkStats.handshakes_completed));
    [exact (adds_up_then _ _ _ _ (adds_up_count LinkStats.frames_received) (reply_counts_add (hello_reply o session g)))
    |apply adds_up_count|by_gain].
Qed.

Lemma committed_counts_add request g :
  adds_up (committed_counts request g) (ticks (counted_after (evaluation_outcome request g))).
Proof.
  unfold committed_counts, evaluation_outcome. destruct (evaluate request g) as [d|st]; [|apply adds_up_count].
  destruct (commit_decision d g).1; apply adds_up_count.
Qed.

(** The verdict on a snapshot whose frame was counted. *)
Lemma evidence_counts_add o e g :
  adds_up (evidence_counts o e g) (λ k, occurrences k (counted (evidence_outcome o e g)) - occurrences k [LinkStats.frames_received]).
Proof.
  unfold evidence_counts, evidence_outcome.
  destruct (ingest_evidence e g) as [[result|st] g']; [destruct (ir_disposition result)|]; cbn [counted].
  - destruct (so_evaluate_on_ingest o).
    + eapply adds_up_both; [apply (adds_up_count LinkStats.evidence_accepted)|apply committed_counts_add|].
      generalize (evaluation_outcome (make_request_for e (authority g)) g'). intros []; by_gain.
    + eapply adds_up_weaken; [apply adds_up_count|by_gain].
  - eapply adds_up_weaken; [apply adds_up_count|by_gain].
  - eapply adds_up_weaken; [apply adds_up_count|by_gain].
Qed.

Lemma evidence_event_add o session sequence e g :
  adds_up (λ stats, reply_counts (replies o session sequence [e] g)
      (evidence_counts o e g (frame_counts (encode_evidence e) stats)))
    (event_gain (evidence_event o session sequence e g)).
Proof.
  eapply (adds_up_both (λ stats, evidence_counts o e g (frame_counts (encode_evidence e) stats)));
    [exact (adds_up_then _ _ _ _ (frame_counts_add (encode_evidence e)) (evidence_counts_add o e g))|apply reply_counts_add|].
  unfold evidence_event. generalize (evidence_outcome o e g) as v. intros v k. destruct (counted_bytes v) as [B1 B2]. revert B1 B2.
  unfold event_gain. cbn [le_verdict le_received le_sent]. generalize (counted v) as l. intros l.
  unfold ticks, amount, occurrences. destruct k; cbn; lia.
Qed.

Lemma submission_counts_add o session es : ∀ sequence g,
  adds_up (submission_counts o session sequence es g) (tally (evidence_events o session sequence es g)).
Proof.
  induction es as [|e es IH]; intros sequence g; cbn [submission_counts evidence_events]; [apply adds_up_id|].
  pose proof (evidence_event_add o session sequence e g) as He. cbn [replies] in He.
  rewrite (surjective_pairing (ingest_and_commit o e g)) in He |- *. rewrite app_nil_r in He. cbn [snd] in *.
  eapply (adds_up_both _ (submission_counts o session (add64 sequence 1) es _)); [exact He|apply IH|].
  intros k. by rewrite tally_cons.
Qed.

Lemma farewell_counts_add session sequence request g :
  adds_up (farewell_counts session sequence request g) (event_gain (farewell_event session sequence request g)).
Proof.
  destruct request; cbn [farewell_counts].
  - eapply (adds_up_both _ (reply_counts _)); [exact (adds_up_then _ _ _ _ (frame_counts_add []) (adds_up_count LinkStats.shutdown_requests))
      |apply reply_counts_add|by_gain].
  - eapply adds_up_weaken; [apply frame_counts_add|]. unfold farewell_event, farewell. change (sizeZ []) with 0. by_gain.
Qed.

Lemma stale_counts_add g : adds_up (stale_counts g) (event_gain (mk_event HelloRefused 0 (sizeZ (stale_reply g)))).
Proof.
  eapply (adds_up_both _ (reply_counts (stale_reply g)));
    [exact (adds_up_counts LinkStats.frames_received LinkStats.handshakes_rejected)|apply reply_counts_add|by_gain].
Qed.

Lemma session_counts_add o co request es g :
  adds_up (session_counts o co request es g) (tally (session_events o co request es g)).
Proof.
  unfold session_counts, session_events. cbv zeta.
  eapply (adds_up_both (λ stats, submission_counts o _ 1 es g (hello_counts o _ g stats)) (farewell_counts _ _ request _));
    [exact (adds_up_then _ _ _ _ (hello_counts_add o _ g) (submission_counts_add o _ es 1 g))|apply farewell_counts_add|].
  intros k. rewrite tally_cons, tally_app, tally_cons. change (tally [] k) with 0. lia.
Qed.
End counts.

(** ** How many of each *)

(** Acknowledgements that bear a code. *)
Definition code_count (code : StatusCode.t) (acks : list EvidenceAck) : Z :=
  sizeZ (List.filter (λ ack, ea_code ack =? StatusCode.value code) acks).

Lemma code_count_cons code ack acks : code_count code (ack :: acks) = code_count code [ack] + code_count code acks.
Proof. unfold code_count, sizeZ. cbn [List.filter]. destruct (_ =? _); cbn [length]; lia. Qed.

(** What a run of snapshots adds to each counter, [received] and [sent] being the bytes
    that it takes off the wire and puts on it. *)
Definition gained (evaluating : bool) (acks : list EvidenceAck) (windows received sent : Z) (k : LinkStats.counter) : Z :=
  match k with
  | LinkStats.bytes_received => received
  | LinkStats.bytes_sent => sent
  | LinkStats.frames_received => sizeZ acks
  | LinkStats.evidence_accepted => code_count StatusCode.Ok acks
  | LinkStats.evidence_duplicate => code_count StatusCode.Duplicate acks
  | LinkStats.evidence_rejected => sizeZ acks - code_count StatusCode.Ok acks - code_count StatusCode.Duplicate acks
  | LinkStats.windows_committed => windows
  | LinkStats.evaluations_failed => if evaluating then code_count StatusCode.Ok acks - windows else 0
  | _ => 0
  end.

Lemma gained_cons evaluating ack acks w1 w2 r1 r2 s1 s2 k :
  gained evaluating [ack] w1 r1 s1 k + gained evaluating acks w2 r2 s2 k
  = gained evaluating (ack :: acks) (w1 + w2) (r1 + r2) (s1 + s2) k.
Proof.
  destruct k, evaluating; cbn [gained]; rewrite ?(code_count_cons _ ack acks); unfold sizeZ; cbn [length]; lia.
Qed.

(** One counter at a time. *)
Ltac by_counter k := unfold event_gain, occurrences, gained, code_count, sizeZ; destruct k; cbn; lia.

Section gains.
  Context {S : Type} `{Backend S}.
  Implicit Types (g : Governor S) (o : LinkServerOptions).

Definition generation g : Z := acc_generation (gv_accounting g).

(** A commit moves the ledger on by one; a refused one leaves it. *)
Lemma commit_generation d g :
  u64 (generation g) →
  generation (commit_decision d g).2
  = generation g + (match (commit_decision d g).1 with Value _ => 1 | Failure _ => 0 end).
Proof.
  unfold generation. intros Hu. destruct (commit_cases d g) as [[Hv [st ->]]|(after & _ & Ha & -> & Hv)].
  - pose proof (f_equal gv_accounting Hv) as E. cbn in E. rewrite E. lia.
  - pose proof (f_equal gv_accounting Hv) as E. cbn in E. rewrite E.
    unfold apply_decision in Ha. apply result_bind_value in Ha as (entries & _ & Ha).
    destruct (checked_add _ 1) as [next|] eqn:En; [|done]. injection Ha as <-. cbn.
    by apply checked_add_some in En as [-> _]; [|done|ulia].
Qed.

Lemma ingest_failure_code e g st :
  evidence_typed e → evidence_wf e → (ingest_evidence e g).1 = Failure st →
  status_code st <> StatusCode.Ok ∧ status_code st <> StatusCode.Duplicate.
Proof.
  intros Te We. unfold ingest_evidence. rewrite (proj2 (validate_evidence_iff e Te) We).
  repeat match goal with
  | |- (fail _ _, _).1 = _ → _ => let E := fresh in intros E; injection E as <-; by split
  | |- (Value _, _).1 = _ → _ => discriminate
  | |- context [if ?b then _ else _] => destruct b
  | |- context [match ?x with Some _ => _ | None => _ end] => destruct x
  end.
Qed.

Lemma status_value_inj c c' : (StatusCode.value c =? StatusCode.value c') = bool_decide (c = c').
Proof. destruct c; destruct c'; reflexivity. Qed.

(** One snapshot. *)
Lemma evidence_gains o e g k :
  evidence_typed e → evidence_wf e → u64 (generation g) →
  let '(ack, g') := ingest_and_commit o e g in
  ∀ received sent, event_gain (mk_event (evidence_outcome o e g) received sent) k
  = gained (so_evaluate_on_ingest o) [ack] (generation g' - generation g) received sent k.
Proof.
  intros Te We Hu. pose proof (ingest_failure_code e g) as Hf. cut (∀ received sent,
    let '(ack, g') := ingest_and_commit o e g in event_gain (mk_event (evidence_outcome o e g) received sent) k
    = gained (so_evaluate_on_ingest o) [ack] (generation g' - generation g) received sent k).
  { intros Hall. by destruct (ingest_and_commit o e g). }
  intros received sent.
  destruct (ingest_cases e g Te) as [(_ & _ & E)|[(_ & _ & E)|[[st E] _]]];
    unfold ingest_and_commit, evidence_outcome; rewrite E in *; cbn [ingest_result ir_disposition andb].
  - destruct (so_evaluate_on_ingest o).
    + unfold evaluation_outcome. set (g1 := stage_snapshot _ _ g). assert (generation g1 = generation g) as Eg by done.
      destruct (evaluate _ g1) as [d|st].
      * pose proof (commit_generation d g1 ltac:(by rewrite Eg)) as Ec. rewrite Eg in Ec. rewrite Ec.
        destruct (commit_decision d g1).1; by_counter k.
      * rewrite Eg. by_counter k.
    + change (generation (stage_snapshot e (evidence_digest e) g)) with (generation g). by_counter k.
  - destruct (so_evaluate_on_ingest o); by_counter k.
  - destruct (Hf st Te We eq_refl) as [H1 H2].
    unfold gained, code_count, refused_evidence. cbn [List.filter ea_code]. rewrite !status_value_inj.
    rewrite !bool_decide_eq_false_2 by done. destruct (so_evaluate_on_ingest o); by_counter k.
Qed.

(** The bytes of a frame that fits. *)
Lemma frame_bytes h (payload : ByteBuffer) :
  sizeZ payload <= kMaxFramePayloadBytes → add64 (sizeZ payload) kFrameHeaderSize = sizeZ (encode_frame h payload).
Proof.
  unfold kMaxFramePayloadBytes, kFrameHeaderSize, sizeZ. intros Hs. rewrite length_encode_frame, add64_small by ulia. lia.
Qed.

Lemma evidence_events_gains o co session es : ∀ sequence g k,
  server_ok o → Forall (publishable o (co_epoch co)) es → on_link (co_epoch co) g →
  tally (evidence_events o session sequence es g) k
  = gained (so_evaluate_on_ingest o) (govern o es g).1 (generation (govern o es g).2 - generation g)
      (sizeZ (submissions co session sequence es)) (sizeZ (replies o session sequence es g)) k.
Proof.
  intros sequence g k Ho. revert sequence g.
  induction es as [|e es IH]; intros sequence g Hes Hg; cbn [evidence_events govern submissions].
  { cbn [fst snd]. rewrite Z.sub_diag. by destruct k, (so_evaluate_on_ingest o). }
  apply Forall_cons in Hes as [[Te We _ Hsz] Hes]. pose proof (sv_max_payload _ Ho) as [_ Hm].
  pose proof (evidence_gains o e g k Te We (ol_accounting _ _ Hg)) as E1.
  pose proof (ingest_and_commit_on_link o (co_epoch co) e g Te Hg) as Hg1. rewrite tally_cons, IH by done. unfold evidence_event.
  rewrite (frame_bytes (evidence_header (publisher co session) sequence (ev_epoch e)) (encode_evidence e)) by lia.
  cbn [replies]. destruct (ingest_and_commit o e g) as [ack g1]. cbn [snd] in *. rewrite app_nil_r, E1.
  destruct (govern o es g1) as [acks g2]. cbn [fst snd]. rewrite gained_cons. unfold sizeZ. rewrite !length_app. f_equal; lia.
Qed.

(** A whole session, of which the handshake's frame is not counted in bytes. *)
Definition session_gained (evaluating request_shutdown : bool) (acks : list EvidenceAck) (windows : Z) (up down : ByteBuffer)
    (k : LinkStats.counter) : Z :=
  match k with
  | LinkStats.handshakes_completed => 1
  | LinkStats.frames_received => 2 + sizeZ acks
  | LinkStats.shutdown_requests => if request_shutdown then 1 else 0
  | _ => gained evaluating acks windows (sizeZ up - kFrameHeaderSize) (sizeZ down) k
  end.

Lemma session_gains o co request es g k :
  server_ok o → Forall (publishable o (co_epoch co)) es → on_link (co_epoch co) g →
  tally (session_events o co request es g) k
  = session_gained (so_evaluate_on_ingest o) request (govern o es g).1 (generation (govern o es g).2 - generation g)
      (session_up co request es) (session_down o co request es g) k.
Proof.
  intros Ho Hes Hg. unfold session_events. cbv zeta. rewrite tally_cons, tally_app, (evidence_events_gains o co) by done.
  rewrite tally_cons. change (tally [] k) with 0. unfold farewell_event.
  rewrite (frame_bytes (goodbye_header request (publisher co (session_of (hello_header co)))) []) by (vm_compute; discriminate).
  assert (sizeZ (session_up co request es) - kFrameHeaderSize
    = sizeZ (submissions co (session_of (hello_header co)) 1 es)
      + sizeZ (encode_frame (goodbye_header request (publisher co (session_of (hello_header co)))) [])) as Eup.
  { unfold session_up, sizeZ, kFrameHeaderSize. cbv zeta. rewrite !length_app, !length_encode_frame. cbn. lia. }
  assert (sizeZ (session_down o co request es g)
    = sizeZ (hello_reply o (session_of (hello_header co)) g) + sizeZ (replies o (session_of (hello_header co)) 1 es g)
      + sizeZ (farewell (session_of (hello_header co)) (sequence_after 1 es) request (govern o es g).2)) as Edown.
  { unfold session_down, sizeZ. cbv zeta. rewrite !length_app. lia. }
  destruct k; cbn [session_gained gained]; rewrite ?Eup, ?Edown;
    destruct request; unfold event_gain, occurrences; cbn; try lia; destruct (so_evaluate_on_ingest o); lia.
Qed.
End gains.
