(* ===== verification/LinkRaw.v ===== *)
(** The raw peer of [link/link.hpp] and [src/link/link.cpp]: [RawLinkSession],
    [send_raw_frames] and [raw_send], which write bytes verbatim and read frames. *)
From S2P Require Import Prelude Status Core Bytes Fields Codec CodecSpec Frame FrameSpec Socket SocketSpec LinkClient.
#[local] Open Scope string_scope.
#[local] Open Scope list_scope.
#[local] Open Scope Z_scope.

(** [RawLinkSession::Impl]: [kInvalidSocket] is [None]. *)
Definition RawLinkSession : Type := option Socket.

Definition raw_connect (round : dialled) : Result RawLinkSession :=
  match round with
  | NoSocket => socket_error "socket"
  | NotAccepted => fail StatusCode.TransportError "raw connect failed"
  | Connected s => Value (Some s)
  end.

Definition send_raw (bytes : ByteBuffer) (session : RawLinkSession) : Result unit * RawLinkSession :=
  match session with
  | None => (fail StatusCode.LinkClosed "the raw session is closed", None)
  | Some s => let '(sent, s) := socket_write bytes s in (sent, Some s)
  end.

(** The header loop of [receive]: no stop flag is loaded, and once a byte has come
    it waits through every pause. *)
Fixpoint raw_header (got : ByteBuffer) (w : list arrival) : Result ByteBuffer * list arrival :=
  if (80 <=? length got)%nat then (Value got, w)
  else
    match w with
    | [] => (fail StatusCode.LinkClosed "the peer closed the link", [])
    | StopSet :: w' => raw_header got w'
    | Idle :: w' =>
        if (length got =? 0)%nat
        then (fail StatusCode.TransportError "no frame arrived within the poll window", w')
        else raw_header got w'
    | Fault :: w' => (socket_error "recv", w')
    | Arrived bytes :: w' =>
        let wanted := (80 - length got)%nat in
        if (length bytes =? 0)%nat then (fail StatusCode.LinkClosed "the peer closed the link", w')
        else if (length bytes <=? wanted)%nat then raw_header (got ++ bytes) w'
        else (Value (got ++ take wanted bytes), Arrived (drop wanted bytes) :: w')
    end.

Definition raw_frame (w : list arrival) : Result ByteBuffer * list arrival :=
  let '(header_bytes, w) := raw_header [] w in
  match header_bytes with
  | Failure st => (Failure st, w)
  | Value header_bytes =>
      match decode_frame_header header_bytes kMaxFramePayloadBytes with
      | Failure st => (Failure st, w)
      | Value header =>
          let '(outcome, payload, w) := read_exact (Z.to_nat (fh_payload_length header)) 4 w in
          match outcome with
          | ReadOutcome.Complete => ((let? _ := verify_frame_payload header payload in Value payload), w)
          | _ => (fail StatusCode.Truncated "the response payload was truncated", w)
          end
      end
  end.

Definition receive (session : RawLinkSession) : Result ByteBuffer * RawLinkSession :=
  match session with
  | None => (fail StatusCode.LinkClosed "the raw session is closed", None)
  | Some s =>
      let '(payload, w) := raw_frame (sk_arrivals s) in
      (payload, Some (mk_socket w (sk_departures s) (sk_sent s)))
  end.

(** The two loops of [send_raw_frames]: a failure ends them. *)
Fixpoint send_frames (frames : list ByteBuffer) (session : RawLinkSession) : Result unit * RawLinkSession :=
  match frames with
  | [] => (Value tt, session)
  | frame :: frames =>
      let '(sent, session) := send_raw frame session in
      match sent with
      | Failure st => (Failure st, session)
      | Value _ => send_frames frames session
      end
  end.

Fixpoint receive_frames (response_limit : nat) (session : RawLinkSession) (responses : list ByteBuffer)
    : list ByteBuffer :=
  match response_limit with
  | O => responses
  | Datatypes.S limit =>
      let '(payload, session) := receive session in
      match payload with
      | Failure _ => responses
      | Value payload => receive_frames limit session (responses ++ [payload])
      end
  end.

Definition send_raw_frames (round : dialled) (frames : list ByteBuffer) (response_limit : nat)
    : Result unit * list ByteBuffer :=
  match raw_connect round with
  | Failure st => (Failure st, [])
  | Value session =>
      let '(sent, session) := send_frames frames session in
      match sent with
      | Failure st => (Failure st, [])
      | Value _ => (Value tt, receive_frames response_limit session [])
      end
  end.

(** [raw_send]: one frame, and the first response if there is one. *)
Definition raw_send (round : dialled) (bytes : ByteBuffer) (response_limit : nat)
    : Result unit * option ByteBuffer :=
  let '(status, responses) := send_raw_frames round [bytes] response_limit in
  match status with
  | Failure st => (Failure st, None)
  | Value _ => (Value tt, head responses)
  end.

(** ** What arrives is received *)

Lemma raw_header_idle b got w :
  (length (b :: got) < 80)%nat → raw_header (b :: got) (Idle :: w) = raw_header (b :: got) w.
Proof. intros H. cbn [raw_header]. by rewrite (proj2 (Nat.leb_gt _ _)). Qed.

Lemma raw_header_full got w : (80 <= length got)%nat → raw_header got w = (Value got, w).
Proof. intros H. destruct w; cbn [raw_header]; by rewrite (proj2 (Nat.leb_le _ _)). Qed.

(** The header loop fills the header from any division of the stream, whatever the
    pauses, once its first byte is there. *)
Lemma raw_header_delivery (d : Delivery) : ∀ got rest,
  Forall (λ p, p.2 <> []) d → (length got < 80 <= length got + length (bytes_of d))%nat →
  (got = [] → ∃ chunk d', d = (0%nat, chunk) :: d') →
  ∃ d' : Delivery,
    raw_header got (arrivals_of d ++ rest)
    = (Value (got ++ take (80 - length got) (bytes_of d)), arrivals_of d' ++ rest)
    ∧ (∀ n, timely n d → timely n d') ∧ bytes_of d' = drop (80 - length got) (bytes_of d).
Proof.
  induction d as [|[pauses chunk] d IH]; intros got rest Hd Hg Hfirst; [cbn in Hg; lia|].
  apply Forall_cons in Hd as [Hc Hd]. cbn [snd] in Hc.
  change (bytes_of ((pauses, chunk) :: d)) with (chunk ++ bytes_of d) in *. rewrite length_app in Hg.
  rewrite arrivals_of_cons.
  assert (raw_header got (replicate pauses Idle ++ Arrived chunk :: arrivals_of d ++ rest)
    = raw_header got (Arrived chunk :: arrivals_of d ++ rest)) as ->.
  { destruct got as [|b got].
    - destruct (Hfirst eq_refl) as (? & ? & [= -> _ _]). done.
    - induction pauses as [|n IHn]; [done|]. cbn [replicate app]. rewrite raw_header_idle by lia. apply IHn. done. }
  assert (length chunk <> 0)%nat as Hlen by (destruct chunk; [done|cbn; lia]).
  cbn [raw_header]. rewrite (proj2 (Nat.leb_gt _ _)) by lia. rewrite (proj2 (Nat.eqb_neq _ _)) by done.
  destruct (Nat.leb_spec (length chunk) (80 - length got)) as [Hle|Hgt].
  - destruct (decide (length (got ++ chunk) = 80)%nat) as [E|Hne]; rewrite length_app in *.
    + exists d. assert (raw_header (got ++ chunk) (arrivals_of d ++ rest) = (Value (got ++ chunk), arrivals_of d ++ rest)) as ->.
      { apply raw_header_full. rewrite length_app. lia. }
      replace (80 - length got)%nat with (length chunk) by lia. rewrite take_app_length, drop_app_length.
      split_and!; [done| |done]. by intros n [_ ?]%Forall_cons.
    + destruct (IH (got ++ chunk) rest) as (d' & -> & Ht & Hb); [done|rewrite length_app; lia| |].
      { intros E. apply app_nil in E as [_ ->]. done. }
      exists d'. rewrite length_app in *.
      replace (80 - (length got + length chunk))%nat with (80 - length got - length chunk)%nat in * by lia.
      rewrite take_app_ge, drop_app_ge, <-app_assoc by lia. split_and!; [done| |done].
      intros n [_ ?]%Forall_cons. by apply Ht.
  - exists ((0%nat, drop (80 - length got) chunk) :: d). rewrite take_app_le, drop_app_le by lia.
    split_and!; [by rewrite arrivals_of_cons| |done]. intros n [[Hn _] Hr]%Forall_cons. constructor; [|done]. cbn in *.
    split; [lia|]. intros E. apply (f_equal length) in E. rewrite length_drop in E. cbn in E. lia.
Qed.

(** A frame is received as it was sent. *)
Lemma raw_frame_delivery h payload (d : Delivery) more rest :
  header_ok h → sizeZ payload <= kMaxFramePayloadBytes → timely 4 d →
  (∃ chunk d', d = (0%nat, chunk) :: d') → bytes_of d = encode_frame h payload ++ more →
  ∃ d' : Delivery, raw_frame (arrivals_of d ++ rest) = (Value payload, arrivals_of d' ++ rest) ∧ timely 4 d' ∧ bytes_of d' = more.
Proof.
  intros Hh Hs Hd Hfirst Hb. assert (kMaxFramePayloadBytes <= U32_MAX) as Hm by (vm_compute; discriminate).
  assert (length (bytes_of d) = (80 + length payload + length more)%nat) as Hlen
    by (rewrite Hb, length_app, length_encode_frame; done).
  assert (Forall (λ p, p.2 <> []) d) as Hne by (eapply Forall_impl; [exact Hd|]; by intros p []).
  destruct (raw_header_delivery d [] rest Hne) as (d1 & E1 & Ht1 & Hb1); [cbn; lia|done|].
  destruct (decode_encode_frame h payload kMaxFramePayloadBytes Hh Hs Hm) as [Ed Ev].
  destruct (frame_header_part h payload) as [_ Hdrop].
  cbn [length app] in E1, Hb1. rewrite Nat.sub_0_r, Hb in E1, Hb1.
  rewrite take_app_le in E1 by (rewrite length_encode_frame; lia).
  rewrite drop_app_le, Hdrop in Hb1 by (rewrite length_encode_frame; lia).
  unfold raw_frame. rewrite E1, Ed.
  assert (Z.to_nat (fh_payload_length (received_header h payload)) = length payload) as ->.
  { cbn. destruct (wrap32_size payload ltac:(lia)) as [_ ->]. unfold sizeZ. lia. }
  destruct (read_exact_delivery (length payload) 4 d1 rest) as (d2 & E2 & Ht2 & Hb2); [unfold U32_MAX; lia|auto| |].
  { rewrite Hb1, length_app. lia. }
  rewrite E2, Hb1, take_app_length, Ev. exists d2. rewrite Hb2, Hb1, drop_app_length. done.
Qed.
