(* ===== verification/Explain.v ===== *)
(** The deterministic rendering of a decision: [eval/explain.hpp] and
    [src/eval/explain.cpp].

    A line is built as one string and appended to a text of bounded size, its line
    break after it; what does not fit is cut and marked, and nothing follows. *)
From S2P Require Import Prelude Status Core Policy Outcome.
#[local] Open Scope string_scope.
#[local] Open Scope list_scope.
#[local] Open Scope Z_scope.

(** ** Bounded text *)

Definition newline : string := String (Ascii.ascii_of_nat 10) "".

Definition truncation_marker : string := newline +:+ "[explanation truncated]" +:+ newline.

Record BoundedText := mk_text {
  bt_limit : Z;
  bt_size : Z;
  bt_truncated : bool;
  bt_buffer : string }.

Definition bounded_text (limit : Z) : BoundedText := mk_text limit 0 false "".

Definition append (text : string) (b : BoundedText) : BoundedText :=
  if bt_truncated b then b
  else if add64 (bt_size b) (str_size text) >? bt_limit b then
    let room := if bt_limit b >? bt_size b then sub64 (bt_limit b) (bt_size b) else 0 in
    mk_text (bt_limit b) (bt_limit b) true
      (bt_buffer b +:+ String.substring 0 (Z.to_nat room) text +:+ truncation_marker)
  else
    mk_text (bt_limit b) (add64 (bt_size b) (str_size text)) false (bt_buffer b +:+ text).

Definition line (text : string) (b : BoundedText) : BoundedText := append newline (append text b).

Definition take_text (b : BoundedText) : string := bt_buffer b.

(** ** Fields *)

Definition append_u64 (name : string) (value : Z) : string :=
  " " +:+ name +:+ "=" +:+ to_decimal value.

Definition append_i64 (name : string) (value : Z) : string :=
  " " +:+ name +:+ "=" +:+ (if value <? 0 then "-" else "") +:+ to_decimal (magnitude value).

Definition append_flag (name : string) (value : bool) : string :=
  append_u64 name (if value then 1 else 0).

Definition append_label (label : string) : string :=
  if str_size label =? 0 then "" else " label=" +:+ label.

(** ** Lines *)

Definition authority_line (a : AuthorityVector) : string :=
  "authority policy=" +:+ to_decimal (av_policy_id a) +:+ ":" +:+ to_decimal (av_policy_generation a)
  +:+ append_u64 "epoch" (av_epoch a)
  +:+ " evidence=" +:+ to_decimal (av_evidence_id a) +:+ ":" +:+ to_decimal (av_evidence_generation a)
  +:+ " window=" +:+ to_decimal (av_window a) +:+ ":" +:+ to_decimal (av_window_generation a)
  +:+ append_u64 "accounting_generation" (av_accounting_generation a)
  +:+ append_u64 "governor_boot" (inc_boot (av_governor a))
  +:+ append_u64 "governor_ordinal" (inc_ordinal (av_governor a))
  +:+ append_u64 "request" (av_request_id a) +:+ append_u64 "attempt" (av_attempt a).

Definition counts_line (c : OutcomeCounts) : string :=
  "counts" +:+ append_u64 "fair" (cnt_fair c) +:+ append_u64 "over_served" (cnt_over_served c)
  +:+ append_u64 "under_served" (cnt_under_served c)
  +:+ append_u64 "starvation_risk" (cnt_starvation_risk c)
  +:+ append_u64 "correction_required" (cnt_correction_required c)
  +:+ append_u64 "blocked_by_stronger_obligation" (cnt_blocked_by_stronger_obligation c)
  +:+ append_u64 "unknown" (cnt_unknown c) +:+ append_u64 "stale" (cnt_stale c).

Definition correction_line (c : CorrectionSummary) : string :=
  "correction" +:+ append_u64 "pool" (cor_reducible_pool_units c)
  +:+ append_u64 "demand" (cor_demand_units c)
  +:+ append_u64 "authorized" (cor_authorized_budget_units c)
  +:+ append_u64 "augment" (cor_augment_units c) +:+ append_u64 "reduce" (cor_reduce_units c)
  +:+ append_u64 "withheld" (cor_withheld_units c)
  +:+ append_u64 "unsatisfied" (cor_unsatisfied_demand_units c)
  +:+ append_u64 "cooldown_suppressed" (cor_cooldown_suppressed c)
  +:+ append_flag "bounded_by_total" (cor_bounded_by_policy_total c)
  +:+ append_flag "bounded_by_bps" (cor_bounded_by_policy_bps c)
  +:+ append_flag "protected_blocked" (cor_protected_obligation_blocked c)
  +:+ append_flag "authority_missing" (cor_authority_missing c).

Definition group_line (g : GroupFairnessState) : string :=
  "group id=" +:+ to_decimal (gf_id g) +:+ ":" +:+ to_decimal (gf_generation g)
  +:+ " parent=" +:+ to_decimal (gf_parent g) +:+ append_u64 "depth" (gf_depth g)
  +:+ append_u64 "entitlement" (gf_entitlement_units g) +:+ append_u64 "served" (gf_served_units g)
  +:+ append_i64 "deviation" (gf_deviation_units g)
  +:+ append_u64 "floor" (gf_guarantee_floor_units g)
  +:+ append_flag "protected" (gf_is_protected_obligation g)
  +:+ append_u64 "obligation_rank" (gf_obligation_rank g)
  +:+ append_flag "withheld_correction" (gf_withheld_correction g)
  +:+ append_label (gf_label g).

Definition subject_line (s : SubjectFairnessState) : string :=
  "subject id=" +:+ to_decimal (sf_id s) +:+ ":" +:+ to_decimal (sf_generation s)
  +:+ " outcome=" +:+ Outcome.to_string (sf_outcome s)
  +:+ " reason=" +:+ ReasonCode.to_string (sf_reason s)
  +:+ append_flag "authority" (sf_has_authority s) +:+ append_u64 "group" (sf_group s)
  +:+ append_u64 "group_entitlement" (sf_group_entitlement_units s)
  +:+ append_u64 "entitlement" (sf_entitlement_units s)
  +:+ append_u64 "base_entitlement" (sf_base_entitlement_units s)
  +:+ append_u64 "floor" (sf_guarantee_floor_units s)
  +:+ append_i64 "priority_delta" (sf_priority_delta_units s)
  +:+ append_i64 "modifier_bps" (sf_applied_modifier_bps s)
  +:+ append_flag "modifier_clipped" (sf_modifier_clipped s)
  +:+ append_u64 "served" (sf_served_units s) +:+ append_i64 "deviation" (sf_deviation_units s)
  +:+ append_u64 "deficit" (sf_deficit_units s) +:+ append_u64 "surplus" (sf_surplus_units s)
  +:+ append_u64 "carry_deficit" (sf_cumulative_deficit_after s)
  +:+ append_u64 "carry_surplus" (sf_cumulative_surplus_after s)
  +:+ append_u64 "unserved_streak" (sf_unserved_streak s)
  +:+ append_u64 "unserved_limit" (sf_starvation_limit_windows s)
  +:+ append_u64 "below_floor_streak" (sf_below_floor_streak s)
  +:+ append_u64 "below_floor_limit" (sf_guarantee_starvation_limit_windows s)
  +:+ append_flag "protected" (sf_is_protected_obligation s)
  +:+ append_u64 "obligation_rank" (sf_obligation_rank s)
  +:+ append_u64 "augment" (sf_proposed_augment_units s)
  +:+ append_u64 "reduce" (sf_proposed_reduce_units s)
  +:+ append_u64 "unsatisfied" (sf_unsatisfied_demand_units s)
  +:+ (if ref_present (sf_expected_priority s)
       then append_u64 "priority_ref" (ref_id (sf_expected_priority s)) else "")
  +:+ (if ref_present (sf_observed_priority s)
       then append_u64 "observed_priority_ref" (ref_id (sf_observed_priority s)) else "")
  +:+ append_label (sf_label s).

Definition intent_line (i : CorrectiveIntent) : string :=
  "intent id=" +:+ to_decimal (ci_id i) +:+ ":" +:+ to_decimal (ci_generation i)
  +:+ " direction=" +:+ CorrectionDirection.to_string (ci_direction i)
  +:+ append_u64 "subject" (ci_subject i) +:+ append_u64 "group" (ci_group i)
  +:+ append_u64 "units" (ci_units i)
  +:+ " bound=" +:+ CorrectionBound.to_string (ci_bound i)
  +:+ " reason=" +:+ ReasonCode.to_string (ci_reason i)
  +:+ append_flag "starvation" (ci_from_starvation i)
  +:+ append_flag "protected" (ci_from_protected_obligation i)
  +:+ append_u64 "obligation_rank" (ci_obligation_rank i).

Definition note_line (n : DiagnosticNote) : string :=
  "note code=" +:+ StatusCode.to_string (note_code n)
  +:+ " reason=" +:+ ReasonCode.to_string (note_reason n)
  +:+ append_u64 "subject" (note_subject n)
  +:+ (if str_size (note_detail n) =? 0 then "" else " detail=" +:+ note_detail n).

(** ** The whole text *)

Record ExplainOptions := mk_explain {
  eo_include_subjects : bool;
  eo_include_groups : bool;
  eo_include_intents : bool;
  eo_include_notes : bool;
  eo_max_bytes : Z }.

Definition default_explain : ExplainOptions := mk_explain true true true true kMaxExplanationBytes.

(** A loop of [text.line]. *)
Definition lines {A} (render : A → string) (l : list A) (b : BoundedText) : BoundedText :=
  foldl (λ b a, line (render a) b) b l.

Definition explain (d : FairnessDecision) (o : ExplainOptions) : string :=
  let b := bounded_text (eo_max_bytes o) in
  let b := line ("outcome " +:+ Outcome.to_string (fd_outcome d)) b in
  let b := line (authority_line (fd_authority d)) b in
  let b := line (counts_line (fd_counts d)) b in
  let b := line (correction_line (fd_correction d)) b in
  let b := if eo_include_groups o then lines group_line (fd_groups d) b else b in
  let b := if eo_include_subjects o then lines subject_line (fd_subjects d) b else b in
  let b := if eo_include_intents o then lines intent_line (fd_intents d) b else b in
  let b := if eo_include_notes o then lines note_line (fd_notes d) b else b in
  let b := line ("digest=" +:+ to_decimal (fd_content_digest d)) b in
  take_text b.

Definition summarize (d : FairnessDecision) : string :=
  let c := fd_counts d in
  Outcome.to_string (fd_outcome d) +:+ " fair=" +:+ to_decimal (cnt_fair c)
  +:+ " under=" +:+ to_decimal (cnt_under_served c) +:+ " over=" +:+ to_decimal (cnt_over_served c)
  +:+ " starve=" +:+ to_decimal (cnt_starvation_risk c)
  +:+ " correct=" +:+ to_decimal (cnt_correction_required c)
  +:+ " blocked=" +:+ to_decimal (cnt_blocked_by_stronger_obligation c)
  +:+ " unknown=" +:+ to_decimal (cnt_unknown c) +:+ " stale=" +:+ to_decimal (cnt_stale c)
  +:+ " augment=" +:+ to_decimal (cor_augment_units (fd_correction d))
  +:+ " reduce=" +:+ to_decimal (cor_reduce_units (fd_correction d)).

(** [format_result] of [src/scenario.cpp]. *)
Definition format_result (d : FairnessDecision) : string :=
  explain d default_explain +:+ "summary " +:+ summarize d +:+ newline.
