(* ===== verification/ExplainSpec.v ===== *)
(** The rendering of a decision is its lines, whole, or cut at the bound and
    marked. *)
From S2P Require Import Prelude Status Core Policy Outcome Explain.
#[local] Open Scope string_scope.
#[local] Open Scope list_scope.
#[local] Open Scope Z_scope.

(** ** Strings *)

Lemma length_string_app s t : String.length (s +:+ t) = (String.length s + String.length t)%nat.
Proof. induction s as [|a s IH]; [done|]. simpl. by rewrite IH. Qed.

Lemma str_size_app s t : str_size (s +:+ t) = str_size s + str_size t.
Proof. unfold str_size. rewrite length_string_app. lia. Qed.

(** Cutting a concatenation. *)
Lemma substring_app_l n s t : (n <= String.length s)%nat → String.substring 0 n (s +:+ t) = String.substring 0 n s.
Proof.
  revert n. induction s as [|a s IH]; intros [|n] Hn; cbn in *; try done; [by destruct t|lia|].
  exact (f_equal (String a) (IH n ltac:(lia))).
Qed.

Lemma substring_app_r n s t :
  (String.length s <= n)%nat → String.substring 0 n (s +:+ t) = s +:+ String.substring 0 (n - String.length s) t.
Proof.
  revert n. induction s as [|a s IH]; intros [|n] Hn; cbn in *; try done; [lia|].
  exact (f_equal (String a) (IH n ltac:(lia))).
Qed.

Lemma substring_size n s : (n <= String.length s)%nat → String.length (String.substring 0 n s) = n.
Proof. revert n. induction s as [|a s IH]; intros [|n] Hn; cbn in *; try lia. by rewrite IH by lia. Qed.

(** ** The bounded text *)

(** A text cut at a bound. *)
Definition cut (limit : Z) (whole : string) : string :=
  if str_size whole >? limit then String.substring 0 (Z.to_nat limit) whole +:+ truncation_marker else whole.

Record shows (limit : Z) (whole : string) (b : BoundedText) : Prop := {
  sh_limit : bt_limit b = limit;
  sh_buffer : bt_buffer b = cut limit whole;
  sh_truncated : bt_truncated b = (str_size whole >? limit);
  sh_size : str_size whole <= limit → bt_size b = str_size whole }.

Lemma str_size_range s : 0 <= str_size s.
Proof. unfold str_size. lia. Qed.

Lemma append_shows limit whole text b :
  0 <= limit → limit + str_size text <= U64_MAX → shows limit whole b → shows limit (whole +:+ text) (append text b).
Proof.
  intros Hl Hm [E1 E2 E3 E4]. pose proof (str_size_range whole). pose proof (str_size_range text).
  unfold append. rewrite E3. unfold cut in E2. destruct (str_size whole >? limit) eqn:Hw.
  - apply gtb_true_lt in Hw. constructor; rewrite ?str_size_app; try done; unfold cut; rewrite ?str_size_app;
      rewrite ?(proj2 (gtb_true_lt _ _)) by lia; [|done|lia].
    rewrite E2, substring_app_l; [done|]. unfold str_size in *. lia.
  - apply gtb_false_le in Hw. rewrite (E4 Hw), E1, E2.
    assert (add64 (str_size whole) (str_size text) = str_size whole + str_size text) as Ha.
    { unfold add64, wrap64. unfold U64_MAX in Hm. apply Z.mod_small. lia. }
    rewrite Ha. destruct (str_size whole + str_size text >? limit) eqn:Hc.
    + apply gtb_true_lt in Hc.
      assert (Z.to_nat (if limit >? str_size whole then sub64 limit (str_size whole) else 0)
        = (Z.to_nat limit - String.length whole)%nat) as Hroom.
      { destruct (limit >? str_size whole) eqn:Hr; [apply gtb_true_lt in Hr|apply gtb_false_le in Hr].
        - unfold sub64, wrap64. rewrite Z.mod_small by (unfold U64_MAX in Hm; lia). unfold str_size in *. lia.
        - unfold str_size in *. lia. }
      rewrite Hroom. constructor; cbn [bt_limit bt_buffer bt_truncated bt_size]; unfold cut; rewrite ?str_size_app;
        rewrite ?(proj2 (gtb_true_lt _ _)) by lia; [done| |done|lia].
      rewrite substring_app_r by (unfold str_size in *; lia). by rewrite string_app_assoc.
    + apply gtb_false_le in Hc. constructor; cbn; unfold cut; rewrite ?str_size_app;
        rewrite ?(proj2 (gtb_false_le _ _)) by lia; done.
Qed.

(** The lines of a rendering, each with its break. *)
Definition text_of (l : list string) : string := foldr (λ s t, (s +:+ newline) +:+ t) "" l.

Lemma text_of_app l k : text_of (l ++ k) = text_of l +:+ text_of k.
Proof.
  induction l as [|s l IH]; [done|]. change ((s +:+ newline) +:+ text_of (l ++ k) = ((s +:+ newline) +:+ text_of l) +:+ text_of k).
  rewrite IH. symmetry. apply string_app_assoc.
Qed.

Lemma lines_shows {A} (render : A → string) l limit whole b :
  0 <= limit → limit + str_size (text_of (render <$> l)) <= U64_MAX → shows limit whole b →
  shows limit (whole +:+ text_of (render <$> l)) (lines render l b).
Proof.
  intros Hl. revert whole b. induction l as [|a l IH]; intros whole b Hm Hb; cbn [fmap list_fmap] in *.
  { change (shows limit (whole +:+ "") b). by rewrite string_app_nil. }
  change (text_of (render a :: (render <$> l))) with ((render a +:+ newline) +:+ text_of (render <$> l)) in *.
  rewrite !str_size_app in Hm.
  pose proof (str_size_range (render a)). pose proof (str_size_range newline). pose proof (str_size_range (text_of (render <$> l))).
  rewrite <-!string_app_assoc. apply IH; [lia|]. unfold line. apply append_shows; [done|lia|].
  apply append_shows; [done|lia|done].
Qed.

Lemma line_shows text limit whole b :
  0 <= limit → limit + str_size (text_of [text]) <= U64_MAX → shows limit whole b →
  shows limit (whole +:+ text_of [text]) (line text b).
Proof. apply (lines_shows id [text]). Qed.

Lemma lines_id4 s t u v b : lines id [s; t; u; v] b = line v (line u (line t (line s b))).
Proof. done. Qed.

(** ** The rendering *)

Definition explained (d : FairnessDecision) (o : ExplainOptions) : list string :=
  [ "outcome " +:+ Outcome.to_string (fd_outcome d); authority_line (fd_authority d); counts_line (fd_counts d);
    correction_line (fd_correction d) ]
  ++ (if eo_include_groups o then group_line <$> fd_groups d else [])
  ++ (if eo_include_subjects o then subject_line <$> fd_subjects d else [])
  ++ (if eo_include_intents o then intent_line <$> fd_intents d else [])
  ++ (if eo_include_notes o then note_line <$> fd_notes d else [])
  ++ ["digest=" +:+ to_decimal (fd_content_digest d)].

Lemma lines_if_shows {A} (include : bool) (render : A → string) l limit whole b :
  0 <= limit → limit + str_size (text_of (if include then render <$> l else [])) <= U64_MAX → shows limit whole b →
  shows limit (whole +:+ text_of (if include then render <$> l else [])) (if include then lines render l b else b).
Proof. destruct include; [apply lines_shows|]. intros _ _. by rewrite string_app_nil. Qed.

Lemma explain_shows d o :
  0 <= eo_max_bytes o → eo_max_bytes o + str_size (text_of (explained d o)) <= U64_MAX →
  explain d o = cut (eo_max_bytes o) (text_of (explained d o)).
Proof.
  intros Hl Hm. unfold explained in *.
  set (pieces := [ "outcome " +:+ Outcome.to_string (fd_outcome d); authority_line (fd_authority d);
    counts_line (fd_counts d); correction_line (fd_correction d) ]) in *.
  rewrite !text_of_app, !str_size_app in Hm.
  pose proof (str_size_range (text_of pieces)).
  pose proof (str_size_range (text_of (if eo_include_groups o then group_line <$> fd_groups d else []))).
  pose proof (str_size_range (text_of (if eo_include_subjects o then subject_line <$> fd_subjects d else []))).
  pose proof (str_size_range (text_of (if eo_include_intents o then intent_line <$> fd_intents d else []))).
  pose proof (str_size_range (text_of (if eo_include_notes o then note_line <$> fd_notes d else []))).
  pose proof (str_size_range (text_of ["digest=" +:+ to_decimal (fd_content_digest d)])).
  assert (shows (eo_max_bytes o) "" (bounded_text (eo_max_bytes o))) as Hb.
  { constructor; try done; unfold cut; change (str_size "") with 0; by rewrite (proj2 (gtb_false_le 0 (eo_max_bytes o))). }
  apply (lines_shows id pieces) in Hb; [|done|rewrite list_fmap_id; lia]. rewrite list_fmap_id in Hb.
  apply (lines_if_shows (eo_include_groups o) group_line (fd_groups d)) in Hb; [|done|lia].
  apply (lines_if_shows (eo_include_subjects o) subject_line (fd_subjects d)) in Hb; [|done|lia].
  apply (lines_if_shows (eo_include_intents o) intent_line (fd_intents d)) in Hb; [|done|lia].
  apply (lines_if_shows (eo_include_notes o) note_line (fd_notes d)) in Hb; [|done|lia].
  apply (line_shows ("digest=" +:+ to_decimal (fd_content_digest d))) in Hb; [|done|lia].
  unfold explain, take_text. rewrite <-lines_id4. fold pieces. rewrite (sh_buffer _ _ _ Hb), !text_of_app.
  f_equal. change ("" +:+ text_of pieces) with (text_of pieces). by rewrite !string_app_assoc.
Qed.

Lemma cut_size limit whole : 0 <= limit → str_size (cut limit whole) <= limit + str_size truncation_marker.
Proof.
  intros Hl. unfold cut. pose proof (str_size_range truncation_marker). destruct (_ >? _) eqn:E.
  - apply gtb_true_lt in E. rewrite str_size_app. unfold str_size at 1. rewrite substring_size by (unfold str_size in E; lia). lia.
  - apply gtb_false_le in E. lia.
Qed.
