(* ===== verification/Scenario.v ===== *)
(** The strict textual scenario format: [scenario.hpp] and [src/scenario.cpp].

    The parser's position is the text that remains and the number of the last
    line read.  A handler fails with the message of the source; [at_line] adds
    the line number the way [parse_scenario] does. *)
From Stdlib Require Import Ascii.
From S2P Require Import Prelude Status Core Bytes Policy Accounting Evidence Engine.
From coqutil Require Import Datatypes.RecordSetters.
Import DoubleBraceUpdate.
#[local] Open Scope string_scope.
#[local] Open Scope list_scope.
#[local] Open Scope Z_scope.

(** ** Numbers *)

Definition char_code (c : Ascii.ascii) : Z := Z.of_N (Ascii.N_of_ascii c).

(** The loop of [parse_u64]. *)
Fixpoint parse_digits (value : Z) (text : string) : option Z :=
  match text with
  | EmptyString => Some value
  | String character rest =>
      if (char_code character <? 48) || (char_code character >? 57) then None
      else
        let digit := sub64 (char_code character) 48 in
        match checked_mul value 10 with
        | None => None
        | Some scaled =>
            match checked_add scaled digit with
            | None => None
            | Some value' => parse_digits value' rest
            end
        end
  end.

Definition parse_u64 (text : string) : option Z :=
  if (str_size text =? 0) || (str_size text >? 20) then None else parse_digits 0 text.

Definition parse_i64 (text : string) : option Z :=
  match text with
  | EmptyString => None
  | String "-"%char rest =>
      match parse_u64 rest with
      | None => None
      | Some magnitude_value =>
          if magnitude_value >? add64 I64_MAX 1 then None
          else if magnitude_value =? add64 I64_MAX 1 then Some I64_MIN
          else Some (- magnitude_value)
      end
  | _ =>
      match parse_u64 text with
      | None => None
      | Some value => if value >? I64_MAX then None else Some value
      end
  end.

Definition parse_u32 (text : string) : option Z :=
  match parse_u64 text with
  | None => None
  | Some value => if value >? U32_MAX then None else Some value
  end.

Definition parse_i32 (text : string) : option Z :=
  match parse_i64 text with
  | None => None
  | Some value => if (value >? I32_MAX) || (value <? I32_MIN) then None else Some value
  end.

(** [text.substr(0, find(c))] and [text.substr(find(c) + 1)]; [None] is [npos]. *)
Fixpoint split_at (c : Ascii.ascii) (text : string) : option (string * string) :=
  match text with
  | EmptyString => None
  | String a rest =>
      if Ascii.eqb a c then Some (EmptyString, rest)
      else match split_at c rest with
           | None => None
           | Some (before, after) => Some (String a before, after)
           end
  end.

Definition parse_id_pair (text : string) : option (Z * Z) :=
  match split_at ":"%char text with
  | None => None
  | Some (before, after) =>
      match parse_u64 before with
      | None => None
      | Some id => match parse_u64 after with None => None | Some generation => Some (id, generation) end
      end
  end.

Example parse_u64_max : parse_u64 "18446744073709551615" = Some U64_MAX /\ parse_u64 "18446744073709551616" = None
  /\ parse_u64 "" = None /\ parse_u64 "1x" = None /\ parse_i64 "-9223372036854775808" = Some I64_MIN
  /\ parse_i64 "-" = None /\ parse_id_pair "7:9" = Some (7, 9) /\ parse_id_pair "7:9:1" = None.
Proof. repeat split; vm_compute; reflexivity. Qed.

(** ** Lines *)

Record Line := mk_line {
  ln_number : Z;
  ln_tokens : list string;
  ln_label : string;
  ln_has_label : bool }.

Definition tab : Ascii.ascii := Ascii.ascii_of_nat 9.
Definition line_feed : Ascii.ascii := Ascii.ascii_of_nat 10.
Definition carriage_return : Ascii.ascii := Ascii.ascii_of_nat 13.

Definition is_blank (c : Ascii.ascii) : bool := Ascii.eqb c " " || Ascii.eqb c tab.

(** [while (raw[index] is blank) ++index]. *)
Fixpoint skip_blanks (raw : string) : string :=
  match raw with
  | String c rest => if is_blank c then skip_blanks rest else raw
  | EmptyString => EmptyString
  end.

(** [while (label_end > label_start && raw[label_end - 1] is blank) --label_end]. *)
Fixpoint drop_trailing_blanks (raw : string) : string :=
  match raw with
  | EmptyString => EmptyString
  | String c rest =>
      match drop_trailing_blanks rest with
      | EmptyString => if is_blank c then EmptyString else String c EmptyString
      | kept => String c kept
      end
  end.

(** The token at the front of [raw], and what follows it. *)
Fixpoint take_token (raw : string) : string * string :=
  match raw with
  | EmptyString => (EmptyString, EmptyString)
  | String c rest =>
      if is_blank c then (EmptyString, raw)
      else let '(token, rest') := take_token rest in (String c token, rest')
  end.

(** [raw.remove_suffix(1)] on a final carriage return. *)
Fixpoint drop_final_cr (raw : string) : string :=
  match raw with
  | EmptyString => EmptyString
  | String c EmptyString => if Ascii.eqb c carriage_return then EmptyString else raw
  | String c rest => String c (drop_final_cr rest)
  end.

Definition label_prefix : string := "label=".

(** The label: the inline value of the token, then the rest of the line. *)
Definition label_value (token rest : string) : string :=
  let inline_value := String.substring 6 (String.length token - 6) token in
  let trailing := drop_trailing_blanks (skip_blanks rest) in
  if str_size inline_value =? 0 then trailing
  else if str_size trailing =? 0 then inline_value
  else inline_value +:+ " " +:+ trailing.

(** The token loop over one raw line.  Each step consumes a character, so the
    length of the line is enough fuel. *)
Fixpoint scan_tokens (fuel : nat) (raw : string) (tokens : list string) : list string * option string :=
  match fuel with
  | O => (tokens, None)
  | S fuel' =>
      match skip_blanks raw with
      | EmptyString => (tokens, None)
      | String "#"%char _ => (tokens, None)
      | start =>
          let '(token, rest) := take_token start in
          if String.prefix label_prefix token then (tokens, Some (label_value token rest))
          else scan_tokens fuel' rest (tokens ++ [token])
      end
  end.

Definition scan_line (number : Z) (raw : string) : Line :=
  let raw := drop_final_cr raw in
  let '(tokens, label) := scan_tokens (S (String.length raw)) raw [] in
  match label with
  | None => mk_line number tokens "" false
  | Some label => mk_line number tokens label true
  end.

Definition line_is_empty (l : Line) : bool :=
  match ln_tokens l with [] => negb (ln_has_label l) | _ :: _ => false end.

(** The position: what remains of the text, and the number of the last line. *)
Record Position := mk_position { ps_rest : string; ps_line_number : Z }.

(** One raw line, its number, and the position after it; [None] at the end. *)
Definition raw_line (at_ : Position) : option (string * Position) :=
  match ps_rest at_ with
  | EmptyString => None
  | text =>
      let number := add64 (ps_line_number at_) 1 in
      match split_at line_feed text with
      | None => Some (text, mk_position EmptyString number)
      | Some (raw, rest) => Some (raw, mk_position rest number)
      end
  end.

(** [next_line]: skips the lines that hold nothing.  A line takes at least one
    character of the text, so its length is enough fuel. *)
Fixpoint next_line (fuel : nat) (position : Position) : option Line * Position :=
  match fuel with
  | O => (None, position)
  | S fuel' =>
      match raw_line position with
      | None => (None, position)
      | Some (raw, position') =>
          let line := scan_line (ps_line_number position') raw in
          if line_is_empty line then next_line fuel' position' else (Some line, position')
      end
  end.

(** ** Attributes *)

(** What an attribute of a directive does: it is unknown, its value is invalid,
    or it changes the record the directive builds. *)
Inductive Setting (A : Type) : Type :=
  | Unknown
  | Invalid
  | Changed (a : A).
Arguments Unknown {A}.
Arguments Invalid {A}.
Arguments Changed {A} a.

(** [ok = parse(value, v); record.field = v]. *)
Definition assign {V A} (parsed : option V) (store : V → A) : Setting A :=
  match parsed with None => Invalid | Some v => Changed (store v) end.

(** [parse_u32(value, small) && small <= 1; field = small != 0]. *)
Definition parse_flag (text : string) : option bool :=
  match parse_u32 text with
  | None => None
  | Some small => if small <=? 1 then Some (negb (small =? 0)) else None
  end.

Section attributes.
  Context {A : Type}.

  (** The name of the directive, whether its keys may appear once only, and the
      chain of [key == ...] branches. *)
  Variable kind : string.
  Variable unique : bool.
  Variable setting : string → string → A → Setting A.

Definition attribute (token : string) (state : list string * A) : Result (list string * A) :=
    let '(seen, a) := state in
    match split_at "="%char token with
    | None => fail StatusCode.InvalidArgument (kind +:+ " attribute is not key=value: " +:+ token)
    | Some (key, value) =>
        if unique && bool_decide (key ∈ seen) then
          fail StatusCode.InvalidArgument ("duplicate " +:+ kind +:+ " attribute: " +:+ key)
        else
          match setting key value a with
          | Unknown => fail StatusCode.InvalidArgument ("unknown " +:+ kind +:+ " attribute: " +:+ key)
          | Invalid => fail StatusCode.InvalidArgument ("invalid value for " +:+ kind +:+ " attribute " +:+ key)
          | Changed a' => Value (key :: seen, a')
          end
    end.

  (** The attribute loop of a directive. *)
Definition attributes (tokens : list string) (a : A) : Result A :=
    let? state := fold_result (λ state token, attribute token state) ([], a) tokens in
    Value state.2.
End attributes.

Definition policy_setting (key value : string) (p : FairnessPolicy) : Setting FairnessPolicy :=
  if String.eqb key "window_units" then assign (parse_u64 value) (λ n, p {{ pol_window_units := n }})
  else if String.eqb key "fair_band" then assign (parse_u64 value) (λ n, p {{ pol_fair_band_units := n }})
  else if String.eqb key "correction_threshold" then
    assign (parse_u64 value) (λ n, p {{ pol_correction_threshold_units := n }})
  else if String.eqb key "cooldown" then assign (parse_u32 value) (λ n, p {{ pol_cooldown_windows := n }})
  else if String.eqb key "max_correction" then
    assign (parse_u64 value) (λ n, p {{ pol_max_correction_units := n }})
  else if String.eqb key "max_correction_bps" then
    assign (parse_u32 value) (λ n, p {{ pol_max_correction_bps := n }})
  else if String.eqb key "max_modifier_bps" then
    assign (parse_u32 value) (λ n, p {{ pol_max_priority_modifier_bps := n }})
  else if String.eqb key "max_age_windows" then
    assign (parse_u32 value) (λ n, p {{ pol_max_evidence_age_windows := n }})
  else if String.eqb key "max_age_ns" then
    assign (parse_u64 value) (λ n, p {{ pol_max_evidence_age_ns := n }})
  else if String.eqb key "max_carry" then assign (parse_u64 value) (λ n, p {{ pol_max_carry_units := n }})
  else if String.eqb key "enforce_floors" then
    assign (parse_flag value) (λ f, p {{ pol_enforce_guarantee_floors := f }})
  else if String.eqb key "source" then Changed (p {{ pol_provenance -> prov_source := value }})
  else if String.eqb key "revision" then
    assign (parse_u64 value) (λ n, p {{ pol_provenance -> prov_revision := n }})
  else if String.eqb key "digest" then
    assign (parse_u64 value) (λ n, p {{ pol_provenance -> prov_source_digest := n }})
  else Unknown.

Definition group_setting (key value : string) (g : FairnessGroup) : Setting FairnessGroup :=
  if String.eqb key "parent" then assign (parse_u64 value) (λ n, g {{ group_parent := n }})
  else if String.eqb key "weight" then assign (parse_u32 value) (λ n, g {{ group_share_weight := n }})
  else if String.eqb key "floor" then assign (parse_u64 value) (λ n, g {{ group_guarantee_floor := n }})
  else if String.eqb key "rank" then assign (parse_u32 value) (λ n, g {{ group_obligation_rank := n }})
  else if String.eqb key "protected" then
    assign (parse_flag value) (λ f, g {{ group_protected_obligation := f }})
  else Unknown.

Definition as_ref (pair : Z * Z) : ClassRef := mk_ref pair.1 pair.2.

Definition subject_setting (key value : string) (s : Subject) : Setting Subject :=
  if String.eqb key "group" then assign (parse_u64 value) (λ n, s {{ subj_group := n }})
  else if String.eqb key "tenant" then assign (parse_u64 value) (λ n, s {{ subj_tenant := n }})
  else if String.eqb key "weight" then assign (parse_u32 value) (λ n, s {{ subj_share_weight := n }})
  else if String.eqb key "floor" then assign (parse_u64 value) (λ n, s {{ subj_guarantee_floor := n }})
  else if String.eqb key "starvation" then assign (parse_u32 value) (λ n, s {{ subj_starvation_windows := n }})
  else if String.eqb key "guarantee_starvation" then
    assign (parse_u32 value) (λ n, s {{ subj_guarantee_starvation_windows := n }})
  else if String.eqb key "rank" then assign (parse_u32 value) (λ n, s {{ subj_obligation_rank := n }})
  else if String.eqb key "protected" then
    assign (parse_flag value) (λ f, s {{ subj_protected_obligation := f }})
  else if String.eqb key "reduce_cap" then assign (parse_u64 value) (λ n, s {{ subj_max_reduce_units := n }})
  else if String.eqb key "augment_cap" then assign (parse_u64 value) (λ n, s {{ subj_max_augment_units := n }})
  else if String.eqb key "modifier_bps" then
    assign (parse_i32 value) (λ n, s {{ subj_priority_modifier_bps := n }})
  else if String.eqb key "priority_rank" then assign (parse_u32 value) (λ n, s {{ subj_priority_rank := n }})
  else if String.eqb key "priority" then
    assign (parse_id_pair value) (λ r, s {{ subj_priority := as_ref r }})
  else if String.eqb key "qos" then assign (parse_id_pair value) (λ r, s {{ subj_qos := as_ref r }})
  else Unknown.

Definition evidence_setting (key value : string) (e : EvidenceSnapshot) : Setting EvidenceSnapshot :=
  if String.eqb key "window" then assign (parse_u64 value) (λ n, e {{ ev_window := n }})
  else if String.eqb key "window_gen" then assign (parse_u64 value) (λ n, e {{ ev_window_generation := n }})
  else if String.eqb key "epoch" then assign (parse_u64 value) (λ n, e {{ ev_epoch := n }})
  else if String.eqb key "captured_ns" then assign (parse_i64 value) (λ n, e {{ ev_captured_at_ns := n }})
  else if String.eqb key "sequence" then assign (parse_u64 value) (λ n, e {{ ev_sequence := n }})
  else if String.eqb key "producer" then Changed (e {{ ev_producer -> producer_name := value }})
  else if String.eqb key "instance" then
    assign (parse_u64 value) (λ n, e {{ ev_producer -> producer_instance := n }})
  else if String.eqb key "version" then
    assign (parse_u64 value) (λ n, e {{ ev_producer -> producer_version := n }})
  else if String.eqb key "declared_digest" then
    assign (parse_u64 value) (λ n, e {{ ev_declared_digest := n }})
  else Unknown.

Definition obs_setting (key value : string) (o : SubjectObservation) : Setting SubjectObservation :=
  if String.eqb key "served" then assign (parse_u64 value) (λ n, o {{ obs_served_units := n }})
  else if String.eqb key "unserved" then assign (parse_u32 value) (λ n, o {{ obs_unserved_streak := n }})
  else if String.eqb key "below" then assign (parse_u32 value) (λ n, o {{ obs_below_floor_streak := n }})
  else if String.eqb key "priority" then
    assign (parse_id_pair value) (λ r, o {{ obs_priority := as_ref r }})
  else if String.eqb key "qos" then assign (parse_id_pair value) (λ r, o {{ obs_qos := as_ref r }})
  else Unknown.

Definition request_setting (key value : string) (r : EvaluationRequest) : Setting EvaluationRequest :=
  if String.eqb key "policy" then
    assign (parse_id_pair value) (λ i, r {{ rq_policy_id := i.1; rq_policy_generation := i.2 }})
  else if String.eqb key "evidence" then
    assign (parse_id_pair value) (λ i, r {{ rq_evidence_id := i.1; rq_evidence_generation := i.2 }})
  else if String.eqb key "window" then
    assign (parse_id_pair value) (λ i, r {{ rq_window := i.1; rq_window_generation := i.2 }})
  else if String.eqb key "epoch" then assign (parse_u64 value) (λ n, r {{ rq_epoch := n }})
  else if String.eqb key "now_ns" then assign (parse_i64 value) (λ n, r {{ rq_now_ns := n }})
  else if String.eqb key "request_id" then assign (parse_u64 value) (λ n, r {{ rq_request_id := n }})
  else if String.eqb key "attempt" then assign (parse_u32 value) (λ n, r {{ rq_attempt := n }})
  else if String.eqb key "missing_unknown" then
    assign (parse_flag value) (λ f, r {{ rq_treat_missing_as_unknown := f }})
  else Unknown.

(** ** Default records *)

Definition no_provenance : Provenance := mk_provenance 0 "" 0 0.

Definition default_policy : FairnessPolicy :=
  mk_policy 0 0 0 0 0 1 0 0 10000 0 1 0 kMaxCarryUnits true [] [] no_provenance.

Definition default_evidence : EvidenceSnapshot :=
  mk_snapshot 0 0 0 0 0 0 0 (mk_producer "" 0 0) no_provenance 0 [].

Definition default_observation : SubjectObservation := mk_observation 0 0 0 0 0 no_ref no_ref.

Definition default_request : EvaluationRequest := mk_request 0 0 0 0 0 0 0 0 0 0 true true.

(** ** The document *)

Record Scenario := mk_scenario {
  sc_has_policy : bool;
  sc_policy : FairnessPolicy;
  sc_epoch : Z;
  sc_evidence : list EvidenceSnapshot;
  sc_has_request : bool;
  sc_request : EvaluationRequest;
  sc_source_digest : Z }.

Definition default_scenario : Scenario := mk_scenario false default_policy 0 [] false default_request 0.

(** The locals of [Parser::parse].  [current_evidence] is the position in
    [scenario.evidence] of the snapshot the pointer designates. *)
Record ParseState := mk_parse {
  pa_scenario : Scenario;
  pa_saw_version : bool;
  pa_saw_body : bool;
  pa_in_policy : bool;
  pa_in_evidence : bool;
  pa_current_evidence : option nat }.

Definition parse_start : ParseState := mk_parse default_scenario false false false false None.

(** Every failure of the parser carries [InvalidArgument]; here only the message. *)
Definition error {A} (message : string) : Result A := fail StatusCode.InvalidArgument message.

Notation "'refuse' b 'with' d ';;' k" := (if b then error d else k)
  (at level 10, b at level 99, d at level 9, k at level 200, only parsing) : fg_scope.

(** The second and the third token of a directive, both numbers. *)
Definition parse_identity (tokens : list string) (short unread : string) : Result (Z * Z) :=
  match tokens with
  | _ :: first :: second :: _ =>
      match parse_u64 first with
      | None => error unread
      | Some id =>
          match parse_u64 second with
          | None => error unread
          | Some generation => Value (id, generation)
          end
      end
  | _ => error short
  end.

Definition version_directive (l : Line) (st : ParseState) : Result ParseState :=
  match ln_tokens l with
  | [_; value] =>
      refuse (pa_saw_version st) with "version must appear exactly once with one value" ;;
      match parse_u64 value with
      | Some 1 => Value (st {{ pa_saw_version := true }})
      | _ => error "unsupported scenario format version"
      end
  | _ => error "version must appear exactly once with one value"
  end.

Definition epoch_directive (l : Line) (st : ParseState) : Result ParseState :=
  match ln_tokens l with
  | [_; value] =>
      match parse_u64 value with
      | None => error "epoch is not an unsigned integer"
      | Some value => Value (st {{ pa_scenario -> sc_epoch := value }})
      end
  | _ => error "epoch takes exactly one value"
  end.

Definition policy_directive (l : Line) (st : ParseState) : Result ParseState :=
  let? identity := parse_identity (ln_tokens l) "policy requires an identity and a generation"
                     "policy identity and generation must be unsigned integers" in
  let policy := (sc_policy (pa_scenario st)) {{ pol_id := identity.1; pol_generation := identity.2 }} in
  let? policy := attributes "policy" false policy_setting (drop 3 (ln_tokens l)) policy in
  Value (st {{ pa_scenario -> sc_policy := policy; pa_scenario -> sc_has_policy := true;
               pa_in_policy := true; pa_in_evidence := false; pa_current_evidence := None }}).

Definition group_directive (l : Line) (st : ParseState) : Result ParseState :=
  refuse (negb (pa_in_policy st)) with "group must follow a policy directive" ;;
  let? identity := parse_identity (ln_tokens l) "group requires an identity and a generation"
                     "group identity and generation must be unsigned integers" in
  let group := default_group {{ group_id := identity.1; group_generation := identity.2 }} in
  let? group := attributes "group" true group_setting (drop 3 (ln_tokens l)) group in
  let group := if ln_has_label l then group {{ group_label := ln_label l }} else group in
  Value (st {{ pa_scenario -> sc_policy -> pol_groups ::= λ groups, groups ++ [group] }}).

Definition subject_directive (l : Line) (st : ParseState) : Result ParseState :=
  refuse (negb (pa_in_policy st)) with "subject must follow a policy directive" ;;
  let? identity := parse_identity (ln_tokens l) "subject requires an identity and a generation"
                     "subject identity and generation must be unsigned integers" in
  let subject := default_subject {{ subj_id := identity.1; subj_generation := identity.2 }} in
  let? subject := attributes "subject" true subject_setting (drop 3 (ln_tokens l)) subject in
  let subject := if ln_has_label l then subject {{ subj_label := ln_label l }} else subject in
  Value (st {{ pa_scenario -> sc_policy -> pol_subjects ::= λ subjects, subjects ++ [subject] }}).

Definition evidence_directive (l : Line) (st : ParseState) : Result ParseState :=
  let? identity := parse_identity (ln_tokens l) "evidence requires an identity and a generation"
                     "evidence identity and generation must be unsigned integers" in
  let snapshot := default_evidence {{ ev_id := identity.1; ev_generation := identity.2 }} in
  let? snapshot := attributes "evidence" true evidence_setting (drop 3 (ln_tokens l)) snapshot in
  let evidence := sc_evidence (pa_scenario st) ++ [snapshot] in
  Value (st {{ pa_scenario -> sc_evidence := evidence; pa_current_evidence := Some (length evidence - 1)%nat;
               pa_in_policy := false; pa_in_evidence := true }}).

Definition obs_directive (l : Line) (st : ParseState) : Result ParseState :=
  match pa_in_evidence st, pa_current_evidence st with
  | true, Some current =>
      let? identity := parse_identity (ln_tokens l) "obs requires a subject identity and a generation"
                         "obs identity and generation must be unsigned integers" in
      let observation := default_observation {{ obs_id := identity.1; obs_generation := identity.2 }} in
      let? observation := attributes "obs" true obs_setting (drop 3 (ln_tokens l)) observation in
      let observe := λ snapshot : EvidenceSnapshot, snapshot {{ ev_observations ::= λ l, l ++ [observation] }} in
      Value (st {{ pa_scenario -> sc_evidence ::= alter observe current }})
  | _, _ => error "obs must follow an evidence directive"
  end.

Definition request_directive (l : Line) (st : ParseState) : Result ParseState :=
  let? request := attributes "request" true request_setting (drop 1 (ln_tokens l)) default_request in
  Value (st {{ pa_scenario -> sc_request := request; pa_scenario -> sc_has_request := true;
               pa_in_policy := false; pa_in_evidence := false; pa_current_evidence := None }}).

(** One iteration of the directive loop. *)
Definition directive (l : Line) (st : ParseState) : Result ParseState :=
  match ln_tokens l with
  | [] => error "line carries only a label attribute"
  | name :: _ =>
      if String.eqb name "version" then version_directive l st
      else if negb (pa_saw_version st) then error "the first directive must be: version 1"
      else
        let st := st {{ pa_saw_body := true }} in
        if String.eqb name "epoch" then epoch_directive l st
        else if String.eqb name "policy" then policy_directive l st
        else if String.eqb name "group" then group_directive l st
        else if String.eqb name "subject" then subject_directive l st
        else if String.eqb name "evidence" then evidence_directive l st
        else if String.eqb name "obs" then obs_directive l st
        else if String.eqb name "request" then request_directive l st
        else error ("unknown directive: " +:+ name)
  end.

(** [parse_scenario] reports the line of the error. *)
Definition at_line {A} (number : Z) (r : Result A) : Result A :=
  match r with
  | Value a => Value a
  | Failure s => error ("line " +:+ to_decimal number +:+ ": " +:+ status_detail s)
  end.

(** The directive loop: what the lines build, and the number of the last line. *)
Fixpoint directives (fuel : nat) (position : Position) (st : ParseState) : Result (ParseState * Z) :=
  match fuel with
  | O => Value (st, ps_line_number position)
  | S fuel' =>
      match next_line (S (String.length (ps_rest position))) position with
      | (None, position') => Value (st, ps_line_number position')
      | (Some l, position') =>
          let? st' := at_line (ln_number l) (directive l st) in
          directives fuel' position' st'
      end
  end.

(** The fabric epoch and the policy's are one. *)
Definition settle_epoch (s : Scenario) : Scenario :=
  if sc_has_policy s then
    let epoch := if valid (sc_epoch s) then sc_epoch s else pol_epoch (sc_policy s) in
    s {{ sc_epoch := epoch; sc_policy -> pol_epoch := epoch }}
  else s.

Definition validate_scenario (s : Scenario) : Result unit :=
  let? _ :=
    if sc_has_policy s then
      match validate_policy (sc_policy s) with
      | Value _ => Value tt
      | Failure f => error ("policy is not valid: " +:+ StatusCode.to_string (status_code f) +:+ " " +:+ status_detail f)
      end
    else Value tt in
  for_each (λ snapshot,
    match validate_evidence snapshot with
    | Value _ => Value tt
    | Failure f => error ("evidence is not valid: " +:+ status_to_string f)
    end) (sc_evidence s).

(** What follows the directive loop. *)
Definition finish (text : string) (final : ParseState * Z) : Result Scenario :=
  let '(st, number) := final in
  let? _ := at_line number
    (refuse (negb (pa_saw_version st)) with "the document must begin with: version 1" ;;
     refuse (negb (pa_saw_body st)) with "the document declares no policy, evidence, or request" ;;
     Value tt) in
  let scenario := settle_epoch (pa_scenario st) in
  let? _ := at_line 0 (validate_scenario scenario) in
  Value (scenario {{ sc_source_digest := checksum64 (string_bytes text) }}).

Definition parse_scenario (text : string) : Result Scenario :=
  let? final := directives (S (String.length text)) (mk_position text 0) parse_start in
  finish text final.
