(* ===== verification/ScenarioText.v ===== *)
(** Numbers, tokens and lines of the scenario format: what the scanners accept,
    what they return, and that they read back what is printed. *)
From Stdlib Require Import Ascii.
From S2P Require Import Prelude Status Core Explain ExplainSpec Policy Scenario.
#[local] Open Scope string_scope.
#[local] Open Scope list_scope.
#[local] Open Scope Z_scope.

(** ** Characters of a string *)

Fixpoint all_chars (P : ascii → bool) (s : string) : bool :=
  match s with EmptyString => true | String c s' => P c && all_chars P s' end.

Lemma all_chars_app P s t : all_chars P (s +:+ t) = all_chars P s && all_chars P t.
Proof.
  induction s as [|c s IH]; [done|]. change (P c && all_chars P (s +:+ t) = P c && all_chars P s && all_chars P t).
  by rewrite IH, andb_assoc.
Qed.

Lemma all_chars_impl (P Q : ascii → bool) s : (∀ c, P c = true → Q c = true) → all_chars P s = true → all_chars Q s = true.
Proof. intros H. induction s as [|c s IH]; [done|]. cbn. rewrite !andb_true_iff. intros [??]. auto. Qed.

(** ** Numbers *)

Definition is_digit (c : ascii) : bool := (48 <=? char_code c) && (char_code c <=? 57).

Lemma char_code_range c : 0 <= char_code c < 256.
Proof. unfold char_code. pose proof (N_ascii_bounded c). lia. Qed.

Lemma char_code_digit d : 0 <= d < 10 → char_code (digit_char d) = 48 + d.
Proof. intros H. unfold char_code, digit_char. rewrite N_ascii_embedding; lia. Qed.

Lemma parse_digits_range text : ∀ value v, u64 value → parse_digits value text = Some v → u64 v.
Proof.
  induction text as [|c text IH]; intros value v Hv; cbn [parse_digits]; [by intros [= <-]|].
  destruct (_ || _) eqn:Hd; [done|]. apply orb_false_iff in Hd as [H1 H2].
  pose proof (char_code_range c). apply Z.ltb_ge in H1.
  assert (u64 (sub64 (char_code c) 48)) by (unfold sub64; apply wrap64_range).
  rewrite checked_mul_spec by ulia. destruct (decide _) as [Hm|]; [|done].
  rewrite checked_add_spec by done. destruct (decide _) as [Ha|]; [|done]. by apply IH.
Qed.

Lemma parse_u64_range text v : parse_u64 text = Some v → u64 v.
Proof. unfold parse_u64. destruct (_ || _); [done|]. apply parse_digits_range. ulia. Qed.

Lemma parse_u32_range text v : parse_u32 text = Some v → u32 v.
Proof.
  unfold parse_u32. destruct (parse_u64 text) as [w|] eqn:E; [|done]. apply parse_u64_range in E.
  destruct (_ >? _) eqn:Hg; [done|]. intros [= <-]. apply gtb_false_le in Hg. ulia.
Qed.

Lemma parse_i64_range text v : parse_i64 text = Some v → i64 v.
Proof.
  unfold parse_i64. destruct text as [|c text]; [done|].
  assert (∀ t w, match parse_u64 t with None => None | Some value => if value >? I64_MAX then None else Some value end = Some w → i64 w) as Hp.
  { intros t w. destruct (parse_u64 t) as [u|] eqn:E; [|done]. apply parse_u64_range in E.
    destruct (_ >? _) eqn:Hg; [done|]. intros [= <-]. apply gtb_false_le in Hg. ulia. }
  assert (∀ t w, match parse_u64 t with None => None | Some m =>
    if m >? add64 I64_MAX 1 then None else if m =? add64 I64_MAX 1 then Some I64_MIN else Some (- m) end = Some w → i64 w) as Hn.
  { intros t w. destruct (parse_u64 t) as [u|] eqn:E; [|done]. apply parse_u64_range in E.
    change (add64 I64_MAX 1) with 9223372036854775808. destruct (_ >? _) eqn:Hg; [done|]. apply gtb_false_le in Hg.
    destruct (_ =? _) eqn:He; intros [= <-]; [ulia|]. ulia. }
  destruct c as [[] [] [] [] [] [] [] []]; eauto.
Qed.

Lemma parse_i32_range text v : parse_i32 text = Some v → i32 v.
Proof.
  unfold parse_i32. destruct (parse_i64 text) as [w|] eqn:E; [|done]. destruct (_ || _) eqn:Hg; [done|].
  intros [= <-]. apply orb_false_iff in Hg as [H1 H2]. apply gtb_false_le in H1. apply Z.ltb_ge in H2. ulia.
Qed.

Lemma parse_id_pair_range text r : parse_id_pair text = Some r → ref_typed (as_ref r).
Proof.
  unfold parse_id_pair. destruct (split_at _ _) as [[a b]|]; [|done].
  destruct (parse_u64 a) as [i|] eqn:Ha; [|done]. destruct (parse_u64 b) as [g|] eqn:Hb; [|done].
  intros [= <-]. split; by eapply parse_u64_range.
Qed.

(** ** What is printed is read back *)

Lemma parse_digit value d rest :
  u64 value → 0 <= d < 10 → u64 (value * 10 + d) →
  parse_digits value (String (digit_char d) rest) = parse_digits (value * 10 + d) rest.
Proof.
  intros Hv Hd Hs. cbn [parse_digits]. rewrite char_code_digit by done.
  replace (48 + d <? 48) with false by (symmetry; apply Z.ltb_ge; lia).
  replace (48 + d >? 57) with false by (symmetry; apply gtb_false_le; lia). cbn [orb].
  rewrite sub64_small by ulia. replace (48 + d - 48) with d by lia.
  rewrite checked_mul_spec by ulia. rewrite decide_True by ulia.
  rewrite checked_add_spec by ulia. by rewrite decide_True.
Qed.

Lemma parse_to_decimal_loop fuel : ∀ v buffer,
  u64 v → v < 10 ^ Z.of_nat fuel → parse_digits 0 (to_decimal_loop fuel v buffer) = parse_digits v buffer.
Proof.
  induction fuel as [|fuel IH]; intros v buffer Hv Hb.
  { change (10 ^ Z.of_nat 0) with 1 in Hb. by replace v with 0 by ulia. }
  rewrite Nat2Z.inj_succ, Z.pow_succ_r in Hb by lia. cbn [to_decimal_loop].
  destruct (Z.eqb_spec v 0) as [->|Hne]; [done|].
  pose proof (Z.div_mod v 10 ltac:(lia)). pose proof (Z.mod_pos_bound v 10 ltac:(lia)).
  assert (0 <= v / 10 <= v) by (split; [apply Z.div_pos|apply Z.div_le_upper_bound]; ulia).
  rewrite IH; [|ulia|apply Z.div_lt_upper_bound; lia].
  rewrite parse_digit; [f_equal; lia|ulia|lia|]. replace (v / 10 * 10 + v mod 10) with v by lia. done.
Qed.

Lemma to_decimal_loop_length fuel : ∀ k v buffer,
  v < 10 ^ Z.of_nat k → 0 <= v →
  (String.length buffer <= String.length (to_decimal_loop fuel v buffer) <= k + String.length buffer)%nat.
Proof.
  induction fuel as [|fuel IH]; intros k v buffer Hb Hv; cbn [to_decimal_loop]; [lia|].
  destruct (Z.eqb_spec v 0) as [->|Hne]; [lia|]. destruct k as [|k]; [change (10 ^ Z.of_nat 0) with 1 in Hb; lia|].
  rewrite Nat2Z.inj_succ, Z.pow_succ_r in Hb by lia.
  destruct (IH k (v / 10) (String (digit_char (v mod 10)) buffer)) as [H1 H2]; [|by apply Z.div_pos|].
  { apply Z.div_lt_upper_bound; lia. }
  cbn [String.length] in *. lia.
Qed.

Lemma to_decimal_loop_digits fuel : ∀ v buffer,
  0 <= v → all_chars is_digit buffer = true → all_chars is_digit (to_decimal_loop fuel v buffer) = true.
Proof.
  induction fuel as [|fuel IH]; intros v buffer Hv Hb; cbn [to_decimal_loop]; [done|].
  destruct (v =? 0); [done|]. apply IH; [by apply Z.div_pos|]. cbn [all_chars]. rewrite Hb, andb_true_r.
  pose proof (Z.mod_pos_bound v 10 ltac:(lia)). unfold is_digit. rewrite char_code_digit by done.
  apply andb_true_iff. split; apply Z.leb_le; lia.
Qed.

Lemma to_decimal_digits v : 0 <= v → all_chars is_digit (to_decimal v) = true.
Proof. intros H. unfold to_decimal. destruct (v =? 0); [done|]. by apply to_decimal_loop_digits. Qed.

Lemma to_decimal_step v :
  v ≠ 0 → to_decimal v = to_decimal_loop 20 (v / 10) (String (digit_char (v mod 10)) "").
Proof. intros H. apply Z.eqb_neq in H. unfold to_decimal. rewrite H. change 21%nat with (S 20). cbn [to_decimal_loop]. by rewrite H. Qed.

Lemma to_decimal_size v : u64 v → 0 < str_size (to_decimal v) <= 20.
Proof.
  intros H. destruct (Z.eqb_spec v 0) as [->|Hne]; [vm_compute; done|]. rewrite to_decimal_step by done.
  destruct (to_decimal_loop_length 20 19 (v / 10) (String (digit_char (v mod 10)) "")) as [H1 H2].
  { change (10 ^ Z.of_nat 19) with 10000000000000000000. apply Z.div_lt_upper_bound; ulia. }
  { apply Z.div_pos; ulia. }
  unfold str_size. cbn [String.length] in H1, H2. lia.
Qed.

Lemma parse_u64_decimal v : u64 v → parse_u64 (to_decimal v) = Some v.
Proof.
  intros H. pose proof (to_decimal_size v H). unfold parse_u64.
  replace (str_size (to_decimal v) =? 0) with false by (symmetry; apply Z.eqb_neq; lia).
  replace (str_size (to_decimal v) >? 20) with false by (symmetry; apply gtb_false_le; lia). cbn [orb].
  unfold to_decimal. destruct (Z.eqb_spec v 0) as [->|Hne]; [done|].
  rewrite parse_to_decimal_loop; [done..|]. change (10 ^ Z.of_nat 21) with 1000000000000000000000. ulia.
Qed.

Lemma parse_u32_decimal v : u32 v → parse_u32 (to_decimal v) = Some v.
Proof.
  intros H. unfold parse_u32. rewrite parse_u64_decimal by ulia.
  by replace (v >? U32_MAX) with false by (symmetry; apply gtb_false_le; ulia).
Qed.

Definition flag_text (b : bool) : string := if b then "1" else "0".

Lemma parse_flag_text b : parse_flag (flag_text b) = Some b.
Proof. by destruct b. Qed.

Definition signed_text (z : Z) : string := (if z <? 0 then "-" else "") +:+ to_decimal (Z.abs z).

Lemma digit_not_minus c : is_digit c = true → c ≠ "-"%char.
Proof. by intros H ->. Qed.

Lemma parse_i64_signed z : i64 z → parse_i64 (signed_text z) = Some z.
Proof.
  intros H. unfold signed_text. assert (u64 (Z.abs z)) as Hu by ulia. pose proof (to_decimal_size _ Hu) as Hs.
  pose proof (parse_u64_decimal _ Hu) as Hp. pose proof (to_decimal_digits (Z.abs z) ltac:(lia)) as Hd.
  destruct (Z.ltb_spec z 0).
  - change (("-" : string) +:+ to_decimal (Z.abs z)) with (String "-"%char (to_decimal (Z.abs z))).
    unfold parse_i64. rewrite Hp. change (add64 I64_MAX 1) with 9223372036854775808.
    replace (Z.abs z >? 9223372036854775808) with false by (symmetry; apply gtb_false_le; ulia).
    destruct (Z.eqb_spec (Z.abs z) 9223372036854775808) as [He|]; f_equal; ulia.
  - change ((("" : string)) +:+ to_decimal (Z.abs z)) with (to_decimal (Z.abs z)).
    destruct (to_decimal (Z.abs z)) as [|c t] eqn:E; [by destruct Hs|]. unfold parse_i64.
    cbn [all_chars] in Hd. apply andb_true_iff in Hd as [Hd _].
    assert (match parse_u64 (String c t) with None => None | Some value => if value >? I64_MAX then None else Some value end
      = Some z) as Hr.
    { rewrite Hp. replace (Z.abs z >? I64_MAX) with false by (symmetry; apply gtb_false_le; ulia). f_equal. lia. }
    pose proof (digit_not_minus c Hd). destruct c as [[] [] [] [] [] [] [] []]; done.
Qed.

Lemma parse_i32_signed z : i32 z → parse_i32 (signed_text z) = Some z.
Proof.
  intros H. unfold parse_i32. rewrite parse_i64_signed by ulia.
  replace (z >? I32_MAX) with false by (symmetry; apply gtb_false_le; ulia).
  by replace (z <? I32_MIN) with false by (symmetry; apply Z.ltb_ge; ulia).
Qed.

(** ** Splitting at a character *)

Lemma split_at_app c s t : all_chars (λ a, negb (Ascii.eqb a c)) s = true → split_at c (s +:+ String c t) = Some (s, t).
Proof.
  induction s as [|a s IH].
  - intros _. change (split_at c (String c t) = Some (EmptyString, t)). cbn [split_at]. by rewrite Ascii.eqb_refl.
  - cbn [all_chars]. intros [Ha Hs]%andb_true_iff. apply negb_true_iff in Ha.
    change ((String a s) +:+ String c t) with (String a (s +:+ String c t)). cbn [split_at]. by rewrite Ha, (IH Hs).
Qed.

Lemma split_at_none c s : all_chars (λ a, negb (Ascii.eqb a c)) s = true → split_at c s = None.
Proof.
  induction s as [|a s IH]; [done|]. cbn [all_chars split_at]. intros [Ha Hs]%andb_true_iff.
  apply negb_true_iff in Ha. by rewrite Ha, (IH Hs).
Qed.

Definition pair_text (r : ClassRef) : string := to_decimal (ref_id r) +:+ String ":"%char (to_decimal (ref_generation r)).

Lemma digit_not_colon s : all_chars is_digit s = true → all_chars (λ a, negb (Ascii.eqb a ":")) s = true.
Proof. apply all_chars_impl. intros c H. destruct (Ascii.eqb_spec c ":"%char) as [->|]; done. Qed.

Lemma parse_id_pair_text r : ref_typed r → parse_id_pair (pair_text r) = Some (ref_id r, ref_generation r).
Proof.
  intros [Hi Hg]. unfold parse_id_pair, pair_text.
  rewrite split_at_app by (apply digit_not_colon, to_decimal_digits; ulia). by rewrite !parse_u64_decimal.
Qed.
