(* ===== verification/ScenarioLines.v ===== *)
(** The lines of a scenario document: the directive loop is a fold of the
    directives over the lines that hold something, and a printed line is
    scanned back into its tokens and its label. *)
From Stdlib Require Import Ascii.
From S2P Require Import Prelude Status Core Explain ExplainSpec Policy Scenario ScenarioText.
#[local] Open Scope string_scope.
#[local] Open Scope list_scope.
#[local] Open Scope Z_scope.

(** ** The document as a list of lines *)

(** The raw lines: every line feed ends one, and so does the end of a text that
    does not end with a line feed. *)
Fixpoint raw_lines (text : string) : list string :=
  match text with
  | EmptyString => []
  | String c rest =>
      if Ascii.eqb c line_feed then "" :: raw_lines rest
      else match raw_lines rest with
           | [] => [String c ""]
           | l :: ls => String c l :: ls
           end
  end.

(** The lines that hold something, each with its number. *)
Fixpoint document (number : Z) (raws : list string) : list Line :=
  match raws with
  | [] => []
  | raw :: raws =>
      let l := scan_line (add64 number 1) raw in
      if line_is_empty l then document (add64 number 1) raws else l :: document (add64 number 1) raws
  end.

(** The number of the last line. *)
Definition last_number (number : Z) (raws : list string) : Z := foldl (λ n _, add64 n 1) number raws.

Lemma split_at_lines text :
  match split_at line_feed text with
  | None => text = "" ∨ raw_lines text = [text]
  | Some (raw, rest) => raw_lines text = raw :: raw_lines rest ∧ (String.length rest < String.length text)%nat
  end.
Proof.
  induction text as [|c text IH]; [by left|]. cbn [split_at raw_lines]. destruct (Ascii.eqb c line_feed).
  { split; [done|]. cbn [String.length]. lia. }
  destruct (split_at line_feed text) as [[raw rest]|].
  - destruct IH as [-> IH]. split; [done|]. cbn [String.length]. lia.
  - right. by destruct IH as [->| ->].
Qed.

Lemma raw_line_lines text n :
  match raw_line (mk_position text n) with
  | None => raw_lines text = [] ∧ text = ""
  | Some (raw, p) =>
      raw_lines text = raw :: raw_lines (ps_rest p) ∧ ps_line_number p = add64 n 1
      ∧ (String.length (ps_rest p) < String.length text)%nat
  end.
Proof.
  unfold raw_line. cbn [ps_rest ps_line_number]. destruct text as [|c text]; [done|].
  pose proof (split_at_lines (String c text)) as H. destruct (split_at line_feed (String c text)) as [[raw rest]|].
  - destruct H. by split_and!.
  - destruct H as [H|H]; [done|]. split_and!; [done..|]. cbn [ps_rest String.length]. lia.
Qed.

(** [next_line] finds the first line that holds something. *)
Lemma next_line_document fuel : ∀ text n,
  (String.length text < fuel)%nat →
  match next_line fuel (mk_position text n) with
  | (None, p) => document n (raw_lines text) = [] ∧ ps_line_number p = last_number n (raw_lines text)
  | (Some l, p) =>
      document n (raw_lines text) = l :: document (ps_line_number p) (raw_lines (ps_rest p))
      ∧ last_number n (raw_lines text) = last_number (ps_line_number p) (raw_lines (ps_rest p))
      ∧ (String.length (ps_rest p) < String.length text)%nat
  end.
Proof.
  induction fuel as [|fuel IH]; intros text n Hf; [lia|]. cbn [next_line].
  pose proof (raw_line_lines text n) as H. destruct (raw_line (mk_position text n)) as [[raw p]|].
  - destruct H as (Hl & Hn & Hlen). destruct p as [rest number]. cbn [ps_rest ps_line_number] in *. subst number.
    rewrite Hl. cbn [document]. unfold last_number. cbn [foldl]. destruct (line_is_empty _) eqn:He.
    + specialize (IH rest (add64 n 1) ltac:(lia)). destruct (next_line fuel _) as [[l|] p']; [|done].
      destruct IH as (H1 & H2 & H3). split_and!; [done..|lia].
    + cbn [ps_rest ps_line_number]. by split_and!.
  - by destruct H as [-> ->].
Qed.

(** One directive with its error placed. *)
Definition placed (st : ParseState) (l : Line) : Result ParseState := at_line (ln_number l) (directive l st).

Lemma directives_fold fuel : ∀ text n st,
  (String.length text < fuel)%nat →
  directives fuel (mk_position text n) st =
    (let? st' := fold_result placed st (document n (raw_lines text)) in
     Value (st', last_number n (raw_lines text))).
Proof.
  induction fuel as [|fuel IH]; intros text n st Hf; [lia|]. cbn [directives ps_rest].
  pose proof (next_line_document (S (String.length text)) text n ltac:(lia)) as H.
  destruct (next_line _ _) as [[l|] p].
  - destruct H as (-> & -> & Hlen). cbn [fold_result]. unfold placed at 1.
    destruct (at_line (ln_number l) (directive l st)) as [st'|]; [|done]. cbn [result_bind].
    destruct p as [rest number]. cbn [ps_rest ps_line_number] in *. rewrite IH by lia. done.
  - destruct H as [-> ->]. done.
Qed.

(** The parser is a fold over the document. *)
Lemma parse_scenario_fold text :
  parse_scenario text =
    (let? st := fold_result placed parse_start (document 0 (raw_lines text)) in
     finish text (st, last_number 0 (raw_lines text))).
Proof.
  unfold parse_scenario. rewrite directives_fold by lia.
  by destruct (fold_result placed parse_start (document 0 (raw_lines text))).
Qed.

(** ** Line numbers *)

Lemma last_number_exact raws : ∀ n, 0 <= n → n + sizeZ raws <= U64_MAX → last_number n raws = n + sizeZ raws.
Proof.
  induction raws as [|raw raws IH]; intros n Hn Hs; unfold last_number, sizeZ in *; cbn [foldl length] in *; [lia|].
  rewrite add64_small by ulia. rewrite IH by lia. lia.
Qed.

(** A line of the document is a raw line, and carries its 1-based position. *)
Lemma document_line raws : ∀ n l, 0 <= n → n + sizeZ raws <= U64_MAX → l ∈ document n raws →
  ∃ i raw, raws !! i = Some raw ∧ l = scan_line (n + Z.of_nat i + 1) raw.
Proof.
  induction raws as [|raw raws IH]; intros n l Hn Hs Hl; cbn [document] in Hl; [by apply elem_of_nil in Hl|].
  unfold sizeZ in Hs. cbn [length] in Hs. rewrite add64_small in Hl by ulia.
  assert (l = scan_line (n + 1) raw ∨ l ∈ document (n + 1) raws) as [->|H].
  { destruct (line_is_empty _); [by right|]. by apply elem_of_cons in Hl. }
  - exists 0%nat, raw. split; [done|]. f_equal. lia.
  - destruct (IH (n + 1) l) as (i & r & Hi & ->); [lia|unfold sizeZ; lia|done|]. exists (S i), r. split; [done|]. f_equal. lia.
Qed.

Lemma scan_line_number n raw : ln_number (scan_line n raw) = n.
Proof. unfold scan_line. by destruct (scan_tokens _ _ _) as [tokens [label|]]. Qed.

Lemma raw_lines_size text : sizeZ (raw_lines text) <= str_size text.
Proof.
  unfold sizeZ, str_size. induction text as [|c text IH]; [done|]. cbn [raw_lines String.length].
  destruct (Ascii.eqb c line_feed); [cbn [length]; lia|]. destruct (raw_lines text); cbn [length] in *; lia.
Qed.

(** ** Printed lines *)

Definition plain_char (c : ascii) : bool :=
  negb (is_blank c) && negb (Ascii.eqb c line_feed) && negb (Ascii.eqb c carriage_return).

Definition plain (s : string) : bool := all_chars plain_char s.

(** A token that stands for itself: not a comment, not a label. *)
Definition word (s : string) : bool :=
  plain s && match s with EmptyString => false | String c _ => negb (Ascii.eqb c "#") end
  && negb (String.prefix label_prefix s).

(** A label that survives the trimming of its line. *)
Record label_ok (s : string) : Prop := {
  lo_one_line : all_chars (λ c, negb (Ascii.eqb c line_feed)) s = true;
  lo_trimmed : drop_trailing_blanks (skip_blanks s) = s;
  lo_no_cr : drop_final_cr s = s }.

Definition print_tokens (tokens : list string) : string := foldr (λ t r, t +:+ String " "%char r) "" tokens.

(** The tokens and the label of a line; the empty label is not printed. *)
Definition Entry : Type := list string * string.

Definition entry_ok (e : Entry) : Prop := e.1 ≠ [] ∧ Forall (λ t, word t = true) e.1 ∧ label_ok e.2.

Definition print_label (label : string) : string :=
  match label with EmptyString => "" | _ => label_prefix +:+ String " "%char label end.

Definition print_line (e : Entry) : string := print_tokens e.1 +:+ print_label e.2.

Definition entry_line (number : Z) (e : Entry) : Line :=
  mk_line number e.1 e.2 (match e.2 with EmptyString => false | _ => true end).

Lemma word_plain s : word s = true → plain s = true.
Proof. unfold word. rewrite !andb_true_iff. naive_solver. Qed.

Lemma plain_char_spec c : plain_char c = true →
  is_blank c = false ∧ Ascii.eqb c line_feed = false ∧ Ascii.eqb c carriage_return = false.
Proof. unfold plain_char. rewrite !andb_true_iff, !negb_true_iff. naive_solver. Qed.

Lemma take_plain t r : plain t = true → take_token (t +:+ String " "%char r) = (t, String " "%char r).
Proof.
  induction t as [|c t IH]; [done|]. unfold plain. cbn [all_chars]. intros [Hc Ht]%andb_true_iff.
  change ((String c t) +:+ String " "%char r) with (String c (t +:+ String " "%char r)). cbn [take_token].
  destruct (plain_char_spec c Hc) as (-> & _). by rewrite (IH Ht).
Qed.

Lemma scan_step fuel c rest raw acc :
  skip_blanks raw = String c rest → c ≠ "#"%char →
  scan_tokens (S fuel) raw acc =
    (let '(token, rest) := take_token (String c rest) in
     if String.prefix label_prefix token then (acc, Some (label_value token rest))
     else scan_tokens fuel rest (acc ++ [token])).
Proof. intros H Hc. cbn [scan_tokens]. rewrite H. destruct c as [[] [] [] [] [] [] [] []]; done. Qed.

Lemma scan_blank fuel raw acc : scan_tokens fuel (String " "%char raw) acc = scan_tokens fuel raw acc.
Proof. by destruct fuel. Qed.

Lemma scan_word fuel t r acc :
  word t = true → scan_tokens (S fuel) (t +:+ String " "%char r) acc = scan_tokens fuel r (acc ++ [t]).
Proof.
  intros Hw. pose proof (word_plain t Hw) as Hp. unfold word in Hw. rewrite !andb_true_iff in Hw.
  destruct Hw as [[_ Hh] Hl]. destruct t as [|c t]; [done|]. apply negb_true_iff in Hl.
  change ((String c t) +:+ String " "%char r) with (String c (t +:+ String " "%char r)).
  pose proof (take_plain (String c t) r Hp) as Ht.
  change ((String c t) +:+ String " "%char r) with (String c (t +:+ String " "%char r)) in Ht.
  rewrite (scan_step fuel c (t +:+ String " "%char r)).
  - rewrite Ht, Hl. apply scan_blank.
  - cbn [skip_blanks]. unfold plain in Hp. cbn [all_chars] in Hp. apply andb_true_iff in Hp as [Hc _].
    by destruct (plain_char_spec c Hc) as (-> & _).
  - intros ->. done.
Qed.

Lemma scan_words tokens : ∀ fuel rest acc,
  Forall (λ t, word t = true) tokens →
  scan_tokens (length tokens + fuel) (print_tokens tokens +:+ rest) acc = scan_tokens fuel rest (acc ++ tokens).
Proof.
  induction tokens as [|t tokens IH]; intros fuel rest acc H.
  { rewrite app_nil_r. done. }
  apply Forall_cons in H as [Ht H]. cbn [length Nat.add].
  change (print_tokens (t :: tokens) +:+ rest) with ((t +:+ String " "%char (print_tokens tokens)) +:+ rest).
  rewrite string_app_assoc. change ((String " "%char (print_tokens tokens)) +:+ rest) with (String " "%char (print_tokens tokens +:+ rest)).
  rewrite scan_word by done. rewrite IH by done. by rewrite <-app_assoc.
Qed.

Lemma scan_label fuel label acc :
  label_ok label →
  scan_tokens (S fuel) (print_label label) acc = (acc, match label with EmptyString => None | _ => Some label end).
Proof.
  intros [_ Ht _]. destruct label as [|c label]; [done|]. unfold print_label.
  rewrite (scan_step fuel "l" ("abel= " +:+ String c label)) by done.
  change (take_token (String "l" ("abel= " +:+ String c label))) with ("label=", String " "%char (String c label)).
  change (String.prefix label_prefix "label=") with true. do 2 f_equal. unfold label_value.
  change (String.substring 6 (String.length "label=" - 6) "label=") with "". change (str_size "" =? 0) with true.
  change (skip_blanks (String " "%char (String c label))) with (skip_blanks (String c label)). exact Ht.
Qed.

Lemma drop_final_cr_none s : all_chars (λ c, negb (Ascii.eqb c carriage_return)) s = true → drop_final_cr s = s.
Proof.
  induction s as [|c s IH]; [done|]. cbn [all_chars]. intros [Hc Hs]%andb_true_iff. apply negb_true_iff in Hc.
  destruct s as [|a s]; [cbn [drop_final_cr]; by rewrite Hc|].
  change (String c (drop_final_cr (String a s)) = String c (String a s)). by rewrite (IH Hs).
Qed.

Lemma drop_final_cr_app s t : t ≠ "" → drop_final_cr (s +:+ t) = s +:+ drop_final_cr t.
Proof.
  intros Ht. induction s as [|c s IH]; [done|].
  change (drop_final_cr (String c (s +:+ t)) = String c (s +:+ drop_final_cr t)). rewrite <-IH.
  destruct (s +:+ t) as [|a u] eqn:E; [|done]. destruct s; [|done]. by destruct Ht.
Qed.

Lemma tokens_chars (P : ascii → bool) tokens :
  (∀ c, plain_char c = true → P c = true) → P " "%char = true →
  Forall (λ t, word t = true) tokens → all_chars P (print_tokens tokens) = true.
Proof.
  intros HP Hb H. induction H as [|t tokens Ht _ IH]; [done|].
  change (all_chars P (t +:+ String " "%char (print_tokens tokens)) = true). rewrite all_chars_app.
  apply andb_true_iff. split; [by eapply all_chars_impl, word_plain|]. cbn [all_chars]. by rewrite Hb, IH.
Qed.

Lemma line_one_line e : entry_ok e → all_chars (λ c, negb (Ascii.eqb c line_feed)) (print_line e) = true.
Proof.
  intros (_ & Ht & Hl). unfold print_line. rewrite all_chars_app, tokens_chars; [|by intros c (_ & -> & _)%plain_char_spec|done..].
  cbn [andb]. destruct (e.2) as [|c label] eqn:E; [done|]. exact (lo_one_line _ Hl).
Qed.

Lemma line_no_cr e : entry_ok e → drop_final_cr (print_line e) = print_line e.
Proof.
  intros (_ & Ht & Hl). unfold print_line. destruct (e.2) as [|c label] eqn:E.
  - apply drop_final_cr_none. rewrite all_chars_app, tokens_chars; [done|by intros a (_ & _ & ->)%plain_char_spec|done..].
  - change (print_label (String c label)) with (("label= " : string) +:+ String c label). rewrite <-string_app_assoc.
    rewrite drop_final_cr_app by done. by rewrite (lo_no_cr _ Hl).
Qed.

Lemma tokens_length tokens s : Forall (λ t, word t = true) tokens → (length tokens <= String.length (print_tokens tokens +:+ s))%nat.
Proof.
  intros H. rewrite length_string_app. induction H as [|t tokens Ht _ IH]; cbn [length]; [lia|].
  change (print_tokens (t :: tokens)) with (t +:+ String " "%char (print_tokens tokens)).
  rewrite length_string_app. cbn [String.length]. lia.
Qed.

(** A printed line is scanned back. *)
Lemma scan_printed_line number e : entry_ok e → scan_line number (print_line e) = entry_line number e.
Proof.
  intros He. unfold scan_line. rewrite line_no_cr by done. destruct He as (_ & Ht & Hl). unfold print_line, entry_line.
  pose proof (tokens_length e.1 (print_label e.2) Ht) as Hlen.
  replace (S (String.length (print_tokens e.1 +:+ print_label e.2)))
    with (length e.1 + S (String.length (print_tokens e.1 +:+ print_label e.2) - length e.1))%nat by lia.
  rewrite scan_words, scan_label by done. rewrite app_nil_l. by destruct (e.2).
Qed.

(** ** Printed documents *)

Lemma raw_lines_line s t :
  all_chars (λ c, negb (Ascii.eqb c line_feed)) s = true → raw_lines ((s +:+ newline) +:+ t) = s :: raw_lines t.
Proof.
  induction s as [|c s IH]; [done|]. cbn [all_chars]. intros [Hc Hs]%andb_true_iff. apply negb_true_iff in Hc.
  change ((String c s +:+ newline) +:+ t) with (String c ((s +:+ newline) +:+ t)). cbn [raw_lines]. by rewrite Hc, (IH Hs).
Qed.

Lemma raw_lines_printed entries : Forall entry_ok entries → raw_lines (text_of (print_line <$> entries)) = print_line <$> entries.
Proof.
  induction 1 as [|e entries He _ IH]; [done|]. rewrite fmap_cons.
  change (text_of (print_line e :: (print_line <$> entries))) with ((print_line e +:+ newline) +:+ text_of (print_line <$> entries)).
  rewrite raw_lines_line by by apply line_one_line. by rewrite IH.
Qed.

(** What the entries build, whatever their line numbers. *)
Definition entry_step (st : ParseState) (e : Entry) : Result ParseState := directive (entry_line 0 e) st.

Lemma directive_number number e st : directive (entry_line number e) st = entry_step st e.
Proof. done. Qed.

Lemma fold_printed entries : ∀ n st st',
  Forall entry_ok entries → fold_result entry_step st entries = Value st' →
  fold_result placed st (document n (print_line <$> entries)) = Value st'.
Proof.
  induction entries as [|e entries IH]; intros n st st' He Hr; [done|].
  apply Forall_cons in He as [He Hes]. cbn [fold_result] in Hr. apply result_bind_value in Hr as (st1 & H1 & Hr).
  rewrite fmap_cons. cbn [document]. rewrite scan_printed_line by done.
  assert (line_is_empty (entry_line (add64 n 1) e) = false) as ->.
  { unfold line_is_empty, entry_line. cbn [ln_tokens]. destruct e as [[|t ts] l]; [by destruct He|done]. }
  cbn [fold_result]. unfold placed at 1. rewrite directive_number, H1. by apply IH.
Qed.

(** Printing, then parsing. *)
Lemma parse_printed entries st :
  Forall entry_ok entries → fold_result entry_step parse_start entries = Value st →
  ∃ n, parse_scenario (text_of (print_line <$> entries)) = finish (text_of (print_line <$> entries)) (st, n).
Proof.
  intros He Hr. eexists. rewrite parse_scenario_fold, raw_lines_printed by done. by erewrite fold_printed.
Qed.
