(* ===== verification/ScenarioTyped.v ===== *)
(** Every value a scenario document puts in a field is in the range of that
    field, and what the parser accepts is valid. *)
From Stdlib Require Import Ascii.
From S2P Require Import Prelude Status Core Bytes Policy PolicyValid Accounting Evidence Engine Scenario ScenarioText ScenarioLines.
From coqutil Require Import Datatypes.RecordSetters.
Import DoubleBraceUpdate.
#[local] Open Scope string_scope.
#[local] Open Scope list_scope.
#[local] Open Scope Z_scope.

Record request_typed (r : EvaluationRequest) : Prop := {
  rt_policy : u64 (rq_policy_id r) ∧ u64 (rq_policy_generation r);
  rt_epoch : u64 (rq_epoch r);
  rt_evidence : u64 (rq_evidence_id r) ∧ u64 (rq_evidence_generation r);
  rt_window : u64 (rq_window r) ∧ u64 (rq_window_generation r);
  rt_now : i64 (rq_now_ns r);
  rt_request : u64 (rq_request_id r);
  rt_attempt : u32 (rq_attempt r) }.

Record scenario_typed (s : Scenario) : Prop := {
  ct_policy : policy_typed (sc_policy s);
  ct_epoch : u64 (sc_epoch s);
  ct_evidence : Forall evidence_typed (sc_evidence s);
  ct_request : request_typed (sc_request s) }.

(** ** Attributes *)

Lemma assign_changed {V A} (parsed : option V) (store : V → A) a :
  assign parsed store = Changed a → ∃ v, parsed = Some v ∧ a = store v.
Proof. destruct parsed as [v|]; [|done]. intros [= <-]. by exists v. Qed.

(** A property every attribute preserves holds of what the loop builds. *)
Lemma attributes_inv {A} kind unique (setting : string → string → A → Setting A) (P : A → Prop) tokens a a' :
  (∀ key value b b', P b → setting key value b = Changed b' → P b') →
  P a → attributes kind unique setting tokens a = Value a' → P a'.
Proof.
  intros Hs Ha H. unfold attributes in H. apply result_bind_value in H as ([seen b] & Hr & [= <-]).
  cbn [snd]. revert Hr. apply (fold_result_inv _ (λ _ s, P s.2)); [done|].
  intros _ token _ [sn c] [sn' c'] _ Hc. unfold attribute. cbn [snd] in *.
  destruct (split_at _ _) as [[key value]|]; [|done]. destruct (_ && _); [done|].
  destruct (setting key value c) as [| |d] eqn:E; [done..|]. intros [= <- <-]. eauto.
Qed.

#[export] Hint Resolve parse_u64_range parse_u32_range parse_i64_range parse_i32_range parse_id_pair_range : fg_parse.

(** Goes through the branches of a chain of keys. *)
Ltac each_key :=
  repeat match goal with |- (if String.eqb ?k ?n then _ else _) = _ → _ => destruct (String.eqb k n) end;
  try discriminate.

Ltac each_field H :=
  each_key;
  (intros (? & ? & ->)%assign_changed || intros [= <-]); destruct H; constructor; cbn in *;
  unfold provenance_typed, constant in *; cbn in *; intuition eauto with fg_parse.

Lemma policy_setting_typed key value p p' : policy_typed p → policy_setting key value p = Changed p' → policy_typed p'.
Proof. intros H. unfold policy_setting. destruct p as [? ? ? ? ? ? ? ? ? ? ? ? ? ? ? ? [? ? ? ?]]. each_field H. Qed.

Lemma group_setting_typed key value g g' : group_typed g → group_setting key value g = Changed g' → group_typed g'.
Proof. intros H. unfold group_setting. destruct g. each_field H. Qed.

Lemma subject_setting_typed key value s s' : subject_typed s → subject_setting key value s = Changed s' → subject_typed s'.
Proof. intros H. unfold subject_setting. destruct s. each_field H. Qed.

Lemma evidence_setting_typed key value e e' : evidence_typed e → evidence_setting key value e = Changed e' → evidence_typed e'.
Proof. intros H. unfold evidence_setting. destruct e as [? ? ? ? ? ? ? [? ? ?] ? ? ?]. each_field H. Qed.

Lemma obs_setting_typed key value o o' : observation_typed o → obs_setting key value o = Changed o' → observation_typed o'.
Proof. intros H. unfold obs_setting. destruct o. each_field H. Qed.

Lemma request_setting_typed key value r r' : request_typed r → request_setting key value r = Changed r' → request_typed r'.
Proof.
  intros H. unfold request_setting. destruct r. each_key;
    (intros ([? ?] & Hp & ->)%assign_changed || intros (? & Hp & ->)%assign_changed); destruct H; constructor; cbn in *;
    first [exact (parse_id_pair_range _ _ Hp) | by eauto with fg_parse].
Qed.

(** ** Directives *)

Lemma parse_identity_range tokens short unread i : parse_identity tokens short unread = Value i → u64 i.1 ∧ u64 i.2.
Proof.
  unfold parse_identity. destruct tokens as [|? [|a [|b l]]]; [done..|].
  destruct (parse_u64 a) as [x|] eqn:Ha; [|done]. destruct (parse_u64 b) as [y|] eqn:Hb; [|done].
  intros [= <-]. split; by eapply parse_u64_range.
Qed.

Lemma default_typed : scenario_typed default_scenario.
Proof.
  constructor; cbn; [|ulia|done|].
  - constructor; cbn; try ulia; try done.
  - constructor; cbn; try split; ulia.
Qed.

Notation typed st := (scenario_typed (pa_scenario st)) (only parsing).

(** Takes apart a successful [refuse]. *)
Ltac inv_refuse :=
  repeat match goal with
  | |- (if ?b then error _ else _) = Value _ → _ => destruct b; [discriminate|]
  | |- result_bind _ _ = Value _ → _ =>
      let a := fresh "r" in let Ha := fresh "Hr" in let Hk := fresh "Hk" in
      intros (a & Ha & Hk)%result_bind_value; revert Hk
  end.

Lemma version_typed l st st' : typed st → version_directive l st = Value st' → typed st'.
Proof.
  intros H. unfold version_directive. destruct (ln_tokens l) as [|? [|v [|? ?]]]; [done..| |done]. inv_refuse.
  destruct (parse_u64 v) as [[|[| |]|]|]; try done. intros [= <-]. by destruct st.
Qed.

Lemma epoch_typed l st st' : typed st → epoch_directive l st = Value st' → typed st'.
Proof.
  intros H. unfold epoch_directive. destruct (ln_tokens l) as [|? [|v [|? ?]]]; [done..| |done].
  destruct (parse_u64 v) as [e|] eqn:E; [|done]. intros [= <-]. apply parse_u64_range in E.
  destruct st as [[]]; destruct H; by constructor.
Qed.

Lemma policy_typed_directive l st st' : typed st → policy_directive l st = Value st' → typed st'.
Proof.
  intros H. unfold policy_directive. inv_refuse. intros [= <-].
  assert (policy_typed r0) as Hp.
  { revert Hr0. apply attributes_inv; [apply policy_setting_typed|]. apply parse_identity_range in Hr as [Hi Hg].
    destruct (ct_policy _ H). destruct st as [[? [] ? ? ? ? ?]]. by constructor. }
  destruct st as [[]]; destruct H; by constructor.
Qed.

Lemma group_typed_directive l st st' : typed st → group_directive l st = Value st' → typed st'.
Proof.
  intros H. unfold group_directive. inv_refuse. intros [= <-].
  assert (group_typed r0) as Hg.
  { revert Hr0. apply attributes_inv; [apply group_setting_typed|]. apply parse_identity_range in Hr as [Hi Hg].
    constructor; cbn; try ulia; done. }
  destruct st as [[? [] ? ? ? ? ?]]; destruct H as [[] ? ? ?]; constructor; try done. constructor; try done.
  apply Forall_app. split; [done|]. apply Forall_singleton. destruct (ln_has_label l); [|done]. by destruct r0, Hg.
Qed.

Lemma subject_typed_directive l st st' : typed st → subject_directive l st = Value st' → typed st'.
Proof.
  intros H. unfold subject_directive. inv_refuse. intros [= <-].
  assert (subject_typed r0) as Hg.
  { revert Hr0. apply attributes_inv; [apply subject_setting_typed|]. apply parse_identity_range in Hr as [Hi Hg].
    constructor; cbn; try ulia; done. }
  destruct st as [[? [] ? ? ? ? ?]]; destruct H as [[] ? ? ?]; constructor; try done. constructor; try done.
  apply Forall_app. split; [done|]. apply Forall_singleton. destruct (ln_has_label l); [|done]. by destruct r0, Hg.
Qed.

Lemma evidence_typed_directive l st st' : typed st → evidence_directive l st = Value st' → typed st'.
Proof.
  intros H. unfold evidence_directive. inv_refuse. intros [= <-].
  assert (evidence_typed r0) as Hg.
  { revert Hr0. apply attributes_inv; [apply evidence_setting_typed|]. apply parse_identity_range in Hr as [Hi Hg].
    constructor; cbn; try ulia; done. }
  destruct st as [[]]; destruct H; constructor; try done. apply Forall_app. by rewrite Forall_singleton.
Qed.

Lemma obs_typed_directive l st st' : typed st → obs_directive l st = Value st' → typed st'.
Proof.
  intros H. unfold obs_directive. destruct (pa_in_evidence st); [|done].
  destruct (pa_current_evidence st) as [i|]; [|done]. inv_refuse. intros [= <-].
  assert (observation_typed r0) as Hg.
  { revert Hr0. apply attributes_inv; [apply obs_setting_typed|]. apply parse_identity_range in Hr as [Hi Hg].
    constructor; cbn; first [done | ulia | split; ulia]. }
  destruct st as [[]]; destruct H; constructor; try done. apply Forall_alter; [done|]. intros e _ [].
  destruct e; constructor; try done. cbn in *. apply Forall_app. by rewrite Forall_singleton.
Qed.

Lemma request_typed_directive l st st' : typed st → request_directive l st = Value st' → typed st'.
Proof.
  intros H. unfold request_directive. inv_refuse. intros [= <-].
  assert (request_typed r) as Hg.
  { revert Hr. apply attributes_inv; [apply request_setting_typed|]. constructor; cbn; try split; ulia. }
  destruct st as [[]]; destruct H; by constructor.
Qed.

Lemma directive_typed l st st' : typed st → directive l st = Value st' → typed st'.
Proof.
  intros H. unfold directive. destruct (ln_tokens l) as [|name tokens]; [done|].
  assert (typed (st {{ pa_saw_body := true }})) as Hb by by destruct st.
  destruct (String.eqb _ _); [by apply version_typed|]. destruct (negb _); [done|].
  destruct (String.eqb _ _); [by apply epoch_typed|]. destruct (String.eqb _ _); [by apply policy_typed_directive|].
  destruct (String.eqb _ _); [by apply group_typed_directive|]. destruct (String.eqb _ _); [by apply subject_typed_directive|].
  destruct (String.eqb _ _); [by apply evidence_typed_directive|]. destruct (String.eqb _ _); [by apply obs_typed_directive|].
  destruct (String.eqb _ _); [by apply request_typed_directive|done].
Qed.

(** ** The whole document *)

Lemma placed_value st l st' : placed st l = Value st' → directive l st = Value st'.
Proof. unfold placed, at_line. by destruct (directive l st). Qed.

Lemma document_typed l st : fold_result placed parse_start l = Value st → typed st.
Proof.
  apply (fold_result_inv placed (λ _ st, typed st)); [apply default_typed|].
  intros _ e _ t t' _ Ht Hp. eapply directive_typed; [done|]. by apply placed_value.
Qed.

Lemma settle_epoch_typed s : scenario_typed s → scenario_typed (settle_epoch s).
Proof.
  intros H. unfold settle_epoch. destruct (sc_has_policy s); [|done].
  assert (u64 (if valid (sc_epoch s) then sc_epoch s else pol_epoch (sc_policy s))) as He.
  { destruct (valid _); [apply H|apply H]. }
  destruct s as [? [] ? ? ? ? ?], H as [[] ? ? ?]; by constructor.
Qed.

Lemma settle_epoch_same s : sc_has_policy (settle_epoch s) = true → pol_epoch (sc_policy (settle_epoch s)) = sc_epoch (settle_epoch s).
Proof. unfold settle_epoch. destruct s as [[] []]; done. Qed.

(** What the parser accepts is typed, and valid as the engine understands it. *)
Record scenario_wf (s : Scenario) : Prop := {
  cw_typed : scenario_typed s;
  cw_policy : sc_has_policy s = true → policy_wf (sc_policy s);
  cw_epoch : sc_has_policy s = true → pol_epoch (sc_policy s) = sc_epoch s;
  cw_evidence : Forall evidence_wf (sc_evidence s) }.

Lemma for_each_forall {A} (f : A → Result unit) l : for_each f l = Value tt → Forall (λ a, f a = Value tt) l.
Proof.
  induction l as [|a l IH]; [done|]. cbn [for_each]. intros ([] & Ha & Hl)%result_bind_value. constructor; auto.
Qed.

Lemma validate_scenario_wf s :
  scenario_typed s → (sc_has_policy s = true → pol_epoch (sc_policy s) = sc_epoch s) →
  validate_scenario s = Value tt → scenario_wf s.
Proof.
  intros T He. unfold validate_scenario. intros ([] & Hp & Hv)%result_bind_value. constructor; [done| |done|].
  - intros Hs. rewrite Hs in Hp. apply validate_policy_iff; [apply T|]. by destruct (validate_policy (sc_policy s)) as [[]|].
  - apply for_each_forall in Hv. pose proof (ct_evidence _ T) as Ht. rewrite Forall_forall in Hv, Ht |- *.
    intros e Hin. apply validate_evidence_iff; [by apply Ht|]. specialize (Hv e Hin). by destruct (validate_evidence e) as [[]|].
Qed.

Lemma finish_wf text st n s :
  typed st → finish text (st, n) = Value s →
  scenario_wf s ∧ sc_source_digest s = checksum64 (string_bytes text) ∧ pa_saw_version st = true ∧ pa_saw_body st = true.
Proof.
  intros T. unfold finish. intros ([] & Hg & H)%result_bind_value. apply result_bind_value in H as ([] & Hv & [= <-]).
  assert (pa_saw_version st = true ∧ pa_saw_body st = true) as [? ?] by by destruct (pa_saw_version st), (pa_saw_body st).
  assert (scenario_wf (settle_epoch (pa_scenario st))) as [Ht H1 H2 H3].
  { apply validate_scenario_wf; [by apply settle_epoch_typed|apply settle_epoch_same|].
    unfold at_line in Hv. by destruct (validate_scenario _) as [[]|]. }
  destruct (settle_epoch (pa_scenario st)). split_and!; try done. constructor; try done. by destruct Ht.
Qed.

Lemma parse_scenario_wf text s :
  parse_scenario text = Value s → scenario_wf s ∧ sc_source_digest s = checksum64 (string_bytes text).
Proof.
  rewrite parse_scenario_fold. intros (st & Hf & H)%result_bind_value. apply document_typed in Hf.
  destruct (finish_wf _ _ _ _ Hf H) as (? & ? & _). done.
Qed.

(** ** The first error *)

(** Where a failure stands: a directive, the end of the document, or validation. *)
Lemma fold_placed_failure l : ∀ st f, fold_result placed st l = Failure f →
  ∃ pre line post st' message,
    l = pre ++ line :: post ∧ fold_result placed st pre = Value st' ∧ directive line st' = Failure message
    ∧ f = mk_status StatusCode.InvalidArgument
            ("line " +:+ to_decimal (ln_number line) +:+ ": " +:+ status_detail message).
Proof.
  induction l as [|line l IH]; intros st f H; [done|]. cbn [fold_result] in H.
  destruct (placed st line) as [st'|g] eqn:E; cbn [result_bind] in H.
  - destruct (IH _ _ H) as (pre & line' & post & st'' & message & -> & Hr & Hd & ->).
    exists (line :: pre), line', post, st'', message. split_and!; try done. cbn [fold_result]. by rewrite E.
  - injection H as <-. unfold placed, at_line in E. destruct (directive line st) as [|message] eqn:Hd; [done|].
    exists [], line, l, st, message. split_and!; try done. by injection E as <-.
Qed.
