(* ===== verification/ScenarioPrint.v ===== *)
(** A printer of scenario documents, and the proof that the parser reads back
    every scenario it prints. *)
From Stdlib Require Import Ascii.
From S2P Require Import Prelude Status Core Bytes Explain ExplainSpec Policy PolicyValid Accounting Evidence Engine Scenario ScenarioText ScenarioLines ScenarioTyped.
From coqutil Require Import Datatypes.RecordSetters.
Import DoubleBraceUpdate.
#[local] Open Scope string_scope.
#[local] Open Scope list_scope.
#[local] Open Scope Z_scope.

(** ** The printer *)

Definition Attr : Type := string * string.

Definition print_attr (a : Attr) : string := a.1 +:+ String "="%char a.2.

(** A directive with an identity, attributes and a label. *)
Definition identified (name : string) (id generation : Z) (attrs : list Attr) (label : string) : Entry :=
  (name :: to_decimal id :: to_decimal generation :: (print_attr <$> attrs), label).

Definition policy_attrs (p : FairnessPolicy) : list Attr :=
  [ ("window_units", to_decimal (pol_window_units p)); ("fair_band", to_decimal (pol_fair_band_units p));
    ("correction_threshold", to_decimal (pol_correction_threshold_units p));
    ("cooldown", to_decimal (pol_cooldown_windows p)); ("max_correction", to_decimal (pol_max_correction_units p));
    ("max_correction_bps", to_decimal (pol_max_correction_bps p));
    ("max_modifier_bps", to_decimal (pol_max_priority_modifier_bps p));
    ("max_age_windows", to_decimal (pol_max_evidence_age_windows p));
    ("max_age_ns", to_decimal (pol_max_evidence_age_ns p)); ("max_carry", to_decimal (pol_max_carry_units p));
    ("enforce_floors", flag_text (pol_enforce_guarantee_floors p));
    ("source", prov_source (pol_provenance p)); ("revision", to_decimal (prov_revision (pol_provenance p)));
    ("digest", to_decimal (prov_source_digest (pol_provenance p))) ].

Definition group_attrs (g : FairnessGroup) : list Attr :=
  [ ("parent", to_decimal (group_parent g)); ("weight", to_decimal (group_share_weight g));
    ("floor", to_decimal (group_guarantee_floor g)); ("rank", to_decimal (group_obligation_rank g));
    ("protected", flag_text (group_protected_obligation g)) ].

Definition subject_attrs (s : Subject) : list Attr :=
  [ ("group", to_decimal (subj_group s)); ("tenant", to_decimal (subj_tenant s));
    ("weight", to_decimal (subj_share_weight s)); ("floor", to_decimal (subj_guarantee_floor s));
    ("starvation", to_decimal (subj_starvation_windows s));
    ("guarantee_starvation", to_decimal (subj_guarantee_starvation_windows s));
    ("rank", to_decimal (subj_obligation_rank s)); ("protected", flag_text (subj_protected_obligation s));
    ("reduce_cap", to_decimal (subj_max_reduce_units s)); ("augment_cap", to_decimal (subj_max_augment_units s));
    ("modifier_bps", signed_text (subj_priority_modifier_bps s));
    ("priority_rank", to_decimal (subj_priority_rank s)); ("priority", pair_text (subj_priority s));
    ("qos", pair_text (subj_qos s)) ].

Definition evidence_attrs (e : EvidenceSnapshot) : list Attr :=
  [ ("window", to_decimal (ev_window e)); ("window_gen", to_decimal (ev_window_generation e));
    ("epoch", to_decimal (ev_epoch e)); ("captured_ns", signed_text (ev_captured_at_ns e));
    ("sequence", to_decimal (ev_sequence e)); ("producer", producer_name (ev_producer e));
    ("instance", to_decimal (producer_instance (ev_producer e)));
    ("version", to_decimal (producer_version (ev_producer e)));
    ("declared_digest", to_decimal (ev_declared_digest e)) ].

Definition obs_attrs (o : SubjectObservation) : list Attr :=
  [ ("served", to_decimal (obs_served_units o)); ("unserved", to_decimal (obs_unserved_streak o));
    ("below", to_decimal (obs_below_floor_streak o)); ("priority", pair_text (obs_priority o));
    ("qos", pair_text (obs_qos o)) ].

Definition request_attrs (r : EvaluationRequest) : list Attr :=
  [ ("policy", pair_text (mk_ref (rq_policy_id r) (rq_policy_generation r)));
    ("evidence", pair_text (mk_ref (rq_evidence_id r) (rq_evidence_generation r)));
    ("window", pair_text (mk_ref (rq_window r) (rq_window_generation r)));
    ("epoch", to_decimal (rq_epoch r)); ("now_ns", signed_text (rq_now_ns r));
    ("request_id", to_decimal (rq_request_id r)); ("attempt", to_decimal (rq_attempt r));
    ("missing_unknown", flag_text (rq_treat_missing_as_unknown r)) ].

Definition policy_entry (p : FairnessPolicy) : Entry := identified "policy" (pol_id p) (pol_generation p) (policy_attrs p) "".
Definition group_entry (g : FairnessGroup) : Entry :=
  identified "group" (group_id g) (group_generation g) (group_attrs g) (group_label g).
Definition subject_entry (s : Subject) : Entry :=
  identified "subject" (subj_id s) (subj_generation s) (subject_attrs s) (subj_label s).
Definition evidence_entry (e : EvidenceSnapshot) : Entry :=
  identified "evidence" (ev_id e) (ev_generation e) (evidence_attrs e) "".
Definition obs_entry (o : SubjectObservation) : Entry :=
  identified "obs" (obs_id o) (obs_generation o) (obs_attrs o) "".
Definition request_entry (r : EvaluationRequest) : Entry := ("request" :: (print_attr <$> request_attrs r), "").

Definition snapshot_entries (e : EvidenceSnapshot) : list Entry := evidence_entry e :: (obs_entry <$> ev_observations e).

Definition scenario_entries (s : Scenario) : list Entry :=
  [ (["version"; "1"], ""); (["epoch"; to_decimal (sc_epoch s)], "") ]
  ++ (if sc_has_policy s then
        policy_entry (sc_policy s) :: (group_entry <$> pol_groups (sc_policy s))
        ++ (subject_entry <$> pol_subjects (sc_policy s))
      else [])
  ++ (sc_evidence s ≫= snapshot_entries)
  ++ (if sc_has_request s then [request_entry (sc_request s)] else []).

Definition print_scenario (s : Scenario) : string := text_of (print_line <$> scenario_entries s).

(** ** What the format can express *)

Record group_printable (g : FairnessGroup) : Prop := { gp_typed : group_typed g; gp_label : label_ok (group_label g) }.
Record subject_printable (s : Subject) : Prop := { sp_typed : subject_typed s; sp_label : label_ok (subj_label s) }.

Record policy_printable (p : FairnessPolicy) : Prop := {
  pp_typed : policy_typed p;
  pp_source : plain (prov_source (pol_provenance p)) = true;
  pp_captured : prov_captured_at_ns (pol_provenance p) = 0;
  pp_groups : Forall (λ g, label_ok (group_label g)) (pol_groups p);
  pp_subjects : Forall (λ s, label_ok (subj_label s)) (pol_subjects p) }.

Record evidence_printable (e : EvidenceSnapshot) : Prop := {
  ep_typed : evidence_typed e;
  ep_producer : plain (producer_name (ev_producer e)) = true;
  ep_provenance : ev_provenance e = no_provenance }.

Record request_printable (r : EvaluationRequest) : Prop := {
  rp_typed : request_typed r;
  rp_stale : rq_allow_stale_result r = true }.

Record scenario_printable (s : Scenario) : Prop := {
  cp_wf : scenario_wf s;
  cp_policy : if sc_has_policy s then policy_printable (sc_policy s) else sc_policy s = default_policy;
  cp_evidence : Forall evidence_printable (sc_evidence s);
  cp_request : if sc_has_request s then request_printable (sc_request s) else sc_request s = default_request }.

(** ** Printed attributes *)

Lemma prefix_app_cases p : ∀ a v, String.prefix p (a +:+ v) = true → String.prefix p a = true ∨ String.prefix a p = true.
Proof.
  induction p as [|c p IH]; intros [|d a] v; cbn [String.prefix]; [by left..|by right|].
  change ((String d a) +:+ v) with (String d (a +:+ v)). cbn [String.prefix].
  destruct (ascii_dec c d) as [->|]; [|done]. destruct (ascii_dec d d); [|done]. apply IH.
Qed.

(** A key that can neither be cut at an equals sign nor start a label. *)
Definition key_ok (key : string) : bool :=
  word (key +:+ "=") && negb (String.prefix (key +:+ "=") label_prefix)
  && all_chars (λ c, negb (Ascii.eqb c "=")) key.

Lemma attr_key key value : print_attr (key, value) = (key +:+ "=") +:+ value.
Proof. unfold print_attr. by rewrite string_app_assoc. Qed.

Lemma attr_word key value : key_ok key = true → plain value = true → word (print_attr (key, value)) = true.
Proof.
  intros Hk Hv. unfold key_ok in Hk. rewrite !andb_true_iff in Hk. destruct Hk as [[Hw Hp] _]. rewrite attr_key.
  pose proof (word_plain _ Hw) as Hq. unfold word in *. rewrite !andb_true_iff in *. destruct Hw as [[_ Hh] Hl].
  split_and!.
  - unfold plain in *. by rewrite all_chars_app, Hq, Hv.
  - by destruct (key +:+ "=").
  - apply negb_true_iff in Hl, Hp. apply negb_true_iff. destruct (String.prefix label_prefix ((key +:+ "=") +:+ value)) eqn:E; [|done].
    apply prefix_app_cases in E as [E|E]; congruence.
Qed.

Lemma attrs_words attrs :
  forallb key_ok attrs.*1 = true → Forall (λ v, plain v = true) attrs.*2 → Forall (λ t, word t = true) (print_attr <$> attrs).
Proof.
  induction attrs as [|[k v] attrs IH]; cbn [fmap list_fmap forallb fst snd]; [by constructor|].
  rewrite andb_true_iff, Forall_cons. intros [Hk Hks] [Hv Hvs]. rewrite Forall_cons. split; [by apply attr_word|by apply IH].
Qed.

Section settings.
  Context {A : Type} (setting : string → string → A → Setting A).

  (** What a list of attributes makes of a record. *)
Fixpoint settings (attrs : list Attr) (a : A) : option A :=
    match attrs with
    | [] => Some a
    | (key, value) :: attrs =>
        match setting key value a with Changed a' => settings attrs a' | _ => None end
    end.

Lemma settings_cons key value attrs a a1 a2 :
    setting key value a = Changed a1 → settings attrs a1 = Some a2 → settings ((key, value) :: attrs) a = Some a2.
  Proof. intros H1 H2. cbn [settings]. by rewrite H1. Qed.

Lemma attributes_printed kind unique attrs a a' :
    forallb key_ok attrs.*1 = true → NoDup attrs.*1 → settings attrs a = Some a' →
    attributes kind unique setting (print_attr <$> attrs) a = Value a'.
  Proof.
    intros Hk Hn Hs. unfold attributes.
    enough (∀ seen, (∀ k, k ∈ attrs.*1 → k ∉ seen) →
      ∃ seen', fold_result (λ state token, attribute kind unique setting token state) (seen, a) (print_attr <$> attrs)
        = Value (seen', a')) as Hg.
    { destruct (Hg []) as [seen' ->]; [intros k _; by apply not_elem_of_nil|done]. }
    revert a Hk Hn Hs. induction attrs as [|[k v] attrs IH]; intros a Hk Hn Hs seen Hseen.
    { injection Hs as <-. by exists seen. }
    cbn [fmap list_fmap forallb fst] in Hk, Hn, Hseen. apply andb_true_iff in Hk as [Hk Hks].
    apply NoDup_cons in Hn as [Hn Hns]. cbn [settings] in Hs. destruct (setting k v a) as [| |b] eqn:E; [done..|].
    cbn [fmap list_fmap fold_result]. unfold attribute at 1. unfold print_attr at 1. cbn [fst snd].
    unfold key_ok in Hk. rewrite !andb_true_iff in Hk. destruct Hk as [_ He]. rewrite split_at_app by done.
    rewrite bool_decide_eq_false_2 by (apply Hseen; left). rewrite andb_false_r, E. cbn [result_bind].
    apply IH; [done..|]. intros k' Hk' [->|Hin]%elem_of_cons; [done|]. by apply (Hseen k'); [right|].
  Qed.
End settings.

(** Values without blanks. *)
Lemma digits_plain s : all_chars is_digit s = true → plain s = true.
Proof.
  apply all_chars_impl. intros c H. unfold plain_char, is_blank.
  destruct (Ascii.eqb_spec c " "%char) as [->|]; [done|]. destruct (Ascii.eqb_spec c tab) as [->|]; [done|].
  destruct (Ascii.eqb_spec c line_feed) as [->|]; [done|]. by destruct (Ascii.eqb_spec c carriage_return) as [->|].
Qed.

Lemma decimal_plain v : 0 <= v → plain (to_decimal v) = true.
Proof. intros H. by apply digits_plain, to_decimal_digits. Qed.

Lemma u64_plain v : u64 v → plain (to_decimal v) = true.
Proof. intros H. apply decimal_plain. ulia. Qed.

Lemma u32_plain v : u32 v → plain (to_decimal v) = true.
Proof. intros H. apply decimal_plain. ulia. Qed.

Lemma flag_plain b : plain (flag_text b) = true.
Proof. by destruct b. Qed.

Lemma signed_plain z : plain (signed_text z) = true.
Proof.
  unfold signed_text, plain. rewrite all_chars_app. apply andb_true_iff. split; [by destruct (z <? 0)|].
  apply decimal_plain. lia.
Qed.

Lemma pair_plain r : ref_typed r → plain (pair_text r) = true.
Proof.
  intros [Hi Hg]. unfold pair_text, plain. rewrite all_chars_app. apply andb_true_iff. split; [by apply u64_plain|].
  exact (u64_plain _ Hg).
Qed.

Create HintDb fg_print.
#[export] Hint Resolve u64_plain u32_plain flag_plain signed_plain pair_plain : fg_print.

Lemma decimal_word v : u64 v → word (to_decimal v) = true.
Proof.
  intros H. unfold word. rewrite u64_plain by done. pose proof (to_decimal_size v H) as Hs.
  pose proof (to_decimal_digits v ltac:(ulia)) as Hd. destruct (to_decimal v) as [|c s]; [by destruct Hs|].
  cbn [all_chars] in Hd. apply andb_true_iff in Hd as [Hd _]. cbn [andb].
  assert (c ≠ "#"%char ∧ c ≠ "l"%char) as [H1 H2] by by split; intros ->.
  destruct (Ascii.eqb_spec c "#"%char); [done|]. cbn [negb andb]. unfold label_prefix. cbn [String.prefix].
  destruct (ascii_dec "l" c); [by subst|done].
Qed.

Lemma empty_label_ok : label_ok "".
Proof. by constructor. Qed.

Lemma identified_ok name id generation attrs label :
  word name = true → u64 id → u64 generation → forallb key_ok attrs.*1 = true →
  Forall (λ v, plain v = true) attrs.*2 → label_ok label → entry_ok (identified name id generation attrs label).
Proof.
  intros Hn Hi Hg Hk Hv Hl. unfold entry_ok, identified. cbn [fst snd]. split_and!; [done| |done].
  rewrite !Forall_cons. split_and!; [done|by apply decimal_word..|by apply attrs_words].
Qed.

Lemma identity_parsed name id generation attrs short unread :
  u64 id → u64 generation →
  parse_identity (name :: to_decimal id :: to_decimal generation :: attrs) short unread = Value (id, generation).
Proof. intros Hi Hg. unfold parse_identity. by rewrite !parse_u64_decimal. Qed.

(** ** Printed directives *)

(** One attribute of a chain of keys, read back by the given lemma. *)
Ltac one_setting lem :=
  eapply settings_cons;
  [ cbn [String.eqb Ascii.eqb Bool.eqb policy_setting group_setting subject_setting evidence_setting obs_setting
         request_setting];
    first [ rewrite lem by assumption; reflexivity | reflexivity ] |].

Ltac read_settings :=
  repeat first [ one_setting parse_u64_decimal | one_setting parse_u32_decimal | one_setting parse_flag_text
               | one_setting parse_i64_signed | one_setting parse_i32_signed | one_setting parse_id_pair_text ].

Lemma policy_settings p :
  policy_typed p → prov_captured_at_ns (pol_provenance p) = 0 →
  settings policy_setting (policy_attrs p) (default_policy {{ pol_id := pol_id p; pol_generation := pol_generation p }})
  = Some (p {{ pol_epoch := 0; pol_groups := []; pol_subjects := [] }}).
Proof.
  intros [] Hc. assert (provenance_typed (pol_provenance p)) as (? & ? & _) by done.
  unfold policy_attrs. read_settings. destruct p as [? ? ? ? ? ? ? ? ? ? ? ? ? ? ? ? []]. cbn in Hc. by subst.
Qed.

Lemma group_settings g :
  group_typed g →
  settings group_setting (group_attrs g) (default_group {{ group_id := group_id g; group_generation := group_generation g }})
  = Some (g {{ group_label := "" }}).
Proof. intros []. unfold group_attrs. read_settings. by destruct g. Qed.

Lemma as_ref_pair r : as_ref (ref_id r, ref_generation r) = r.
Proof. by destruct r. Qed.

Lemma subject_settings s :
  subject_typed s →
  settings subject_setting (subject_attrs s) (default_subject {{ subj_id := subj_id s; subj_generation := subj_generation s }})
  = Some (s {{ subj_label := "" }}).
Proof.
  intros []. unfold subject_attrs. read_settings. rewrite !as_ref_pair. by destruct s.
Qed.

Lemma evidence_settings e :
  evidence_typed e → ev_provenance e = no_provenance →
  settings evidence_setting (evidence_attrs e) (default_evidence {{ ev_id := ev_id e; ev_generation := ev_generation e }})
  = Some (e {{ ev_observations := [] }}).
Proof.
  intros [] Hp. unfold evidence_attrs. read_settings. destruct e as [? ? ? ? ? ? ? [] ? ? ?]. cbn in Hp. by subst.
Qed.

Lemma obs_settings o :
  observation_typed o →
  settings obs_setting (obs_attrs o) (default_observation {{ obs_id := obs_id o; obs_generation := obs_generation o }}) = Some o.
Proof. intros []. unfold obs_attrs. read_settings. rewrite !as_ref_pair. by destruct o. Qed.

Lemma request_settings r :
  request_typed r → rq_allow_stale_result r = true →
  settings request_setting (request_attrs r) default_request = Some r.
Proof.
  intros [[] ? [] [] ? ? ?] Hs.
  assert (ref_typed (mk_ref (rq_policy_id r) (rq_policy_generation r))) by done.
  assert (ref_typed (mk_ref (rq_evidence_id r) (rq_evidence_generation r))) by done.
  assert (ref_typed (mk_ref (rq_window r) (rq_window_generation r))) by done.
  unfold request_attrs. read_settings. destruct r. cbn in Hs. by subst.
Qed.

(** The attribute loop of a printed directive. *)
Lemma directive_attributes {A} kind unique (setting : string → string → A → Setting A) attrs a a' :
  forallb key_ok attrs.*1 = true → bool_decide (NoDup attrs.*1) = true → settings setting attrs a = Some a' →
  attributes kind unique setting (print_attr <$> attrs) a = Value a'.
Proof. intros Hk Hn%bool_decide_eq_true. by apply attributes_printed. Qed.

Lemma drop_identity {A} (a b c : A) l : drop 3 (a :: b :: c :: l) = l.
Proof. done. Qed.

(** The states the parser goes through on a printed document. *)
Definition at_policy (epoch : Z) (p : FairnessPolicy) : ParseState :=
  mk_parse (mk_scenario true p epoch [] false default_request 0) true true true false None.

Lemma policy_step epoch p in_policy in_evidence current :
  policy_printable p →
  entry_step (mk_parse (mk_scenario false default_policy epoch [] false default_request 0) true true in_policy in_evidence current)
    (policy_entry p)
  = Value (at_policy epoch (p {{ pol_epoch := 0; pol_groups := []; pol_subjects := [] }})).
Proof.
  intros []. unfold entry_step, directive, policy_entry, identified, entry_line. cbn [ln_tokens fst snd].
  cbn [String.eqb Ascii.eqb Bool.eqb negb pa_saw_version]. unfold policy_directive. cbn [ln_tokens].
  rewrite identity_parsed by apply pp_typed0. cbn [result_bind fst snd]. rewrite drop_identity.
  erewrite directive_attributes; [|done|done|by apply policy_settings]. done.
Qed.

Lemma group_step epoch p g :
  group_typed g → label_ok (group_label g) →
  entry_step (at_policy epoch p) (group_entry g) = Value (at_policy epoch (p {{ pol_groups ::= λ l, l ++ [g] }})).
Proof.
  intros Ht _. unfold entry_step, directive, group_entry, identified, entry_line. cbn [ln_tokens fst snd].
  cbn [String.eqb Ascii.eqb Bool.eqb negb pa_saw_version at_policy]. unfold group_directive. cbn [ln_tokens].
  rewrite identity_parsed by apply Ht. cbn [result_bind fst snd]. rewrite drop_identity.
  erewrite directive_attributes; [|done|done|by apply group_settings]. destruct g as [? ? ? ? ? ? ? []]; done.
Qed.

Lemma subject_step epoch p s :
  subject_typed s → label_ok (subj_label s) →
  entry_step (at_policy epoch p) (subject_entry s) = Value (at_policy epoch (p {{ pol_subjects ::= λ l, l ++ [s] }})).
Proof.
  intros Ht _. unfold entry_step, directive, subject_entry, identified, entry_line. cbn [ln_tokens fst snd].
  cbn [String.eqb Ascii.eqb Bool.eqb negb pa_saw_version at_policy]. unfold subject_directive. cbn [ln_tokens].
  rewrite identity_parsed by apply Ht. cbn [result_bind fst snd]. rewrite drop_identity.
  erewrite directive_attributes; [|done|done|by apply subject_settings].
  destruct s as [? ? ? ? ? ? ? ? ? ? ? ? ? ? ? ? []]; done.
Qed.

Definition at_evidence (has : bool) (p : FairnessPolicy) (epoch : Z) (l : list EvidenceSnapshot) : ParseState :=
  mk_parse (mk_scenario has p epoch l false default_request 0) true true false true (Some (length l - 1)%nat).

Lemma evidence_step has p epoch l e in_policy in_evidence current :
  evidence_printable e →
  entry_step (mk_parse (mk_scenario has p epoch l false default_request 0) true true in_policy in_evidence current)
    (evidence_entry e)
  = Value (at_evidence has p epoch (l ++ [e {{ ev_observations := [] }}])).
Proof.
  intros [Ht _ Hp]. unfold entry_step, directive, evidence_entry, identified, entry_line. cbn [ln_tokens fst snd].
  cbn [String.eqb Ascii.eqb Bool.eqb negb pa_saw_version]. unfold evidence_directive. cbn [ln_tokens].
  rewrite identity_parsed by apply Ht. cbn [result_bind fst snd]. rewrite drop_identity.
  erewrite directive_attributes; [|done|done|by apply evidence_settings]. done.
Qed.

Lemma alter_last {A} (f : A → A) l a : alter f (length (l ++ [a]) - 1)%nat (l ++ [a]) = l ++ [f a].
Proof.
  rewrite length_app. cbn [length]. replace (length l + 1 - 1)%nat with (length l + 0)%nat by lia.
  induction l as [|b l IH]; [done|]. cbn [app length Nat.add]. change (b :: alter f (length l + 0)%nat (l ++ [a]) = b :: (l ++ [f a])).
  by rewrite IH.
Qed.

Lemma obs_step has p epoch l e o :
  observation_typed o →
  entry_step (at_evidence has p epoch (l ++ [e])) (obs_entry o)
  = Value (at_evidence has p epoch (l ++ [e {{ ev_observations ::= λ k, k ++ [o] }}])).
Proof.
  intros Ht. unfold entry_step, directive, obs_entry, identified, entry_line. cbn [ln_tokens fst snd].
  cbn [String.eqb Ascii.eqb Bool.eqb negb pa_saw_version at_evidence]. unfold obs_directive. cbn [ln_tokens].
  unfold at_evidence. change (pa_in_evidence _) with true. change (pa_current_evidence _) with (Some (length (l ++ [e]) - 1)%nat).
  cbv iota. rewrite identity_parsed by apply Ht. cbn [result_bind fst snd]. rewrite drop_identity.
  erewrite directive_attributes; [|done|done|by apply obs_settings]. cbn [result_bind].
  unfold apply_update. cbn [sc_evidence]. rewrite alter_last. do 2 f_equal. rewrite !length_app. done.
Qed.

Lemma request_step has p epoch l r in_policy in_evidence current :
  request_printable r →
  entry_step (mk_parse (mk_scenario has p epoch l false default_request 0) true true in_policy in_evidence current)
    (request_entry r)
  = Value (mk_parse (mk_scenario has p epoch l true r 0) true true false false None).
Proof.
  intros [Ht Hs]. unfold entry_step, directive, request_entry, entry_line. cbn [ln_tokens fst snd].
  cbn [String.eqb Ascii.eqb Bool.eqb negb pa_saw_version]. unfold request_directive. cbn [ln_tokens].
  change (drop 1 ("request" :: (print_attr <$> request_attrs r))) with (print_attr <$> request_attrs r).
  erewrite directive_attributes; [|done|done|by apply request_settings]. done.
Qed.

(** ** Printed blocks *)

Lemma fold_result_app {S A} (f : S → A → Result S) s l k :
  fold_result f s (l ++ k) = (let? s' := fold_result f s l in fold_result f s' k).
Proof.
  revert s. induction l as [|a l IH]; intros s; [done|]. cbn [app fold_result].
  destruct (f s a) as [s'|]; [|done]. apply IH.
Qed.

Lemma group_steps epoch gs : ∀ p,
  Forall group_typed gs → Forall (λ g, label_ok (group_label g)) gs →
  fold_result entry_step (at_policy epoch p) (group_entry <$> gs) = Value (at_policy epoch (p {{ pol_groups ::= λ l, l ++ gs }})).
Proof.
  induction gs as [|g gs IH]; intros p Ht Hl.
  { destruct p. cbn. by rewrite app_nil_r. }
  apply Forall_cons in Ht as [Ht Hts], Hl as [Hl Hls]. rewrite fmap_cons. cbn [fold_result].
  rewrite group_step by done. cbn [result_bind]. rewrite IH by done. destruct p. cbn. by rewrite <-app_assoc.
Qed.

Lemma subject_steps epoch ss : ∀ p,
  Forall subject_typed ss → Forall (λ s, label_ok (subj_label s)) ss →
  fold_result entry_step (at_policy epoch p) (subject_entry <$> ss) = Value (at_policy epoch (p {{ pol_subjects ::= λ l, l ++ ss }})).
Proof.
  induction ss as [|s ss IH]; intros p Ht Hl.
  { destruct p. cbn. by rewrite app_nil_r. }
  apply Forall_cons in Ht as [Ht Hts], Hl as [Hl Hls]. rewrite fmap_cons. cbn [fold_result].
  rewrite subject_step by done. cbn [result_bind]. rewrite IH by done. destruct p. cbn. by rewrite <-app_assoc.
Qed.

Lemma obs_steps has p epoch l os : ∀ e,
  Forall observation_typed os →
  fold_result entry_step (at_evidence has p epoch (l ++ [e])) (obs_entry <$> os)
  = Value (at_evidence has p epoch (l ++ [e {{ ev_observations ::= λ k, k ++ os }}])).
Proof.
  induction os as [|o os IH]; intros e Ht.
  { destruct e. cbn. by rewrite app_nil_r. }
  apply Forall_cons in Ht as [Ht Hts]. rewrite fmap_cons. cbn [fold_result].
  rewrite obs_step by done. cbn [result_bind]. rewrite IH by done. destruct e. cbn. by rewrite <-app_assoc.
Qed.

Lemma snapshot_steps has p epoch l e in_policy in_evidence current :
  evidence_printable e →
  fold_result entry_step (mk_parse (mk_scenario has p epoch l false default_request 0) true true in_policy in_evidence current)
    (snapshot_entries e)
  = Value (at_evidence has p epoch (l ++ [e])).
Proof.
  intros He. unfold snapshot_entries. cbn [fold_result]. rewrite evidence_step by done. cbn [result_bind].
  rewrite obs_steps by apply He. by destruct e.
Qed.

Lemma evidence_steps has p epoch es : ∀ l in_policy in_evidence current,
  Forall evidence_printable es →
  ∃ in_policy' in_evidence' current',
  fold_result entry_step (mk_parse (mk_scenario has p epoch l false default_request 0) true true in_policy in_evidence current)
    (es ≫= snapshot_entries)
  = Value (mk_parse (mk_scenario has p epoch (l ++ es) false default_request 0) true true in_policy' in_evidence' current').
Proof.
  induction es as [|e es IH]; intros l ip ie c He.
  { exists ip, ie, c. by rewrite app_nil_r. }
  apply Forall_cons in He as [He Hes]. rewrite bind_cons, fold_result_app, snapshot_steps by done. cbn [result_bind].
  destruct (IH (l ++ [e]) false true (Some (length (l ++ [e]) - 1)%nat) Hes) as (ip' & ie' & c' & H).
  exists ip', ie', c'. rewrite <-app_assoc in H. exact H.
Qed.

(** ** The printed document *)

(** The first two lines of every printed document. *)
Lemma opening_steps epoch :
  u64 epoch →
  fold_result entry_step parse_start [ (["version"; "1"], ""); (["epoch"; to_decimal epoch], "") ]
  = Value (mk_parse (mk_scenario false default_policy epoch [] false default_request 0) true true false false None).
Proof.
  intros He. cbn [fold_result].
  change (entry_step parse_start (["version"; "1"], "")) with (Value (parse_start {{ pa_saw_version := true }})).
  cbn [result_bind]. unfold entry_step, directive, entry_line. cbn [ln_tokens fst snd].
  cbn [String.eqb Ascii.eqb Bool.eqb negb]. unfold epoch_directive. cbn [ln_tokens]. by rewrite parse_u64_decimal.
Qed.

Definition unsettled (s : Scenario) : FairnessPolicy :=
  if sc_has_policy s then (sc_policy s) {{ pol_epoch := 0 }} else default_policy.

Lemma policy_steps s :
  (if sc_has_policy s then policy_printable (sc_policy s) else sc_policy s = default_policy) →
  ∃ in_policy,
  fold_result entry_step
    (mk_parse (mk_scenario false default_policy (sc_epoch s) [] false default_request 0) true true false false None)
    (if sc_has_policy s then
       policy_entry (sc_policy s) :: (group_entry <$> pol_groups (sc_policy s)) ++ (subject_entry <$> pol_subjects (sc_policy s))
     else [])
  = Value (mk_parse (mk_scenario (sc_has_policy s) (unsettled s) (sc_epoch s) [] false default_request 0)
             true true in_policy false None).
Proof.
  unfold unsettled. destruct (sc_has_policy s); [|by exists false]. intros Hp. exists true. cbn [fold_result].
  rewrite policy_step by done. destruct Hp as [[] ? ? ? ?]. cbn [result_bind].
  rewrite fold_result_app, group_steps by done. cbn [result_bind]. rewrite subject_steps by done. by destruct (sc_policy s).
Qed.

Lemma scenario_steps s :
  scenario_printable s →
  ∃ in_policy in_evidence current,
  fold_result entry_step parse_start (scenario_entries s)
  = Value (mk_parse (mk_scenario (sc_has_policy s) (unsettled s) (sc_epoch s) (sc_evidence s) (sc_has_request s) (sc_request s) 0)
             true true in_policy in_evidence current).
Proof.
  intros [[Ht _ _ _] Hp He Hr]. unfold scenario_entries. rewrite fold_result_app, opening_steps by apply Ht. cbn [result_bind].
  destruct (policy_steps s Hp) as [ip1 H1]. rewrite fold_result_app, H1. cbn [result_bind]. clear H1.
  destruct (evidence_steps (sc_has_policy s) (unsettled s) (sc_epoch s) (sc_evidence s) [] ip1 false None He) as (ip & ie & c & H2).
  rewrite fold_result_app, H2. cbn [result_bind app]. destruct (sc_has_request s).
  - exists false, false, None. cbn [fold_result]. by rewrite request_step.
  - exists ip, ie, c. by rewrite Hr.
Qed.

Lemma forall_for_each {A} (f : A → Result unit) l : Forall (λ a, f a = Value tt) l → for_each f l = Value tt.
Proof. induction 1 as [|a l Ha _ IH]; [done|]. cbn [for_each]. rewrite Ha. exact IH. Qed.

Lemma wf_validate_scenario s : scenario_wf s → validate_scenario s = Value tt.
Proof.
  intros [T Hp _ He]. unfold validate_scenario.
  assert (sc_has_policy s = true → validate_policy (sc_policy s) = Value tt) as Hv.
  { intros Hs. apply validate_policy_iff; [apply T|auto]. }
  destruct (sc_has_policy s); [rewrite Hv by done|]; cbn [result_bind];
    apply forall_for_each; (eapply Forall_impl; [exact (proj2 (Forall_and _ _) (conj (ct_evidence _ T) He))|]);
    intros e [Hte Hwe]; by rewrite (proj2 (validate_evidence_iff e Hte) Hwe).
Qed.

Lemma settle_printed s :
  scenario_wf s → (sc_has_policy s = false → sc_policy s = default_policy) →
  settle_epoch (mk_scenario (sc_has_policy s) (unsettled s) (sc_epoch s) (sc_evidence s) (sc_has_request s) (sc_request s) 0)
  = s {{ sc_source_digest := 0 }}.
Proof.
  intros [T Hp Heq _] Hd. unfold settle_epoch, unsettled. cbn [sc_has_policy sc_epoch].
  destruct (sc_has_policy s) eqn:Hs; [|rewrite <-(Hd eq_refl); destruct s; cbn in Hs; by subst].
  assert (valid (sc_epoch s) = true) as ->.
  { apply valid_spec. rewrite <-Heq by done. apply (sw_epoch _ (pw_scalars _ (Hp eq_refl))). }
  specialize (Heq eq_refl). destruct s as [? [] ? ? ? ? ?]. cbn in *. by subst.
Qed.

Lemma entries_ok s : scenario_printable s → Forall entry_ok (scenario_entries s).
Proof.
  intros [[[_ Hep _ _] _ _ _] Hp He Hr]. unfold scenario_entries. rewrite !Forall_app. split_and!.
  - repeat constructor; try done. cbn. by apply decimal_word.
  - destruct (sc_has_policy s); [|done]. destruct Hp as [Ht Hs _ Hg Hj]. constructor.
    { apply identified_ok; try done; [apply Ht..|]. destruct Ht as [? ? ? ? ? ? ? ? ? ? ? ? ? ? ? (? & ? & ?)].
      repeat constructor; cbn; eauto with fg_print. }
    apply Forall_app. split; apply Forall_fmap; [pose proof (pt_groups _ Ht) as Hts|pose proof (pt_subjects _ Ht) as Hts].
    + apply (Forall_impl _ _ _ (proj2 (Forall_and _ _) (conj Hts Hg))). intros g [[] Hl].
      apply identified_ok; try done. repeat constructor; cbn; eauto with fg_print.
    + apply (Forall_impl _ _ _ (proj2 (Forall_and _ _) (conj Hts Hj))). intros x [[] Hl].
      apply identified_ok; try done. repeat constructor; cbn; eauto with fg_print.
  - apply Forall_bind. apply (Forall_impl _ _ _ He). intros e [[] Hn Hpr]. constructor.
    { apply identified_ok; try done. repeat constructor; cbn; eauto with fg_print. }
    apply Forall_fmap. apply (Forall_impl _ _ _ et_observations). intros o [].
    apply identified_ok; try done. repeat constructor; cbn; eauto with fg_print.
  - destruct (sc_has_request s); [|done]. destruct Hr as [[[] ? [] [] ? ? ?] _]. apply Forall_singleton. split_and!; [done| |apply empty_label_ok].
    constructor; [done|]. apply attrs_words; [done|]. repeat constructor; cbn; try done; eauto with fg_print; apply pair_plain; by split.
Qed.

(** Parsing what was printed gives the scenario back. *)
Lemma print_parse s :
  scenario_printable s →
  parse_scenario (print_scenario s) = Value (s {{ sc_source_digest := checksum64 (string_bytes (print_scenario s)) }}).
Proof.
  intros H. destruct (scenario_steps s H) as (ip & ie & c & Hr).
  destruct (parse_printed _ _ (entries_ok s H) Hr) as [n Hn]. fold (print_scenario s) in Hn. rewrite Hn. clear Hn Hr.
  assert (settle_epoch (mk_scenario (sc_has_policy s) (unsettled s) (sc_epoch s) (sc_evidence s) (sc_has_request s) (sc_request s) 0)
    = s {{ sc_source_digest := 0 }}) as Hset.
  { apply settle_printed; [apply H|]. intros Hs. pose proof (cp_policy _ H) as Hp. by rewrite Hs in Hp. }
  unfold finish. cbn [pa_saw_version pa_saw_body pa_scenario negb at_line result_bind]. rewrite Hset.
  rewrite wf_validate_scenario; [destruct s; done|]. destruct (cp_wf _ H) as [T ? ? ?], s; constructor; try done. by destruct T.
Qed.
