(* ===== verification/Cli.v ===== *)
(** The command line of the governor: [tools/fg_governor_cli.cpp].

    The file system and the process are arguments: what [read_file] finds, what
    [DurableStore::open] makes of the store path, and the incarnation drawn.  A run
    is its exit code, what it wrote to each stream, and the store as it left it. *)
From S2P Require Import Prelude Status Core Policy Accounting Evidence Outcome Engine Explain Scenario Fsutil Store Governor.
From coqutil Require Import Datatypes.RecordSetters.
Import DoubleBraceUpdate.
#[local] Open Scope string_scope.
#[local] Open Scope list_scope.
#[local] Open Scope Z_scope.

(** ** [version.hpp] *)

Definition version_string : string := "1.0.0".
Definition library_name : string := "Fairness Governor".
Definition vendor_name : string := "Summon Software Labs".

(** ** Options *)

Record CliOptions := mk_cli {
  cl_commit : bool;
  cl_result : bool;
  cl_latest : bool;
  cl_recovery : bool;
  cl_quiet : bool;
  cl_store : string }.

Definition default_cli : CliOptions := mk_cli false false false false false "".

(** The option loop; the left side is the complaint. *)
Fixpoint parse_options (arguments : list string) (o : CliOptions) : string + CliOptions :=
  match arguments with
  | [] => inr o
  | argument :: rest =>
      if String.eqb argument "--commit" then parse_options rest (o {{ cl_commit := true }})
      else if String.eqb argument "--result" then parse_options rest (o {{ cl_result := true }})
      else if String.eqb argument "--latest" then parse_options rest (o {{ cl_latest := true }})
      else if String.eqb argument "--recovery" then parse_options rest (o {{ cl_recovery := true }})
      else if String.eqb argument "--quiet" then parse_options rest (o {{ cl_quiet := true }})
      else if String.eqb argument "--store" then
        match rest with
        | [] => inl "--store requires a directory"
        | path :: rest' => parse_options rest' (o {{ cl_store := path }})
        end
      else inl ("unknown option: " +:+ argument)
  end.

Definition print_usage : string :=
  "Fairness Governor " +:+ version_string +:+ newline
  +:+ "usage:" +:+ newline
  +:+ "  fg_governor_cli version" +:+ newline
  +:+ "  fg_governor_cli check <scenario>" +:+ newline
  +:+ "  fg_governor_cli evaluate <scenario> [options]" +:+ newline
  +:+ newline
  +:+ "options:" +:+ newline
  +:+ "  --store <dir>       enable durable policy and accounting state" +:+ newline
  +:+ "  --commit            durably commit the decision after evaluating it" +:+ newline
  +:+ "  --result            print the machine-readable result block" +:+ newline
  +:+ "  --latest            synthesize the request from the newest evidence" +:+ newline
  +:+ "  --recovery          print the recovery report" +:+ newline
  +:+ "  --quiet             print only the summary line" +:+ newline.

(** ** The request *)

Definition latest_request (s : Scenario) : EvaluationRequest :=
  let request := default_request {{ rq_policy_id := pol_id (sc_policy s);
                                    rq_policy_generation := pol_generation (sc_policy s);
                                    rq_epoch := sc_epoch s }} in
  let request :=
    match last (sc_evidence s) with
    | None => request
    | Some newest =>
        request {{ rq_evidence_id := ev_id newest; rq_evidence_generation := ev_generation newest;
                   rq_window := ev_window newest; rq_window_generation := ev_window_generation newest;
                   rq_now_ns := ev_captured_at_ns newest }}
    end in
  request {{ rq_request_id := 1; rq_attempt := 0 }}.

(** The request the command evaluates: the scenario's own, or the newest evidence's. *)
Definition chosen_request (s : Scenario) (o : CliOptions) : option EvaluationRequest :=
  if sc_has_request s then Some (sc_request s)
  else if cl_latest o then Some (latest_request s)
  else None.

(** ** Output *)

Definition flag01 (b : bool) : string := if b then "1" else "0".

Definition print_recovery (r : RecoveryReport) : string :=
  "recovery store=" +:+ flag01 (rr_store_present r)
  +:+ " policy_loaded=" +:+ flag01 (rr_policy_loaded r)
  +:+ " accounting_loaded=" +:+ flag01 (rr_accounting_loaded r)
  +:+ " foreign_incarnation=" +:+ flag01 (rr_foreign_incarnation r)
  +:+ " unfinished_attempt_discarded=" +:+ flag01 (rr_unfinished_attempt_discarded r)
  +:+ " backup_recovered=" +:+ flag01 (rr_backup_recovered r)
  +:+ " corruption_detected=" +:+ flag01 (rr_corruption_detected r)
  +:+ " evidence_authority_restored=" +:+ flag01 (rr_evidence_authority_restored r)
  +:+ " publisher_authority_restored=" +:+ flag01 (rr_publisher_authority_restored r)
  +:+ " accounting_generation=" +:+ to_decimal (rr_loaded_accounting_generation r) +:+ newline.

Definition check_report (s : Scenario) : string :=
  "scenario ok subjects=" +:+ to_decimal (sizeZ (pol_subjects (sc_policy s)))
  +:+ " groups=" +:+ to_decimal (sizeZ (pol_groups (sc_policy s)))
  +:+ " evidence=" +:+ to_decimal (sizeZ (sc_evidence s))
  +:+ " request=" +:+ flag01 (sc_has_request s) +:+ newline.

Definition rendering (o : CliOptions) (d : FairnessDecision) : string :=
  if cl_quiet o then summarize d +:+ newline
  else if cl_result o then format_result d
  else explain d default_explain.

Section cli.
  Context {S : Type} `{Backend S}.

Definition commit_report (g : Governor S) : string :=
    "committed accounting_generation=" +:+ to_decimal (acc_generation (gv_accounting g))
    +:+ " last_window=" +:+ to_decimal (acc_last_window (gv_accounting g)) +:+ newline.

Record Run := mk_run {
    run_exit : Z;
    run_out : string;
    run_err : string;
    run_store : option S }.

  (** [std::cerr << what << "\n"; return code;] *)
Definition complain (code : Z) (out what : string) (store : option S) : Run :=
    mk_run code out (what +:+ newline) store.

  (** The loop over the scenario's evidence stops at the first refusal. *)
Fixpoint ingest_all (l : list EvidenceSnapshot) (g : Governor S) : Result unit * Governor S :=
    match l with
    | [] => (Value tt, g)
    | snapshot :: rest =>
        let '(ingested, g) := ingest_evidence snapshot g in
        match ingested with
        | Failure st => (Failure st, g)
        | Value _ => ingest_all rest g
        end
    end.

  (** The end of the run: [shutdown], with what was written so far. *)
Definition stop (out : string) (g : Governor S) : Run :=
    let '(stopped, _) := shutdown g in
    match stopped with
    | Failure st => complain 5 out ("shutdown failed: " +:+ status_to_string st) (gv_store g)
    | Value _ => mk_run 0 out "" (gv_store g)
    end.

  (** Evaluation, rendering and the commit. *)
Definition decide_and_commit (o : CliOptions) (request : EvaluationRequest) (out : string) (g : Governor S) : Run :=
    match evaluate request g with
    | Failure st => complain 3 out ("evaluation failed: " +:+ status_to_string st) (gv_store g)
    | Value decision =>
        let out := out +:+ rendering o decision in
        if cl_commit o then
          let '(committed, g) := commit_decision decision g in
          match committed with
          | Failure st => complain 4 out ("commit failed: " +:+ status_to_string st) (gv_store g)
          | Value _ => stop (out +:+ commit_report g) g
          end
        else stop out g
    end.

Definition scenario_config (s : Scenario) (o : CliOptions) : GovernorConfig :=
    mk_config (sc_policy s) (cl_store o) (sc_epoch s) default_limits false.

  (** [evaluate]: opens the governor, stages the evidence, evaluates. *)
Definition evaluate_command (s : Scenario) (o : CliOptions) (incarnation : Incarnation) (opened : Result S) : Run :=
    match open (scenario_config s o) incarnation opened with
    | (Failure st, store) =>
        complain 3 "" ("governor open failed: " +:+ status_to_string st)
          (match store with Value store => Some store | Failure _ => None end)
    | (Value g, _) =>
        let out := if cl_recovery o then print_recovery (gv_recovery g) else "" in
        let '(ingested, g) := ingest_all (sc_evidence s) g in
        match ingested with
        | Failure st => complain 3 out ("evidence rejected: " +:+ status_to_string st) (gv_store g)
        | Value _ =>
            match chosen_request s o with
            | None =>
                complain 2 out "scenario has no request directive; pass --latest to use the newest evidence" (gv_store g)
            | Some request => decide_and_commit o request out g
            end
        end
    end.

  (** [main]: [file] is what [read_file] makes of the scenario path. *)
Definition main (arguments : list string) (file : option string) (incarnation : Incarnation) (opened : Result S) : Run :=
    let untouched := match opened with Value store => Some store | Failure _ => None end in
    match arguments with
    | [] => mk_run 0 print_usage "" untouched
    | command :: arguments =>
        if String.eqb command "--help" || String.eqb command "-h" then mk_run 0 print_usage "" untouched
        else if String.eqb command "version" then
          mk_run 0 (library_name +:+ " " +:+ version_string +:+ " by " +:+ vendor_name +:+ newline) "" untouched
        else if negb (String.eqb command "check") && negb (String.eqb command "evaluate") then
          complain 2 print_usage ("unknown command: " +:+ command) untouched
        else
          match arguments with
          | [] => complain 2 "" "a scenario file is required" untouched
          | scenario_path :: arguments =>
              match parse_options arguments default_cli with
              | inl complaint => complain 2 "" complaint untouched
              | inr o =>
                  match file with
                  | None => complain 2 "" ("cannot read scenario: " +:+ scenario_path) untouched
                  | Some text =>
                      match parse_scenario text with
                      | Failure st => complain 2 "" ("scenario rejected: " +:+ status_to_string st) untouched
                      | Value s =>
                          if negb (sc_has_policy s) then complain 2 "" "scenario rejected: no policy directive" untouched
                          else if String.eqb command "check" then mk_run 0 (check_report s) "" untouched
                          else evaluate_command s o incarnation opened
                      end
                  end
              end
          end
    end.
End cli.
