(* ===== verification/CliSpec.v ===== *)
(** What a run of the command line does: its exit code, its output and the store
    it leaves, from what parsing, opening, ingestion, evaluation and the commit
    promise. *)
From S2P Require Import Prelude Status Core Policy PolicyValid Accounting Evidence Outcome Engine Planner EngineSpec PlannerSpec EvalSpec Explain ExplainSpec Scenario ScenarioTyped Fsutil Store StoreSpec Governor BackendSpec GovernorSpec GovernorEval GovernorInv GovernorReach GovernorDurable Cli.
#[local] Open Scope string_scope.
#[local] Open Scope list_scope.
#[local] Open Scope Z_scope.

Section memory.
  Context {S : Type} `{Backend S}.
  Implicit Types (g : Governor S).

(** ** Ingestion *)

(** Staging evidence changes nothing but the evidence held. *)
Definition only_evidence g g' : Prop := ∃ staged ingested sequences, g' = with_evidence staged ingested sequences g.

Lemma only_evidence_refl g : only_evidence g g.
Proof. exists (gv_staged g), (gv_ingested g), (gv_publisher_sequences g). by destruct g. Qed.

Lemma ingest_all_run l : ∀ g,
  Forall evidence_typed l → governor_ok g →
  governor_ok (ingest_all l g).2 ∧ only_evidence g (ingest_all l g).2.
Proof.
  induction l as [|e l IH]; intros g Ht Hg; cbn [ingest_all]; [split; [done|apply only_evidence_refl]|].
  apply Forall_cons in Ht as [Te Ht]. pose proof (ingest_ok e g Te Hg) as Hg1.
  assert (only_evidence g (ingest_evidence e g).2) as H1.
  { destruct (ingest_cases e g Te) as [(_ & _ & ->)|[(_ & _ & ->)|[[st ->] _]]]; [|apply only_evidence_refl..].
    eexists _, _, _. done. }
  destruct (ingest_evidence e g) as [[r|st] g1]; cbn [snd] in *; [|done].
  destruct (IH g1 Ht Hg1) as [H2 (s' & i' & q' & H3)]. split; [done|]. destruct H1 as (s1 & i1 & q1 & ->).
  exists s', i', q'. by rewrite H3.
Qed.

(** ** Evaluation and commit *)

Lemma serving_evaluates rq g :
  governor_ok g → ledger_room (gv_accounting g) → gv_stopping g = false → ∃ d, evaluate rq g = Value d.
Proof.
  intros Hg Hroom Hstop. destruct (evaluate_fairness_value _ _ _ (serving_context rq g Hg Hroom)) as (dist & plans & finals & d0 & E0 & _).
  eexists. unfold evaluate. by rewrite Hstop, E0.
Qed.

Lemma memory_commit rq d g :
  governor_ok g → ledger_room (gv_accounting g) → gv_store g = None → u64 (rq_window rq) → u64 (rq_window_generation rq) →
  evaluate rq g = Value d →
  ((commit_decision d g).1 = Value tt ↔
     rq_window rq <> 0 ∧ rq_window_generation rq <> 0
     ∧ (acc_last_window (gv_accounting g) <> 0 → acc_last_window (gv_accounting g) < rq_window rq)).
Proof.
  intros Hg Hroom Hmem Hw Hwg E. pose proof (serving_context rq g Hg Hroom) as Hctx.
  destruct (apply_evaluated Hctx E Hroom Hw Hwg) as (after & Ha & _). rewrite <-(check_evaluated Hctx E).
  unfold commit_decision. destruct (check_decision _ g) as [[]|st]; [|done].
  rewrite Ha. unfold commit_accounting. cbn. by rewrite Hmem.
Qed.

(** ** Opening *)

Lemma accepted_config s o :
  scenario_wf s → sc_has_policy s = true → check_config (scenario_config s o) = Value tt.
Proof.
  intros [T Hp He _] Hs. unfold check_config, scenario_config. cbn [cfg_policy cfg_epoch cfg_limits cfg_require_durability].
  rewrite (proj2 (validate_policy_iff _ (ct_policy _ T)) (Hp Hs)). cbn [result_bind]. rewrite <-(He Hs), Z.eqb_refl.
  pose proof (sw_epoch _ (pw_scalars _ (Hp Hs))) as Hne. apply valid_spec in Hne as ->. cbn. by rewrite andb_false_r.
Qed.

(** A scenario the parser accepts opens a governor in memory. *)
Lemma accepted_opens s o i (opened : Result S) :
  scenario_wf s → sc_has_policy s = true → str_size (cl_store o) = 0 →
  open (scenario_config s o) i opened = (Value (fresh_governor (scenario_config s o) i None), opened).
Proof.
  intros Hw Hs Ho. unfold open. rewrite accepted_config by done. unfold scenario_config at 1. cbn [cfg_store_path]. by rewrite Ho.
Qed.

Lemma chosen_typed s o rq : scenario_wf s → chosen_request s o = Some rq → u64 (rq_window rq) ∧ u64 (rq_window_generation rq).
Proof.
  intros [T _ _ _]. unfold chosen_request. destruct (sc_has_request s).
  - intros [= <-]. apply (rt_window _ (ct_request _ T)).
  - destruct (cl_latest o); [|done]. intros [= <-]. unfold latest_request.
    destruct (last (sc_evidence s)) as [e|] eqn:E; [|by split].
    apply last_Some_elem_of in E. pose proof (ct_evidence _ T) as He. rewrite Forall_forall in He.
    destruct (He e E). by split.
Qed.

(** ** Runs *)

(** [main] on a scenario it accepts. *)
Lemma main_accepted command path arguments o text s i (opened : Result S) :
  command = "check" ∨ command = "evaluate" → parse_options arguments default_cli = inr o →
  parse_scenario text = Value s → sc_has_policy s = true →
  main (command :: path :: arguments) (Some text) i opened =
    if String.eqb command "check"
    then mk_run 0 (check_report s) "" (match opened with Value store => Some store | Failure _ => None end)
    else evaluate_command s o i opened.
Proof. intros Hc Ho Ht Hs. unfold main. rewrite Ho, Ht, Hs. by destruct Hc as [->| ->]. Qed.

Lemma stop_run out g : stop out g = mk_run 0 out "" (gv_store g).
Proof. unfold stop, shutdown. by destruct (gv_stopping g). Qed.

Lemma only_evidence_same g g' : only_evidence g g' →
  gv_accounting g' = gv_accounting g ∧ gv_store g' = gv_store g ∧ gv_stopping g' = gv_stopping g
  ∧ gv_policy g' = gv_policy g ∧ gv_epoch g' = gv_epoch g ∧ gv_recovery g' = gv_recovery g.
Proof. by intros (s & i & q & ->). Qed.

Lemma empty_room g : acc_subjects (gv_accounting g) = [] → acc_generation (gv_accounting g) = 0 → ledger_room (gv_accounting g).
Proof. intros E1 E2. constructor; rewrite ?E1, ?E2; try done. Qed.

Definition recovery_text (o : CliOptions) g : string := if cl_recovery o then print_recovery (gv_recovery g) else "".

(** What follows ingestion, in memory and before any window is committed. *)
Lemma decide_memory o rq out g :
  governor_ok g → ledger_room (gv_accounting g) → gv_store g = None → gv_stopping g = false →
  acc_last_window (gv_accounting g) = 0 → u64 (rq_window rq) → u64 (rq_window_generation rq) →
  ∃ d, evaluate rq g = Value d ∧
    let commits := bool_decide (rq_window rq <> 0 ∧ rq_window_generation rq <> 0) in
    run_exit (decide_and_commit o rq out g) = (if cl_commit o && negb commits then 4 else 0)
    ∧ run_out (decide_and_commit o rq out g)
      = (out +:+ rendering o d) +:+ (if cl_commit o && commits then commit_report (commit_decision d g).2 else "").
Proof.
  intros Hg Hroom Hmem Hstop Hlast Hw Hwg. destruct (serving_evaluates rq g Hg Hroom Hstop) as [d E].
  exists d. split; [done|]. pose proof (memory_commit rq d g Hg Hroom Hmem Hw Hwg E) as Hc. rewrite Hlast in Hc.
  unfold decide_and_commit. rewrite E. destruct (cl_commit o).
  - destruct (commit_decision d g) as [[[]|st] g'] eqn:Ec; cbn [fst snd] in *.
    + rewrite bool_decide_eq_true_2 by (by split; apply (proj1 Hc eq_refl)). by rewrite stop_run.
    + rewrite bool_decide_eq_false_2; [by rewrite string_app_nil|]. intros [H1 H2].
      assert (Failure st = Value tt); [|done]. apply Hc. by split_and!.
  - by rewrite stop_run, string_app_nil.
Qed.

(** A run in memory. *)
Lemma evaluate_memory s o i (opened : Result S) :
  scenario_wf s → sc_has_policy s = true → str_size (cl_store o) = 0 → u64 (inc_boot i) → u64 (inc_ordinal i) →
  let run := evaluate_command s o i opened in
  let g0 : Governor S := fresh_governor (scenario_config s o) i None in
  let '(ingested, g) := ingest_all (sc_evidence s) g0 in
  match ingested, chosen_request s o with
  | Failure st, _ => run = complain 3 (recovery_text o g0) ("evidence rejected: " +:+ status_to_string st) None
  | Value _, None => run_exit run = 2
  | Value _, Some rq =>
      ∃ d, evaluate rq g = Value d ∧
        let commits := bool_decide (rq_window rq <> 0 ∧ rq_window_generation rq <> 0) in
        run_exit run = (if cl_commit o && negb commits then 4 else 0)
        ∧ run_out run = (recovery_text o g0 +:+ rendering o d)
            +:+ (if cl_commit o && commits then commit_report (commit_decision d g).2 else "")
  end.
Proof.
  intros Hw Hs Ho Hb Hi run g0. pose proof Hw as [T Hp He Hv].
  assert (governor_ok g0) as Hg0.
  { apply fresh_governor_ok; try done; [apply T|by apply Hp|apply T]. }
  destruct (ingest_all_run (sc_evidence s) g0 (ct_evidence _ T) Hg0) as [Hg Hsame].
  unfold run, evaluate_command. rewrite accepted_opens by done. fold g0. fold (recovery_text o g0).
  destruct (ingest_all (sc_evidence s) g0) as [ingested g] eqn:E. cbn [snd] in Hg, Hsame.
  destruct (only_evidence_same _ _ Hsame) as (Ea & Es & Et & _). destruct ingested as [[]|st].
  - destruct (chosen_request s o) as [rq|] eqn:Er; [|done]. destruct (chosen_typed s o rq Hw Er) as [Hq1 Hq2].
    apply decide_memory; rewrite ?Ea, ?Es, ?Et; done.
  - by rewrite Es.
Qed.
End memory.

Section durable.
  Context {S : Type} `{DurabilityLaws S}.
  Implicit Types (g : Governor S).

Lemma only_evidence_persisted g g' s : only_evidence g g' → persisted g s → persisted g' s.
Proof. intros (a & b & c & ->). by apply persisted_same. Qed.

(** After ingestion, over a store that holds what the governor serves. *)
Lemma decide_durable o rq out g s :
  governor_ok g → ledger_room (gv_accounting g) → persisted g s → u64 (rq_window rq) → u64 (rq_window_generation rq) →
  let run := decide_and_commit o rq out g in
  (cl_commit o = true ∧ run_exit run = 0 ∧
     ∃ d s', evaluate rq g = Value d ∧ (commit_decision d g).1 = Value tt ∧ run_store run = Some s'
       ∧ exactly (commit_decision d g).2 s' ∧ av_window (fd_authority d) = rq_window rq)
  ∨ ((cl_commit o = false ∨ run_exit run <> 0) ∧ run_store run = Some s).
Proof.
  intros Hg Hroom Hp Hw Hwg run. pose proof (ba_store _ _ (ps_backed _ _ Hp)) as Es. unfold run, decide_and_commit.
  destruct (evaluate rq g) as [d|st] eqn:E; [|right; by split; [right|]].
  destruct (cl_commit o); [|right; rewrite stop_run; by split; [left|]].
  pose proof (serving_context rq g Hg Hroom) as Hctx.
  destruct (commit_persisted d g s (proj1 (evaluated_bounded Hctx E Hw Hwg)) Hg Hp) as [(s' & Hc & Hex)|[st Hc]].
  - left. pose proof (ba_store _ _ (ps_backed _ _ (exactly_persisted _ _ Hex))) as Es'.
    destruct (commit_decision d g) as [r g'] eqn:Ec. cbn [fst snd] in *. subst r. rewrite stop_run.
    split_and!; [done..|]. exists d, s'. rewrite Ec. destruct (evaluated_window Hctx E). by split_and!.
  - right. rewrite Hc. by split; [right|].
Qed.

(** The ledger on the store moves only when the run is asked to commit and ends
    well, and then to what the governor computed. *)
Lemma evaluate_durable s o i (opened : Result S) g0 s0 left :
  scenario_wf s → open (scenario_config s o) i opened = (Value g0, left) →
  governor_ok g0 → ledger_room (gv_accounting g0) → persisted g0 s0 →
  let run := evaluate_command s o i opened in
  (cl_commit o = true ∧ run_exit run = 0 ∧
     ∃ rq g d s', chosen_request s o = Some rq ∧ ingest_all (sc_evidence s) g0 = (Value tt, g)
       ∧ evaluate rq g = Value d ∧ (commit_decision d g).1 = Value tt ∧ run_store run = Some s'
       ∧ exactly (commit_decision d g).2 s' ∧ av_window (fd_authority d) = rq_window rq)
  ∨ ((cl_commit o = false ∨ run_exit run <> 0) ∧ run_store run = Some s0).
Proof.
  intros Hw Ho Hg0 Hroom Hp run. unfold run, evaluate_command. rewrite Ho.
  destruct (ingest_all_run (sc_evidence s) g0 (ct_evidence _ (cw_typed _ Hw)) Hg0) as [Hg Hsame].
  destruct (ingest_all (sc_evidence s) g0) as [ingested g] eqn:E. cbn [snd] in Hg, Hsame.
  pose proof (only_evidence_persisted _ _ _ Hsame Hp) as Hp'. pose proof (ba_store _ _ (ps_backed _ _ Hp')) as Es.
  destruct (only_evidence_same _ _ Hsame) as (Ea & _). destruct ingested as [[]|st]; [|right; by split; [right|]].
  destruct (chosen_request s o) as [rq|] eqn:Er; [|right; by split; [right|]].
  destruct (chosen_typed s o rq Hw Er) as [Hq1 Hq2].
  destruct (decide_durable o rq (if cl_recovery o then print_recovery (gv_recovery g0) else "") g s0)
    as [(Hc & Hx & d & s' & He & Hcm & Hst & Hex & Hwin)|Hright]; rewrite ?Ea; try done; [|by right].
  left. split_and!; [done..|]. by exists rq, g, d, s'.
Qed.
End durable.
