(* ===== verification/Publisher.v ===== *)
(** The publisher process: [tools/fg_evidence_publisher.cpp].

    The scenario file, the rounds of connecting, the boot identity the client draws
    and the socket of the malformed-traffic modes are arguments.  A run is its exit
    code, what it wrote to each stream and the bytes it put on the wire.  [unsigned
    long] is 64 bits wide. *)
From Stdlib Require Import Ascii.
From S2P Require Import Prelude Status Core Bytes Policy Accounting Evidence Codec Explain Scenario Frame Socket LinkClient.
From coqutil Require Import Datatypes.RecordSetters.
Import DoubleBraceUpdate.
#[local] Open Scope string_scope.
#[local] Open Scope list_scope.
#[local] Open Scope Z_scope.

(** ** [std::strtoul] in base ten *)

Fixpoint skip_spaces (text : string) : string :=
  match text with
  | String c rest =>
      if (char_code c =? 32) || ((9 <=? char_code c) && (char_code c <=? 13)) then skip_spaces rest else text
  | EmptyString => EmptyString
  end.

Fixpoint leading_digits (value : Z) (text : string) : Z :=
  match text with
  | String c rest =>
      if (48 <=? char_code c) && (char_code c <=? 57) then leading_digits (value * 10 + (char_code c - 48)) rest
      else value
  | EmptyString => value
  end.

Definition strtoul (text : string) : Z :=
  let '(negative, digits) :=
    match skip_spaces text with
    | String "-"%char rest => (true, rest)
    | String "+"%char rest => (false, rest)
    | rest => (false, rest)
    end in
  let value := leading_digits 0 digits in
  if value >? U64_MAX then U64_MAX else if negative then wrap64 (- value) else value.

(** ** Options *)

Record PublisherOptions := mk_publisher {
  pb_host : string;
  pb_scenario_path : string;
  pb_port : Z;
  pb_epoch_value : Z;
  pb_publisher_value : Z;
  pb_mode : string;
  pb_announce_split : bool }.

Definition default_publisher : PublisherOptions := mk_publisher "127.0.0.1" "" 0 0 0 "normal" false.

(** The option loop; the left side is the option it does not know.  An option that
    takes a value and is the last argument is not known either. *)
Fixpoint publisher_options (arguments : list string) (o : PublisherOptions) : string + PublisherOptions :=
  match arguments with
  | [] => inr o
  | argument :: rest =>
      match rest with
      | value :: rest' =>
          if String.eqb argument "--host" then publisher_options rest' (o {{ pb_host := value }})
          else if String.eqb argument "--port" then publisher_options rest' (o {{ pb_port := wrap32 (strtoul value) }})
          else if String.eqb argument "--epoch" then publisher_options rest' (o {{ pb_epoch_value := strtoul value }})
          else if String.eqb argument "--publisher" then
            publisher_options rest' (o {{ pb_publisher_value := strtoul value }})
          else if String.eqb argument "--scenario" then publisher_options rest' (o {{ pb_scenario_path := value }})
          else if String.eqb argument "--mode" then publisher_options rest' (o {{ pb_mode := value }})
          else if String.eqb argument "--announce-split" then publisher_options rest (o {{ pb_announce_split := true }})
          else inl argument
      | [] => if String.eqb argument "--announce-split" then inr (o {{ pb_announce_split := true }}) else inl argument
      end
  end.

(** ** Malformed traffic *)

(** The send loop of [raw_send]: whatever is not progress ends it. *)
Fixpoint raw_send_loop (data : ByteBuffer) (script : list departure) : ByteBuffer :=
  if (length data =? 0)%nat then []
  else
    match script with
    | [] => data
    | Wrote n :: script' => take (S n) data ++ raw_send_loop (drop (S n) data) script'
    | SendBlocked :: _ | SendFailed :: _ => []
    end.

Definition raw_sent (round : dialled) (data : ByteBuffer) : ByteBuffer :=
  match round with Connected s => raw_send_loop data (sk_departures s) | _ => [] end.

(** [frame[index] ^= mask]. *)
Definition flip (index : nat) (mask : Z) (frame : ByteBuffer) : ByteBuffer := alter (λ b, Z.lxor b mask) index frame.

(** [store_le<std::uint32_t>(frame.data() + offset, value)]. *)
Definition store_at (offset : nat) (value : Z) (frame : ByteBuffer) : ByteBuffer :=
  take offset frame ++ store_le 4 value ++ drop (offset + 4) frame.

Definition malformed_frame (mode : string) (s : Scenario) (epoch publisher : Z) : ByteBuffer :=
  let payload := encode_evidence (match sc_evidence s with [] => default_evidence | e :: _ => e end) in
  let header := mk_header FrameKind.Evidence 0 0 0 epoch publisher 0 0 1 0 in
  let frame := encode_frame header payload in
  if String.eqb mode "badsum" then flip 81 90 (flip 80 255 frame)
  else if String.eqb mode "short" then take (length frame / 2) frame
  else store_at 12 kMaxFramePayloadBytes frame.

(** ** Output *)

Definition quote : string := String (ascii_of_nat 34) "".

(** [to_string] of a code that came over the wire. *)
Definition code_name (code : Z) : string :=
  match StatusCode.of_value code with Some c => StatusCode.to_string c | None => "UNKNOWN_STATUS" end.

Definition detail_field (detail : string) : string := " detail=" +:+ quote +:+ detail +:+ quote +:+ newline.

Definition ack_line (snapshot : EvidenceSnapshot) (answer : Answer EvidenceAck) : string :=
  match answer with
  | Refusal code detail =>
      "FG-PUB-ACK status=" +:+ code_name code +:+ " snapshot=" +:+ to_decimal (ev_id snapshot)
      +:+ " generation=" +:+ to_decimal (ev_generation snapshot) +:+ detail_field detail
  | Answered ack =>
      "FG-PUB-ACK status=" +:+ code_name (ea_code ack) +:+ " snapshot=" +:+ to_decimal (ea_snapshot ack)
      +:+ " generation=" +:+ to_decimal (ea_generation ack)
      +:+ " disposition=" +:+ to_decimal (ea_disposition ack) +:+ detail_field (ea_detail ack)
  end.

(** [result.accepted()]; a failed [submit] is a rejection. *)
Definition counts_accepted (answer : Answer EvidenceAck) : bool :=
  match answer with Answered ack => evidence_accepted ack | Refusal _ _ => false end.

(** ** Publishing *)

Record Tally := mk_tally { ta_accepted : Z; ta_rejected : Z; ta_out : string }.

Definition take_answer (snapshot : EvidenceSnapshot) (answer : Answer EvidenceAck) (t : Tally) : Tally :=
  mk_tally (if counts_accepted answer then add64 (ta_accepted t) 1 else ta_accepted t)
    (if counts_accepted answer then ta_rejected t else add64 (ta_rejected t) 1)
    (ta_out t +:+ ack_line snapshot answer).

Fixpoint publish_loop (l : list EvidenceSnapshot) (t : Tally) (client : Client) : Tally * Client :=
  match l with
  | [] => (t, client)
  | snapshot :: l =>
      let '(answer, client) := submit snapshot client in
      publish_loop l (take_answer snapshot answer t) client
  end.

Definition done_line (t : Tally) : string :=
  "FG-PUB-DONE accepted=" +:+ to_decimal (ta_accepted t) +:+ " rejected=" +:+ to_decimal (ta_rejected t) +:+ newline.

(** [pr_sent] is what the client sent, [pr_raw] what went out on the raw socket. *)
Record Publishing := mk_publishing {
  pr_exit : Z;
  pr_out : string;
  pr_err : string;
  pr_sent : ByteBuffer;
  pr_raw : ByteBuffer }.

Definition socket_sent (client : Client) : ByteBuffer :=
  match cl_socket client with Some s => sk_sent s | None => [] end.

(** [HelloAck{}], and [static_cast<std::uint16_t>]. *)
Definition default_hello_ack : HelloAck := mk_hello_ack 0 0 0 kMaxFramePayloadBytes 0 0 0 0 0 "".
Definition wrap16 (z : Z) : Z := z mod 65536.

Definition client_options (o : PublisherOptions) : LinkClientOptions :=
  mk_client_options (pb_host o) (wrap16 (pb_port o)) (pb_epoch_value o) (pb_publisher_value o) 0 1 200 100 50.

Definition split_header (o : PublisherOptions) (client : Client) : FrameHeader :=
  mk_header FrameKind.Evidence 0 0 (cl_session client) (pb_epoch_value o) (pb_publisher_value o) 0 0
    (next_sequence client) 0.

(** What follows the handshake, by mode.  [split] blocks for a day after its half
    header, and the process is killed meanwhile. *)
Definition connected_run (o : PublisherOptions) (s : Scenario) (raw : dialled) (out : string) (client : Client)
    : Publishing :=
  if String.eqb (pb_mode o) "shutdown" then
    let '(sent, client) := goodbye true client in
    let code := match sent with Value _ => StatusCode.Ok | Failure st => status_code st end in
    mk_publishing (match sent with Value _ => 0 | Failure _ => 4 end)
      (out +:+ "FG-PUB-GOODBYE status=" +:+ StatusCode.to_string code +:+ newline) "" (socket_sent client) []
  else if String.eqb (pb_mode o) "split" then
    let full := encode_frame (split_header o client) [] in
    mk_publishing 0 (out +:+ (if pb_announce_split o then "FG-PUB-SPLIT bytes=40" +:+ newline else "")) ""
      (socket_sent client) (raw_sent raw (take 40 full))
  else
    let '(t, client) := publish_loop (sc_evidence s) (mk_tally 0 0 out) client in
    let '(_, client) := goodbye false client in
    mk_publishing 0 (ta_out t +:+ done_line t) "" (socket_sent client) [].

(** What connecting puts on the wire, whatever comes of it. *)
Definition greeted (options : LinkClientOptions) (fresh_boot : Z) (rounds : list dialled) : ByteBuffer :=
  if (co_port options =? 0) || negb (valid (co_epoch options)) || negb (valid (co_publisher options)) then []
  else
    match dial (Z.to_nat (Z.max (co_connect_attempts options) 1)) rounds with
    | Refusal _ _ => []
    | Answered s => sk_sent (socket_write (encode_frame (hello_header (with_identity fresh_boot options)) []) s).2
    end.

Definition connect_run (o : PublisherOptions) (s : Scenario) (fresh_boot : Z) (rounds : list dialled) (raw : dialled)
    : Publishing :=
  let '(connected, ack) := connect (client_options o) fresh_boot rounds default_hello_ack in
  match connected with
  | Refusal code detail =>
      mk_publishing 3 ("FG-PUB-HANDSHAKE status=" +:+ code_name code +:+ detail_field detail) ""
        (greeted (client_options o) fresh_boot rounds) []
  | Answered client =>
      connected_run o s raw ("FG-PUB-HANDSHAKE status=OK session=" +:+ to_decimal (ha_session_id ack) +:+ newline) client
  end.

(** The scenario to publish: none was asked for, or the file parses. *)
Definition publisher_scenario (o : PublisherOptions) (file : option string) : string + Scenario :=
  if str_size (pb_scenario_path o) =? 0 then inr default_scenario
  else
    match file with
    | None => inl ("cannot read scenario: " +:+ pb_scenario_path o)
    | Some text =>
        match parse_scenario text with
        | Failure st => inl ("scenario rejected: " +:+ status_to_string st)
        | Value s => inr s
        end
    end.

Definition publisher_usage : string :=
  "usage: fg_evidence_publisher --port <n> --epoch <n> --publisher <n>"
  +:+ " [--scenario <file>] [--mode normal|split|short|badsum|shutdown|oversize]".

Definition publisher_main (arguments : list string) (file : option string) (fresh_boot : Z) (rounds : list dialled)
    (raw : dialled) : Publishing :=
  match publisher_options arguments default_publisher with
  | inl argument => mk_publishing 2 "" ("unknown option: " +:+ argument +:+ newline) [] []
  | inr o =>
      if (pb_port o =? 0) || (pb_epoch_value o =? 0) || (pb_publisher_value o =? 0) then
        mk_publishing 2 "" (publisher_usage +:+ newline) [] []
      else
        match publisher_scenario o file with
        | inl complaint => mk_publishing 2 "" (complaint +:+ newline) [] []
        | inr s =>
            if String.eqb (pb_mode o) "short" || String.eqb (pb_mode o) "badsum" || String.eqb (pb_mode o) "oversize" then
              let frame := malformed_frame (pb_mode o) s (pb_epoch_value o) (pb_publisher_value o) in
              mk_publishing 0
                ("FG-PUB-RAW mode=" +:+ pb_mode o +:+ " bytes=" +:+ to_decimal (sizeZ frame) +:+ newline) ""
                [] (raw_sent raw frame)
            else connect_run o s fresh_boot rounds raw
        end
  end.
