(* ===== verification/PublisherSpec.v ===== *)
(** The publisher process against the governor's contract: what it sends, what it
    prints and how it ends are what ingesting its snapshots in order calls for. *)
From S2P Require Import Prelude Status Core Bytes Policy Accounting Evidence Codec Explain Scenario Frame FrameSpec Socket SocketSpec Fsutil Store Governor BackendSpec GovernorSpec GovernorEval GovernorInv GovernorReach LinkServer LinkClient LinkSpec LinkSession Publisher.
#[local] Open Scope string_scope.
#[local] Open Scope list_scope.
#[local] Open Scope Z_scope.

(** ** The loop *)

(** The tally of a list of answers. *)
Definition tally_answers (l : list (EvidenceSnapshot * Answer EvidenceAck)) (t : Tally) : Tally :=
  foldl (λ t p, take_answer p.1 p.2 t) t l.

Lemma publish_loop_all l : ∀ t cl,
  publish_loop l t cl = (tally_answers (zip l (publish_all l cl).1) t, (publish_all l cl).2).
Proof.
  induction l as [|e l IH]; intros t cl; cbn [publish_loop publish_all]; [done|].
  destruct (submit e cl) as [answer cl1]. rewrite IH. by destruct (publish_all l cl1) as [answers cl2].
Qed.

(** How many acknowledgements accept. *)
Definition accepted_count (acks : list EvidenceAck) : Z := sizeZ (List.filter evidence_accepted acks).
Definition rejected_count (acks : list EvidenceAck) : Z := sizeZ acks - accepted_count acks.

(** One line for every acknowledgement. *)
Definition ack_lines (es : list EvidenceSnapshot) (acks : list EvidenceAck) : string :=
  foldr (λ p text, ack_line p.1 (Answered p.2) +:+ text) "" (zip es acks).

Lemma tally_acks es : ∀ acks accepted rejected out,
  length es = length acks → 0 <= accepted → 0 <= rejected → accepted + rejected + sizeZ acks <= U64_MAX →
  tally_answers (zip es (Answered <$> acks)) (mk_tally accepted rejected out)
  = mk_tally (accepted + accepted_count acks) (rejected + rejected_count acks) (out +:+ ack_lines es acks).
Proof.
  unfold rejected_count, accepted_count.
  induction es as [|e es IH]; intros [|ack acks] accepted rejected out Hl Ha Hr Hs; try done.
  { unfold tally_answers, ack_lines, sizeZ. cbn. by rewrite string_app_nil, !Z.add_0_r. }
  injection Hl as Hl. unfold sizeZ in *. cbn [length] in Hs. rewrite fmap_cons. cbn [zip zip_with].
  unfold tally_answers in *. cbn [foldl fst snd]. unfold take_answer at 2. cbn [ta_accepted ta_rejected ta_out counts_accepted List.filter].
  change (ack_lines (e :: es) (ack :: acks)) with (ack_line e (Answered ack) +:+ ack_lines es acks).
  rewrite <-string_app_assoc. pose proof (List.filter_length_le evidence_accepted acks) as Hf.
  destruct (evidence_accepted ack).
  - rewrite add64_small by ulia. rewrite IH by (done || lia). cbn [length]. f_equal; lia.
  - rewrite add64_small by ulia. rewrite IH by (done || lia). cbn [length]. f_equal; lia.
Qed.

(** ** The client's identity *)

Lemma with_identity_twice fresh_boot o :
  fresh_boot <> 0 → with_identity fresh_boot (with_identity fresh_boot o) = with_identity fresh_boot o.
Proof.
  intros Hf. unfold with_identity. cbn [co_publisher_boot co_publisher_ordinal co_host co_port co_epoch co_publisher
    co_receive_poll_ms co_connect_attempts co_connect_retry_ms]. f_equal.
  - destruct (valid (co_publisher_boot o)) eqn:E; [by rewrite E|]. by destruct (valid fresh_boot).
  - by destruct (Z.eqb_spec (co_publisher_ordinal o) 0) as [|H]; [|apply Z.eqb_neq in H as ->].
Qed.

Lemma connect_identity fresh_boot o rounds ack :
  fresh_boot <> 0 → connect o fresh_boot rounds ack = connect (with_identity fresh_boot o) fresh_boot rounds ack.
Proof. intros Hf. unfold connect at 2. rewrite with_identity_twice by done. done. Qed.

(** ** The run *)

(** A process that knows who it is, in a mode that connects. *)
Lemma publisher_main_connects arguments o file s fresh_boot rounds raw :
  publisher_options arguments default_publisher = inr o → publisher_scenario o file = inr s →
  publisher_ok (with_identity fresh_boot (client_options o)) → pb_mode o = "shutdown" ∨ pb_mode o = "normal" →
  publisher_main arguments file fresh_boot rounds raw = connect_run o s fresh_boot rounds raw.
Proof.
  intros Hargs Hs Hco Hmode. unfold publisher_main. rewrite Hargs, Hs.
  assert (((pb_port o =? 0) || (pb_epoch_value o =? 0) || (pb_publisher_value o =? 0)) = false) as ->.
  { destruct Hco as [[_ He] [_ Hp] _ _ Hport]. cbn in He, Hp, Hport. apply Z.eqb_neq in He as ->. apply Z.eqb_neq in Hp as ->.
    destruct (Z.eqb_spec (pb_port o) 0) as [E|]; [|done]. by rewrite E in Hport. }
  by destruct Hmode as [->| ->].
Qed.

(** What a publisher prints that is turned away for its epoch. *)
Definition turned_away : string :=
  "FG-PUB-HANDSHAKE status=" +:+ StatusCode.to_string StatusCode.StaleEpoch
  +:+ detail_field "publisher epoch is not the live fabric epoch".

(** What it had sent by then. *)
Lemma greeted_hello fresh_boot o w script rounds :
  publisher_ok (with_identity fresh_boot o) → sendable script →
  greeted o fresh_boot (Connected (mk_socket w script []) :: rounds)
  = encode_frame (hello_header (with_identity fresh_boot o)) [].
Proof.
  intros [[_ H1] [_ H2] _ _ H3] Hs. cbn in H1, H2, H3. unfold greeted, valid. rewrite !(proj2 (Z.eqb_neq _ _)) by done. cbn [negb orb].
  assert (∃ n, Z.to_nat (Z.max (co_connect_attempts o) 1) = Datatypes.S n) as [n ->].
  { exists (Z.to_nat (Z.max (co_connect_attempts o) 1) - 1)%nat. lia. }
  cbn [dial]. unfold socket_write. cbn [sk_departures sk_sent].
  by destruct (write_all_sendable (encode_frame (hello_header (with_identity fresh_boot o)) []) script Hs) as (script' & -> & _).
Qed.

Section process.
  Context {S : Type} `{Backend S}.

(** A publisher of another epoch, whatever it has to publish. *)
Lemma publisher_turned_away arguments o file s fresh_boot rounds raw (g : Governor S) d rest script :
  publisher_options arguments default_publisher = inr o → pb_mode o = "normal" → publisher_scenario o file = inr s →
  let co := with_identity fresh_boot (client_options o) in
  fresh_boot <> 0 → publisher_ok co → on_link (gv_epoch g) g →
  sendable script → timely kClientIdlePolls d → bytes_of d = stale_reply g →
  publisher_main arguments file fresh_boot (Connected (mk_socket (arrivals_of d ++ rest) script []) :: rounds) raw
  = mk_publishing 3 turned_away "" (encode_frame (hello_header co) []) [].
Proof.
  intros Hargs Hmode Hs co Hf Hco Hg Hscript Hd Hb. rewrite (publisher_main_connects _ o _ s) by auto.
  unfold connect_run. rewrite connect_identity by done. fold co.
  pose proof (connect_stale co fresh_boot rounds default_hello_ack d rest script g Hco Hg Hscript Hd Hb) as E.
  destruct (connect co _ _ _) as [connected ack]. cbn [fst] in E. subst connected.
  rewrite greeted_hello by done. done.
Qed.

Lemma govern_length o es : ∀ (g : Governor S), length (govern o es g).1 = length es.
Proof.
  induction es as [|e es IH]; intros g; cbn [govern]; [done|].
  destruct (ingest_and_commit o e g) as [ack g1]. specialize (IH g1). destruct (govern o es g1) as [acks g2]. cbn in *. lia.
Qed.

(** What a publisher that gets through prints. *)
Definition published (session : Z) (es : list EvidenceSnapshot) (acks : list EvidenceAck) : string :=
  (("FG-PUB-HANDSHAKE status=OK session=" +:+ to_decimal session +:+ newline) +:+ ack_lines es acks)
  +:+ done_line (mk_tally (accepted_count acks) (rejected_count acks) "").

Lemma publisher_run arguments o file s fresh_boot rounds raw so (g : Governor S) d rest script :
  publisher_options arguments default_publisher = inr o → pb_mode o = "normal" → publisher_scenario o file = inr s →
  let co := with_identity fresh_boot (client_options o) in
  fresh_boot <> 0 → server_ok so → publisher_ok co → on_link (co_epoch co) g →
  Forall (publishable so (co_epoch co)) (sc_evidence s) → sizeZ (sc_evidence s) <= U64_MAX →
  sendable script → timely kClientIdlePolls d → bytes_of d = session_down so co false (sc_evidence s) g →
  publisher_main arguments file fresh_boot (Connected (mk_socket (arrivals_of d ++ rest) script []) :: rounds) raw
  = mk_publishing 0 (published (session_of (hello_header co)) (sc_evidence s) (govern so (sc_evidence s) g).1) ""
      (session_up co false (sc_evidence s)) [].
Proof.
  intros Hargs Hmode Hs co Hf Hso Hco Hg Hes Hsize Hscript Hd Hb. rewrite (publisher_main_connects _ o _ s) by auto.
  unfold connect_run. rewrite connect_identity by done. fold co.
  destruct (publish_session so co fresh_boot rounds default_hello_ack false (sc_evidence s) d rest script g
    Hso Hco Hg Hes Hscript Hd Hb) as (cl & -> & Ep & _ & Eu).
  unfold connected_run. rewrite Hmode. change (String.eqb "normal" "shutdown") with false.
  change (String.eqb "normal" "split") with false. cbv iota. rewrite publish_loop_all, Ep.
  pose proof (govern_length so (sc_evidence s) g) as Hl. rewrite tally_acks by (done || unfold sizeZ in *; lia).
  change (client_sent (goodbye false (publish_all (sc_evidence s) cl).2).2) with
    (socket_sent (goodbye false (publish_all (sc_evidence s) cl).2).2) in Eu.
  destruct (goodbye false (publish_all (sc_evidence s) cl).2) as [sent cl']. cbn [snd] in Eu. rewrite Eu. done.
Qed.
End process.
