(* ===== verification/LinkProcess.v ===== *)
(** The link process: [tools/fg_evidence_link.cpp], and what [EvidenceLinkServer::start]
    and [serve] of [src/link/link.cpp] do for it.

    The scenario file, the incarnation, the opened store, the listening socket and the
    connections that arrive are arguments.  The connections come one after another:
    each is served to its end before the next is accepted, so the threads of LinkWorkers
    run one at a time and the budget of connections is never reached.  A run that no
    peer asks to stop goes on serving. *)
From S2P Require Import Prelude Status Core Bytes Policy Accounting Evidence Codec Explain Scenario Frame Socket Fsutil Store Governor LinkServer Cli Publisher.
From coqutil Require Import Datatypes.RecordSetters.
Import DoubleBraceUpdate.
#[local] Open Scope string_scope.
#[local] Open Scope list_scope.
#[local] Open Scope Z_scope.

(** ** Options *)

Record LinkOptions := mk_link_options {
  lo_scenario_path : string;
  lo_store_path : string;
  lo_port : Z;
  lo_quiet : bool }.

Definition default_link_options : LinkOptions := mk_link_options "" "" 0 false.

(** The option loop; the left side is the option it does not know. *)
Fixpoint link_options (arguments : list string) (o : LinkOptions) : string + LinkOptions :=
  match arguments with
  | [] => inr o
  | argument :: rest =>
      match rest with
      | value :: rest' =>
          if String.eqb argument "--scenario" then link_options rest' (o {{ lo_scenario_path := value }})
          else if String.eqb argument "--store" then link_options rest' (o {{ lo_store_path := value }})
          else if String.eqb argument "--port" then link_options rest' (o {{ lo_port := wrap32 (strtoul value) }})
          else if String.eqb argument "--quiet" then link_options rest (o {{ lo_quiet := true }})
          else inl argument
      | [] => if String.eqb argument "--quiet" then inr (o {{ lo_quiet := true }}) else inl argument
      end
  end.

(** ** The listening socket *)

(** How each call went that makes it: [socket], [inet_pton], [bind], [listen] and
    [getsockname], the last with the port it reports. *)
Record Listening := mk_listening {
  ls_created : bool;
  ls_address : bool;
  ls_bound : bool;
  ls_listens : bool;
  ls_port : option Z }.

Definition loopback (address : string) : bool :=
  String.eqb address "" || String.eqb address "127.0.0.1" || String.eqb address "localhost".

(** [start]: the options it keeps, the address and the port. *)
Definition start (options : LinkServerOptions) (net : Listening) : Result (LinkServerOptions * string * Z) :=
  let? options := check_server_options options in
  if negb (ls_created net) then socket_error "socket"
  else if negb (loopback (so_bind_address options)) && negb (ls_address net) then
    fail StatusCode.InvalidArgument "bind address is not a valid IPv4 literal"
  else if negb (ls_bound net) then socket_error "bind"
  else if negb (ls_listens net) then socket_error "listen"
  else
    match ls_port net with
    | None => socket_error "getsockname"
    | Some port =>
        let address := so_bind_address options in
        Value (options, if String.eqb address "" then "127.0.0.1" else address, port)
    end.

(** ** What is printed *)

Definition print_field (name value : string) : string := " " +:+ name +:+ "=" +:+ value.

Definition counter_fields : list (string * LinkStats.counter) :=
  [("rejected_connections", LinkStats.connections_rejected);
   ("frames", LinkStats.frames_received);
   ("rejected_frames", LinkStats.frames_rejected);
   ("evidence", LinkStats.evidence_accepted);
   ("duplicates", LinkStats.evidence_duplicate);
   ("rejected_evidence", LinkStats.evidence_rejected);
   ("checksum_failures", LinkStats.checksum_failures);
   ("oversized", LinkStats.oversized_frames);
   ("sequence_violations", LinkStats.sequence_violations);
   ("handshakes", LinkStats.handshakes_completed);
   ("rejected_handshakes", LinkStats.handshakes_rejected);
   ("windows_committed", LinkStats.windows_committed);
   ("evaluation_failures", LinkStats.evaluations_failed);
   ("idle_dropped", LinkStats.connections_idle_dropped)].

Definition stopped_line (stats : LinkStats.t) : string :=
  "FG-LINK-STOPPED" +:+ print_field "connections" (to_decimal (stats LinkStats.connections_accepted))
  +:+ foldr (λ p text, print_field p.1 (to_decimal (stats p.2)) +:+ text) newline counter_fields.

Section process.
  Context {S : Type} `{Backend S}.

Definition ready_line (address : string) (port : Z) (g : Governor S) : string :=
    "FG-LINK-READY" +:+ print_field "address" address +:+ print_field "port" (to_decimal port)
    +:+ print_field "epoch" (to_decimal (gv_epoch g))
    +:+ print_field "policy" (to_decimal (pol_id (gv_policy g)) +:+ ":" +:+ to_decimal (pol_generation (gv_policy g)))
    +:+ print_field "boot" (to_decimal (inc_boot (gv_incarnation g)))
    +:+ print_field "ordinal" (to_decimal (inc_ordinal (gv_incarnation g))) +:+ newline.

Definition accounting_line (a : FairnessAccounting) : string :=
    "FG-LINK-ACCOUNTING" +:+ print_field "generation" (to_decimal (acc_generation a))
    +:+ print_field "last_window" (to_decimal (acc_last_window a))
    +:+ print_field "subjects" (to_decimal (sizeZ (acc_subjects a))) +:+ newline.

(** ** Serving *)

(** What arrives on a connection and how the sends on it go. *)
Definition Peer : Type := list arrival * list departure.

  (** The accept loop, up to the connection that asks to stop; [ss_stopped] is
      false when none of them did. *)
Record Served := mk_served {
    ss_stopped : bool;
    ss_governor : Governor S;
    ss_stats : LinkStats.t;
    ss_sent : list ByteBuffer }.

Fixpoint serve (options : LinkServerOptions) (peers : list Peer) (s : Served) : option Served :=
    match peers with
    | [] => Some s
    | (arrivals, departures) :: peers =>
        match serve_connection options
                (mk_connection (ss_governor s) [] (LinkStats.count LinkStats.connections_accepted (ss_stats s))
                   arrivals departures [] false) with
        | None => None
        | Some c =>
            let s := mk_served (cn_stop c) (cn_governor c) (cn_stats c) (ss_sent s ++ [cn_sent c]) in
            if cn_stop c then Some s else serve options peers s
        end
    end.

(** ** The process *)

  (** [lr_exit] is [None] while the process still serves; [lr_sent] is what went out
      on each connection. *)
Record LinkRun := mk_link_run {
    lr_exit : option Z;
    lr_out : string;
    lr_err : string;
    lr_store : option S;
    lr_sent : list ByteBuffer }.

Definition link_complaint (code : Z) (what : string) (store : option S) : LinkRun :=
    mk_link_run (Some code) "" (what +:+ newline) store [].

Definition link_usage : string := "usage: fg_evidence_link --scenario <file> [--store <dir>] [--port <n>]".

Definition link_config (s : Scenario) (o : LinkOptions) : GovernorConfig :=
    mk_config (sc_policy s) (lo_store_path o) (sc_epoch s) default_limits false.

Definition link_server_options (o : LinkOptions) : LinkServerOptions :=
    mk_server_options "127.0.0.1" (wrap16 (lo_port o)) 4 8 kMaxFramePayloadBytes 200 50 true.

  (** What follows the stop: the counters and the ledger.  [shutdown] only lets go of
      the store, which keeps what it holds. *)
Definition stopped_run (o : LinkOptions) (out : string) (served : Served) : LinkRun :=
    let out := out +:+ stopped_line (ss_stats served) +:+ accounting_line (gv_accounting (ss_governor served)) in
    mk_link_run (Some 0) (if lo_quiet o then out else out +:+ "FG-LINK-EXIT ok" +:+ newline) ""
      (gv_store (ss_governor served)) (ss_sent served).

Definition serving_run (o : LinkOptions) (peers : list Peer) (net : Listening) (g : Governor S) : option LinkRun :=
    match start (link_server_options o) net with
    | Failure st => Some (link_complaint 3 ("link start failed: " +:+ status_to_string st) (gv_store g))
    | Value (options, address, port) =>
        let out := ready_line address port g in
        match serve options peers (mk_served false g LinkStats.zero []) with
        | None => None
        | Some served =>
            Some (if ss_stopped served then stopped_run o out served
                  else mk_link_run None out "" (gv_store (ss_governor served)) (ss_sent served))
        end
    end.

Definition link_main (arguments : list string) (file : option string) (incarnation : Incarnation) (opened : Result S)
      (net : Listening) (peers : list Peer) : option LinkRun :=
    let untouched := match opened with Value store => Some store | Failure _ => None end in
    match link_options arguments default_link_options with
    | inl argument => Some (link_complaint 2 ("unknown option: " +:+ argument) untouched)
    | inr o =>
        if str_size (lo_scenario_path o) =? 0 then Some (link_complaint 2 link_usage untouched)
        else
          match file with
          | None => Some (link_complaint 2 ("cannot read scenario: " +:+ lo_scenario_path o) untouched)
          | Some text =>
              match parse_scenario text with
              | Failure st => Some (link_complaint 2 ("scenario rejected: " +:+ status_to_string st) untouched)
              | Value s =>
                  if negb (sc_has_policy s) then Some (link_complaint 2 "scenario rejected: no policy directive" untouched)
                  else
                    match open (link_config s o) incarnation opened with
                    | (Failure st, store) =>
                        Some (link_complaint 3 ("governor open failed: " +:+ status_to_string st)
                                (match store with Value store => Some store | Failure _ => None end))
                    | (Value g, _) => serving_run o peers net g
                    end
              end
          end
    end.
End process.
Arguments Served S : clear implicits.
Arguments LinkRun S : clear implicits.
