(* ===== verification/ProcessSpec.v ===== *)
(** The two processes together: a link process visited by publisher processes, the
    last of which asks it to stop.  What each of them sends is what the other is fed,
    and what they print is what the governor's contract calls for. *)
From S2P Require Import Prelude Status Core Bytes Policy Accounting Evidence Outcome Codec Engine Explain Scenario Frame FrameSpec Socket SocketSpec Fsutil Store Governor BackendSpec GovernorSpec GovernorEval GovernorInv GovernorReach GovernorDurable LinkServer LinkClient LinkSpec LinkSession LinkEvents LinkSafety LinkCounts Cli Publisher PublisherSpec LinkProcess.
#[local] Open Scope string_scope.
#[local] Open Scope list_scope.
#[local] Open Scope Z_scope.

(** ** Visits *)

(** A publisher: who it is and what it has to publish. *)
Record Visit := mk_visit { vi_client : LinkClientOptions; vi_evidence : list EvidenceSnapshot }.

(** It is let in if it names the live epoch, and turned away otherwise. *)
Definition live (epoch : Z) (v : Visit) : bool := co_epoch (vi_client v) =? epoch.

(** What the counters gain from [sessions] sessions, one of which asks for the stop,
    and from [stale] publishers that were turned away. *)
Definition visits_gained (evaluating : bool) (sessions stale : Z) (acks : list EvidenceAck) (windows received sent : Z)
    (k : LinkStats.counter) : Z :=
  match k with
  | LinkStats.connections_accepted => sessions + stale
  | LinkStats.handshakes_completed => sessions
  | LinkStats.handshakes_rejected => stale
  | LinkStats.frames_received => 2 * sessions + stale + sizeZ acks
  | LinkStats.shutdown_requests => 1
  | _ => gained evaluating acks windows received sent k
  end.

(** Bytes in all, and those counted as received: not the frames of the handshakes. *)
Definition bytes_in_all (l : list ByteBuffer) : Z := sumZ (sizeZ <$> l).
Definition bytes_counted (l : list ByteBuffer) : Z := sumZ ((λ b, sizeZ b - kFrameHeaderSize) <$> l).

Lemma gained_app evaluating acks1 acks2 w1 w2 r1 r2 s1 s2 k :
  gained evaluating acks1 w1 r1 s1 k + gained evaluating acks2 w2 r2 s2 k
  = gained evaluating (acks1 ++ acks2) (w1 + w2) (r1 + r2) (s1 + s2) k.
Proof.
  revert w1 r1 s1. induction acks1 as [|ack acks1 IH]; intros w1 r1 s1; cbn [app].
  - destruct evaluating; destruct k; unfold gained, code_count, sizeZ; cbn [length List.filter]; lia.
  - rewrite <-(gained_cons _ ack (acks1 ++ acks2) 0 (w1 + w2) 0 (r1 + r2) 0 (s1 + s2)), <-IH,
      <-(gained_cons _ ack acks1 0 w1 0 r1 0 s1). lia.
Qed.

(** A session first, or a publisher that is turned away. *)
Lemma visits_gained_session evaluating n m acks1 acks2 w1 w2 up down r s k :
  occurrences k [LinkStats.connections_accepted] + session_gained evaluating false acks1 w1 up down k
    + visits_gained evaluating n m acks2 w2 r s k
  = visits_gained evaluating (n + 1) m (acks1 ++ acks2) (w1 + w2) (sizeZ up - kFrameHeaderSize + r) (sizeZ down + s) k.
Proof.
  pose proof (gained_app evaluating acks1 acks2 w1 w2 (sizeZ up - kFrameHeaderSize) r (sizeZ down) s k) as Hg.
  destruct k; unfold occurrences; cbn [session_gained visits_gained]; try (cbn [gained] in *; cbn; lia).
  all: unfold sizeZ; rewrite length_app; cbn; lia.
Qed.

Lemma visits_gained_stale evaluating n m acks w sent r s k :
  occurrences k [LinkStats.connections_accepted] + event_gain (mk_event HelloRefused 0 sent) k
    + visits_gained evaluating n m acks w r s k
  = visits_gained evaluating n (m + 1) acks w r (sent + s) k.
Proof.
  destruct k; unfold event_gain, occurrences; cbn [visits_gained gained le_verdict le_sent le_received]; try (cbn; lia);
    destruct evaluating; cbn; lia.
Qed.

Section processes.
  Context {S : Type} `{Backend S}.
  Implicit Types (g : Governor S) (o : LinkServerOptions).

(** The governor stays open to the next session. *)
Record hosting o g : Prop := {
  ho_server : server_ok o;
  ho_link : on_link (gv_epoch g) g;
  ho_serving : gv_stopping g = false }.

Lemma ingest_and_commit_stopping o e g :
  evidence_typed e → gv_stopping (ingest_and_commit o e g).2 = gv_stopping g.
Proof.
  intros Te. unfold ingest_and_commit. assert (gv_stopping (ingest_evidence e g).2 = gv_stopping g) as Hi.
  { by destruct (ingest_cases e g Te) as [(_ & _ & ->)|[(_ & _ & ->)|[[st ->] _]]]. }
  destruct (ingest_evidence e g) as [[result|st] g']; cbn [snd] in *; [|done].
  destruct (_ && _); [|done]. destruct (evaluate _ g') as [d|st]; [|done].
  destruct (commit_cases d g') as [[Hv _]|(after & _ & _ & _ & Hv)];
    pose proof (f_equal gv_stopping Hv) as E; cbn in E; by rewrite E.
Qed.

Lemma govern_hosting o es : ∀ g,
  hosting o g → Forall (publishable o (gv_epoch g)) es →
  hosting o (govern o es g).2 ∧ gv_epoch (govern o es g).2 = gv_epoch g.
Proof.
  induction es as [|e es IH]; intros g Hg Hes; cbn [govern]; [done|].
  apply Forall_cons in Hes as [[Te We He Hs] Hes]. destruct Hg as [Ho Hl Hstop].
  pose proof (ingest_and_commit_on_link o _ e g Te Hl) as Hl1. pose proof (ingest_and_commit_stopping o e g Te) as Hs1.
  destruct (ingest_and_commit o e g) as [ack g1]. cbn [snd] in *. pose proof (ol_epoch _ _ Hl1) as E1.
  destruct (IH g1) as [Hg2 E2]; [constructor; [done|by rewrite E1|by rewrite Hs1]|by rewrite E1|].
  destruct (govern o es g1) as [acks g2]. cbn [snd] in *. by rewrite E2.
Qed.

Lemma govern_app o es1 es2 g :
  govern o (es1 ++ es2) g
  = ((govern o es1 g).1 ++ (govern o es2 (govern o es1 g).2).1, (govern o es2 (govern o es1 g).2).2).
Proof.
  revert g. induction es1 as [|e es1 IH]; intros g; cbn [app govern fst snd]; [apply surjective_pairing|].
  destruct (ingest_and_commit o e g) as [ack g1]. rewrite IH. by destruct (govern o es1 g1).
Qed.

(** ** What the connections carry *)

Definition visit_up (epoch : Z) (v : Visit) : ByteBuffer :=
  if live epoch v then session_up (vi_client v) false (vi_evidence v) else encode_frame (hello_header (vi_client v)) [].

Definition visits_up (epoch : Z) (visits : list Visit) (stopper : LinkClientOptions) : list ByteBuffer :=
  (visit_up epoch <$> visits) ++ [session_up stopper true []].

(** What of a publisher's evidence gets through. *)
Definition visit_evidence (epoch : Z) (v : Visit) : list EvidenceSnapshot := if live epoch v then vi_evidence v else [].

Definition visit_down o (v : Visit) g : ByteBuffer :=
  if live (gv_epoch g) v then session_down o (vi_client v) false (vi_evidence v) g else stale_reply g.

Fixpoint visits_down o (visits : list Visit) (stopper : LinkClientOptions) g : list ByteBuffer :=
  match visits with
  | [] => [session_down o stopper true [] g]
  | v :: visits => visit_down o v g :: visits_down o visits stopper (govern o (visit_evidence (gv_epoch g) v) g).2
  end.

(** Everything published, in order. *)
Definition published_evidence (epoch : Z) (visits : list Visit) : list EvidenceSnapshot := visits ≫= visit_evidence epoch.

(** The publishers that are let in, and those that are turned away. *)
Definition live_visits (epoch : Z) (visits : list Visit) : Z := sizeZ (List.filter (live epoch) visits).
Definition stale_visits (epoch : Z) (visits : list Visit) : Z := sizeZ (List.filter (λ v, negb (live epoch v)) visits).

(** A connection on which these bytes arrive, in any chunks, and every send works. *)
Definition carries o (up : ByteBuffer) (p : Peer) : Prop :=
  ∃ (d : Delivery) rest, p.1 = arrivals_of d ++ rest ∧ timely (so_idle_polls o) d ∧ bytes_of d = up ∧ sendable p.2.

(** A publisher; one of the live epoch has snapshots of that epoch that are valid and
    fit a frame. *)
Record visitor o (epoch : Z) (v : Visit) : Prop := {
  vs_client : publisher_ok (vi_client v);
  vs_evidence : live epoch v = true → Forall (publishable o epoch) (vi_evidence v) }.

Lemma visitor_evidence o epoch v : visitor o epoch v → Forall (publishable o epoch) (visit_evidence epoch v).
Proof. intros [_ Hv]. unfold visit_evidence. destruct (live epoch v); [by apply Hv|constructor]. Qed.

(** ** Serving *)

(** A visit: what it leaves of the governor, what it is answered, and its counters. *)
Lemma serve_visit o v d rest g stats script :
  hosting o g → visitor o (gv_epoch g) v → sendable script → timely (so_idle_polls o) d → bytes_of d = visit_up (gv_epoch g) v →
  (∀ k, u64 (stats k)) →
  let '(acks, g') := govern o (visit_evidence (gv_epoch g) v) g in
  ∃ c', serve_connection o (mk_connection g [] (LinkStats.count LinkStats.connections_accepted stats) (arrivals_of d ++ rest) script [] false) = Some c'
    ∧ cn_governor c' = g' ∧ cn_sent c' = visit_down o v g ∧ cn_stop c' = false ∧ (∀ k, u64 (cn_stats c' k))
    ∧ ∀ k, cn_stats c' k = wrap64 (stats k + (occurrences k [LinkStats.connections_accepted]
        + (if live (gv_epoch g) v
           then session_gained (so_evaluate_on_ingest o) false acks (generation g' - generation g) (visit_up (gv_epoch g) v) (visit_down o v g) k
           else event_gain (mk_event HelloRefused 0 (sizeZ (visit_down o v g))) k))).
Proof.
  intros [Ho Hl Hstop] [Hco Hes] Hsc Hd Hb Hs. unfold visit_evidence, visit_up, visit_down in *.
  destruct (live (gv_epoch g) v) eqn:Ev; unfold live in Ev.
  - apply Z.eqb_eq in Ev. specialize (Hes eq_refl).
    destruct (serve_session o (vi_client v) false (vi_evidence v) d rest g (LinkStats.count LinkStats.connections_accepted stats) script)
      as (c & E & Eg & Es & Et & Ec); try done; [by rewrite Ev|by rewrite Ev|].
    destruct (adds_up_then _ _ _ _ (adds_up_count LinkStats.connections_accepted)
      (session_counts_add o (vi_client v) false (vi_evidence v) g) stats Hs) as [H1 H2].
    rewrite (surjective_pairing (govern o (vi_evidence v) g)). exists c. rewrite Ec. split_and!; try done.
    intros k. rewrite H2. f_equal. f_equal. rewrite session_gains by (by rewrite ?Ev). done.
  - apply Z.eqb_neq in Ev. cbn [govern].
    destruct (serve_stale o (vi_client v) d rest g (LinkStats.count LinkStats.connections_accepted stats) script)
      as (c & E & Eg & Es & Et & Ec); try done.
    destruct (adds_up_then _ _ _ _ (adds_up_count LinkStats.connections_accepted) (stale_counts_add g) stats Hs) as [H1 H2].
    exists c. rewrite Ec. split_and!; try done.
Qed.

(** The accept loop turns what the visitors send into what they are answered, and
    stops at the one that asks. *)
Lemma serve_visits o visits stopper : ∀ g stats sent peers,
  hosting o g → Forall (visitor o (gv_epoch g)) visits → publisher_ok stopper → co_epoch stopper = gv_epoch g →
  (∀ k, u64 (stats k)) → Forall2 (carries o) (visits_up (gv_epoch g) visits stopper) peers →
  let es := published_evidence (gv_epoch g) visits in
  ∃ stats', serve o peers (mk_served false g stats sent)
      = Some (mk_served true (govern o es g).2 stats' (sent ++ visits_down o visits stopper g))
    ∧ ∀ k, stats' k = wrap64 (stats k + visits_gained (so_evaluate_on_ingest o) (live_visits (gv_epoch g) visits + 1)
          (stale_visits (gv_epoch g) visits) (govern o es g).1 (generation (govern o es g).2 - generation g)
          (bytes_counted (visits_up (gv_epoch g) visits stopper)) (bytes_in_all (visits_down o visits stopper g)) k).
Proof.
  induction visits as [|v visits IH]; intros g stats sent peers Hg Hv Hst Hep Hs Hp; unfold visits_up in Hp;
    cbn [fmap list_fmap app] in Hp; apply Forall2_cons_inv_l in Hp as ([w script] & peers' & (d & rest & Hw & Hd & Hb & Hsc) & Hp & ->);
    cbn [fst snd] in *; subst w.
  - apply Forall2_nil_inv_l in Hp as ->. cbn [published_evidence mbind list_bind govern fst snd visits_down]. destruct Hg as [Ho Hl Hstop].
    destruct (serve_session o stopper true [] d rest g (LinkStats.count LinkStats.connections_accepted stats) script)
      as (c & E & Eg & Es & Et & Ec); try done; [by rewrite Hep|].
    destruct (adds_up_then _ _ _ _ (adds_up_count LinkStats.connections_accepted) (session_counts_add o stopper true [] g) stats Hs) as [_ Hc].
    cbn [serve ss_governor ss_stats ss_sent]. rewrite E, Et. eexists. split; [by rewrite Eg, Es|].
    intros k. rewrite Ec, Hc. f_equal. f_equal. rewrite session_gains by (rewrite ?Hep; done || constructor).
    cbn [govern fst snd]. rewrite Z.sub_diag. unfold bytes_counted, bytes_in_all, visits_up. cbn [fmap list_fmap app].
    rewrite !sumZ_cons, !sumZ_nil, !Z.add_0_r. change (live_visits (gv_epoch g) []) with 0. change (stale_visits (gv_epoch g) []) with 0.
    change (sizeZ []) with 0. destruct k, (so_evaluate_on_ingest o); cbn [session_gained visits_gained gained]; unfold occurrences;
      cbn [count_occ]; try reflexivity; cbn; lia.
  - apply Forall_cons in Hv as [Hv1 Hv].
    pose proof (serve_visit o v d rest g stats script Hg Hv1 Hsc Hd Hb Hs) as Hvisit.
    destruct (govern_hosting o (visit_evidence (gv_epoch g) v) g Hg (visitor_evidence _ _ _ Hv1)) as [Hg1 E1].
    change (published_evidence (gv_epoch g) (v :: visits)) with (visit_evidence (gv_epoch g) v ++ published_evidence (gv_epoch g) visits).
    cbn [visits_down]. rewrite govern_app.
    destruct (govern o (visit_evidence (gv_epoch g) v) g) as [acks g1] eqn:Egov. cbn [fst snd] in *.
    destruct Hvisit as (c & E & Eg & Es & Et & Hs1 & Hc1).
    destruct (IH g1 (cn_stats c) (sent ++ [cn_sent c]) peers') as (stats' & E' & Hc'); try done; rewrite ?E1; try done.
    rewrite E1 in Hc', E'. exists stats'. cbn [serve ss_governor ss_stats ss_sent]. rewrite E, Et, Eg, E', Es, <-app_assoc. split; [done|].
    intros k. rewrite Hc', Hc1. unfold wrap64. rewrite Zplus_mod_idemp_l. f_equal. rewrite <-Z.add_assoc. f_equal.
    unfold bytes_counted, bytes_in_all, visits_up, live_visits, stale_visits. cbn [fmap list_fmap app List.filter]. rewrite !sumZ_cons.
    destruct (live (gv_epoch g) v) eqn:Ev; cbn [negb].
    + rewrite visits_gained_session. f_equal; [unfold sizeZ; cbn [length]; lia|lia].
    + rewrite visits_gained_stale. unfold visit_evidence in Egov. rewrite Ev in Egov. injection Egov as <- <-.
      assert (sizeZ (visit_up (gv_epoch g) v) - kFrameHeaderSize = 0) as ->
        by (unfold visit_up, sizeZ, kFrameHeaderSize; rewrite Ev, length_encode_frame; cbn; lia).
      cbn [app]. f_equal. unfold sizeZ. cbn [length]. lia.
Qed.

(** ** The link process *)

Lemma adopt_policy_stopping g record : gv_stopping (adopt_policy g record).2 = gv_stopping g.
Proof.
  unfold adopt_policy. pose proof (commit_policy_volatile g) as Hv.
  repeat case_match; subst; cbn in *; try done;
    try (match goal with E : commit_policy ?g0 = (_, ?g1) |- _ =>
      pose proof (f_equal gv_stopping (commit_policy_volatile g0)) as Hs; rewrite E in Hs; exact Hs end).
Qed.

Lemma adopt_accounting_stopping g record : gv_stopping (adopt_accounting g record).2 = gv_stopping g.
Proof. unfold adopt_accounting. by repeat case_match. Qed.

(** An opened governor serves. *)
Lemma open_serving config i (opened : Result S) g left :
  open config i opened = (Value g, left) → gv_stopping g = false.
Proof.
  unfold open. destruct (check_config config); [|done]. destruct (_ =? 0); [by intros [= <- <-]|].
  destruct opened as [s|]; [|done]. unfold open_durable.
  destruct (be_recover RecordKind.Policy s) as [[pr pn] s1]. destruct (be_recover RecordKind.Accounting s1) as [[ar an] s2].
  destruct pr; [|done]. destruct ar; [|done].
  pose proof (adopt_policy_stopping (fresh_governor config i (Some s2)) (be_load RecordKind.Policy s2)) as H1.
  destruct (adopt_policy _ _) as [[[loaded committed]|st] g1]; [|done]. cbn [snd] in H1. cbv zeta.
  match goal with |- context [adopt_accounting ?g ?r] => pose proof (adopt_accounting_stopping g r) as H2; destruct (adopt_accounting g r) as [[durable|st] g2] end;
    [|done].
  cbn [snd] in H2. intros [= <- <-]. cbn. rewrite H2. cbn. exact H1.
Qed.

Lemma start_loopback lo a port :
  start (link_server_options lo) (mk_listening true a true true (Some port))
  = Value (link_server_options lo, "127.0.0.1", port).
Proof. reflexivity. Qed.

Lemma link_server_ok lo : server_ok (link_server_options lo).
Proof. constructor; cbn; [unfold kMaxFramePayloadBytes|unfold u32]; lia. Qed.

(** The whole output of a link process that was asked to stop. *)
Definition link_output (lo : LinkOptions) (port : Z) g (stats : LinkStats.t) g' : string :=
  let out := ready_line "127.0.0.1" port g +:+ stopped_line stats +:+ accounting_line (gv_accounting g') in
  if lo_quiet lo then out else out +:+ "FG-LINK-EXIT ok" +:+ newline.

Lemma stopped_run_value lo port g g' stats sent :
  stopped_run lo (ready_line "127.0.0.1" port g) (mk_served true g' stats sent)
  = mk_link_run (Some 0) (link_output lo port g stats g') "" (gv_store g') sent.
Proof. reflexivity. Qed.

(** On a scenario it accepts, with its governor open and its socket bound. *)
Lemma link_main_serving arguments lo text s i (opened : Result S) g left a port peers :
  link_options arguments default_link_options = inr lo → str_size (lo_scenario_path lo) <> 0 →
  parse_scenario text = Value s → sc_has_policy s = true → open (link_config s lo) i opened = (Value g, left) →
  link_main arguments (Some text) i opened (mk_listening true a true true (Some port)) peers
  = match serve (link_server_options lo) peers (mk_served false g LinkStats.zero []) with
    | None => None
    | Some served =>
        Some (if ss_stopped served then stopped_run lo (ready_line "127.0.0.1" port g) served
              else mk_link_run None (ready_line "127.0.0.1" port g) "" (gv_store (ss_governor served)) (ss_sent served))
    end.
Proof.
  intros Hlo Hpath Ht Hp Ho. unfold link_main. rewrite Hlo, (proj2 (Z.eqb_neq _ _) Hpath), Ht, Hp, Ho. cbn [negb].
  unfold serving_run. by rewrite start_loopback.
Qed.

(** ** The publisher processes *)

Record Process := mk_process { pc_arguments : list string; pc_file : option string; pc_boot : Z }.

(** What a process with these arguments, this file and this boot identity does in a
    mode: who it is and what it publishes. *)
Definition runs_as (mode : string) (p : Process) (v : Visit) : Prop :=
  ∃ po s, publisher_options (pc_arguments p) default_publisher = inr po ∧ pb_mode po = mode
    ∧ publisher_scenario po (pc_file p) = inr s ∧ pc_boot p <> 0 ∧ sizeZ (sc_evidence s) <= U64_MAX
    ∧ v = mk_visit (with_identity (pc_boot p) (client_options po)) (sc_evidence s).

(** The process, connected at its first attempt to a peer from which these bytes
    come, in any chunks. *)
Definition runs (p : Process) (down : ByteBuffer) (result : Publishing) : Prop :=
  ∀ (d : Delivery) rest script rounds raw, sendable script → timely kClientIdlePolls d → bytes_of d = down →
    publisher_main (pc_arguments p) (pc_file p) (pc_boot p)
      (Connected (mk_socket (arrivals_of d ++ rest) script []) :: rounds) raw = result.

Lemma visitor_publishes o visits g i :
  hosting o g → Forall (visitor o (gv_epoch g)) visits →
  hosting o (govern o (published_evidence (gv_epoch g) (take i visits)) g).2
  ∧ gv_epoch (govern o (published_evidence (gv_epoch g) (take i visits)) g).2 = gv_epoch g.
Proof.
  intros Hg Hv. apply govern_hosting; [done|]. unfold published_evidence. apply Forall_bind.
  eapply Forall_impl; [by apply Forall_take|]. apply visitor_evidence.
Qed.

Lemma visits_down_lookup o stopper i v : ∀ visits g,
  hosting o g → Forall (visitor o (gv_epoch g)) visits → visits !! i = Some v →
  visits_down o visits stopper g !! i
  = Some (visit_down o v (govern o (published_evidence (gv_epoch g) (take i visits)) g).2).
Proof.
  induction i as [|i IH]; intros [|v' visits] g Hg Hv Hi; try done; cbn [lookup list_lookup visits_down] in *.
  - by injection Hi as ->.
  - apply Forall_cons in Hv as [Hv1 Hv].
    destruct (govern_hosting o (visit_evidence (gv_epoch g) v') g Hg (visitor_evidence _ _ _ Hv1)) as [Hg1 E1].
    change (published_evidence (gv_epoch g) (take (Datatypes.S i) (v' :: visits)))
      with (visit_evidence (gv_epoch g) v' ++ published_evidence (gv_epoch g) (take i visits)).
    rewrite govern_app. pose proof (IH visits _ Hg1 ltac:(by rewrite E1) Hi) as E. by rewrite E1 in E.
Qed.

Lemma visits_down_last o stopper : ∀ visits g,
  hosting o g → Forall (visitor o (gv_epoch g)) visits →
  visits_down o visits stopper g !! length visits
  = Some (session_down o stopper true [] (govern o (published_evidence (gv_epoch g) visits) g).2).
Proof.
  induction visits as [|v visits IH]; intros g Hg Hv; [done|]. cbn [length visits_down lookup list_lookup].
  apply Forall_cons in Hv as [Hv1 Hv].
  destruct (govern_hosting o (visit_evidence (gv_epoch g) v) g Hg (visitor_evidence _ _ _ Hv1)) as [Hg1 E1].
  change (published_evidence (gv_epoch g) (v :: visits)) with (visit_evidence (gv_epoch g) v ++ published_evidence (gv_epoch g) visits).
  rewrite govern_app. pose proof (IH _ Hg1 ltac:(by rewrite E1)) as E. by rewrite E1 in E.
Qed.

(** What becomes of a publisher that visits a governor. *)
Definition publishing o (v : Visit) g : Publishing :=
  if live (gv_epoch g) v
  then mk_publishing 0 (published (session_of (hello_header (vi_client v))) (vi_evidence v) (govern o (vi_evidence v) g).1) ""
         (session_up (vi_client v) false (vi_evidence v)) []
  else mk_publishing 3 turned_away "" (encode_frame (hello_header (vi_client v)) []) [].

Lemma publishing_live o v g : live (gv_epoch g) v = true →
  publishing o v g = mk_publishing 0 (published (session_of (hello_header (vi_client v))) (vi_evidence v) (govern o (vi_evidence v) g).1) ""
    (session_up (vi_client v) false (vi_evidence v)) [].
Proof. unfold publishing. by intros ->. Qed.

Lemma publishing_stale o v g : live (gv_epoch g) v = false →
  publishing o v g = mk_publishing 3 turned_away "" (encode_frame (hello_header (vi_client v)) []) [].
Proof. unfold publishing. by intros ->. Qed.

(** A publisher among the visitors. *)
Lemma process_publishes o p v g :
  hosting o g → visitor o (gv_epoch g) v → runs_as "normal" p v → runs p (visit_down o v g) (publishing o v g).
Proof.
  intros [Ho Hl _] [Hco Hes] (po & s & Ha & Hm & Hs & Hb & Hz & ->) d rest script rounds raw Hsc Hd Hdown.
  unfold visit_down, publishing in *. cbn [vi_client vi_evidence] in *.
  destruct (live (gv_epoch g) _) eqn:Ev; unfold live in Ev; cbn [vi_client] in Ev.
  - apply Z.eqb_eq in Ev. by apply (publisher_run _ po _ s _ _ _ o g); rewrite ?Ev; auto.
  - by apply (publisher_turned_away _ po _ s _ _ _ g).
Qed.

(** What a publisher prints that only asks for the stop. *)
Definition farewell_printed (session : Z) : string :=
  ("FG-PUB-HANDSHAKE status=OK session=" +:+ to_decimal session +:+ newline)
  +:+ "FG-PUB-GOODBYE status=" +:+ StatusCode.to_string StatusCode.Ok +:+ newline.

Lemma process_stops o p v g :
  hosting o g → publisher_ok (vi_client v) → co_epoch (vi_client v) = gv_epoch g → runs_as "shutdown" p v →
  runs p (session_down o (vi_client v) true [] g)
    (mk_publishing 0 (farewell_printed (session_of (hello_header (vi_client v)))) "" (session_up (vi_client v) true []) []).
Proof.
  intros [Ho Hl _] Hco He (po & s & Ha & Hm & Hs & Hb & _ & ->) d rest script rounds raw Hsc Hd Hdown.
  cbn [vi_client vi_evidence] in *.
  rewrite (publisher_main_connects _ po _ s _ _ _ Ha Hs Hco) by (left; by rewrite Hm).
  unfold connect_run. rewrite connect_identity by done. rewrite <-He in Hl.
  destruct (publish_session o _ (pc_boot p) rounds default_hello_ack true [] d rest script g
    Ho Hco Hl (Forall_nil_2 _) Hsc Hd Hdown) as (cl & -> & _ & Eg & Eu).
  unfold connected_run. rewrite Hm. change (String.eqb "shutdown" "shutdown") with true. cbv iota.
  change (publish_all [] cl).2 with cl in Eg, Eu.
  change (client_sent (goodbye true cl).2) with (socket_sent (goodbye true cl).2) in Eu.
  destruct (goodbye true cl) as [sent cl']. cbn [fst snd] in Eg, Eu. subst sent. by rewrite Eu.
Qed.
End processes.

(** ** The store at the end *)

Section durable.
  Context {S : Type} `{DurabilityLaws S}.
  Implicit Types (g : Governor S) (o : LinkServerOptions).

Lemma ingest_and_commit_kept o e g s :
  evidence_typed e → governor_ok g → ledger_room (gv_accounting g) → persisted g s →
  governor_ok (ingest_and_commit o e g).2 ∧ ∃ s', persisted (ingest_and_commit o e g).2 s'.
Proof.
  intros Te Hg Hroom Hp. pose proof (ingest_ok e g Te Hg) as Hg1. pose proof (ingest_persisted e g s Te Hp) as Hp1.
  assert (gv_accounting (ingest_evidence e g).2 = gv_accounting g) as Ea
    by by destruct (ingest_cases e g Te) as [(_ & _ & ->)|[(_ & _ & ->)|[[st ->] _]]].
  unfold ingest_and_commit. destruct (ingest_evidence e g) as [[result|st] g1]; cbn [snd] in *; [|eauto].
  destruct (_ && _); [|eauto]. destruct (evaluate _ g1) as [d|st] eqn:E; [|eauto].
  rewrite <-Ea in Hroom. pose proof (serving_context (make_request_for e (authority g)) g1 Hg1 Hroom) as Hctx.
  pose proof (proj1 (evaluated_bounded Hctx E (et_window e Te) (et_window_generation e Te))) as Hd.
  split; [by apply commit_ok|].
  destruct (commit_persisted d g1 s Hd Hg1 Hp1) as [(s' & _ & [? _])|(st & ->)]; eauto.
Qed.

(** While the ledger has room, the store holds what the governor serves. *)
Lemma govern_kept o es : ∀ g s,
  Forall evidence_typed es → governor_ok g → persisted g s →
  (∀ n, ledger_room (gv_accounting (govern o (take n es) g).2)) →
  governor_ok (govern o es g).2 ∧ ∃ s', persisted (govern o es g).2 s'.
Proof.
  induction es as [|e es IH]; intros g s Ht Hg Hp Hroom; cbn [govern]; [eauto|].
  apply Forall_cons in Ht as [Te Ht].
  destruct (ingest_and_commit_kept o e g s Te Hg (Hroom 0%nat) Hp) as [Hg1 [s1 Hp1]].
  assert (∀ n, ledger_room (gv_accounting (govern o (take n es) (ingest_and_commit o e g).2).2)) as Hroom1.
  { intros n. specialize (Hroom (1 + n)%nat). cbn [Nat.add take govern] in Hroom.
    destruct (ingest_and_commit o e g) as [ack g1]. cbn [snd]. by destruct (govern o (take n es) g1). }
  destruct (ingest_and_commit o e g) as [ack g1]. cbn [snd] in *. pose proof (IH g1 s1 Ht Hg1 Hp1 Hroom1) as HH.
  by destruct (govern o es g1).
Qed.
End durable.
