(* ===== verification/ScenarioFixture.v ===== *)
(** A concrete scenario document and what it means. *)
From S2P Require Import Prelude Status Core Policy PolicyValid Accounting Evidence Outcome Engine Fixture FixtureSpec Explain ExplainSpec Scenario ScenarioText ScenarioLines ScenarioTyped ScenarioPrint Fsutil Store StoreSpec Governor BackendSpec GovernorSpec GovernorEval GovernorInv GovernorReach GovernorDurable GovernorLife Disk GovernorFixture Cli.
#[local] Open Scope string_scope.
#[local] Open Scope list_scope.
#[local] Open Scope Z_scope.

(** One group, two subjects, one window of evidence and a request. *)
Definition sample_text : string :=
  text_of
    [ "# two flows share one link";
      "version 1";
      "epoch 1";
      "policy 1 1 window_units=100 fair_band=2 correction_threshold=20 max_correction=1000 max_modifier_bps=10 source=unit revision=1";
      "group 1 1 weight=1 label=the root group";
      "";
      "subject 11 1 group=1 weight=1 priority=7:1 modifier_bps=-5 label=  flow a";
      "subject 12 1 group=1 weight=1 floor=30 rank=1 protected=1 # a protected flow";
      "evidence 5 1 window=9 window_gen=1 epoch=1 captured_ns=1000 sequence=1 producer=probe instance=1 version=1";
      "obs 11 1 served=80";
      "obs 12 1 served=40 qos=3:2";
      "request policy=1:1 evidence=5:1 window=9:1 epoch=1 now_ns=2000 request_id=1" ].


Definition sample_scenario : Scenario := Eval vm_compute in value_or default_scenario (parse_scenario sample_text).

Lemma sample_parsed : parse_scenario sample_text = Value sample_scenario.
Proof. vm_compute. reflexivity. Qed.

Lemma sample_scenario_wf : scenario_wf sample_scenario.
Proof. exact (proj1 (parse_scenario_wf _ _ sample_parsed)). Qed.

Lemma sample_printable : scenario_printable sample_scenario.
Proof.
  pose proof sample_scenario_wf as Hw. constructor; [exact Hw| | |].
  - assert (sc_has_policy sample_scenario = true) as -> by (vm_compute; reflexivity).
    constructor; [apply Hw|vm_compute; reflexivity..| |];
      (repeat (apply Forall_cons; split); [..|apply Forall_nil; exact I]; constructor; vm_compute; reflexivity).
  - assert (Forall (λ e, plain (producer_name (ev_producer e)) = true ∧ ev_provenance e = no_provenance) (sc_evidence sample_scenario)) as Hs.
    { apply Forall_cons. split; [split; vm_compute; reflexivity|apply Forall_nil; exact I]. }
    pose proof (ct_evidence _ (cw_typed _ Hw)) as Ht. rewrite Forall_forall in Hs, Ht |- *.
    intros e He. destruct (Hs e He). constructor; auto.
  - assert (sc_has_request sample_scenario = true) as -> by (vm_compute; reflexivity).
    constructor; [apply Hw|vm_compute; reflexivity].
Qed.

(** A mistake on the third line: the attributes of a group may appear once only. *)
Definition faulty_text : string :=
  text_of ["version 1"; "policy 1 1"; "group 1 1 weight=1 weight=2"; "subject"].

Example faulty_value :
  parse_scenario faulty_text = fail StatusCode.InvalidArgument "line 3: duplicate group attribute: weight".
Proof. vm_compute. reflexivity. Qed.

(** What the header of the format calls errors and the parser accepts: text after a
    label attribute on any line, a policy attribute that appears twice, and a snapshot
    of another epoch than the policy's. *)
Definition swallowing_text : string := text_of ["version 1"; "epoch 3 label=anything at all"].
Definition repeating_text : string :=
  text_of ["version 1"; "epoch 1"; "policy 1 1 window_units=100 fair_band=1 fair_band=2 correction_threshold=20 max_correction=1000 max_modifier_bps=10 source=unit revision=1"; "group 1 1 weight=1"; "subject 11 1 group=1 weight=1"].
Definition foreign_text : string :=
  text_of ["version 1"; "epoch 1";
    "policy 1 1 window_units=100 fair_band=2 correction_threshold=20 max_correction=1000 max_modifier_bps=10 source=unit revision=1"; "group 1 1 weight=1"; "subject 11 1 group=1 weight=1";
    "evidence 5 1 window=9 window_gen=1 epoch=2 captured_ns=1000 sequence=1 producer=probe instance=1 version=1";
    "obs 11 1 served=80"].

Lemma swallowing_parsed : ∃ s, parse_scenario swallowing_text = Value s ∧ sc_epoch s = 3.
Proof. eexists. split; vm_compute; reflexivity. Qed.

Lemma repeating_parsed : ∃ s, parse_scenario repeating_text = Value s ∧ pol_fair_band_units (sc_policy s) = 2.
Proof. eexists. split; vm_compute; reflexivity. Qed.

Lemma foreign_parsed :
  ∃ s, parse_scenario foreign_text = Value s ∧ pol_epoch (sc_policy s) = 1 ∧ ev_epoch <$> sc_evidence s = [2].
Proof. eexists. split_and!; vm_compute; reflexivity. Qed.

(** ** Runs of the command line *)

Definition sample_options : CliOptions := mk_cli true false false false true "/var/lib/fg".
Definition sample_governor : Governor Disk :=
  (opening (scenario_config sample_scenario sample_options) sample_incarnation empty_disk).1.
Definition sample_disk : Disk :=
  (opening (scenario_config sample_scenario sample_options) sample_incarnation empty_disk).2.

Lemma sample_opening :
  open (scenario_config sample_scenario sample_options) sample_incarnation (Value empty_disk)
  = (Value sample_governor, Value sample_disk).
Proof. vm_compute. reflexivity. Qed.

Lemma sample_governor_ok : governor_ok sample_governor ∧ persisted sample_governor sample_disk.
Proof.
  assert (str_size (cfg_store_path (scenario_config sample_scenario sample_options)) <> 0) as Hpath by (vm_compute; discriminate).
  destruct (open_value _ _ _ _ _ Hpath sample_opening) as [_ E].
  assert (check_config (scenario_config sample_scenario sample_options) = Value tt) as Hc by (vm_compute; reflexivity).
  destruct (open_durable_first (scenario_config sample_scenario sample_options) sample_incarnation Hc
    (ct_policy _ (cw_typed _ sample_scenario_wf)) ltac:(split; concrete) ltac:(concrete) empty_disk _ _ empty_disk_sound E) as [R Hp].
  split; [exact (proj2 (proj2 (proj2 (proj2 (proj2 (proj2 (proj2 (proj2 (proj2 R)))))))))|exact Hp].
Qed.

Lemma sample_room : ledger_room (gv_accounting sample_governor).
Proof. constructor; [concrete|..]; apply (bool_decide_unpack _); vm_compute; reflexivity. Qed.
