(* ===== verification/Benchmark.v ===== *)
(** The benchmark: [bench/fg_bench.cpp].  The synthetic populations it draws, what it
    evaluates on them, and its sweep.  Clocks are not modelled: a measurement is the
    number of evaluations and the digest folded over them. *)
From S2P Require Import Prelude Status Core Policy Accounting Evidence Outcome Engine Planner Explain Scenario Publisher.
From coqutil Require Import Datatypes.RecordSetters.
Import DoubleBraceUpdate.
#[local] Open Scope string_scope.
#[local] Open Scope list_scope.
#[local] Open Scope Z_scope.

(** ** The generator *)

(** One draw: the value and the state it leaves. *)
Definition next (state : Z) : Z * Z :=
  let state := add64 state 11400714819323198485 in
  let z := state in
  let z := mul64 (Z.lxor z (Z.shiftr z 30)) 13787848793156543929 in
  let z := mul64 (Z.lxor z (Z.shiftr z 27)) 10723151780598845931 in
  (Z.lxor z (Z.shiftr z 31), state).

Definition seed_state (seed : Z) : Z := if seed =? 0 then 81985529216486895 else seed.

(** ** Populations *)

Record SyntheticPopulation := mk_population {
  sy_policy : FairnessPolicy;
  sy_evidence : EvidenceSnapshot;
  sy_request : EvaluationRequest;
  sy_epoch : Z }.

Definition draw_group (level index : nat) (level_ids : list Z) (group_id_ state : Z) : FairnessGroup * Z :=
  let group := default_group {{ group_id := group_id_; group_generation := 1 }} in
  let group :=
    if (0 <? level)%nat
    then group {{ group_parent := nth (index mod length level_ids) level_ids 0 }} else group in
  let '(draw, state) := next state in
  (group {{ group_share_weight := 1 + draw mod 16; group_guarantee_floor := 0; group_obligation_rank := 0 }}, state).

(** The groups of one level: the next identity and state come last. *)
Fixpoint draw_level (level : nat) (indices : list nat) (level_ids : list Z) (group_id state : Z)
    : list FairnessGroup * (Z * Z) :=
  match indices with
  | [] => ([], (group_id, state))
  | index :: indices =>
      let '(group, state) := draw_group level index level_ids group_id state in
      let '(groups, rest) := draw_level level indices level_ids (add64 group_id 1) state in
      (group :: groups, rest)
  end.

(** The loop over the levels; [groups] is [policy.groups] so far. *)
Fixpoint draw_levels (levels : list nat) (level_ids : list Z) (groups : list FairnessGroup) (group_id_ state : Z)
    : list FairnessGroup * list Z * Z :=
  match levels with
  | [] => (groups, level_ids, state)
  | level :: levels =>
      let width := if (level =? 0)%nat then 1%nat else 4%nat in
      let '(added, (next_id, state)) := draw_level level (seq 0 width) level_ids group_id_ state in
      draw_levels levels (group_id <$> added) (groups ++ added) next_id state
  end.

Definition draw_subject (group id state : Z) : Subject * SubjectObservation * Z :=
  let '(weight, state) := next state in
  let '(floor, state) := next state in
  let '(starvation, state) := next state in
  let '(modifier, state) := next state in
  let '(rank, state) := next state in
  let rank := if rank mod 8 =? 0 then 2 else 0 in
  let subject := default_subject {{ subj_id := id; subj_generation := 1; subj_group := group;
    subj_share_weight := 1 + weight mod 64;
    subj_guarantee_floor := if floor mod 8 =? 0 then 1000 else 0;
    subj_starvation_windows := if starvation mod 4 =? 0 then 3 else 0;
    subj_guarantee_starvation_windows := 0;
    subj_priority_modifier_bps := modifier mod 2001 - 1000;
    subj_obligation_rank := rank;
    subj_protected_obligation := rank >? 0;
    subj_max_reduce_units := 1048576;
    subj_max_augment_units := 1048576 }} in
  let '(served, state) := next state in
  let observation := default_observation {{ obs_id := subj_id subject; obs_generation := subj_generation subject;
    obs_served_units := served mod 4096;
    obs_unserved_streak := if served mod 4096 =? 0 then 1 else 0 }} in
  (subject, observation, state).

(** The loop over the subjects. *)
Fixpoint draw_subjects (indices : list nat) (level_ids : list Z) (subject_id state : Z)
    : list Subject * list SubjectObservation :=
  match indices with
  | [] => ([], [])
  | i :: indices =>
      let '(subject, observation, state) :=
        draw_subject (nth (i mod length level_ids) level_ids 0) subject_id state in
      let '(subjects, observations) := draw_subjects indices level_ids (add64 subject_id 1) state in
      (subject :: subjects, observation :: observations)
  end.

Definition synthetic_policy (history_windows : Z) : FairnessPolicy :=
  default_policy {{ pol_id := 1; pol_generation := 1; pol_epoch := 1;
    pol_fair_band_units := 8; pol_correction_threshold_units := 64; pol_cooldown_windows := 0;
    pol_max_correction_units := 4294967296; pol_max_correction_bps := 2500;
    pol_max_priority_modifier_bps := 2000; pol_max_evidence_age_windows := wrap32 history_windows;
    pol_max_carry_units := 1099511627776 }}.

Definition synthetic_evidence (history_windows : Z) : EvidenceSnapshot :=
  default_evidence {{ ev_id := 1; ev_generation := 1;
    ev_window := if history_windows =? 0 then 1 else history_windows; ev_window_generation := 1;
    ev_epoch := 1; ev_sequence := 1; ev_producer := mk_producer "fg_bench_synthetic" 1 0 }}.

Definition build_population (subject_count group_depth history_windows seed : Z) : SyntheticPopulation :=
  let depth := Z.max 1 group_depth in
  let '(groups, level_ids, state) := draw_levels (seq 0 (Z.to_nat depth)) [] [] 1 (seed_state seed) in
  let '(subjects, observations) := draw_subjects (seq 0 (Z.to_nat subject_count)) level_ids 1 state in
  let policy := (synthetic_policy history_windows) {{ pol_groups := groups; pol_subjects := subjects }} in
  let evidence := (synthetic_evidence history_windows) {{ ev_observations := observations }} in
  let request := default_request {{ rq_policy_id := pol_id policy; rq_policy_generation := pol_generation policy;
    rq_epoch := 1; rq_evidence_id := ev_id evidence; rq_evidence_generation := ev_generation evidence;
    rq_window := ev_window evidence; rq_window_generation := ev_window_generation evidence;
    rq_request_id := 1 }} in
  mk_population policy evidence request 1.

(** ** Measuring *)

(** The ledger a measurement starts from: an empty entry for every subject. *)
Definition measured_accounting (p : SyntheticPopulation) : FairnessAccounting :=
  empty_accounting {{ acc_policy_id := pol_id (sy_policy p); acc_policy_generation := pol_generation (sy_policy p);
    acc_epoch := sy_epoch p;
    acc_subjects := (λ s, empty_subject_accounting {{ sa_id := subj_id s; sa_generation := subj_generation s }})
                      <$> pol_subjects (sy_policy p) }}.

Definition measured_context (p : SyntheticPopulation) : EvaluationContext :=
  mk_context (Some (sy_policy p)) (Some (measured_accounting p)) (Some (sy_evidence p)) (sy_request p)
    (sy_epoch p) (ev_window (sy_evidence p)) 0.

Record Measurement := mk_measurement { me_evaluations : Z; me_digest : Z }.

(** [digest ^= content + golden + (digest << 6) + (digest >> 2)]. *)
Definition fold_digest (digest content : Z) : Z :=
  Z.lxor digest
    (add64 (add64 (add64 content 11400714819323198485) (mul64 digest 64)) (Z.shiftr digest 2)).

(** [n] evaluations to warm up. *)
Fixpoint warm_up (n : nat) (context : EvaluationContext) : Result unit :=
  match n with
  | O => Value tt
  | Datatypes.S n => let? _ := evaluate_fairness context in warm_up n context
  end.

(** [n] evaluations, their digests folded; the failure of one ends the program. *)
Fixpoint evaluations (n : nat) (context : EvaluationContext) (digest : Z) : Result Z :=
  match n with
  | O => Value digest
  | Datatypes.S n =>
      let? decision := evaluate_fairness context in
      evaluations n context (fold_digest digest (fd_content_digest decision))
  end.

Definition measure (p : SyntheticPopulation) (iterations : Z) : Result Measurement :=
  let context := measured_context p in
  let? _ := warm_up 8 context in
  let? digest := evaluations (Z.to_nat iterations) context 0 in
  Value (mk_measurement iterations digest).

(** ** The program *)

Record BenchOptions := mk_bench { bn_iterations : Z; bn_quick : bool }.

Definition default_bench : BenchOptions := mk_bench 2000 false.

(** The option loop; what it does not know it skips. *)
Fixpoint bench_options (arguments : list string) (o : BenchOptions) : BenchOptions :=
  match arguments with
  | [] => o
  | argument :: rest =>
      match rest with
      | value :: rest' =>
          if String.eqb argument "--iterations" then bench_options rest' (o {{ bn_iterations := strtoul value }})
          else if String.eqb argument "--quick" then bench_options rest (mk_bench 200 true)
          else bench_options rest o
      | [] => if String.eqb argument "--quick" then mk_bench 200 true else o
      end
  end.

(** Subjects, depth and history of each measurement, in the order of the loops. *)
Definition sweep (quick : bool) : list (Z * Z * Z) :=
  let subject_counts := if quick then [8; 64; 512] else [8; 64; 512; 4096] in
  let group_depths := if quick then [1; 2] else [1; 2; 4] in
  let histories := if quick then [1; 64] else [1; 64; 1024] in
  s ← subject_counts; d ← group_depths; h ← histories; [(s, d, h)].

(** A line of the table, without its timings. *)
Record Row := mk_row {
  row_subjects : Z;
  row_groups : Z;
  row_depth : Z;
  row_history : Z;
  row_measurement : Measurement }.

Definition scaled (iterations subject_count : Z) : Z := Z.max 16 (mul64 iterations 64 / Z.max subject_count 1).

Definition bench_row (iterations : Z) (point : Z * Z * Z) : Result Row :=
  let '(subject_count, depth, history) := point in
  let population := build_population subject_count depth history
    (add64 (add64 (mul64 subject_count 31) (wrap32 (depth * 7))) history) in
  let? measurement := measure population (scaled iterations subject_count) in
  Value (mk_row subject_count (sizeZ (pol_groups (sy_policy population))) depth history measurement).

(** The rows printed, and the failure that ended the program early. *)
Fixpoint bench_rows (iterations : Z) (points : list (Z * Z * Z)) : list Row * option Status :=
  match points with
  | [] => ([], None)
  | point :: points =>
      match bench_row iterations point with
      | Failure st => ([], Some st)
      | Value row => let '(rows, failure) := bench_rows iterations points in (row :: rows, failure)
      end
  end.

Record BenchRun := mk_bench_run { bench_exit : Z; bench_table : list Row; bench_err : string }.

Definition bench_main (arguments : list string) : BenchRun :=
  let o := bench_options arguments default_bench in
  let '(rows, failure) := bench_rows (bn_iterations o) (sweep (bn_quick o)) in
  match failure with
  | Some st => mk_bench_run 1 rows ("benchmark evaluation failed: " +:+ status_to_string st +:+ newline)
  | None => mk_bench_run 0 rows ""
  end.
