(* ===== verification/BenchmarkSpec.v ===== *)
(** What the benchmark's populations are: the groups form the forest it draws, level
    by level, and the subjects share the deepest level.  With that every population
    can be evaluated, and only those of one level are valid policies. *)
From S2P Require Import Prelude Status Core Policy PolicyValid Accounting Evidence Outcome Distributor BuildSpec Engine Planner EngineSpec PlannerSpec EvalSpec Explain Scenario Publisher Benchmark.
#[local] Open Scope string_scope.
#[local] Open Scope list_scope.
#[local] Open Scope Z_scope.

(** ** Groups *)

(** A drawn group: its identity and its parent. *)
Definition drawn_group (id parent : Z) (g : FairnessGroup) : Prop :=
  ∃ weight, 1 <= weight <= 16 ∧ g = mk_group id 1 parent weight 0 0 false "".

Definition parent_of (level index : nat) (level_ids : list Z) : Z :=
  if (0 <? level)%nat then nth (index mod length level_ids) level_ids 0 else 0.

Lemma draw_group_drawn level index level_ids id state :
  drawn_group id (parent_of level index level_ids) (draw_group level index level_ids id state).1.
Proof.
  unfold draw_group, parent_of. destruct (next state) as [d st]. exists (1 + d mod 16).
  split; [pose proof (Z.mod_pos_bound d 16); lia|]. by destruct (0 <? level)%nat.
Qed.

Lemma draw_level_spec level level_ids indices : ∀ id state,
  0 <= id → id + sizeZ indices < 2 ^ 64 →
  let '(groups, (next_id, _)) := draw_level level indices level_ids id state in
  next_id = id + sizeZ indices ∧ length groups = length indices
  ∧ ∀ j g, groups !! j = Some g → ∃ i, indices !! j = Some i
      ∧ drawn_group (id + Z.of_nat j) (parent_of level i level_ids) g.
Proof.
  unfold sizeZ. induction indices as [|i indices IH]; intros id state Hid Hb; cbn [draw_level length].
  - split; [lia|]. split; [done|]. intros j g Hj. by rewrite lookup_nil in Hj.
  - cbn [length] in Hb. pose proof (draw_group_drawn level i level_ids id state) as Hg.
    destruct (draw_group level i level_ids id state) as [g0 st]. cbn [fst] in Hg.
    rewrite add64_small by ulia. specialize (IH (id + 1) st ltac:(lia) ltac:(lia)).
    destruct (draw_level level indices level_ids (id + 1) st) as [groups [next_id st']].
    destruct IH as (-> & Hl & Hall). split; [lia|]. split; [cbn; lia|].
    intros [|j] g Hj; cbn in Hj.
    + injection Hj as <-. exists i. split; [done|]. by rewrite Z.add_0_r.
    + destruct (Hall j g Hj) as (i' & Hi' & Hd). exists i'. split; [done|].
      by replace (id + Z.of_nat (S j)) with (id + 1 + Z.of_nat j) by lia.
Qed.

(** What a level adds: consecutive identities, and each group's parent. *)
Lemma draw_level_ids level level_ids n id state :
  0 <= id → id + Z.of_nat n < 2 ^ 64 →
  let '(groups, (next_id, _)) := draw_level level (seq 0 n) level_ids id state in
  next_id = id + Z.of_nat n ∧ group_id <$> groups = seqZ id (Z.of_nat n)
  ∧ ∀ j, (j < n)%nat → ∃ g, groups !! j = Some g ∧ drawn_group (id + Z.of_nat j) (parent_of level j level_ids) g.
Proof.
  intros Hid Hb. pose proof (draw_level_spec level level_ids (seq 0 n) id state Hid) as H.
  unfold sizeZ in H. rewrite length_seq in H. specialize (H Hb).
  destruct (draw_level level (seq 0 n) level_ids id state) as [groups [next_id st]]. destruct H as (-> & Hl & Hall).
  assert (∀ j, (j < n)%nat → ∃ g, groups !! j = Some g ∧ drawn_group (id + Z.of_nat j) (parent_of level j level_ids) g) as Hj.
  { intros j Hj. destruct (lookup_lt_is_Some_2 groups j ltac:(lia)) as [g Hg]. exists g. split; [done|].
    destruct (Hall j g Hg) as (i & Hi & Hd). apply lookup_seq in Hi as [-> _]. done. }
  split; [done|]. split; [|done]. apply list_eq. intros j. rewrite list_lookup_fmap.
  destruct (decide (j < n)%nat) as [Hlt|Hge].
  - destruct (Hj j Hlt) as (g & -> & w & _ & ->). symmetry. apply lookup_seqZ. cbn. lia.
  - rewrite lookup_ge_None_2 by lia. symmetry. apply lookup_ge_None_2. rewrite length_seqZ. lia.
Qed.

(** Root paths survive more groups and a larger bound. *)
Lemma root_within_grows groups more n m id :
  root_within groups n id → (n <= m)%nat → root_within (groups ++ more) m id.
Proof.
  intros H. revert m. induction H as [n g Hg Hp|n g Hg Hp _ IH]; intros [|m] Hm; try lia.
  - apply root_here; set_solver.
  - apply root_above; [set_solver|done|]. apply IH. lia.
Qed.

Lemma root_within_one groups id :
  root_within groups 1 id → ∃ g, g ∈ groups ∧ group_parent g = 0 ∧ group_id g = id.
Proof. inversion 1 as [k g Hg Hp Ek Eid|k g Hg Hp Habove]; subst; [by exists g|inversion Habove]. Qed.

(** The groups after [levels] levels, the last of which has the identities [ids]. *)
Record forest (levels : nat) (groups : list FairnessGroup) (ids : list Z) : Prop := {
  fo_ids : group_id <$> groups = seqZ 1 (sizeZ groups);
  fo_size : sizeZ groups = 4 * Z.of_nat levels - 3;
  fo_drawn : ∀ g, g ∈ groups → drawn_group (group_id g) (group_parent g) g;
  fo_parents : ∀ g, g ∈ groups → 0 <= group_parent g <= sizeZ groups;
  fo_rooted : ∀ g, g ∈ groups → root_within groups levels (group_id g);
  fo_level : (1 <= length ids <= 4)%nat;
  fo_level_in : ∀ id, id ∈ ids → id ∈ group_id <$> groups;
  fo_inner : ∀ g, g ∈ groups → group_id g ∈ ids ∨ ∃ c, c ∈ groups ∧ group_parent c = group_id g;
  fo_root : if (levels =? 1)%nat then ids = [1] else 1 ∉ ids }.

Lemma forest_first state :
  let '(added, (next_id, _)) := draw_level 0 (seq 0 1) [] 1 state in
  next_id = 1 + sizeZ added ∧ forest 1 added (group_id <$> added).
Proof.
  pose proof (draw_level_ids 0 [] 1 1 state ltac:(lia) ltac:(lia)) as H.
  destruct (draw_level 0 (seq 0 1) [] 1 state) as [added [next_id st]]. destruct H as (-> & Hids & Hj).
  destruct (Hj 0%nat ltac:(lia)) as (g & Hg & w & Hw & Eg).
  destruct added as [|g' [|? ?]]; [done| |by apply (f_equal length) in Hids]. injection Hg as ->. subst g.
  split; [done|]. constructor; cbn; try done; try lia.
  - intros g ->%list_elem_of_singleton. by exists w.
  - intros g ->%list_elem_of_singleton. cbn. unfold sizeZ. cbn. lia.
  - intros g ->%list_elem_of_singleton. apply root_here; [set_solver|done].
  - intros g ->%list_elem_of_singleton. left. set_solver.
Qed.

Lemma forest_in_range levels groups ids g : forest levels groups ids → g ∈ groups → 1 <= group_id g <= sizeZ groups.
Proof.
  intros F Hg. assert (group_id g ∈ group_id <$> groups) as Hin by by apply list_elem_of_fmap_2.
  rewrite (fo_ids _ _ _ F) in Hin. apply elem_of_seqZ in Hin. lia.
Qed.

(** A parent drawn for the next level is one of the last. *)
Lemma parent_of_level levels index ids : (1 <= levels)%nat → (1 <= length ids)%nat → parent_of levels index ids ∈ ids.
Proof.
  intros Hl Hi. unfold parent_of. rewrite (proj2 (Nat.ltb_lt 0 levels)) by lia.
  apply list_elem_of_In, nth_In. apply Nat.mod_upper_bound. lia.
Qed.

Lemma forest_step levels groups ids state :
  forest levels groups ids → (1 <= levels <= 8)%nat →
  let '(added, (next_id, _)) := draw_level levels (seq 0 4) ids (1 + sizeZ groups) state in
  next_id = 1 + sizeZ (groups ++ added) ∧ forest (S levels) (groups ++ added) (group_id <$> added).
Proof.
  intros F Hlev. pose proof (fo_size _ _ _ F) as Hsize. pose proof (fo_level _ _ _ F) as Hlen.
  pose proof (draw_level_ids levels ids 4 (1 + sizeZ groups) state ltac:(lia) ltac:(lia)) as H.
  destruct (draw_level levels (seq 0 4) ids (1 + sizeZ groups) state) as [added [next_id st]].
  destruct H as (-> & Hids & Hj).
  assert (length added = 4%nat) as Hadd by (by apply (f_equal length) in Hids; rewrite length_fmap, length_seqZ in Hids).
  assert (∀ g, g ∈ added → ∃ j, (j < 4)%nat ∧ drawn_group (1 + sizeZ groups + Z.of_nat j) (parent_of levels j ids) g) as Hnew.
  { intros g [j Hg]%list_elem_of_lookup_1. exists j. pose proof (lookup_lt_Some _ _ _ Hg).
    split; [lia|]. destruct (Hj j ltac:(lia)) as (g' & Hg' & Hd). congruence. }
  assert (∀ id, id ∈ ids → ∃ g, g ∈ groups ∧ group_id g = id) as Hold.
  { intros id (g & -> & Hg)%(fo_level_in _ _ _ F)%list_elem_of_fmap. by exists g. }
  unfold sizeZ in *. rewrite length_app, Hadd. split; [lia|]. constructor.
  - rewrite fmap_app, Hids, (fo_ids _ _ _ F). unfold sizeZ. rewrite length_app, Hadd, Nat2Z.inj_add, seqZ_app by lia.
    do 2 f_equal; lia.
  - unfold sizeZ. rewrite length_app, Hadd. lia.
  - intros g [Hg|Hg]%elem_of_app; [by apply F|]. destruct (Hnew g Hg) as (j & _ & w & Hw & ->). by exists w.
  - unfold sizeZ. rewrite length_app. intros g [Hg|Hg]%elem_of_app.
    + pose proof (fo_parents _ _ _ F g Hg). unfold sizeZ in *. lia.
    + destruct (Hnew g Hg) as (j & _ & w & Hw & ->). cbn [group_parent].
      destruct (Hold _ (parent_of_level levels j ids ltac:(lia) ltac:(lia))) as (g' & Hg' & <-).
      pose proof (forest_in_range _ _ _ g' F Hg'). unfold sizeZ in *. lia.
  - intros g [Hg|Hg]%elem_of_app; [apply (root_within_grows _ _ levels); [by apply F|lia]|].
    destruct (Hnew g Hg) as (j & _ & w & Hw & ->).
    destruct (Hold _ (parent_of_level levels j ids ltac:(lia) ltac:(lia))) as (g' & Hg' & Hid).
    pose proof (forest_in_range _ _ _ g' F Hg'). apply root_above; cbn [group_parent]; [set_solver|lia|].
    rewrite <-Hid. apply (root_within_grows _ _ levels); [by apply F|lia].
  - rewrite length_fmap. lia.
  - intros id Hid. rewrite fmap_app. set_solver.
  - intros g [Hg|Hg]%elem_of_app; [right|left; by apply list_elem_of_fmap_2].
    destruct (fo_inner _ _ _ F g Hg) as [Hin|(c & Hc & Ep)]; [|exists c; set_solver].
    apply list_elem_of_lookup_1 in Hin as [j Hin]. pose proof (lookup_lt_Some _ _ _ Hin) as Hlt.
    destruct (Hj j ltac:(lia)) as (c & Hc & w & Hw & ->). eexists. split; [apply elem_of_app; right; by eapply list_elem_of_lookup_2|].
    cbn [group_parent]. unfold parent_of. rewrite (proj2 (Nat.ltb_lt 0 levels)), Nat.mod_small by lia.
    by apply nth_lookup_Some.
  - rewrite (proj2 (Nat.eqb_neq (S levels) 1)) by lia. rewrite Hids, elem_of_seqZ. lia.
Qed.

Lemma forest_draw more : ∀ levels groups ids state,
  forest levels groups ids → (1 <= levels)%nat → (levels + more <= 8)%nat →
  let '(groups', ids', _) := draw_levels (seq levels more) ids groups (1 + sizeZ groups) state in
  forest (levels + more) groups' ids'.
Proof.
  induction more as [|more IH]; intros levels groups ids state F Hlev Hb; cbn [seq draw_levels].
  - by rewrite Nat.add_0_r.
  - rewrite (proj2 (Nat.eqb_neq levels 0)) by lia.
    pose proof (forest_step levels groups ids state F ltac:(lia)) as H.
    destruct (draw_level levels (seq 0 4) ids (1 + sizeZ groups) state) as [added [next_id st]].
    destruct H as [-> F']. rewrite Nat.add_succ_r, <-Nat.add_succ_l. apply IH; [done|lia|lia].
Qed.

(** The groups of a population. *)
Lemma forest_drawn depth state : (1 <= depth <= 8)%nat →
  let '(groups, ids, _) := draw_levels (seq 0 depth) [] [] 1 state in forest depth groups ids.
Proof.
  intros Hd. destruct depth as [|more]; [lia|]. cbn [seq draw_levels].
  pose proof (forest_first state) as H. change (0 =? 0)%nat with true. cbn match.
  destruct (draw_level 0 (seq 0 1) [] 1 state) as [added [next_id st]]. destruct H as [-> F].
  apply (forest_draw more 1 added (group_id <$> added) st F); lia.
Qed.

(** ** Subjects *)

(** A drawn subject of a group, and the observation of it. *)
Definition drawn_subject (group id : Z) (s : Subject) (o : SubjectObservation) : Prop :=
  ∃ weight floor starvation modifier rank served,
    1 <= weight <= 64 ∧ 0 <= floor <= 1000 ∧ 0 <= starvation <= 3 ∧ -1000 <= modifier <= 1000
    ∧ 0 <= rank <= 2 ∧ 0 <= served < 4096
    ∧ s = mk_subject id 1 group 0 weight floor starvation 0 no_ref no_ref modifier 0 rank (rank >? 0) 1048576 1048576 ""
    ∧ o = mk_observation id 1 served (if served =? 0 then 1 else 0) 0 no_ref no_ref.

Lemma draw_subject_drawn group id state :
  let '(s, o, _) := draw_subject group id state in drawn_subject group id s o.
Proof.
  unfold draw_subject. destruct (next state) as [w s1], (next s1) as [f s2], (next s2) as [v s3], (next s3) as [m s4],
    (next s4) as [r s5], (next s5) as [u s6].
  exists (1 + w mod 64), (if f mod 8 =? 0 then 1000 else 0), (if v mod 4 =? 0 then 3 else 0), (m mod 2001 - 1000),
    (if r mod 8 =? 0 then 2 else 0), (u mod 4096).
  pose proof (Z.mod_pos_bound w 64). pose proof (Z.mod_pos_bound m 2001). pose proof (Z.mod_pos_bound u 4096).
  split_and!; try lia; try (case_bool; lia); reflexivity.
Qed.

Lemma draw_subjects_spec ids indices : ∀ id state,
  0 <= id → id + sizeZ indices < 2 ^ 64 →
  let '(subjects, observations) := draw_subjects indices ids id state in
  length subjects = length indices ∧ length observations = length indices
  ∧ ∀ j i, indices !! j = Some i → ∃ s o, subjects !! j = Some s ∧ observations !! j = Some o
      ∧ drawn_subject (nth (i mod length ids) ids 0) (id + Z.of_nat j) s o.
Proof.
  unfold sizeZ. induction indices as [|i indices IH]; intros id state Hid Hb; cbn [draw_subjects length]; [done|].
  cbn [length] in Hb. pose proof (draw_subject_drawn (nth (i mod length ids) ids 0) id state) as Hs.
  destruct (draw_subject (nth (i mod length ids) ids 0) id state) as [[s0 o0] st].
  rewrite add64_small by ulia. specialize (IH (id + 1) st ltac:(lia) ltac:(lia)).
  destruct (draw_subjects indices ids (id + 1) st) as [subjects observations]. destruct IH as (Hls & Hlo & Hall).
  cbn [length]. split; [lia|]. split; [lia|]. intros [|j] i' Hj; cbn in Hj.
  - injection Hj as <-. exists s0, o0. by rewrite Z.add_0_r.
  - destruct (Hall j i' Hj) as (s & o & Hs1 & Ho1 & Hd). exists s, o. split; [done|]. split; [done|].
    by replace (id + Z.of_nat (S j)) with (id + 1 + Z.of_nat j) by lia.
Qed.

(** Subjects and observations drawn together: one identity each, in order. *)
Record drawn_together (n : nat) (ids : list Z) (subjects : list Subject) (observations : list SubjectObservation)
    : Prop := {
  dt_subjects : subj_id <$> subjects = seqZ 1 (Z.of_nat n);
  dt_observations : obs_id <$> observations = seqZ 1 (Z.of_nat n);
  dt_drawn : ∀ j, (j < n)%nat → ∃ s o, subjects !! j = Some s ∧ observations !! j = Some o
    ∧ drawn_subject (nth (j mod length ids) ids 0) (1 + Z.of_nat j) s o }.

Lemma draw_subjects_together n ids state : (n <= 4096)%nat →
  let '(subjects, observations) := draw_subjects (seq 0 n) ids 1 state in drawn_together n ids subjects observations.
Proof.
  intros Hn. pose proof (draw_subjects_spec ids (seq 0 n) 1 state ltac:(lia)) as H.
  unfold sizeZ in H. rewrite length_seq in H. specialize (H ltac:(lia)).
  destruct (draw_subjects (seq 0 n) ids 1 state) as [subjects observations]. destruct H as (Hls & Hlo & Hall).
  assert (∀ j, (j < n)%nat → ∃ s o, subjects !! j = Some s ∧ observations !! j = Some o
    ∧ drawn_subject (nth (j mod length ids) ids 0) (1 + Z.of_nat j) s o) as Hj.
  { intros j Hj. by apply Hall, lookup_seq. }
  constructor; [..|done]; apply list_eq; intros j; rewrite list_lookup_fmap;
    (destruct (decide (j < n)%nat) as [Hlt|Hge];
     [destruct (Hj j Hlt) as (s & o & Es & Eo & ? & ? & ? & ? & ? & ? & Hd); destruct_and! Hd; subst;
      rewrite ?Es, ?Eo; symmetry; apply lookup_seqZ; cbn; lia
     |rewrite lookup_ge_None_2 by lia; symmetry; apply lookup_ge_None_2; rewrite length_seqZ; lia]).
Qed.

(** ** Populations *)

(** A population from its groups, its subjects and what was observed of them. *)
Definition assembled (groups : list FairnessGroup) (subjects : list Subject) (observations : list SubjectObservation)
    (history : Z) : SyntheticPopulation :=
  let window := if history =? 0 then 1 else history in
  mk_population
    (mk_policy 1 1 1 0 8 64 0 4294967296 2500 2000 (wrap32 history) 0 1099511627776 true groups subjects no_provenance)
    (mk_snapshot 1 1 window 1 1 0 1 (mk_producer "fg_bench_synthetic" 1 0) no_provenance 0 observations)
    (mk_request 1 1 1 1 1 window 1 0 1 0 true true) 1.

Lemma population_assembled n depth history seed :
  0 <= n <= 4096 → depth <= 8 →
  ∃ groups ids subjects observations,
    build_population n depth history seed = assembled groups subjects observations history
    ∧ forest (Z.to_nat (Z.max 1 depth)) groups ids
    ∧ drawn_together (Z.to_nat n) ids subjects observations.
Proof.
  intros Hn Hd. unfold build_population.
  pose proof (forest_drawn (Z.to_nat (Z.max 1 depth)) (seed_state seed) ltac:(lia)) as F.
  destruct (draw_levels _ [] [] 1 (seed_state seed)) as [[groups ids] st].
  pose proof (draw_subjects_together (Z.to_nat n) ids st ltac:(lia)) as D.
  destruct (draw_subjects (seq 0 (Z.to_nat n)) ids 1 st) as [subjects observations].
  by exists groups, ids, subjects, observations.
Qed.

Section population.
  Context (depth n : nat) (groups : list FairnessGroup) (ids : list Z).
  Context (subjects : list Subject) (observations : list SubjectObservation) (history : Z).
  Hypothesis F : forest depth groups ids.
  Hypothesis D : drawn_together n ids subjects observations.
  Hypothesis Hdepth : (1 <= depth <= 8)%nat.
  Hypothesis Hn : (4 <= n <= 4096)%nat.
  Hypothesis Hh : 1 <= history <= 1000000.

Notation population := (assembled groups subjects observations history).
Notation policy := (sy_policy population).

Lemma groups_few : 1 <= sizeZ groups <= 29.
Proof. pose proof (fo_size _ _ _ F). lia. Qed.

Lemma subjects_count : sizeZ subjects = Z.of_nat n.
Proof.
  pose proof (f_equal length (dt_subjects _ _ _ _ D)) as H. rewrite length_fmap, length_seqZ in H. unfold sizeZ. lia.
Qed.

Lemma observations_count : sizeZ observations = Z.of_nat n.
Proof.
  pose proof (f_equal length (dt_observations _ _ _ _ D)) as H. rewrite length_fmap, length_seqZ in H. unfold sizeZ. lia.
Qed.

(** Every subject is in a group of the deepest level. *)
Lemma subject_drawn s : s ∈ subjects → ∃ j group o, (j < n)%nat ∧ group ∈ ids ∧ observations !! j = Some o
  ∧ drawn_subject group (1 + Z.of_nat j) s o.
Proof.
  intros [j Hj]%list_elem_of_lookup_1. pose proof (lookup_lt_Some _ _ _ Hj) as Hlt.
  pose proof subjects_count as Hc. unfold sizeZ in Hc.
  destruct (dt_drawn _ _ _ _ D j ltac:(lia)) as (s' & o & Es & Eo & Hd). assert (s' = s) as -> by congruence.
  exists j, (nth (j mod length ids) ids 0), o. split_and!; [lia| |done|done].
  apply list_elem_of_In, nth_In, Nat.mod_upper_bound. pose proof (fo_level _ _ _ F). lia.
Qed.

Lemma observation_drawn o : o ∈ observations → ∃ j group s, (j < n)%nat ∧ drawn_subject group (1 + Z.of_nat j) s o.
Proof.
  intros [j Hj]%list_elem_of_lookup_1. pose proof (lookup_lt_Some _ _ _ Hj) as Hlt.
  pose proof observations_count as Hc. unfold sizeZ in Hc.
  destruct (dt_drawn _ _ _ _ D j ltac:(lia)) as (s & o' & Es & Eo & Hd). assert (o' = o) as -> by congruence.
  exists j, (nth (j mod length ids) ids 0), s. split; [lia|done].
Qed.

Lemma level_in_range id : id ∈ ids → 1 <= id <= sizeZ groups.
Proof.
  intros (g & -> & Hg)%(fo_level_in _ _ _ F)%list_elem_of_fmap. by apply (forest_in_range depth groups ids).
Qed.

(** Every identity of the deepest level is some subject's group. *)
Lemma level_inhabited id : id ∈ ids → child_subjects_of policy id <> [].
Proof.
  intros [j Hj]%list_elem_of_lookup_1. pose proof (lookup_lt_Some _ _ _ Hj) as Hlt. pose proof (fo_level _ _ _ F).
  destruct (dt_drawn _ _ _ _ D j ltac:(lia)) as (s & o & Es & _ & Hd).
  rewrite Nat.mod_small, (nth_lookup_Some _ _ _ _ Hj) in Hd by done. intros Hnil.
  assert (s ∈ child_subjects_of policy id) as Hs; [|rewrite Hnil in Hs; set_solver].
  apply list_elem_of_filter. split; [|by eapply list_elem_of_lookup_2].
  destruct Hd as (? & ? & ? & ? & ? & ? & Hd). destruct_and! Hd. by subst.
Qed.

Lemma age_small : wrap32 history = history.
Proof. apply Z.mod_small. lia. Qed.

Lemma window_history : (if history =? 0 then 1 else history) = history.
Proof. destruct (Z.eqb_spec history 0); lia. Qed.

Lemma population_typed : policy_typed policy.
Proof.
  pose proof age_small as Ha. pose proof groups_few as Hg.
  constructor; cbn; rewrite ?Ha; try ulia.
  - apply Forall_forall. intros g Hin. destruct (fo_drawn _ _ _ F g Hin) as (w & Hw & E).
    pose proof (forest_in_range _ _ _ g F Hin). pose proof (fo_parents _ _ _ F g Hin). rewrite E.
    constructor; cbn; ulia.
  - apply Forall_forall. intros s Hin. destruct (subject_drawn s Hin) as (j & id & o & Hj & Hid & _ & Hd).
    pose proof (level_in_range id Hid). destruct Hd as (w & f & v & m & r & u & Hd). destruct_and! Hd. subst s.
    constructor; cbn; try ulia; split; cbn; ulia.
  - repeat split; cbn; ulia.
Qed.

Lemma population_scalars : scalars_wf policy.
Proof.
  pose proof groups_few as Hg. pose proof subjects_count as Hs. pose proof age_small as Ha.
  constructor; cbn; rewrite ?Ha; unfold kMaxServiceUnits, kMaxSubjects, kMaxPriorityModifierBps, kMaxCarryUnits, kMaxLabelBytes;
    try lia; try done.
  intros E. rewrite E in Hs. unfold sizeZ in Hs. cbn in Hs. lia.
Qed.

Lemma population_groups : Forall group_wf groups.
Proof.
  apply Forall_forall. intros g Hin. destruct (fo_drawn _ _ _ F g Hin) as (w & Hw & E).
  pose proof (forest_in_range _ _ _ g F Hin). rewrite E.
  constructor; cbn; unfold kMaxShareWeight, kMaxServiceUnits, kMaxLabelBytes; try lia; done.
Qed.

Lemma population_group_ids : NoDup (group_id <$> groups).
Proof. rewrite (fo_ids _ _ _ F). apply NoDup_seqZ. Qed.

Lemma population_depth : Forall (λ g, root_within groups kMaxGroupDepth (group_id g)) groups.
Proof.
  apply Forall_forall. intros g Hin. rewrite <-(app_nil_r groups) at 1.
  apply (root_within_grows _ _ depth); [by apply F|]. unfold kMaxGroupDepth. lia.
Qed.

Lemma population_subjects : Forall (subject_wf policy) subjects.
Proof.
  apply Forall_forall. intros s Hin. destruct (subject_drawn s Hin) as (j & id & o & Hj & Hid & _ & Hd).
  pose proof (level_in_range id Hid). destruct Hd as (w & f & v & m & r & u & Hd). destruct_and! Hd. subst s.
  constructor; cbn; unfold kMaxShareWeight, kMaxServiceUnits, kMaxPriorityModifierBps, kMaxLabelBytes; try lia; try done.
  by apply (fo_level_in _ _ _ F).
Qed.

Lemma population_subject_ids : NoDup (subj_id <$> subjects).
Proof. rewrite (dt_subjects _ _ _ _ D). apply NoDup_seqZ. Qed.

Lemma population_evaluable : policy_evaluable policy.
Proof.
  constructor; [apply population_scalars|apply population_groups|apply population_group_ids|apply population_depth
    |apply population_subjects|apply population_subject_ids|].
  apply Forall_forall. intros g Hg. destruct (fo_inner _ _ _ F g Hg) as [Hin|(c & Hc & Ep)]; [right; by apply level_inhabited|left].
  intros Hnil. assert (c ∈ child_groups_of policy (group_id g)) as H; [|rewrite Hnil in H; set_solver].
  by apply list_elem_of_filter.
Qed.

(** Only a population of one level is a valid policy: above the last level no group
    has a subject of its own. *)
Lemma population_valid : validate_policy policy = Value tt ↔ depth = 1%nat.
Proof.
  rewrite validate_policy_iff by apply population_typed. pose proof (fo_root _ _ _ F) as Hroot. split.
  - intros W. destruct (Nat.eqb_spec depth 1) as [|Hne]; [done|]. exfalso.
    assert (∃ g, g ∈ groups ∧ group_id g = 1) as (g & Hg & E).
    { assert (1 ∈ group_id <$> groups) as (g & ? & ?)%list_elem_of_fmap.
      { rewrite (fo_ids _ _ _ F). apply elem_of_seqZ. pose proof groups_few. lia. }
      by exists g. }
    pose proof (pw_governed _ W) as Hgov. rewrite Forall_forall in Hgov. specialize (Hgov g Hg). rewrite E in Hgov.
    apply not_nil_elem in Hgov as [s Hs]. apply list_elem_of_filter in Hs as [Eg Hs].
    destruct (subject_drawn s Hs) as (j & id & o & _ & Hid & _ & Hd).
    destruct Hd as (w & f & v & m & r & u & Hd). destruct_and! Hd. subst s. cbn in Eg. by subst id.
  - intros Hone. rewrite Hone in Hroot. cbn in Hroot. pose proof population_evaluable as []. constructor; try done.
    + apply Forall_forall. intros g Hg. pose proof (fo_size _ _ _ F) as Hsz.
      pose proof (forest_in_range _ _ _ g F Hg). pose proof (fo_rooted _ _ _ F g Hg) as Hr.
      rewrite Hone in Hr. apply root_within_one in Hr as (g' & Hg' & Hp & Eid).
      assert (g' = g) as -> by (by eapply (NoDup_key_eq group_id); [apply population_group_ids|..]). done.
    + apply Forall_forall. intros g Hg. apply level_inhabited. pose proof (forest_in_range _ _ _ g F Hg).
      pose proof (fo_size _ _ _ F). rewrite Hroot. apply list_elem_of_singleton. lia.
    + apply Forall_forall. intros g Hg. destruct (fo_drawn _ _ _ F g Hg) as (w & _ & E). rewrite E. done.
Qed.

Lemma population_evidence : evidence_typed (sy_evidence population) ∧ evidence_wf (sy_evidence population).
Proof.
  pose proof window_history as Hw. pose proof observations_count as Hc. split; constructor; cbn; rewrite ?Hw; try ulia; try done.
  - apply Forall_forall. intros o Hin. destruct (observation_drawn o Hin) as (j & group & s & Hj & Hd).
    destruct Hd as (w & f & v & m & r & u & Hd). destruct_and! Hd. subst o.
    constructor; cbn; try ulia; [case_bool; ulia|split; cbn; ulia..].
  - rewrite Hc. unfold kMaxEvidenceRecords. lia.
  - apply Forall_forall. intros o Hin. destruct (observation_drawn o Hin) as (j & group & s & Hj & Hd).
    destruct Hd as (w & f & v & m & r & u & Hd). destruct_and! Hd. subst o.
    constructor; cbn; unfold kMaxServiceUnits, kMaxStreakWindows; try lia; try done.
    + case_bool; lia.
    + case_bool; reflect_bools; lia.
  - rewrite (dt_observations _ _ _ _ D). apply NoDup_seqZ.
Qed.

Lemma population_ledger : ledger_ok (measured_accounting population).
Proof.
  assert (Forall sa_typed (acc_subjects (measured_accounting population))) as Ht.
  { apply Forall_fmap, Forall_forall. intros s Hin. pose proof population_typed as T.
    pose proof (pt_subjects _ T) as HT. rewrite Forall_forall in HT. destruct (HT s Hin).
    constructor; cbn; try done; ulia. }
  constructor; [constructor; cbn; done || ulia|].
  apply Forall_forall. intros e He. rewrite Forall_forall in Ht. pose proof (Ht e He).
  apply list_elem_of_fmap in He as (s & -> & _). by constructor.
Qed.

(** A population can be evaluated, *)
Lemma population_context : context_ok (measured_context population) policy (measured_accounting population).
Proof.
  constructor; try done; [apply population_typed|apply population_evaluable|apply population_ledger|].
  intros e [= <-]. apply population_evidence.
Qed.

(** its evidence is current, *)
Lemma population_current : evidence_current policy (measured_context population) (sy_evidence population).
Proof.
  pose proof age_small as Ha. pose proof window_history as Hw.
  constructor; cbn; rewrite ?Ha, ?Hw; try done. lia.
Qed.

(** and every subject has authority. *)
Lemma population_subject s : s ∈ subjects →
  ∃ o, subject_current (measured_accounting population) (sy_evidence population) s o.
Proof.
  intros Hin. destruct (subject_drawn s Hin) as (j & id & o & Hj & Hid & Ho & Hd).
  destruct Hd as (w & f & v & m & r & u & Hd). destruct_and! Hd.
  assert (subj_id s = obs_id o ∧ obs_generation o = subj_generation s ∧ subj_priority s = no_ref ∧ subj_qos s = no_ref)
    as (E1 & E2 & E3 & E4) by by subst.
  exists o. constructor; rewrite ?E3, ?E4; try done.
  - unfold evidence_find. rewrite E1. apply find_key; [|by eapply list_elem_of_lookup_2].
    cbn. rewrite (dt_observations _ _ _ _ D). apply NoDup_seqZ.
  - intros e Hfind. apply find_some_key in Hfind as [Hin' Hk].
    apply list_elem_of_fmap in Hin' as (s' & -> & Hs'). cbn in Hk.
    assert (s' = s) as ->; [|done]. eapply (NoDup_key_eq subj_id); [apply population_subject_ids|done..].
Qed.
End population.

(** What evaluating a population gives: every subject has authority. *)
Lemma population_decides depth n groups ids subjects observations history :
  let p := assembled groups subjects observations history in
  forest depth groups ids → drawn_together n ids subjects observations →
  (1 <= depth <= 8)%nat → (4 <= n <= 4096)%nat → 1 <= history <= 1000000 →
  ∃ decision, evaluate_fairness (measured_context p) = Value decision
    ∧ length (fd_subjects decision) = n
    ∧ Forall (λ st, sf_has_authority st = true) (fd_subjects decision).
Proof.
  intros p F D Hd Hn Hh. assert (context_ok (measured_context p) (sy_policy p) (measured_accounting p)) as Hctx by (by eapply population_context).
  destruct (evaluate_fairness_value _ _ _ Hctx) as (d & plans & finals & decision & Hrun & Hev).
  exists decision. split; [done|]. destruct (ev_length _ _ _ _ _ _ _ Hev) as [Hl Hf].
  assert (sizeZ subjects = Z.of_nat n) as Hc by (by eapply subjects_count). unfold sizeZ in Hc. split.
  - rewrite (ev_subjects _ _ _ _ _ _ _ Hev), length_zip_with, Hf. change (pol_subjects (sy_policy p)) with subjects. lia.
  - apply Forall_lookup_2. intros i st Hst. destruct (eval_state_lookup Hctx Hev i st Hst) as [Hi Hso].
    rewrite (so_authority _ _ Hso). apply (eval_granted Hev i Hi).
    assert (evidence_current (sy_policy p) (measured_context p) (sy_evidence p)) as Hcur by (by eapply population_current).
    split.
    + assert ((if history =? 0 then 1 else history) = history) as Hw by (by eapply window_history).
      apply eligibility_none; [..|by exists (sy_evidence p)]; cbn; rewrite ?Hw; try ulia. intros e [= <-]. cbn. ulia.
    + destruct (lookup_lt_is_Some_2 (pol_subjects (sy_policy p)) i Hi) as [s Hs].
      rewrite (subject_at_lookup _ _ _ Hs). exists (sy_evidence p).
      assert (s ∈ subjects) as Hin by (by eapply list_elem_of_lookup_2).
      assert (∃ o, subject_current (measured_accounting p) (sy_evidence p) s o) as [o Ho]
        by (by eapply population_subject). by exists o.
Qed.

(** ** The program *)

Lemma warm_up_value n context decision : evaluate_fairness context = Value decision → warm_up n context = Value tt.
Proof. intros E. induction n as [|n IH]; [done|]. cbn [warm_up]. by rewrite E. Qed.

Lemma evaluations_value n context decision : ∀ digest,
  evaluate_fairness context = Value decision →
  evaluations n context digest = Value (Nat.iter n (λ d, fold_digest d (fd_content_digest decision)) digest).
Proof.
  induction n as [|n IH]; intros digest E; [done|]. cbn [evaluations]. rewrite E. cbn [result_bind].
  rewrite IH by done. f_equal. apply (Nat.iter_swap n _ (λ d, fold_digest d (fd_content_digest decision))).
Qed.

Lemma measure_value p iterations decision :
  evaluate_fairness (measured_context p) = Value decision →
  measure p iterations = Value (mk_measurement iterations
    (Nat.iter (Z.to_nat iterations) (λ d, fold_digest d (fd_content_digest decision)) 0)).
Proof. intros E. unfold measure. by rewrite (warm_up_value _ _ _ E), (evaluations_value _ _ _ _ E). Qed.

(** The seed of a point of the sweep. *)
Definition point_seed (subject_count depth history : Z) : Z :=
  add64 (add64 (mul64 subject_count 31) (wrap32 (depth * 7))) history.

(** What a row of the table says of its point. *)
Definition measured (iterations : Z) (point : Z * Z * Z) (row : Row) : Prop :=
  let '(subject_count, depth, history) := point in
  let population := build_population subject_count depth history (point_seed subject_count depth history) in
  ∃ decision, evaluate_fairness (measured_context population) = Value decision
    ∧ Z.of_nat (length (fd_subjects decision)) = subject_count
    ∧ Forall (λ st, sf_has_authority st = true) (fd_subjects decision)
    ∧ row = mk_row subject_count (4 * depth - 3) depth history
        (mk_measurement (scaled iterations subject_count)
           (Nat.iter (Z.to_nat (scaled iterations subject_count))
              (λ d, fold_digest d (fd_content_digest decision)) 0)).

Definition point_ok (point : Z * Z * Z) : Prop :=
  let '(subject_count, depth, history) := point in
  4 <= subject_count <= 4096 ∧ 1 <= depth <= 8 ∧ 1 <= history <= 1000000.

Lemma bench_row_measured iterations point :
  point_ok point → ∃ row, bench_row iterations point = Value row ∧ measured iterations point row.
Proof.
  destruct point as [[n depth] history]. intros (Hn & Hd & Hh).
  destruct (population_assembled n depth history (point_seed n depth history) ltac:(lia) ltac:(lia))
    as (groups & ids & subjects & observations & E & F & D).
  destruct (population_decides _ _ _ _ _ _ history F D ltac:(lia) ltac:(lia) Hh) as (decision & Hrun & Hlen & Hauth).
  rewrite <-E in Hrun. unfold bench_row, measured. fold (point_seed n depth history).
  rewrite (measure_value _ _ _ Hrun). cbn [result_bind]. eexists. split; [done|]. exists decision.
  split; [done|]. split; [lia|]. split; [done|]. f_equal. rewrite E.
  pose proof (fo_size _ _ _ F). change (pol_groups (sy_policy (assembled groups subjects observations history))) with groups. lia.
Qed.

Lemma bench_rows_measured iterations points : Forall point_ok points →
  ∃ rows, bench_rows iterations points = (rows, None) ∧ Forall2 (measured iterations) points rows.
Proof.
  induction 1 as [|point points Hp _ (rows & E & IH)]; [by exists []|].
  destruct (bench_row_measured iterations point Hp) as (row & Er & Hm). cbn [bench_rows]. rewrite Er, E.
  exists (row :: rows). split; [done|]. by constructor.
Qed.

Lemma sweep_ok quick : Forall point_ok (sweep quick).
Proof. destruct quick; repeat (apply Forall_cons; split; [cbn; lia|]); apply Forall_nil; done. Qed.
