(* ===== verification/Examples.v ===== *)
(** The programs under [examples/]: [evaluate.cpp], an evaluation from end to end,
    and [downstream_consumer/consumer.cpp], which checks the library it links. *)
From S2P Require Import Prelude Status Core Policy Accounting Evidence Outcome Engine Explain Scenario Fsutil Store Governor Cli.
From coqutil Require Import Datatypes.RecordSetters.
Import DoubleBraceUpdate.
#[local] Open Scope string_scope.
#[local] Open Scope list_scope.
#[local] Open Scope Z_scope.

(** Both programs name the policy, the epoch and the snapshot they just built. *)
Definition request_for (policy : FairnessPolicy) (evidence : EvidenceSnapshot) : EvaluationRequest :=
  default_request {{ rq_policy_id := pol_id policy; rq_policy_generation := pol_generation policy;
    rq_epoch := pol_epoch policy; rq_evidence_id := ev_id evidence;
    rq_evidence_generation := ev_generation evidence; rq_window := ev_window evidence;
    rq_window_generation := ev_window_generation evidence }}.

(** ** [evaluate.cpp] *)

Definition example_group : FairnessGroup :=
  default_group {{ group_id := 1; group_generation := 1; group_share_weight := 1 }}.

Definition tenant_a : Subject :=
  default_subject {{ subj_id := 1; subj_generation := 1; subj_group := group_id example_group;
    subj_share_weight := 1; subj_guarantee_floor := 200; subj_starvation_windows := 3;
    subj_protected_obligation := true; subj_obligation_rank := 1; subj_max_reduce_units := 1000;
    subj_max_augment_units := 1000; subj_label := "tenant-a" }}.

Definition tenant_b : Subject :=
  default_subject {{ subj_id := 2; subj_generation := 1; subj_group := group_id example_group;
    subj_share_weight := 3; subj_starvation_windows := 2; subj_max_reduce_units := 1000;
    subj_max_augment_units := 1000; subj_label := "tenant-b" }}.

Definition example_policy : FairnessPolicy :=
  default_policy {{ pol_id := 1; pol_generation := 1; pol_epoch := 1; pol_fair_band_units := 4;
    pol_correction_threshold_units := 32; pol_max_correction_units := 100000;
    pol_max_correction_bps := 5000; pol_max_priority_modifier_bps := 1000;
    pol_max_evidence_age_windows := 2; pol_groups := [example_group]; pol_subjects := [tenant_a; tenant_b] }}.

Definition example_evidence : EvidenceSnapshot :=
  default_evidence {{ ev_id := 10; ev_generation := 1; ev_window := 500; ev_window_generation := 1;
    ev_epoch := pol_epoch example_policy; ev_sequence := 1; ev_producer := mk_producer "example" 1 0;
    ev_observations :=
      [ default_observation {{ obs_id := subj_id tenant_a; obs_generation := subj_generation tenant_a;
          obs_served_units := 0; obs_unserved_streak := 3 }};
        default_observation {{ obs_id := subj_id tenant_b; obs_generation := subj_generation tenant_b;
          obs_served_units := 800 }} ] }}.

Definition example_request : EvaluationRequest :=
  (request_for example_policy example_evidence)
    {{ rq_now_ns := ev_captured_at_ns example_evidence; rq_request_id := 1 }}.

Section programs.
  Context {S : Type} `{Backend S}.

Definition example_config (store_path : string) : GovernorConfig :=
  mk_config example_policy store_path (pol_epoch example_policy) default_limits false.

(** Once the governor is open. *)
Definition example_session (g : Governor S) : Run :=
  let '(ingested, g) := ingest_evidence example_evidence g in
  match ingested with
  | Failure st => complain 1 "" ("ingest failed: " +:+ status_to_string st) (gv_store g)
  | Value _ =>
      match evaluate example_request g with
      | Failure st => complain 1 "" ("evaluate failed: " +:+ status_to_string st) (gv_store g)
      | Value decision =>
          let out := explain decision default_explain in
          let '(committed, g) := commit_decision decision g in
          match committed with
          | Failure st => complain 1 out ("commit failed: " +:+ status_to_string st) (gv_store g)
          | Value _ =>
              let out := out +:+ "committed accounting generation "
                         +:+ to_decimal (acc_generation (gv_accounting g)) +:+ newline in
              let _ := shutdown g in
              mk_run 0 out "" (gv_store g)
          end
      end
  end.

(** [main]: the store path is the first argument, if there is one. *)
Definition example_main (arguments : list string) (incarnation : Incarnation) (opened : Result S) : Run :=
  match open (example_config (default "" (head arguments))) incarnation opened with
  | (Failure st, store) =>
      complain 1 "" ("open failed: " +:+ status_to_string st)
        (match store with Value store => Some store | Failure _ => None end)
  | (Value g, _) => example_session g
  end.

(** ** [consumer.cpp] *)

Definition consumer_group : FairnessGroup := default_group {{ group_id := 1; group_generation := 1 }}.

Definition consumer_subject (i : Z) : Subject :=
  default_subject {{ subj_id := i; subj_generation := 1; subj_group := group_id consumer_group;
    subj_share_weight := 1; subj_max_augment_units := 10000; subj_max_reduce_units := 10000 }}.

Definition consumer_policy : FairnessPolicy :=
  default_policy {{ pol_id := 1; pol_generation := 1; pol_epoch := 1; pol_fair_band_units := 8;
    pol_correction_threshold_units := 64; pol_max_correction_units := 100000;
    pol_max_correction_bps := 10000; pol_max_priority_modifier_bps := 1000;
    pol_max_evidence_age_windows := 4; pol_groups := [consumer_group];
    pol_subjects := [(consumer_subject 1) {{ subj_starvation_windows := 2 }}; consumer_subject 2] }}.

Definition consumer_evidence : EvidenceSnapshot :=
  default_evidence {{ ev_id := 7; ev_generation := 1; ev_window := 100; ev_window_generation := 1;
    ev_epoch := pol_epoch consumer_policy; ev_sequence := 1;
    ev_observations :=
      [ default_observation {{ obs_id := 1; obs_generation := 1; obs_served_units := 0; obs_unserved_streak := 3 }};
        default_observation {{ obs_id := 2; obs_generation := 1; obs_served_units := 1000 }} ] }}.

Definition consumer_request : EvaluationRequest := request_for consumer_policy consumer_evidence.

Definition corrects_evenly (d : FairnessDecision) : bool :=
  cor_augment_units (fd_correction d) =? cor_reduce_units (fd_correction d).

(** The exit code and what is printed. *)
Definition consumer_session (g : Governor S) : Z * string :=
  let '(ingested, g) := ingest_evidence consumer_evidence g in
  match ingested with
  | Failure _ => (1, "ingest failed" +:+ newline)
  | Value _ =>
      match evaluate consumer_request g with
      | Failure st => (1, "evaluate failed: " +:+ status_to_string st +:+ newline)
      | Value decision =>
          if negb (bool_decide (fd_outcome decision = Outcome.StarvationRisk)) then
            (1, "unexpected outcome: " +:+ Outcome.to_string (fd_outcome decision) +:+ newline)
          else if negb (corrects_evenly decision) then (1, "corrective plan does not conserve units" +:+ newline)
          else
            let '(committed, g) := commit_decision decision g in
            match committed with
            | Failure _ => (1, "commit failed" +:+ newline)
            | Value _ =>
                let _ := shutdown g in
                (0, "consumer ok: " +:+ summarize decision +:+ newline
                    +:+ "library " +:+ library_name +:+ " " +:+ version_string +:+ newline)
            end
      end
  end.

Definition consumer_main (incarnation : Incarnation) : Z * string :=
  match open_in_memory (S := S) consumer_policy incarnation with
  | Failure st => (1, "open failed: " +:+ status_to_string st +:+ newline)
  | Value g => consumer_session g
  end.
End programs.
