(* ===== verification/ExamplesSpec.v ===== *)
(** What the example programs do: their policies and evidence are valid, and their
    sessions follow from what ingestion, evaluation and the commit promise. *)
From S2P Require Import Prelude Status Core Policy PolicyValid Accounting Evidence Outcome Engine Planner EngineSpec PlannerSpec EvalSpec Explain Scenario Fixture FixtureSpec Fsutil Store StoreSpec Governor BackendSpec GovernorSpec GovernorEval GovernorInv GovernorReach GovernorDurable Cli CliSpec Examples.
#[local] Open Scope string_scope.
#[local] Open Scope list_scope.
#[local] Open Scope Z_scope.

(** ** The worlds they build *)

Lemma example_policy_typed : policy_typed example_policy.
Proof. constructor; try concrete; concrete_list. Qed.

Lemma example_evidence_typed : evidence_typed example_evidence.
Proof. constructor; try concrete. concrete_list. Qed.

Lemma consumer_policy_typed : policy_typed consumer_policy.
Proof. constructor; try concrete; concrete_list. Qed.

Lemma consumer_evidence_typed : evidence_typed consumer_evidence.
Proof. constructor; try concrete. concrete_list. Qed.

(** What their governors evaluate, and the decisions. *)
Definition fresh_accounting (boot : Z) : FairnessAccounting := mk_accounting 1 1 1 0 0 0 0 boot [].

Definition session_context (policy : FairnessPolicy) (evidence : EvidenceSnapshot) (request : EvaluationRequest)
    (boot : Z) : EvaluationContext :=
  mk_context (Some policy) (Some (fresh_accounting boot)) (Some evidence) request 1 (ev_window evidence) 0.

Definition example_decision : FairnessDecision :=
  decision_in (session_context example_policy example_evidence example_request 0).
Definition consumer_decision : FairnessDecision :=
  decision_in (session_context consumer_policy consumer_evidence consumer_request 0).

Section memory.
  Context {S : Type} `{Backend S}.
  Implicit Types (g : Governor S).

(** A governor opened in memory for a valid policy, with one snapshot staged. *)
Definition memory_governor (policy : FairnessPolicy) (i : Incarnation) : Governor S :=
  fresh_governor (mk_config policy "" (pol_epoch policy) default_limits false) i None.

Lemma memory_governor_ok policy i :
  policy_typed policy → validate_policy policy = Value tt → u64 (inc_boot i) → u64 (inc_ordinal i) →
  governor_ok (memory_governor policy i).
Proof. intros T Hv Hb Ho. apply fresh_governor_ok; cbn; try done; [by apply validate_policy_iff|by apply pt_epoch]. Qed.

Lemma example_staged i :
  ingest_evidence example_evidence (memory_governor example_policy i)
  = (Value (ingest_result Disposition.Staged example_evidence),
     (ingest_evidence example_evidence (memory_governor example_policy i)).2).
Proof. vm_compute. reflexivity. Qed.

Lemma consumer_staged i :
  ingest_evidence consumer_evidence (memory_governor consumer_policy i)
  = (Value (ingest_result Disposition.Staged consumer_evidence),
     (ingest_evidence consumer_evidence (memory_governor consumer_policy i)).2).
Proof. vm_compute. reflexivity. Qed.

Lemma example_evaluated i :
  evaluate example_request (ingest_evidence example_evidence (memory_governor example_policy i)).2
  = Value (set_decision_governor i example_decision).
Proof. vm_compute. reflexivity. Qed.

Lemma consumer_evaluated i :
  evaluate consumer_request (ingest_evidence consumer_evidence (memory_governor consumer_policy i)).2
  = Value (set_decision_governor i consumer_decision).
Proof. vm_compute. reflexivity. Qed.

(** Committing the decision on the first window opens the ledger's first generation. *)
Lemma first_commit policy evidence request d i g :
  governor_ok (memory_governor policy i) → evidence_typed evidence →
  g = (ingest_evidence evidence (memory_governor policy i)).2 → evaluate request g = Value d →
  u64 (rq_window request) → u64 (rq_window_generation request) →
  rq_window request <> 0 → rq_window_generation request <> 0 →
  ∃ g', commit_decision d g = (Value tt, g') ∧ acc_generation (gv_accounting g') = 1
    ∧ acc_last_window (gv_accounting g') = rq_window request ∧ gv_store g' = None.
Proof.
  intros Hok Te -> E Hw Hwg Hn1 Hn2. destruct (ingest_all_run [evidence] _ ltac:(by constructor) Hok) as [Hg Hsame].
  assert ((ingest_all [evidence] (memory_governor policy i)).2 = (ingest_evidence evidence (memory_governor policy i)).2) as Ei.
  { cbn [ingest_all]. by destruct (ingest_evidence evidence (memory_governor policy i)) as [[r|st] g]. }
  rewrite Ei in Hg, Hsame. set (g := (ingest_evidence evidence (memory_governor policy i)).2) in *.
  destruct (only_evidence_same _ _ Hsame) as (Ea & Es & _).
  assert (ledger_room (gv_accounting g)) as Hroom by (by apply empty_room; rewrite Ea).
  pose proof (serving_context request g Hg Hroom) as Hctx.
  assert ((commit_decision d g).1 = Value tt) as Hc.
  { apply (memory_commit request d g); rewrite ?Es; try done. split_and!; [done|done|]. by rewrite Ea. }
  destruct (commit_cases d g) as [[_ [st Hf]]|(after & _ & Ha & _ & Hv)]; [congruence|].
  destruct (apply_decision_ok d g after Hg (proj1 (evaluated_bounded Hctx E Hw Hwg)) Ha) as [[Hgen [Hwin _] _ _ _ _ _ _ _] _].
  destruct (commit_decision d g) as [r g'] eqn:Ec. cbn [fst snd] in *. exists g'. split; [by rewrite Hc|].
  assert (gv_accounting g' = after) as -> by exact (f_equal gv_accounting Hv).
  rewrite Hgen, Hwin, Ea. split; [done|]. split; [by destruct (evaluated_window Hctx E) as [-> _]|].
  unfold commit_decision in Ec. destruct (check_decision d g) as [[]|]; [|congruence]. rewrite Ha in Ec.
  unfold commit_accounting in Ec. cbn in Ec. rewrite Es in Ec. cbn in Ec. injection Ec as _ <-. done.
Qed.
End memory.

(** ** The runs *)

Section runs.
  Context {S : Type} `{Backend S}.

(** [evaluate.cpp] without a store. *)
Lemma example_memory i (opened : Result S) : u64 (inc_boot i) → u64 (inc_ordinal i) →
  example_main [] i opened
  = mk_run 0 (explain (set_decision_governor i example_decision) default_explain
              +:+ "committed accounting generation 1" +:+ newline) "" None.
Proof.
  intros Hb Ho. pose proof (example_staged (S := S) i) as Es. pose proof (example_evaluated (S := S) i) as Ee.
  assert (governor_ok (memory_governor (S := S) example_policy i)) as Hok
    by (by apply memory_governor_ok; [apply example_policy_typed|vm_compute; reflexivity|..]).
  destruct (first_commit example_policy example_evidence example_request (set_decision_governor i example_decision) i _
    Hok example_evidence_typed eq_refl Ee) as (g' & Ec & Egen & _ & Est); [concrete..|].
  assert (open (example_config "") i opened = (Value (memory_governor example_policy i), opened)) as Eo
    by (vm_compute; reflexivity).
  unfold example_main. change (default "" (head [])) with "". rewrite Eo. unfold example_session. rewrite Es, Ee, Ec, Egen, Est.
  done.
Qed.

(** [consumer.cpp]. *)
Lemma consumer_succeeds i : u64 (inc_boot i) → u64 (inc_ordinal i) →
  consumer_main (S := S) i
  = (0, "consumer ok: STARVATION_RISK fair=0 under=0 over=1 starve=1 correct=0 blocked=0 unknown=0 stale=0 augment=500 reduce=500"
        +:+ newline +:+ "library Fairness Governor 1.0.0" +:+ newline).
Proof.
  intros Hb Ho. pose proof (consumer_staged (S := S) i) as Es. pose proof (consumer_evaluated (S := S) i) as Ee.
  assert (governor_ok (memory_governor (S := S) consumer_policy i)) as Hok
    by (by apply memory_governor_ok; [apply consumer_policy_typed|vm_compute; reflexivity|..]).
  destruct (first_commit consumer_policy consumer_evidence consumer_request (set_decision_governor i consumer_decision) i _
    Hok consumer_evidence_typed eq_refl Ee) as (g' & Ec & _); [concrete..|].
  assert (open_in_memory consumer_policy i = Value (memory_governor (S := S) consumer_policy i)) as Eo
    by (vm_compute; reflexivity).
  unfold consumer_main. rewrite Eo. unfold consumer_session. rewrite Es, Ee, Ec. vm_compute. reflexivity.
Qed.
End runs.

Section durable_runs.
  Context {S : Type} `{DurabilityLaws S}.

(** [evaluate.cpp] over a store: it commits its window, or leaves the store alone. *)
Lemma example_durable path i (opened : Result S) g0 s0 left :
  open (example_config path) i opened = (Value g0, left) →
  governor_ok g0 → ledger_room (gv_accounting g0) → persisted g0 s0 →
  let run := example_main [path] i opened in
  (run_exit run = 0 ∧ (acc_last_window (gv_accounting g0) <> 0 → acc_last_window (gv_accounting g0) < 500)
     ∧ ∃ g s', run_store run = Some s' ∧ exactly g s' ∧ acc_last_window (gv_accounting g) = 500)
  ∨ (run_exit run = 1 ∧ run_store run = Some s0).
Proof.
  intros Ho Hg0 Hroom Hp run. unfold run, example_main. change (default "" (head [path])) with path. rewrite Ho.
  destruct (ingest_all_run [example_evidence] g0 ltac:(constructor; [apply example_evidence_typed|done]) Hg0) as [Hg Hsame].
  assert ((ingest_all [example_evidence] g0).2 = (ingest_evidence example_evidence g0).2) as Ei.
  { cbn [ingest_all]. by destruct (ingest_evidence example_evidence g0) as [[r|st] g]. }
  rewrite Ei in Hg, Hsame. clear Ei. pose proof (only_evidence_persisted _ _ _ Hsame Hp) as Hp'.
  pose proof (ba_store _ _ (ps_backed _ _ Hp')) as Es. destruct (only_evidence_same _ _ Hsame) as (Ea & _).
  unfold example_session. destruct (ingest_evidence example_evidence g0) as [ingested g]. cbn [snd] in *.
  destruct ingested as [r|st]; [|right; by rewrite Es].
  destruct (evaluate example_request g) as [d|st] eqn:E; [|right; by rewrite Es].
  rewrite <-Ea in Hroom. pose proof (serving_context example_request g Hg Hroom) as Hctx.
  assert (decision_typed d) as Hd by (by apply (evaluated_bounded Hctx E)).
  destruct (commit_persisted d g s0 Hd Hg Hp') as [(s' & Hc & Hex)|[st Hc]].
  - left. pose proof (ba_store _ _ (ps_backed _ _ (exactly_persisted _ _ Hex))) as Es'.
    destruct (commit_cases d g) as [[_ [st Hf]]|(after & Hck & Ha & _ & Hv)]; [congruence|].
    destruct (apply_decision_ok d g after Hg Hd Ha) as [[_ [Hwin _] _ _ _ _ _ _ _] _].
    destruct (commit_decision d g) as [r' g'] eqn:Ec. cbn [fst snd] in *. subst r'. split; [done|].
    apply (check_evaluated Hctx E) in Hck as (_ & _ & Hlast). rewrite <-Ea. split; [done|].
    exists g', s'. split; [done|]. split; [done|].
    assert (gv_accounting g' = after) as -> by exact (f_equal gv_accounting Hv).
    rewrite Hwin. by destruct (evaluated_window Hctx E) as [-> _].
  - right. rewrite Hc. by rewrite <-Es.
Qed.
End durable_runs.
