(* ===== verification/PropModel.v ===== *)
(** The properties of the model layer: exact arithmetic, validation, the carry
    ledger and the durable encodings. *)
From S2P Require Import Prelude Status Core U128 Bytes Policy PolicyValid Accounting Evidence Outcome Codec CodecSpec Allocation Distributor DistributorSpec Engine Planner EngineSpec Fixture FixtureSpec.
#[local] Open Scope string_scope.
#[local] Open Scope list_scope.
#[local] Open Scope Z_scope.

(** ** Exact arithmetic *)

(** C11: arithmetic is exact.  [mul_div] is the floor and remainder of the 128-bit
    product by the divisor; it reports overflow exactly when the quotient leaves 64
    bits, and division by zero exactly when the divisor is zero.  A priority modifier
    never makes a weight vanish: the adjusted weight is the declared one times the
    modified basis-point scale, clamped below at one basis point. *)
Theorem arithmetic_exact :
  (∀ value multiplier divisor, u64 value → u64 multiplier → u64 divisor →
     mul_div value multiplier divisor =
       if divisor =? 0 then mk_muldiv 0 0 false true
       else if value * multiplier / divisor <? 2 ^ 64
       then mk_muldiv (value * multiplier / divisor) ((value * multiplier) mod divisor) false false
       else mk_muldiv 0 0 true false)
  ∧ (∀ weight modifier, 0 < weight <= kMaxShareWeight → Z.abs modifier <= kMaxPriorityModifierBps →
     effective_share_weight weight modifier = weight * Z.max 1 (kBasisPointScale + modifier)
     ∧ 0 < effective_share_weight weight modifier).
Proof.
  split; [intros; by apply mul_div_spec|]. intros weight modifier Hw Hm.
  pose proof (effective_share_weight_range weight modifier Hw Hm) as Hr. split; [|lia].
  unfold kMaxShareWeight, kMaxPriorityModifierBps, kBasisPointScale in *.
  assert (1 <= Z.max 1 (10000 + modifier) <= 110000) by lia.
  apply effective_share_weight_exact; unfold kBasisPointScale, u64, i64, U64_MAX; try lia.
  transitivity (2147483647 * 110000); [apply Z.mul_le_mono_nonneg; lia|lia].
Qed.

Lemma arithmetic_exact_witness :
  mul_div 18446744073709551615 18446744073709551614 18446744073709551615
  = mk_muldiv 18446744073709551614 0 false false
  ∧ effective_share_weight 7 (-10500) = 7.
Proof.
  destruct arithmetic_exact as [H1 H2]. split.
  - rewrite (H1 18446744073709551615 18446744073709551614 18446744073709551615);
      [vm_compute; reflexivity|split; done..].
  - apply (proj1 (H2 7 (-10500) ltac:(vm_compute; split; discriminate || done) ltac:(vm_compute; discriminate))).
Defined.

(** ** Validation *)

(** C12: Validation is exact.  Policy validation accepts exactly the well-formed
    policies: identities distinct and non-zero, references resolved, the group
    forest acyclic and at most eight deep, every group governing some subject,
    floors covering the floors below them, every magnitude bounded; no overflow
    exit can be taken.  Evidence validation accepts exactly the well-formed
    snapshots: identities present, observations distinct, bounded and coherent,
    and the declared digest equal to the recomputed one. *)
Theorem validation_exact (p : FairnessPolicy) (e : EvidenceSnapshot)
    (Tp : policy_typed p) (Te : evidence_typed e) :
  (validate_policy p = Value tt ↔ policy_wf p) ∧ (validate_evidence e = Value tt ↔ evidence_wf e).
Proof. split; [by apply validate_policy_iff|by apply validate_evidence_iff]. Qed.

Lemma validation_exact_witness :
  (validate_policy sample_policy = Value tt ↔ policy_wf sample_policy)
  ∧ (validate_evidence sample_evidence = Value tt ↔ evidence_wf sample_evidence).
Proof. apply (validation_exact sample_policy sample_evidence sample_policy_typed sample_evidence_typed). Defined.

(** ** The ledger *)

(** C13: applying a window to a subject's account moves what the account stands
    for by exactly the window's net, keeps both sides within the carry bound,
    never loses what saturation discards and never turns a one-sided account
    into a two-sided one; with room in the counters it always succeeds. *)
Theorem window_carry_correct (current : SubjectAccounting) (net max_carry : Z)
    (Ht : sa_typed current) (Hnet : i64 net) (Hmax : u64 max_carry) :
  (∀ r, apply_window_carry current net max_carry = Some r → carry_spec current net max_carry r)
  ∧ (u64 (sa_cumulative_deficit current + sa_discarded_deficit current + Z.max net 0) →
     u64 (sa_cumulative_surplus current + sa_discarded_surplus current + Z.max (- net) 0) →
     ∃ r, apply_window_carry current net max_carry = Some r).
Proof. split; [intros r; by apply apply_window_carry_some|by apply apply_window_carry_total]. Qed.

Lemma window_carry_correct_witness :
  ∃ r, apply_window_carry (mk_subject_accounting 11 1 40 0 3 0 0 0 7 900 0 0) (-100) 50 = Some r
    ∧ carry_spec (mk_subject_accounting 11 1 40 0 3 0 0 0 7 900 0 0) (-100) 50 r.
Proof.
  destruct (window_carry_correct (mk_subject_accounting 11 1 40 0 3 0 0 0 7 900 0 0) (-100) 50) as [H1 H2].
  - constructor; concrete.
  - vm_compute; split; discriminate.
  - split; done.
  - destruct H2 as [r Hr]; [vm_compute; split; [discriminate|reflexivity]..|].
    exists r. split; [exact Hr|apply H1, Hr].
Defined.

(** The closure check is sound: a ledger that passes it against a net sum
    really stands for that sum, live and discarded amounts together; and while the
    gross amounts fit a signed word it is also complete. *)
Theorem accounting_closes_exact (a : FairnessAccounting) (n : Z) (Ht : Forall sa_typed (acc_subjects a)) :
  (accounting_closes a n = true → sumZ (sa_residual <$> acc_subjects a) = n)
  ∧ (sumZ (sa_gross <$> acc_subjects a) <= I64_MAX →
     sumZ (sa_residual <$> acc_subjects a) = n → accounting_closes a n = true).
Proof.
  split; [by apply accounting_closes_sound|]. intros Hb Hn.
  rewrite accounting_closes_complete by done. by apply bool_decide_eq_true_2.
Qed.

Lemma accounting_closes_exact_witness :
  accounting_closes sample_accounting 0 = true ∧ sumZ (sa_residual <$> acc_subjects sample_accounting) = 0.
Proof.
  assert (accounting_closes sample_accounting 0 = true) as H by (vm_compute; reflexivity).
  split; [exact H|]. apply (proj1 (accounting_closes_exact sample_accounting 0 sample_entries_typed) H).
Defined.

(** ** Durable encodings *)

(** C14: The durable encodings lose nothing and admit nothing illegal.  A valid
    policy, a storable ledger and a valid snapshot survive the codec unchanged;
    whatever bytes decode to a policy or a snapshot decode to one that passes
    validation, and to a ledger decode to distinct subjects with bounded carries
    and streaks. *)
Theorem codec_roundtrip (p : FairnessPolicy) (a : FairnessAccounting) (e : EvidenceSnapshot)
    (Tp : policy_typed p) (Hp : validate_policy p = Value tt)
    (Ha : accounting_storable a) (Te : evidence_typed e) (We : evidence_wf e) :
  (decode_policy (encode_policy p) = Value p
   ∧ decode_accounting (encode_accounting a) = Value a
   ∧ decode_evidence (encode_evidence e) = Value e)
  ∧ (∀ bytes q, decode_policy bytes = Value q → validate_policy q = Value tt)
  ∧ (∀ bytes b, decode_accounting bytes = Value b →
       NoDup (sa_id <$> acc_subjects b)
       ∧ Forall (λ x, sa_cumulative_deficit x <= kMaxCarryUnits ∧ sa_cumulative_surplus x <= kMaxCarryUnits
           ∧ sa_unserved_streak x <= 1000000 ∧ sa_below_floor_streak x <= 1000000) (acc_subjects b))
  ∧ (∀ bytes f, decode_evidence bytes = Value f → validate_evidence f = Value tt).
Proof.
  split; [split; [|split]|split; [|split]].
  - apply decode_encode_policy; [done|by apply validate_policy_iff].
  - by apply decode_encode_accounting.
  - by apply decode_encode_evidence.
  - intros bytes q. apply decode_policy_valid.
  - intros bytes b. apply decode_accounting_legal.
  - intros bytes f. apply decode_evidence_valid.
Qed.

Lemma sample_accounting_storable : accounting_storable sample_accounting.
Proof.
  constructor; [apply sample_accounting_typed|vm_compute; discriminate| |].
  - apply (bool_decide_unpack _). vm_compute. reflexivity.
  - apply (bool_decide_unpack _). vm_compute. reflexivity.
Qed.

Lemma codec_roundtrip_witness :
  decode_policy (encode_policy sample_policy) = Value sample_policy
  ∧ decode_accounting (encode_accounting sample_accounting) = Value sample_accounting
  ∧ decode_evidence (encode_evidence sample_evidence) = Value sample_evidence.
Proof.
  exact (proj1 (codec_roundtrip sample_policy sample_accounting sample_evidence sample_policy_typed
    sample_policy_valid sample_accounting_storable sample_evidence_typed sample_evidence_wf)).
Defined.
