(* ===== verification/PropEngine.v ===== *)
(** The properties of the evaluation engine: allocation, distribution over the
    group forest, totality, the corrective plan, and the verdicts. *)
From S2P Require Import Prelude Status Core U128 Policy PolicyValid Accounting Evidence Outcome Codec Allocation AllocationSpec Distributor DistributorSpec BuildSpec Engine Planner EngineSpec PlannerSpec EvalSpec Fixture FixtureSpec.
#[local] Open Scope string_scope.
#[local] Open Scope list_scope.
#[local] Open Scope Z_scope.

(** ** Allocation *)

(** C1: on well-formed competitors [allocate_whole] returns an allocation that
    sums to the whole exactly, meets every floor unless it reports overcommit,
    stays within one unit of the weighted share where no floor binds, and in
    overcommit leaves nothing to a weaker obligation while a stronger one lacks. *)
Theorem allocate_whole_correct (children : list AllocationInput) (whole : Z)
    (Hok : inputs_ok children) (Hwhole : u64 whole) :
  ∃ r, allocate_whole children whole = Value r ∧ allocation_spec children whole r.
Proof. by apply allocate_whole_value. Qed.

Definition sample_inputs : list AllocationInput :=
  [ mk_input 1 3 0 0; mk_input 2 1 40 2; mk_input 3 2 10 1 ].

Lemma sample_inputs_ok : inputs_ok sample_inputs.
Proof. constructor; [done| | | | |]; try (repeat constructor; simpl; lia); done. Defined.

Lemma allocate_whole_correct_witness :
  ∃ r, allocate_whole sample_inputs 100 = Value r ∧ allocation_spec sample_inputs 100 r.
Proof. apply (allocate_whole_correct sample_inputs 100); [apply sample_inputs_ok|split; done]. Defined.

(** ** Distribution *)

(** What a node of the forest holds is exactly what it hands on. *)
Definition node_conserves (nodes : list GroupNode) (allocation : GroupNode → Z) (subjects : list Z) (i : nat) : Prop :=
  allocation (node_at nodes i)
  = sumZ ((λ j, allocation (node_at nodes j)) <$> gn_child_groups (node_at nodes i))
    + sumZ (at_ subjects <$> gn_child_subjects (node_at nodes i)).

Lemma settled_conserves p use_modifier v i amount :
  settled p (built_nodes p) use_modifier v i amount →
  amount = sumZ (held v <$> node_items (built_nodes p) i).
Proof. intros (r & _ & Hs & <- & _). symmetry. apply Hs. Qed.

Lemma node_conserves_items nodes allocation subjects (v : PassVectors) i :
  pv_node v = allocation <$> nodes → pv_subject v = subjects → allocation default_node = 0 →
  allocation (node_at nodes i) = sumZ (held v <$> node_items nodes i) →
  node_conserves nodes allocation subjects i.
Proof.
  intros En Es H0 Hc. unfold node_conserves. rewrite Hc. unfold node_items.
  rewrite fmap_app, sumZ_app, <-!list_fmap_compose. f_equal; f_equal; apply list_fmap_ext; intros _ j _; cbn.
  - rewrite En. unfold at_, node_at. rewrite <-H0. apply map_nth.
  - by rewrite Es.
Qed.

(** The policy with its [enforce_guarantee_floors] flag set to [b]. *)
Definition with_floors (b : bool) (p : FairnessPolicy) : FairnessPolicy :=
  mk_policy (pol_id p) (pol_generation p) (pol_epoch p) (pol_window_units p) (pol_fair_band_units p)
    (pol_correction_threshold_units p) (pol_cooldown_windows p) (pol_max_correction_units p)
    (pol_max_correction_bps p) (pol_max_priority_modifier_bps p) (pol_max_evidence_age_windows p)
    (pol_max_evidence_age_ns p) (pol_max_carry_units p) b (pol_groups p) (pol_subjects p) (pol_provenance p).

(** C2: on a policy that can be evaluated, as every valid one can, the distributor
    builds and distributes any whole; at
    every group, in the base pass and in the effective one, the allocation equals
    what its child groups and child subjects receive; the subjects share the
    whole exactly; and unless overcommit is flagged every subject gets its floor.
    All of this whatever the policy's enforce_guarantee_floors flag says: setting or
    clearing it changes nothing, so floors also bind where policy.hpp documents that
    clearing it leaves the pure weighted share (reported as a divergence). *)
Theorem distribute_conserves (p : FairnessPolicy) (whole : Z)
    (T : policy_typed p) (W : policy_evaluable p) (Hwhole : u64 whole) :
  ∃ d0 d, build p = Value d0 ∧ distribute p whole d0 = Value d
    ∧ sumZ (d_subject_base d) = whole ∧ sumZ (d_subject_effective d) = whole
    ∧ (∀ i, (i < length (pol_groups p))%nat →
         node_conserves (d_nodes d) gn_base_allocation (d_subject_base d) i
         ∧ node_conserves (d_nodes d) gn_allocation (d_subject_effective d) i)
    ∧ (ps_overcommit (d_effective_pass d) = false →
       ∀ s, (s < length (pol_subjects p))%nat →
         subj_guarantee_floor (subject_at p s) <= at_ (d_subject_effective d) s)
    ∧ (∀ b, build (with_floors b p) = Value d0 ∧ distribute (with_floors b p) whole d0 = Value d).
Proof.
  destruct (distribute_value p T W whole Hwhole) as (d & Hrun & Hd).
  exists (built p), d. split; [by apply build_value|]. split; [done|].
  destruct (distributed_conserves p T W whole d Hd) as [Sb Se]. split; [done|]. split; [done|]. split; [|split].
  - intros i Hi. destruct Hd as [(_ & _ & Hl & Hitems & _) _ [_ Hb] [_ He]]. split.
    + apply (node_conserves_items _ _ _ (base_vectors d)); [done..|]. rewrite Hitems.
      rewrite <-(settled_conserves _ _ _ _ _ (Hb i Hi)). cbn. unfold at_, node_at.
      change 0 with (gn_base_allocation default_node). symmetry. apply map_nth.
    + apply (node_conserves_items _ _ _ (effective_vectors d)); [done..|]. rewrite Hitems.
      rewrite <-(settled_conserves _ _ _ _ _ (He i Hi)). cbn. unfold at_, node_at.
      change 0 with (gn_allocation default_node). symmetry. apply map_nth.
  - intros Hno s Hs. by apply (distributed_floors p W whole d s).
  - intros b. split; [exact (build_value p T W)|exact Hrun].
Qed.

Lemma distribute_conserves_witness :
  ∃ d0 d, build sample_policy = Value d0 ∧ distribute sample_policy 120 d0 = Value d
    ∧ sumZ (d_subject_base d) = 120 ∧ sumZ (d_subject_effective d) = 120
    ∧ (∀ i, (i < length (pol_groups sample_policy))%nat →
         node_conserves (d_nodes d) gn_base_allocation (d_subject_base d) i
         ∧ node_conserves (d_nodes d) gn_allocation (d_subject_effective d) i)
    ∧ (ps_overcommit (d_effective_pass d) = false →
       ∀ s, (s < length (pol_subjects sample_policy))%nat →
         subj_guarantee_floor (subject_at sample_policy s) <= at_ (d_subject_effective d) s)
    ∧ (∀ b, build (with_floors b sample_policy) = Value d0
         ∧ distribute (with_floors b sample_policy) 120 d0 = Value d).
Proof.
  apply (distribute_conserves sample_policy 120 sample_policy_typed (policy_wf_evaluable _ sample_policy_wf)). split; done.
Defined.

(** ** The evaluation *)

(** Without eligible evidence the decision is inert. *)
Lemma ineligible_decision (ctx : EvaluationContext) (policy : FairnessPolicy)
    (accounting : FairnessAccounting) (decision : FairnessDecision)
    (Hctx : context_ok ctx policy accounting) (Hrun : evaluate_fairness ctx = Value decision)
    (Hnone : eligibility policy ctx <> None) :
  fd_intents decision = [] ∧ cor_authorized_budget_units (fd_correction decision) = 0
  ∧ (fd_outcome decision = Outcome.Unknown ∨ fd_outcome decision = Outcome.Stale)
  ∧ ∀ st, st ∈ fd_subjects decision → sf_has_authority st = false
      ∧ (sf_outcome st = Outcome.Unknown ∨ sf_outcome st = Outcome.Stale).
Proof.
  destruct (decision_evaluation Hctx decision Hrun) as (d & plans & finals & Hev).
  destruct (ev_length _ _ _ _ _ _ _ Hev) as [Hl Hfl].
  assert (∀ i, (i < length (pol_subjects policy))%nat → sp_has_authority (plan_at plans i) = false) as Hno.
  { intros i Hi. destruct (sp_has_authority (plan_at plans i)) eqn:E; [|done].
    destruct (eval_authorised Hev i Hi E) as (e & o & _ & He & _). done. }
  assert (∀ i, (i < length (pol_subjects policy))%nat →
    sp_outcome (plan_at finals i) = Outcome.Unknown ∨ sp_outcome (plan_at finals i) = Outcome.Stale) as Hout.
  { intros i Hi. rewrite (eval_verdict Hev i Hi). unfold verdict. rewrite Hno by done. cbn [negb].
    by destruct (re_authority _ _ _ (eval_ready Hctx Hev i Hi) (Hno i Hi)) as (_ & _ & ?). }
  split_and!.
  - destruct (fd_intents decision) as [|it l] eqn:E; [done|].
    destruct (eval_intent Hctx Hev it) as (i & Hi & _ & _ & Ha & _); [rewrite E; set_solver|].
    rewrite Hno in Ha; done.
  - destruct (ev_correction _ _ _ _ _ _ _ Hev) as (-> & _). pose proof (eval_authorized Hctx Hev) as [H0 _].
    assert (sumZ (sp_demand <$> plans) = 0) as Ez; [|unfold budget_of in *; lia].
    rewrite sumZ_plans, Hl, (sum_over_ext _ _ (λ _, 0)); [unfold sum_over; rewrite sumZ_map_const; lia|].
    intros i Hi%elem_of_seq. by destruct (re_authority _ _ _ (eval_ready Hctx Hev i ltac:(lia)) (Hno i ltac:(lia))).
  - rewrite (ev_outcome _ _ _ _ _ _ _ Hev). destruct (aggregate_spec finals) as [[E|Hin] Hmax].
    + exfalso. pose proof (sw_nonempty _ (pe_scalars _ (co_evaluable _ _ _ Hctx))) as Hne.
      assert (0 < length (pol_subjects policy))%nat as H0 by (destruct (pol_subjects policy); [done|simpl; lia]).
      destruct (lookup_lt_is_Some_2 finals 0) as [p Hp]; [lia|].
      specialize (Hmax p ltac:(by eapply list_elem_of_lookup_2)). specialize (Hout 0%nat H0).
      rewrite (plan_at_lookup _ _ _ Hp) in Hout. rewrite E in Hmax. by destruct Hout as [Eo|Eo]; rewrite Eo in Hmax.
    + apply list_elem_of_fmap in Hin as (p & -> & [i Hi]%list_elem_of_lookup_1).
      pose proof (lookup_lt_Some _ _ _ Hi). rewrite <-(plan_at_lookup _ _ _ Hi). apply Hout. lia.
  - intros st Hst. destruct (eval_state_find Hctx Hev st Hst) as (i & Hi & Hso).
    rewrite (so_authority _ _ Hso), (so_outcome _ _ Hso), <-(eval_verdict Hev i Hi). auto.
Qed.

(** The context with the request's [allow_stale_result] set to [b]. *)
Definition with_stale_allowed (b : bool) (ctx : EvaluationContext) : EvaluationContext :=
  let r := ctx_request ctx in
  mk_context (ctx_policy ctx) (ctx_accounting ctx) (ctx_evidence ctx)
    (mk_request (rq_policy_id r) (rq_policy_generation r) (rq_epoch r) (rq_evidence_id r)
       (rq_evidence_generation r) (rq_window r) (rq_window_generation r) (rq_now_ns r) (rq_request_id r)
       (rq_attempt r) (rq_treat_missing_as_unknown r) b)
    (ctx_current_epoch ctx) (ctx_current_window ctx) (ctx_last_committed_window ctx).

(** C3: the evaluation is total: on a policy that can be evaluated (every valid
    policy, and nested ones whose inner groups govern only through child groups), a
    ledger with room and validated evidence (or none) it returns a decision, for
    every request.  The request's allow_stale_result is not read: with either value
    the decision is the same, so an epoch mismatch never aborts the evaluation, which
    governor.hpp documents for a request that clears the flag (reported as a
    divergence); the request is then answered by a decision without authority. *)
Theorem evaluate_fairness_total (ctx : EvaluationContext) (policy : FairnessPolicy)
    (accounting : FairnessAccounting) (Hctx : context_ok ctx policy accounting) :
  ∃ decision, evaluate_fairness ctx = Value decision
    ∧ (∀ b, evaluate_fairness (with_stale_allowed b ctx) = Value decision)
    ∧ (rq_epoch (ctx_request ctx) <> ctx_current_epoch ctx →
       fd_intents decision = [] ∧ ∀ st, st ∈ fd_subjects decision → sf_has_authority st = false).
Proof.
  destruct (evaluate_fairness_value ctx policy accounting Hctx) as (d & plans & finals & decision & Hrun & _).
  exists decision. split; [done|]. split.
  { intros b. rewrite <-Hrun. by destruct ctx as [? ? ? []]. }
  intros Hepoch. destruct (ineligible_decision ctx policy accounting decision Hctx Hrun) as (Hi & _ & _ & Hs).
  - by apply epoch_mismatch_ineligible.
  - split; [done|]. intros st Hst. by apply Hs.
Qed.

Lemma evaluate_fairness_total_witness :
  ∃ decision, evaluate_fairness sample_context = Value decision
    ∧ (∀ b, evaluate_fairness (with_stale_allowed b sample_context) = Value decision)
    ∧ (rq_epoch (ctx_request sample_context) <> ctx_current_epoch sample_context →
       fd_intents decision = [] ∧ ∀ st, st ∈ fd_subjects decision → sf_has_authority st = false).
Proof. apply (evaluate_fairness_total _ _ _ sample_context_ok). Defined.

(** C4: the corrective plan conserves service: the units its intents add and the units
    they take are both the authorised budget, which is exactly the smallest of the
    reducible pool, the demand, the policy's unit bound and its basis-point bound
    on the service observed.  The demand is the sum of what the subjects' published
    numbers ask for (what each is owed up to its cap, unless within the fair band or
    cooling down), and the pool the sum of what they offer (each surplus up to its
    cap, and for a protected subject above its floor only). *)
Theorem correction_conserves (ctx : EvaluationContext) (policy : FairnessPolicy)
    (accounting : FairnessAccounting) (decision : FairnessDecision)
    (Hctx : context_ok ctx policy accounting) (Hrun : evaluate_fairness ctx = Value decision) :
  let authorized := cor_authorized_budget_units (fd_correction decision) in
  let observed := sumZ ((λ st, if sf_has_authority st then sf_served_units st else 0) <$> fd_subjects decision) in
  let demand := sumZ (zip_with (asked_units (ctx := ctx) (policy := policy) (accounting := accounting)) (pol_subjects policy) (fd_subjects decision)) in
  let pool := sumZ (zip_with offered_units (pol_subjects policy) (fd_subjects decision)) in
  intent_units CorrectionDirection.Augment (fd_intents decision) = authorized
  ∧ intent_units CorrectionDirection.Reduce (fd_intents decision) = authorized
  ∧ cor_augment_units (fd_correction decision) = authorized
  ∧ cor_reduce_units (fd_correction decision) = authorized
  ∧ authorized = Z.min pool (Z.min demand (Z.min (pol_max_correction_units policy) (bps_limit policy observed)))
  ∧ cor_reducible_pool_units (fd_correction decision) = pool
  ∧ cor_demand_units (fd_correction decision) = demand ∧ 0 <= authorized.
Proof.
  destruct (decision_evaluation Hctx decision Hrun) as (d & plans & finals & Hev). cbv zeta.
  destruct (ev_correction _ _ _ _ _ _ _ Hev) as (-> & -> & -> & _ & -> & ->).
  destruct (ev_length _ _ _ _ _ _ _ Hev) as [Hl Hfl].
  pose proof (eval_authorized Hctx Hev) as Hauth.
  assert (sumZ ((λ st, if sf_has_authority st then sf_served_units st else 0) <$> fd_subjects decision)
    = sumZ (counted_service <$> plans)) as ->.
  { rewrite sumZ_plans, Hl. apply sumZ_at.
    - by rewrite length_fmap, (ev_subjects _ _ _ _ _ _ _ Hev), length_zip_with, Hfl, Nat.min_id.
    - intros i Hi. rewrite at_lookup, list_lookup_fmap, (eval_state Hev i Hi). cbn.
      destruct (state_fields (policy := policy) (subject_at policy i) (plan_at finals i))
        as (_ & _ & _ & _ & -> & _ & -> & _).
      destruct (eval_final Hev i Hi) as (_ & _ & -> & -> & _). done. }
  rewrite (eval_sum Hctx Hev _ sp_demand (eval_asked Hctx Hev)), (eval_sum Hctx Hev _ sp_reducible (eval_offered Hctx Hev)).
  destruct (eval_intent_units Hctx Hev) as [-> ->]. split_and!; try done; lia.
Qed.

Lemma correction_conserves_witness :
  let authorized := cor_authorized_budget_units (fd_correction sample_decision) in
  let observed := sumZ ((λ st, if sf_has_authority st then sf_served_units st else 0) <$> fd_subjects sample_decision) in
  let demand := sumZ (zip_with (asked_units (ctx := sample_context) (policy := sample_policy) (accounting := sample_accounting)) (pol_subjects sample_policy) (fd_subjects sample_decision)) in
  let pool := sumZ (zip_with offered_units (pol_subjects sample_policy) (fd_subjects sample_decision)) in
  intent_units CorrectionDirection.Augment (fd_intents sample_decision) = authorized
  ∧ intent_units CorrectionDirection.Reduce (fd_intents sample_decision) = authorized
  ∧ cor_augment_units (fd_correction sample_decision) = authorized
  ∧ cor_reduce_units (fd_correction sample_decision) = authorized
  ∧ authorized = Z.min pool (Z.min demand (Z.min (pol_max_correction_units sample_policy) (bps_limit sample_policy observed)))
  ∧ cor_reducible_pool_units (fd_correction sample_decision) = pool
  ∧ cor_demand_units (fd_correction sample_decision) = demand ∧ 0 <= authorized.
Proof. apply (correction_conserves _ _ _ _ sample_context_ok sample_decision_value). Defined.

(** C5: every intent names one governed subject with evidence authority and stays
    inside that subject's own bounds: an augmentation within its augmentation cap,
    a reduction within its reduction cap and its surplus over its entitlement, and
    a protected subject is never reduced below its guarantee floor. *)
Theorem intents_within_bounds (ctx : EvaluationContext) (policy : FairnessPolicy)
    (accounting : FairnessAccounting) (decision : FairnessDecision)
    (Hctx : context_ok ctx policy accounting) (Hrun : evaluate_fairness ctx = Value decision) :
  ∀ it, it ∈ fd_intents decision →
  ∃ s st, s ∈ pol_subjects policy ∧ st ∈ fd_subjects decision
    ∧ subj_id s = ci_subject it ∧ sf_id st = ci_subject it ∧ subj_generation s = ci_subject_generation it
    ∧ sf_has_authority st = true ∧ 0 < ci_units it
    ∧ match ci_direction it with
      | CorrectionDirection.Augment =>
          ci_units it = sf_proposed_augment_units st ∧ ci_units it <= subj_max_augment_units s
      | CorrectionDirection.Reduce =>
          ci_units it = sf_proposed_reduce_units st ∧ ci_units it <= subj_max_reduce_units s
          ∧ ci_units it <= sf_surplus_units st
          ∧ (subj_protected_obligation s = true →
             subj_guarantee_floor s <= sf_served_units st - ci_units it)
      end.
Proof.
  intros it Hit. destruct (decision_evaluation Hctx decision Hrun) as (d & plans & finals & Hev).
  destruct (eval_intent Hctx Hev it Hit) as (i & Hi & Eid & Eg & Ha & Hpos & Hdir).
  pose proof (eval_authorized Hctx Hev) as [H0 _]. destruct (ev_length _ _ _ _ _ _ _ Hev) as [Hl _].
  pose proof (eval_ready Hctx Hev i Hi) as Hr. pose proof (eval_final Hev i Hi) as Hf. cbv zeta in Hf.
  pose proof (state_fields (policy := policy) (subject_at policy i) (plan_at finals i)) as Hs. cbv zeta in Hs.
  destruct (subject_at_elem policy i Hi) as (s & Hls & Es).
  exists s, (subject_state policy (subject_at policy i) (plan_at finals i)). rewrite <-Es.
  destruct_and!. split_and!; try congruence.
  - rewrite Es. by eapply list_elem_of_lookup_2.
  - eapply list_elem_of_lookup_2, (eval_state Hev i Hi).
  - destruct (ci_direction it).
    + destruct Hdir as (_ & Eu & _).
      destruct (grant_range policy plans Hl (eval_ready Hctx Hev) _ i H0 Hi) as [Hg _].
      pose proof (re_demand _ _ _ Hr). unfold demand_at in Hg. split; [congruence|]. rewrite Eu. lia.
    + destruct Hdir as (_ & Eu).
      destruct (take_range policy plans Hl (eval_ready Hctx Hev) _ i H0 Hi) as [Hg _].
      pose proof (re_reducible _ _ _ Hr). unfold supply_at in Hg.
      split_and!; [congruence|rewrite Eu; lia|..].
      * replace (sf_surplus_units _) with (sp_surplus (plan_at plans i)) by congruence. rewrite Eu. lia.
      * intros Hp. pose proof (re_protected _ _ _ Hr Hp).
        replace (sf_served_units _) with (sp_served (plan_at plans i)) by congruence. rewrite Eu in *. lia.
Qed.

Lemma intents_within_bounds_witness :
  fd_intents sample_decision <> []
  ∧ ∀ it, it ∈ fd_intents sample_decision →
  ∃ s st, s ∈ pol_subjects sample_policy ∧ st ∈ fd_subjects sample_decision
    ∧ subj_id s = ci_subject it ∧ sf_id st = ci_subject it ∧ subj_generation s = ci_subject_generation it
    ∧ sf_has_authority st = true ∧ 0 < ci_units it
    ∧ match ci_direction it with
      | CorrectionDirection.Augment =>
          ci_units it = sf_proposed_augment_units st ∧ ci_units it <= subj_max_augment_units s
      | CorrectionDirection.Reduce =>
          ci_units it = sf_proposed_reduce_units st ∧ ci_units it <= subj_max_reduce_units s
          ∧ ci_units it <= sf_surplus_units st
          ∧ (subj_protected_obligation s = true →
             subj_guarantee_floor s <= sf_served_units st - ci_units it)
      end.
Proof.
  split; [vm_compute; discriminate|].
  apply (intents_within_bounds _ _ _ _ sample_context_ok sample_decision_value).
Defined.

(** C6: starvation comes first: while any subject that is not starving is
    augmented, every starving subject with authority that is still owed something,
    whether reported as a starvation risk or as blocked by a stronger obligation,
    has been augmented up to its own cap. *)
Theorem starvation_first (ctx : EvaluationContext) (policy : FairnessPolicy)
    (accounting : FairnessAccounting) (decision : FairnessDecision)
    (Hctx : context_ok ctx policy accounting) (Hrun : evaluate_fairness ctx = Value decision)
    (other : CorrectiveIntent) (Hother : other ∈ fd_intents decision)
    (Haug : ci_direction other = CorrectionDirection.Augment) (Hnot : ci_from_starvation other = false)
    (i : nat) (s : Subject) (st : SubjectFairnessState)
    (Hs : pol_subjects policy !! i = Some s) (Hst : fd_subjects decision !! i = Some st)
    (Hauth : sf_has_authority st = true)
    (Hstarving : starves s (sf_unserved_streak st) (sf_below_floor_streak st) = true)
    (Howed : 0 < sf_unsatisfied_demand_units st) :
  sf_proposed_augment_units st = subj_max_augment_units s.
Proof.
  destruct (decision_evaluation Hctx decision Hrun) as (d & plans & finals & Hev).
  destruct (eval_intent Hctx Hev other Hother) as (j & Hj & _ & _ & _ & Hpos & Hdir).
  rewrite Haug in Hdir. destruct Hdir as (Hjo & Ej & Esj). rewrite Hnot in Esj.
  destruct (eval_state_lookup Hctx Hev i st Hst) as [Hi Hso]. rewrite <-(subject_at_lookup _ _ _ Hs).
  destruct (ev_length _ _ _ _ _ _ _ Hev) as [Hl _]. pose proof (eval_authorized Hctx Hev) as [Hbudget _].
  pose proof (eval_ready Hctx Hev i Hi) as Hr. rewrite (so_authority _ _ Hso) in Hauth. rename Hauth into Eauth.
  destruct (eval_authorised Hev i Hi Eauth) as (e & o & _ & _ & _ & _ & Has).
  pose proof (ad_starving _ _ _ _ _ _ _ _ Has) as Est.
  rewrite <-(so_unserved _ _ Hso), <-(so_below _ _ Hso), (subject_at_lookup _ _ _ Hs), Hstarving in Est.
  pose proof (starving_demand Hctx Hev i Hi Eauth Est) as Ed.
  destruct (grant_range policy plans Hl (eval_ready Hctx Hev) _ i Hbudget Hi) as [Hg _]. unfold demand_at in Hg.
  pose proof (subject_caps policy (co_typed _ _ _ Hctx) (co_evaluable _ _ _ Hctx) i Hi) as [Hcap _].
  rewrite (so_augment _ _ Hso). rewrite (so_unsatisfied _ _ Hso) in Howed.
  destruct (sp_effective_deficit (plan_at plans i) >? pol_fair_band_units policy) eqn:Eband; [|lia].
  destruct (Z.eq_dec (sp_demand (plan_at plans i)) 0) as [Ez|Ez].
  - pose proof (re_effective _ _ _ Hr). lia.
  - pose proof (re_demand _ _ _ Hr) as Hdr.
    rewrite (grant_priority policy plans _ i j) in Howed |- *; unfold demand_at in *; try done; try lia.
    all: try (apply demand_order_elem; [done|]; unfold demand_at; split_and!; done || lia).
    all: by apply starving_before.
Qed.

Lemma starvation_first_witness :
  ∃ st s, st ∈ fd_subjects (decision_in starving_context) ∧ s ∈ pol_subjects starving_policy
    ∧ subj_id s = sf_id st ∧ sf_proposed_augment_units st = subj_max_augment_units s.
Proof.
  set (st := nth 2 (fd_subjects (decision_in starving_context)) (subject_state starving_policy default_subject default_plan)).
  set (s := nth 2 (pol_subjects starving_policy) default_subject).
  exists st, s. split_and!.
  - vm_compute. apply list_elem_of_further, list_elem_of_further, list_elem_of_here.
  - vm_compute. apply list_elem_of_further, list_elem_of_further, list_elem_of_here.
  - vm_compute. reflexivity.
  - apply (starvation_first _ _ _ _ starving_context_ok starving_decision_value
      (nth 1 (fd_intents (decision_in starving_context))
         (mk_intent 0 0 CorrectionDirection.Reduce 0 0 0 0 CorrectionBound.None ReasonCode.None true true 0)))
      with (i := 2%nat); [|vm_compute; reflexivity..].
    vm_compute. apply list_elem_of_further, list_elem_of_here.
Defined.

(** The sample request, one window after its evidence was committed. *)
Definition replayed_context : EvaluationContext :=
  mk_context (Some sample_policy) (Some sample_accounting) (Some sample_evidence) sample_request 1 9 9.

(** C7: authority is exact, and nothing happens without it.  Evidence has authority exactly when it is current: the
    request names the installed policy generation and the live epoch, the snapshot
    is the one the request names, its window is not yet committed, not in the future
    and not too old, and its age in nanoseconds is within the policy's limit.  A
    subject has authority in the decision exactly when, besides, its own observation
    matches it: same subject generation, the policy's priority and QoS references
    where it declares them, and the ledger's entry, if there is one, of the same
    generation.  Without eligible evidence nothing is corrected: no subject has
    authority, every outcome is UNKNOWN or STALE, the decision's too, and the
    corrective plan is empty. *)
Theorem authority_exact (ctx : EvaluationContext) (policy : FairnessPolicy)
    (accounting : FairnessAccounting) (decision : FairnessDecision)
    (Hctx : context_ok ctx policy accounting) (Hrun : evaluate_fairness ctx = Value decision)
    (Hcur : u64 (ctx_current_window ctx)) (Hwin : u64 (rq_window (ctx_request ctx)))
    (Hnow : i64 (rq_now_ns (ctx_request ctx))) :
  (eligibility policy ctx = None ↔ ∃ e, evidence_current policy ctx e)
  ∧ (∀ i s st, pol_subjects policy !! i = Some s → fd_subjects decision !! i = Some st →
    sf_id st = subj_id s
    ∧ (sf_has_authority st = true ↔ ∃ e o, evidence_current policy ctx e ∧ subject_current accounting e s o))
  ∧ (eligibility policy ctx <> None →
       fd_intents decision = [] ∧ cor_authorized_budget_units (fd_correction decision) = 0
       ∧ (fd_outcome decision = Outcome.Unknown ∨ fd_outcome decision = Outcome.Stale)
       ∧ ∀ st, st ∈ fd_subjects decision → sf_has_authority st = false
           ∧ (sf_outcome st = Outcome.Unknown ∨ sf_outcome st = Outcome.Stale)).
Proof.
  assert (∀ e, ctx_evidence ctx = Some e → i64 (ev_captured_at_ns e)) as Hcap.
  { intros e He. by destruct (co_evidence _ _ _ Hctx e He) as [[] _]. }
  pose proof (eligibility_none policy ctx Hcur Hwin Hnow Hcap) as Helig.
  split; [done|]. split; [|by eapply ineligible_decision]. intros i s st Hs Hst.
  destruct (decision_evaluation Hctx decision Hrun) as (d & plans & finals & Hev).
  destruct (eval_state_lookup Hctx Hev i st Hst) as [Hi Hso].
  pose proof (eval_granted Hev i Hi) as Hg. rewrite (subject_at_lookup _ _ _ Hs) in Hg.
  destruct (so_subject _ _ Hso) as [Hid _]. rewrite (subject_at_lookup _ _ _ Hs) in Hid. split; [done|].
  rewrite (so_authority _ _ Hso), Hg, Helig. split.
  - intros ([e He] & e' & o & Ee' & Ho). exists e, o. split; [done|].
    pose proof (proj1 (cu_snapshot _ _ _ He)) as Ee. congruence.
  - intros (e & o & He & Ho). split; [by exists e|]. exists e, o. split; [|done]. by apply (cu_snapshot _ _ _ He).
Qed.

Lemma authority_exact_witness :
  (∀ st, fd_subjects (decision_in sample_context) !! 0%nat = Some st →
     sf_has_authority st = true ↔
       ∃ e o, evidence_current sample_policy sample_context e
         ∧ subject_current sample_accounting e (subject_at sample_policy 0) o)
  ∧ fd_intents (decision_in replayed_context) = [].
Proof.
  destruct (authority_exact sample_context sample_policy sample_accounting (decision_in sample_context))
    as (_ & H & _); [apply sample_context_ok|vm_compute; reflexivity|vm_compute; split; discriminate || reflexivity..|].
  destruct (authority_exact replayed_context sample_policy sample_accounting (decision_in replayed_context))
    as (_ & _ & Hno); [|vm_compute; reflexivity|vm_compute; split; discriminate || reflexivity..|].
  { destruct sample_context_ok. constructor; done. }
  split; [|apply Hno; vm_compute; discriminate].
  intros st Hst. apply (H 0%nat); [vm_compute; reflexivity|exact Hst].
Defined.

(** C8: the verdict of a subject says what its numbers say.  With authority: a
    starving subject is a starvation risk or blocked by a stronger obligation;
    otherwise one owed more than the fair band is under-served, to be corrected or
    blocked; otherwise one served beyond the band over its entitlement is
    over-served; and every other subject is fair.  Its entitlement, deficit,
    surplus and deviation are consistent with what it was served. *)
Theorem verdict_sound (ctx : EvaluationContext) (policy : FairnessPolicy)
    (accounting : FairnessAccounting) (decision : FairnessDecision)
    (Hctx : context_ok ctx policy accounting) (Hrun : evaluate_fairness ctx = Value decision)
    (st : SubjectFairnessState) (Hst : st ∈ fd_subjects decision) (Hauth : sf_has_authority st = true) :
  ∃ s, s ∈ pol_subjects policy ∧ subj_id s = sf_id st ∧ subj_generation s = sf_generation st
    ∧ sf_deviation_units st = sf_served_units st - sf_entitlement_units st
    ∧ sf_deficit_units st = Z.max 0 (sf_entitlement_units st - sf_served_units st)
    ∧ sf_surplus_units st = Z.max 0 (sf_served_units st - sf_entitlement_units st)
    ∧ let owed := sf_deficit_units st + carried_deficit policy (accounting_find accounting (sf_id st)) in
      let starving := starves s (sf_unserved_streak st) (sf_below_floor_streak st) in
      match sf_outcome st with
      | Outcome.Fair => starving = false ∧ owed <= pol_fair_band_units policy
          ∧ sf_surplus_units st <= pol_fair_band_units policy
      | Outcome.OverServed => starving = false ∧ owed <= pol_fair_band_units policy
          ∧ pol_fair_band_units policy < sf_surplus_units st
      | Outcome.UnderServed => starving = false ∧ pol_fair_band_units policy < owed
      | Outcome.CorrectionRequired => starving = false ∧ pol_fair_band_units policy < owed
          ∧ pol_correction_threshold_units policy <= owed ∧ 0 < sf_proposed_augment_units st
      | Outcome.StarvationRisk => starving = true
      | Outcome.BlockedByStrongerObligation =>
          (starving = true ∨ pol_fair_band_units policy < owed)
          ∧ 0 < cor_unsatisfied_demand_units (fd_correction decision)
      | Outcome.Unknown | Outcome.Stale => False
      end.
Proof.
  destruct (decision_evaluation Hctx decision Hrun) as (d & plans & finals & Hev).
  destruct (eval_state_find Hctx Hev st Hst) as (i & Hi & Hso). rewrite (so_authority _ _ Hso) in Hauth.
  destruct (subject_at_elem policy i Hi) as (s & Hls & Es).
  exists s. split; [by eapply list_elem_of_lookup_2|]. rewrite <-Es. destruct (so_subject _ _ Hso) as [Hid Hgen].
  split; [done|]. split; [done|].
  destruct (eval_authorised Hev i Hi Hauth) as (e & o & _ & _ & _ & _ & Has). cbv zeta.
  rewrite (so_deviation _ _ Hso), (so_deficit _ _ Hso), (so_surplus _ _ Hso), (so_served _ _ Hso),
    (so_entitlement _ _ Hso), (so_outcome _ _ Hso), (so_unserved _ _ Hso), (so_below _ _ Hso),
    (so_augment _ _ Hso), Hid, <-(ad_starving _ _ _ _ _ _ _ _ Has).
  rewrite (ad_served _ _ _ _ _ _ _ _ Has). destruct (ad_entitlement _ _ _ _ _ _ _ _ Has) as [-> _].
  rewrite (ad_deviation _ _ _ _ _ _ _ _ Has), (ad_surplus _ _ _ _ _ _ _ _ Has).
  pose proof (ad_deficit _ _ _ _ _ _ _ _ Has) as Ed. pose proof (ad_effective _ _ _ _ _ _ _ _ Has) as Eeff.
  split; [done|]. split; [done|]. split; [done|].
  assert (sp_this_window_deficit (plan_at plans i)
    + carried_deficit policy (accounting_find accounting (subj_id (subject_at policy i)))
    = sp_effective_deficit (plan_at plans i)) as -> by lia.
  destruct (ev_correction _ _ _ _ _ _ _ Hev) as (_ & _ & _ & -> & _).
  assert (held_back (policy := policy) (plans := plans) i = true →
    0 < unsatisfied policy plans (budget_of policy plans (sumZ (counted_service <$> plans)))) as Hheld.
  { unfold held_back, blocked_at, blocking. rewrite !andb_true_iff, !gtb_true_lt. naive_solver. }
  unfold verdict. rewrite Hauth. cbn [negb].
  pose proof (ad_surplus _ _ _ _ _ _ _ _ Has) as Es'. rewrite <-Es'.
  destruct (sp_starving (plan_at plans i)); [destruct (held_back i); [split; [by left|auto]|done]|].
  destruct (sp_effective_deficit (plan_at plans i) >? pol_fair_band_units policy) eqn:E1;
    [apply gtb_true_lt in E1|apply gtb_false_le in E1].
  - destruct (held_back i); [split; [by right|auto]|].
    destruct (_ && _) eqn:E2; [|done]. apply andb_true_iff in E2 as [H1%gtb_true_lt H2].
    rewrite Z.geb_leb in H2. apply Z.leb_le in H2. done.
  - destruct (sp_surplus (plan_at plans i) >? pol_fair_band_units policy) eqn:E2;
      [apply gtb_true_lt in E2|apply gtb_false_le in E2]; done.
Qed.

Lemma verdict_sound_witness :
  ∃ s, s ∈ pol_subjects starving_policy ∧ subj_id s = 12.
Proof.
  destruct (verdict_sound starving_context starving_policy sample_accounting _
    starving_context_ok starving_decision_value
    (nth 1 (fd_subjects (decision_in starving_context)) (subject_state starving_policy default_subject default_plan)))
    as (s & H1 & H2 & _).
  - vm_compute. apply list_elem_of_further, list_elem_of_here.
  - vm_compute. reflexivity.
  - exists s. split; [exact H1|]. rewrite H2. vm_compute. reflexivity.
Defined.

(** The number of subject states with an outcome. *)
Definition states_with (o : Outcome.t) (states : list SubjectFairnessState) : Z :=
  sizeZ (filter (λ st, sf_outcome st = o) states).

(** C9: the decision's outcome is the most severe of its subjects' and is one of
    them (or fair); its counters count the subjects of every outcome exactly and
    add up to the number of governed subjects, one state for each in policy order. *)
Theorem aggregation_exact (ctx : EvaluationContext) (policy : FairnessPolicy)
    (accounting : FairnessAccounting) (decision : FairnessDecision)
    (Hctx : context_ok ctx policy accounting) (Hrun : evaluate_fairness ctx = Value decision) :
  sf_id <$> fd_subjects decision = subj_id <$> pol_subjects policy
  ∧ (fd_outcome decision = Outcome.Fair ∨ ∃ st, st ∈ fd_subjects decision ∧ sf_outcome st = fd_outcome decision)
  ∧ (∀ st, st ∈ fd_subjects decision → Outcome.rank (sf_outcome st) <= Outcome.rank (fd_outcome decision))
  ∧ (∀ o, count_field o (fd_counts decision) = states_with o (fd_subjects decision))
  ∧ counts_total (fd_counts decision) = sizeZ (pol_subjects policy).
Proof.
  destruct (decision_evaluation Hctx decision Hrun) as (d & plans & finals & Hev).
  destruct (ev_length _ _ _ _ _ _ _ Hev) as [_ Hfl]. symmetry in Hfl.
  pose proof (sw_subjects _ (pe_scalars _ (co_evaluable _ _ _ Hctx))) as Hm.
  assert (sizeZ finals = sizeZ (pol_subjects policy)) as Esz by (unfold sizeZ; by rewrite Hfl).
  rewrite (ev_subjects _ _ _ _ _ _ _ Hev), (ev_outcome _ _ _ _ _ _ _ Hev), (ev_counts _ _ _ _ _ _ _ Hev).
  assert (sf_id <$> zip_with (subject_state policy) (pol_subjects policy) finals = subj_id <$> pol_subjects policy
    ∧ sf_outcome <$> zip_with (subject_state policy) (pol_subjects policy) finals = sp_outcome <$> finals) as [Eid Eout].
  { revert Hfl. clear. generalize (pol_subjects policy) as l. intros l. revert finals.
    induction l as [|s l IH]; intros [|plan finals] Hfl; try done. cbn [zip_with]. rewrite !fmap_cons.
    destruct (state_fields (policy := policy) s plan) as (-> & _ & -> & _).
    destruct (IH finals) as [-> ->]; [simpl in Hfl; lia|]. done. }
  assert (∀ o, states_with o (zip_with (subject_state policy) (pol_subjects policy) finals) = count_of o finals) as Hcount.
  { intros o. unfold states_with, count_of, sizeZ. f_equal. revert Eout. clear.
    generalize (zip_with (subject_state policy) (pol_subjects policy) finals) as l. intros l. revert finals.
    induction l as [|st l IH]; intros [|plan finals] H; try done. rewrite !fmap_cons in H.
    injection H as E H. rewrite !filter_cons, E. case_decide; cbn [length]; by rewrite (IH finals). }
  destruct (aggregate_spec finals) as [Hor Hmax].
  assert (∀ o, count_field o (aggregate_counts finals) = count_of o finals) as Hfield.
  { intros o. apply aggregate_counts_field. unfold U32_MAX. lia. }
  split; [done|]. split; [|split; [|split]].
  - destruct Hor as [?|Hin]; [by left|right]. rewrite <-Eout in Hin.
    apply list_elem_of_fmap in Hin as (st & E & Hst). by exists st.
  - intros st Hst. assert (sf_outcome st ∈ sp_outcome <$> finals) as Hin.
    { rewrite <-Eout. by apply list_elem_of_fmap_2. }
    apply list_elem_of_fmap in Hin as (plan & -> & Hp). auto.
  - intros o. by rewrite Hfield, Hcount.
  - rewrite <-Esz. pose proof (count_of_total finals) as Ht. cbn [fmap list_fmap] in Ht.
    rewrite !sumZ_cons, sumZ_nil, <-!Hfield in Ht. cbn [count_field] in Ht.
    unfold counts_total, wrap32. rewrite Z.mod_small; [lia|]. unfold sizeZ in *. lia.
Qed.

Lemma aggregation_exact_witness :
  sf_id <$> fd_subjects sample_decision = subj_id <$> pol_subjects sample_policy
  ∧ (fd_outcome sample_decision = Outcome.Fair
     ∨ ∃ st, st ∈ fd_subjects sample_decision ∧ sf_outcome st = fd_outcome sample_decision)
  ∧ (∀ st, st ∈ fd_subjects sample_decision → Outcome.rank (sf_outcome st) <= Outcome.rank (fd_outcome sample_decision))
  ∧ (∀ o, count_field o (fd_counts sample_decision) = states_with o (fd_subjects sample_decision))
  ∧ counts_total (fd_counts sample_decision) = sizeZ (pol_subjects sample_policy).
Proof. apply (aggregation_exact _ _ _ _ sample_context_ok sample_decision_value). Defined.

(** ** Independence of the order of the evidence *)

Definition reorder (ctx : EvaluationContext) (observations : list SubjectObservation) : EvaluationContext :=
  mk_context (ctx_policy ctx) (ctx_accounting ctx)
    ((λ e, mk_snapshot (ev_id e) (ev_generation e) (ev_window e) (ev_window_generation e) (ev_epoch e)
       (ev_captured_at_ns e) (ev_sequence e) (ev_producer e) (ev_provenance e) (ev_declared_digest e) observations)
     <$> ctx_evidence ctx)
    (ctx_request ctx) (ctx_current_epoch ctx) (ctx_current_window ctx) (ctx_last_committed_window ctx).

(** Two results that agree in everything but the diagnostic notes. *)
Definition same_but_notes (r r' : Result FairnessDecision) : Prop :=
  match r, r' with
  | Value d, Value d' =>
      fd_authority d = fd_authority d' ∧ fd_outcome d = fd_outcome d' ∧ fd_counts d = fd_counts d'
      ∧ fd_subjects d = fd_subjects d' ∧ fd_groups d = fd_groups d' ∧ fd_intents d = fd_intents d'
      ∧ fd_correction d = fd_correction d' ∧ fd_content_digest d = fd_content_digest d'
  | Failure s, Failure s' => s = s'
  | _, _ => False
  end.

Lemma find_permutation {A} (key : A → Z) l l' k :
  NoDup (key <$> l) → l ≡ₚ l' → find (λ x, key x =? k) l = find (λ x, key x =? k) l'.
Proof.
  intros Hnd Hp. assert (NoDup (key <$> l')) as Hnd' by by rewrite <-Hp.
  destruct (find (λ x, key x =? k) l) as [x|] eqn:E.
  - apply find_some_key in E as [Hx <-]. symmetry. apply find_key; [done|]. by rewrite <-Hp.
  - apply find_key_none in E. symmetry. apply find_key_none. by rewrite <-Hp.
Qed.

(** C10: the decision does not depend on the order in which the observations of a
    snapshot are listed: permuting them changes neither the subjects' and groups'
    states, nor the plan and its intents, nor the content digest, nor a failure. *)
Theorem evidence_order_irrelevant (ctx : EvaluationContext) (e : EvidenceSnapshot)
    (observations : list SubjectObservation)
    (He : ctx_evidence ctx = Some e) (Hnd : NoDup (obs_id <$> ev_observations e))
    (Hp : ev_observations e ≡ₚ observations) :
  same_but_notes (evaluate_fairness ctx) (evaluate_fairness (reorder ctx observations)).
Proof.
  unfold evaluate_fairness. cbn [reorder ctx_policy ctx_accounting].
  destruct (ctx_policy ctx) as [policy|]; [|done]. destruct (ctx_accounting ctx) as [accounting|]; [|done].
  destruct (build policy) as [d0|]; [|done]. cbn [result_bind].
  set (ctx' := reorder ctx observations).
  set (e' := mk_snapshot (ev_id e) (ev_generation e) (ev_window e) (ev_window_generation e) (ev_epoch e)
    (ev_captured_at_ns e) (ev_sequence e) (ev_producer e) (ev_provenance e) (ev_declared_digest e) observations).
  assert (ctx_evidence ctx' = Some e') as He' by (unfold ctx', reorder; cbn; by rewrite He).
  assert (eligibility policy ctx' = eligibility policy ctx) as Eel by (unfold eligibility; by rewrite He', He).
  assert (∀ id, evidence_find e' id = evidence_find e id) as Hfind.
  { intros id. symmetry. by apply find_permutation. }
  assert ((authority_plans policy accounting ctx').1 = (authority_plans policy accounting ctx).1) as Eplans.
  { unfold authority_plans. rewrite Eel, He', He. destruct (eligibility policy ctx); [done|]. cbn [fst].
    apply list_fmap_ext. intros _ s _. unfold plan_from_evidence. by rewrite Hfind. }
  rewrite Eel.
  destruct (authority_plans policy accounting ctx) as [plans notes], (authority_plans policy accounting ctx') as [plans' notes'].
  cbn [fst] in Eplans. subst plans'.
  destruct (whole_of plans) as [whole|]; [|done]. cbn [result_bind].
  destruct (distribute policy whole d0) as [d|]; [|done]. cbn [result_bind].
  assert (assess policy accounting ctx' d plans = assess policy accounting ctx d plans) as ->.
  { unfold assess. destruct (map_result _ _); [|done]. cbn [result_bind]. do 2 f_equal.
    unfold streak_plans. rewrite Eel, He', He. destruct (eligibility policy ctx); [done|].
    apply zip_with_ext; [|done..]. intros s plan. unfold streak_plan. by rewrite Hfind. }
  destruct (assess policy accounting ctx d plans) as [assessed|]; [|done]. cbn [result_bind].
  destruct (correct policy _ whole assessed) as [[finals summary]|]; [|done]. cbn [result_bind].
  change (ctx_request ctx') with (ctx_request ctx).
  destruct (corrective_intents policy accounting (ctx_request ctx) _ _ finals) as [intents|]; [|done].
  cbn [result_bind same_but_notes]. split_and!; reflexivity.
Qed.

Lemma evidence_order_irrelevant_witness :
  same_but_notes (evaluate_fairness sample_context)
    (evaluate_fairness (reorder sample_context (reverse (ev_observations sample_evidence)))).
Proof.
  apply (evidence_order_irrelevant sample_context sample_evidence).
  - reflexivity.
  - apply (bool_decide_unpack _). vm_compute. reflexivity.
  - symmetry. apply reverse_Permutation.
Defined.
