(* ===== verification/PropStore.v ===== *)
(** Properties of the durable store: what a record on disk guarantees, and what
    an interrupted commit leaves. *)
From S2P Require Import Prelude Status Core Bytes Fsutil Store StoreSpec Fixture.
#[local] Open Scope string_scope.
#[local] Open Scope list_scope.
#[local] Open Scope Z_scope.

(** ** Records *)

(** C15: A record is exact.  It decodes to exactly the generation, the writer and
    the payload it was encoded from; and damaged it is never accepted: change any
    single byte of it to any other byte, or cut it at any point, and decoding fails
    whatever kind is asked for. *)
Theorem record_exact kind generation writer payload (Hok : record_ok generation writer payload) :
  let bytes := encode_record kind generation writer payload in
  decode_record bytes kind = Value (mk_decoded generation (inc_boot writer) (inc_ordinal writer) payload)
  ∧ (∀ i b b' kind' r, bytes !! i = Some b → u8 b' → b' <> b →
       decode_record (<[i:=b']> bytes) kind' <> Value r)
  ∧ (∀ k kind' r, (k < length bytes)%nat → decode_record (take k bytes) kind' <> Value r).
Proof.
  intros bytes. pose proof (decode_encode_record kind generation writer payload Hok) as Hd.
  split; [exact Hd|split].
  - intros i b b' kind' r Hi Hb' Hne. eapply decode_record_single_byte; [|done..].
    destruct Hok as (_ & _ & _ & Hp & _). unfold bytes, encode_record.
    rewrite !byte_list_app. split_and!; [apply prefix_bytes|apply store_le_bytes|done].
  - intros k kind' r Hk. by eapply decode_record_cut.
Qed.

(** ** Commits *)

(** C16: A commit is atomic under crashes and I/O failures.  Start from a store
    that holds a valid record, or none and no stray backup, with its two injections
    that damage what is written (corrupt_payload, truncate_temp) off, run [commit]
    under any script whatever of failures, crashes and torn replaces, then reboot any
    number of times with recoveries that may themselves crash or tear a replace (a
    recovery whose restore fails can lose the record, which is reported).  The next
    recovery that runs to its end succeeds and leaves no journal, temporary or backup,
    and the committed file is the old record or the new one, whole; or, only where
    there was no record before, it is a torn piece of the new one, which is never
    read as a record of any kind (also reported: later commits are then refused). *)
Theorem commit_crash_atomic s kind expected next payload writer old files script reboots :
  record_ok next writer payload →
  fault_corrupt_payload (ds_faults s) = false → fault_truncate_temp (ds_faults s) = false →
  (∀ o, old = Some o → ∃ r, decode_record o kind = Value r) →
  files !! record_path s kind = old →
  (old = None → files !! companion_path (record_path s kind) ".prev" = None) →
  Forall (Forall crash_step) reboots →
  let interrupted := surviving (commit s kind expected next payload writer (mk_world files script)) in
  let new := encode_record kind next writer payload in
  ∃ notes w,
    recover s kind (mk_world (recoveries s kind reboots interrupted) []) = Done (Value tt, notes) w
    ∧ (w_files w !! record_path s kind = old
       ∨ w_files w !! record_path s kind = Some new
       ∨ old = None ∧ ∃ k, w_files w !! record_path s kind = Some (take k new)
           ∧ ∀ kind' r, decode_record (take k new) kind' <> Value r)
    ∧ w_files w !! companion_path (record_path s kind) ".jnl" = None
    ∧ w_files w !! companion_path (record_path s kind) ".tmp" = None
    ∧ w_files w !! companion_path (record_path s kind) ".prev" = None.
Proof.
  intros Hok Hc Ht Hold Hbase Hprev Hreboots interrupted new.
  pose proof (decode_encode_record kind next writer payload Hok) as Hnew. fold new in Hnew.
  assert (recoverable s kind old new (recoveries s kind reboots interrupted)) as Hrec.
  { apply (recoveries_recoverable s kind old _ _ reboots interrupted Hnew Hold Hreboots).
    by apply commit_recoverable. }
  destruct (recoverable_cases s kind old new _ Hnew Hold _ Hrec) as [Htorn|[_ Hno]].
  - destruct (run_recover_torn s kind old new _ _ Hnew Htorn) as (notes & f & Hrun & Ht' & Htm & Hj & Hp).
    exists notes, (mk_world f []). split_and!; try done. right; right. destruct Ht' as (Ho & _ & k & Hk & Hm).
    split; [done|]. exists k. split; [done|]. intros kind' r. by eapply decode_record_cut.
  - destruct (run_recover s kind old new _ _ Hnew Hold Hrec Hno) as (notes & f & Hrun & Hb & Htm & Hj & Hp).
    exists notes, (mk_world f []). split_and!; try done. destruct Hb; auto.
Qed.

(** C17: With no fault injected and a filesystem that does what it is asked,
    [commit] always returns, and it succeeds exactly when the payload is within
    the bound, the writer is a live incarnation, the generation advances and the
    committed state is the valid record of the expected generation (or absent,
    for generation zero).  On success [load] then reads back exactly what was
    committed and files of other names are untouched; on refusal no file is. *)
Theorem commit_exact s kind expected next payload writer files :
  ds_faults s = no_faults → u64 next → u64 (inc_boot writer) → u64 (inc_ordinal writer) → byte_list payload →
  let old := files !! record_path s kind in
  ∃ r files',
    run (commit s kind expected next payload writer) files r files'
    ∧ (r = Value tt ↔
         sizeZ payload <= kMaxDurablePayloadBytes ∧ inc_boot writer <> 0 ∧ inc_ordinal writer <> 0
         ∧ expected < next ∧ (∀ o, old = Some o → ∃ d, decode_record o kind = Value d)
         ∧ durable_generation kind old = expected)
    ∧ (r = Value tt →
         run (load s kind) files'
           (mk_loaded true kind next (inc_boot writer) (inc_ordinal writer) payload StatusCode.Ok "") files'
         ∧ ∀ p, p ∉ commit_paths s kind → files' !! p = files !! p)
    ∧ (r <> Value tt → files' = files).
Proof.
  intros Hf Hn Hb Ho Hp. destruct (run_commit s kind expected next payload writer files Hf Hn Hb Ho Hp)
    as (r & files' & Hrun & Hiff & Hok & Hfail).
  exists r, files'. split_and!; [done..| |done]. intros Hr. by destruct (Hok Hr) as (_ & Hl & Hp' & _).
Qed.

(** ** Witnesses: a one-record store, and the commit of its second generation *)

Definition sample_writer : Incarnation := mk_incarnation 77 1.
Definition sample_store : DurableStore := mk_store "/var/lib/fg" no_faults.
Definition sample_path : string := record_path sample_store RecordKind.Accounting.
Definition sample_record : ByteBuffer := encode_record RecordKind.Accounting 1 sample_writer [1; 2; 3].
Definition sample_files : gmap string ByteBuffer := {[ sample_path := sample_record ]}.

Lemma sample_record_ok generation payload :
  u64 generation → bool_decide (byte_list payload) = true → sizeZ payload <= kMaxDurablePayloadBytes →
  record_ok generation sample_writer payload.
Proof.
  intros Hg Hb Hs. split_and!; [done|unfold sample_writer; cbn; ulia|unfold sample_writer; cbn; ulia| |done].
  by apply bool_decide_eq_true in Hb.
Qed.

Lemma record_exact_witness :
  record_ok 1 sample_writer [1; 2; 3]
  ∧ decode_record sample_record RecordKind.Accounting = Value (mk_decoded 1 77 1 [1; 2; 3])
  ∧ ∀ r, decode_record (<[65%nat:=9]> sample_record) RecordKind.Accounting <> Value r.
Proof.
  assert (record_ok 1 sample_writer [1; 2; 3]) as H by (apply sample_record_ok; vm_compute; intuition congruence).
  destruct (record_exact RecordKind.Accounting 1 sample_writer [1; 2; 3] H) as (Hd & Hone & _).
  split; [exact H|]. split; [exact Hd|]. intros r. apply (Hone 65%nat 2 9).
  - vm_compute. reflexivity.
  - unfold u8. lia.
  - lia.
Defined.

(** A replace torn after 66 bytes, a recovery that dies before its own replace,
    and a recovery that runs to its end. *)
Lemma commit_crash_atomic_witness :
  let interrupted := surviving (commit sample_store RecordKind.Accounting 1 2 [4; 5; 6] sample_writer
                                  (mk_world sample_files [IoOk; IoOk; IoOk; IoTorn 66%nat])) in
  let new := encode_record RecordKind.Accounting 2 sample_writer [4; 5; 6] in
  is_Some (interrupted !! companion_path sample_path ".jnl")
  ∧ ∃ notes w,
      recover sample_store RecordKind.Accounting
        (mk_world (recoveries sample_store RecordKind.Accounting [[IoCrash 0%nat]] interrupted) [])
      = Done (Value tt, notes) w
      ∧ (w_files w !! sample_path = Some sample_record ∨ w_files w !! sample_path = Some new
         ∨ Some sample_record = None ∧ ∃ k, w_files w !! sample_path = Some (take k new)
             ∧ ∀ kind' r, decode_record (take k new) kind' <> Value r).
Proof.
  split; [vm_compute; eauto|].
  assert (record_ok 2 sample_writer [4; 5; 6]) as H by (apply sample_record_ok; vm_compute; intuition congruence).
  destruct (commit_crash_atomic sample_store RecordKind.Accounting 1 2 [4; 5; 6] sample_writer (Some sample_record)
    sample_files [IoOk; IoOk; IoOk; IoTorn 66%nat] [[IoCrash 0%nat]]) as (notes & w & Hr & Hb & _).
  - exact H.
  - reflexivity.
  - reflexivity.
  - intros o Ho. injection Ho as <-. eexists. vm_compute. reflexivity.
  - vm_compute. reflexivity.
  - discriminate.
  - repeat constructor.
  - exists notes, w. split; [exact Hr|exact Hb].
Defined.

Lemma commit_exact_witness :
  ∃ files',
    run (commit sample_store RecordKind.Accounting 1 2 [4; 5; 6] sample_writer) sample_files (Value tt) files'
    ∧ run (load sample_store RecordKind.Accounting) files'
        (mk_loaded true RecordKind.Accounting 2 77 1 [4; 5; 6] StatusCode.Ok "") files'.
Proof.
  destruct (commit_exact sample_store RecordKind.Accounting 1 2 [4; 5; 6] sample_writer sample_files)
    as (r & files' & Hrun & Hiff & Hok & _).
  - reflexivity.
  - unfold u64. lia.
  - cbn. unfold u64. lia.
  - cbn. unfold u64. lia.
  - by apply (bool_decide_eq_true_1 (byte_list [4; 5; 6])); vm_compute.
  - assert (r = Value tt) as ->.
    { apply Hiff. split_and!; [vm_compute; discriminate|discriminate|discriminate|lia| |vm_compute; reflexivity].
      intros o Ho. exists (mk_decoded 1 77 1 [1; 2; 3]).
      assert (o = sample_record) as -> by (revert Ho; vm_compute; congruence). vm_compute. reflexivity. }
    exists files'. split; [exact Hrun|]. exact (proj1 (Hok eq_refl)).
Defined.

(** A recovery whose restore of the backup fails clears the journal all the same,
    and the recovery after it then deletes the backup: the committed record is
    lost.  This is why [commit_crash_atomic] lets recoveries crash but not fail. *)
Example failed_restore_loses_record :
  let interrupted := surviving (commit sample_store RecordKind.Accounting 1 2 [4; 5; 6] sample_writer
                                  (mk_world sample_files [IoOk; IoOk; IoOk; IoTorn 66%nat])) in
  let once := surviving (recover sample_store RecordKind.Accounting (mk_world interrupted [IoFail 0%nat])) in
  let twice := surviving (recover sample_store RecordKind.Accounting (mk_world once [])) in
  once !! companion_path sample_path ".prev" = Some sample_record
  ∧ twice !! companion_path sample_path ".prev" = None
  ∧ twice !! sample_path = Some (take 66 (encode_record RecordKind.Accounting 2 sample_writer [4; 5; 6])).
Proof. vm_compute. done. Qed.

(** A torn first commit has no backup to fall back to: recovery reports success,
    the torn file stays, and the next commit is refused. *)
Example torn_first_commit_is_stuck :
  let interrupted := surviving (commit sample_store RecordKind.Accounting 0 1 [4; 5; 6] sample_writer
                                  (mk_world ∅ [IoOk; IoOk; IoTorn 66%nat])) in
  let after := surviving (recover sample_store RecordKind.Accounting (mk_world interrupted [])) in
  match recover sample_store RecordKind.Accounting (mk_world interrupted []),
        commit sample_store RecordKind.Accounting 0 1 [4; 5; 6] sample_writer (mk_world after []) with
  | Done (Value _, notes) _, Done (Failure st) _ =>
      rn_corruption_detected notes = true ∧ status_code st = StatusCode.CommitRejected
  | _, _ => False
  end.
Proof. vm_compute. done. Qed.
