(* ===== verification/PropGovernor.v ===== *)
(** Properties of the governor: what its operations do to its state, along every
    run of one process and across restarts and deaths. *)
From stdpp Require Import relations.
From S2P Require Import Prelude Status Core Policy PolicyValid Accounting Evidence Outcome Codec CodecSpec Engine Planner EngineSpec PlannerSpec EvalSpec Fixture FixtureSpec Fsutil Store StoreSpec Governor BackendSpec GovernorSpec GovernorEval GovernorInv GovernorReach GovernorDurable GovernorLife Disk GovernorFixture.
#[local] Open Scope string_scope.
#[local] Open Scope list_scope.
#[local] Open Scope Z_scope.

(** ** Definitions *)

Definition unchanged {S} (g g' : Governor S) : Prop :=
  gv_policy g' = gv_policy g ∧ gv_epoch g' = gv_epoch g ∧ gv_accounting g' = gv_accounting g.

Definition in_force {S} (p : FairnessPolicy) (epoch : Z) (g g' : Governor S) : Prop :=
  gv_policy g' = p ∧ gv_epoch g' = epoch
  ∧ gv_accounting g' = retag (pol_generation p) epoch (gv_accounting g).

Definition evidence_cleared {S} (g : Governor S) : Prop :=
  gv_staged g = ∅ ∧ gv_ingested g = ∅ ∧ gv_publisher_sequences g = ∅.

(** ** One process *)

(** C18: Every state that any sequence of operations, with any arguments of their
    types, reaches from a governor opened in memory is well formed: a valid policy; a
    ledger of distinct subjects with carries within the bound, tagged with the policy
    and epoch served; staged snapshots that are valid, of the live epoch and filed
    under their window; and the three bounds on evidence.  Along the way the epoch,
    the policy generation, the ledger generation and the last committed window never
    go back, and a stopped governor stays as it is.  The ledger also stays within the
    streak bound its decoder checks, until a decision beyond that bound is committed:
    no evaluation takes one, but the commit does not check (reported).  A decision's
    entitlements and services must fit int64, beyond which the commit's own
    subtraction is undefined in C++. *)
Theorem reachable_states_ok {S} `{Backend S} p i (g g' : Governor S)
    (T : policy_typed p) (Hi : u64 (inc_boot i) ∧ u64 (inc_ordinal i))
    (Hopen : open_in_memory p i = Value g) (Hrun : rtc step g g') :
  governor_ok g' ∧ advanced g g' ∧ ledger_readable (gv_accounting g)
  ∧ (∀ g'', step g' g'' → ledger_readable (gv_accounting g') →
       ledger_readable (gv_accounting g'') ∨ ∃ d, g'' = (commit_decision d g').2 ∧ ¬ decision_readable d).
Proof.
  apply open_in_memory_value in Hopen as [Hv ->].
  assert (governor_ok (fresh_governor (mk_config p "" (pol_epoch p) default_limits false) i (None : option S))) as Hg.
  { destruct Hi. apply fresh_governor_ok; cbn; try done; [by apply validate_policy_iff|by apply pt_epoch]. }
  assert (governor_ok g') as Hg' by by eapply run_ok.
  split; [done|]. split; [by apply run_advanced|]. split; [constructor|].
  intros g'' Hs Hr. by apply step_readable.
Qed.

(** C19: A commit is all or nothing in memory, for any decision whose fields fit
    their types (entitlements and services fit int64).  Refused, it changes nothing
    but what the store may have recorded.  Accepted, it advances the ledger by one
    generation to the decision's window: the residual carry of the ledger moves
    by exactly what the states with authority leave unserved, entries appear for
    those subjects only, entries of other subjects keep all their counters, the
    ledger stays sound, and it stays readable by its decoder if it was and no streak
    of the decision exceeds the decoder's bound, which the commit does not check. *)
Theorem commit_all_or_nothing {S} `{Backend S} d (g : Governor S)
    (Hg : governor_ok g) (Hd : decision_typed d) :
  ((∃ st, (commit_decision d g).1 = Failure st) ∧ volatile (commit_decision d g).2 = volatile g)
  ∨ ((commit_decision d g).1 = Value tt ∧ ∃ after,
       decision_applied (gv_policy g) (gv_epoch g) (gv_incarnation g) (gv_accounting g) d after
       ∧ volatile (commit_decision d g).2 = volatile (with_accounting after g)).
Proof.
  destruct (commit_cases d g) as [[Hv Hf]|(after & _ & Ha & Hr & Hv)]; [by left|right].
  split; [done|]. exists after. split; [|done]. by destruct (apply_decision_ok d g after Hg Hd Ha).
Qed.

(** C20: In service (not shut down, and with room for one more window in the ledger's
    counters), in memory or over a store, evaluating always yields a decision.
    Committing it at once succeeds if and only if the window it names is a new one
    and, over a store, the store can take the ledger: the governor's incarnation is
    live, the record generation is not exhausted and the ledger fits a record.  The
    ledger afterwards holds for every subject with authority exactly the carries,
    streaks and totals that the decision announced. *)
Theorem evaluate_then_commit {S} `{DurabilityLaws S} rq (g : Governor S)
    (Hg : governor_ok g) (Hroom : ledger_room (gv_accounting g)) (Hstop : gv_stopping g = false)
    (Hstore : gv_store g = None ∨ ∃ s, persisted g s) (Hw : u64 (rq_window rq)) (Hwg : u64 (rq_window_generation rq)) :
  ∃ d after, evaluate rq g = Value d ∧ apply_decision d g = Value after
  ∧ ((commit_decision d g).1 = Value tt ↔
       (rq_window rq <> 0 ∧ rq_window_generation rq <> 0
        ∧ (acc_last_window (gv_accounting g) <> 0 → acc_last_window (gv_accounting g) < rq_window rq))
       ∧ (gv_store g = None ∨ store_takes (with_accounting after g)))
  ∧ ((commit_decision d g).1 = Value tt →
       gv_accounting (commit_decision d g).2 = after ∧ acc_last_window after = rq_window rq
       ∧ ∀ st, st ∈ fd_subjects d → sf_has_authority st = true →
           ∃ e, entry_of (acc_subjects after) (sf_id st) = Some e
             ∧ announced st (entry_of (acc_subjects (gv_accounting g)) (sf_id st)) e).
Proof.
  pose proof (serving_context rq g Hg Hroom) as Hctx.
  destruct (evaluate_fairness_value _ _ _ Hctx) as (dist & plans & finals & d0 & E0 & _).
  assert (evaluate rq g = Value (set_decision_governor (gv_incarnation g) d0)) as E.
  { unfold evaluate. by rewrite Hstop, E0. }
  destruct (apply_evaluated Hctx E Hroom Hw Hwg) as (after & Ha & Han).
  eexists _, after. split; [exact E|]. split; [exact Ha|].
  destruct (evaluated_bounded Hctx E Hw Hwg) as [Hd _].
  destruct (apply_decision_ok _ g after Hg Hd Ha) as [[_ [Ew _] _ _ _ _ _ _ _] Hg'].
  assert ((commit_accounting (with_accounting after g)).1 = Value tt
    ↔ gv_store g = None ∨ store_takes (with_accounting after g)) as Hst.
  { destruct Hstore as [Hn|[s Hp]]; [unfold commit_accounting; cbn; rewrite Hn; cbn; tauto|].
    rewrite (commit_accounting_exact _ s Hg' (backed_accounting _ _ _ (ps_backed _ _ Hp))).
    pose proof (ba_store _ _ (ps_backed _ _ Hp)). intuition congruence. }
  rewrite <-(check_evaluated Hctx E), <-Hst. split.
  - unfold commit_decision. destruct (check_decision _ g) as [[]|st]; [|naive_solver]. rewrite Ha.
    destruct (commit_accounting _) as [[[]|st] g1]; cbn; naive_solver.
  - intros Hok. destruct (commit_cases (set_decision_governor (gv_incarnation g) d0) g)
      as [[_ [st Hf]]|(after' & _ & Ha' & _ & Hv)]; [congruence|].
    rewrite Ha in Ha'. injection Ha' as <-. apply volatile_accounting in Hv. split; [exact Hv|].
    split; [|done]. rewrite Ew. by destruct (evaluated_window Hctx E) as [-> _].
Qed.

(** C21: An accepted decision applies to the very state it was computed from.  If
    a decision was evaluated on a governor, and any operations ran since, then a
    commit that accepts it finds the same epoch, the same policy and the same
    ledger entries, generation and last window as the evaluation did. *)
Theorem accepted_decision_is_current {S} `{Backend S} rq d (g g' : Governor S)
    (Hg : governor_ok g) (Hroom : ledger_room (gv_accounting g)) (Heval : evaluate rq g = Value d)
    (Hrun : rtc step g g') (Hcommit : (commit_decision d g').1 = Value tt) :
  gv_epoch g' = gv_epoch g ∧ gv_policy g' = gv_policy g
  ∧ acc_generation (gv_accounting g') = acc_generation (gv_accounting g)
  ∧ acc_last_window (gv_accounting g') = acc_last_window (gv_accounting g)
  ∧ acc_subjects (gv_accounting g') = acc_subjects (gv_accounting g).
Proof.
  pose proof (serving_context rq g Hg Hroom) as Hctx.
  destruct (evaluate_value rq g d Heval) as (_ & d0 & E0 & ->).
  destruct (decision_evaluation Hctx d0 E0) as (dist & plans & finals & Hev).
  pose proof (ev_authority _ _ _ _ _ _ _ Hev) as Ea.
  destruct (commit_cases (set_decision_governor (gv_incarnation g) d0) g') as [[_ [st Hf]]|(after & Hc & _)]; [congruence|].
  destruct (check_decision_facts _ _ Hc) as (_ & _ & Fe & _ & Fp & Fg & _). cbn in Fe, Fp, Fg.
  rewrite Ea in Fe, Fp, Fg. cbn in Fe, Fp, Fg.
  destruct (run_advanced g g' Hrun Hg) as [_ _ _ _ (_ & _ & A1) _ _ A2].
  destruct (A2 (eq_sym Fg)) as [-> ->]. rewrite (A1 (eq_sym Fp)). by rewrite Fe, Fg.
Qed.

(** C22: Ingestion is exact and idempotent.  A snapshot is staged if and only if
    it is acceptable and fresh, and ignored as a duplicate if and only if it is
    acceptable and its identity is known with the same content; otherwise it is
    refused and nothing changes.  Below the bounds, staging files it under its
    window, leaves the other windows alone, and sending it again is a duplicate. *)
Theorem ingestion_exact {S} `{Backend S} e (g : Governor S)
    (Hg : governor_ok g) (Te : evidence_typed e) :
  let '(r, g') := ingest_evidence e g in
  (r = Value (ingest_result Disposition.Staged e) ↔ acceptable g e ∧ fresh g e)
  ∧ (r = Value (ingest_result Disposition.DuplicateIgnored e)
       ↔ acceptable g e ∧ known_digest g e = Some (evidence_digest e))
  ∧ (r <> Value (ingest_result Disposition.Staged e) → g' = g)
  ∧ (r = Value (ingest_result Disposition.Staged e) →
       Z.of_nat (size (gv_staged g)) < lim_max_staged_snapshots (cfg_limits (gv_config g)) →
       Z.of_nat (size (gv_ingested g)) < lim_max_staged_snapshots (cfg_limits (gv_config g)) * 4 →
       gv_staged g' = <[ev_window e := e]> (gv_staged g)
       ∧ ingest_evidence e g' = (Value (ingest_result Disposition.DuplicateIgnored e), g')).
Proof.
  destruct (ingest_cases e g Te) as [(Ha & Hf & ->)|[(Ha & Hk & ->)|[[st ->] Hno]]].
  - split_and!; [done| |done|].
    + split; [discriminate|]. intros [_ Hk]. destruct Hf as [Hn _]. congruence.
    + intros _ Hs Hi. pose proof (insert_size_le (ev_window e) e (gv_staged g)) as Ls.
      pose proof (insert_size_le (ev_id e, ev_generation e) (evidence_digest e) (gv_ingested g)) as Li.
      assert (gv_staged (stage_snapshot e (evidence_digest e) g) = <[ev_window e := e]> (gv_staged g)) as Est.
      { cbn. apply evict_small. lia. }
      split; [done|].
      assert (known_digest (stage_snapshot e (evidence_digest e) g) e = Some (evidence_digest e)) as Hkd.
      { unfold known_digest. cbn. rewrite evict_small by lia. apply lookup_insert_eq. }
      destruct (ingest_cases e (stage_snapshot e (evidence_digest e) g) Te)
        as [(_ & (Hn & _) & _)|[(_ & _ & E)|[_ Hno]]]; [congruence|done|].
      exfalso. apply Hno. split; [done|by right].
  - split_and!; [|done|done|discriminate]. split; [discriminate|]. intros [_ [Hn _]]. congruence.
  - split_and!; [|..|done|discriminate]; (split; [discriminate|]); intros []; exfalso; apply Hno; auto.
Qed.

(** C23: Policies and epochs change whole, and evidence never outlives its epoch.
    An installation or an epoch advance either fails and leaves policy, epoch and
    ledger as they were, or puts exactly the new ones in force, with the ledger
    retagged and otherwise untouched; an advance that is in force has succeeded.
    Whenever the epoch is another one afterwards, no staged snapshot, known
    identity or publisher sequence is left. *)
Theorem policy_and_epoch_change_whole {S} `{Backend S} (g : Governor S) p e (Hg : governor_ok g) :
  let installed := install_policy p g in
  let advanced := advance_epoch e g in
  ((∃ st, installed.1 = Failure st) ∧ unchanged g installed.2
   ∨ in_force p (pol_epoch p) g installed.2 ∧ validate_policy p = Value tt
     ∧ pol_id p = pol_id (gv_policy g) ∧ pol_generation (gv_policy g) < pol_generation p
     ∧ gv_epoch g <= pol_epoch p)
  ∧ ((∃ st, advanced.1 = Failure st) ∧ unchanged g advanced.2
     ∨ advanced.1 = Value tt ∧ gv_epoch g < e ∧ in_force (gv_policy g) e g advanced.2)
  ∧ (gv_epoch installed.2 <> gv_epoch g → evidence_cleared installed.2)
  ∧ (gv_epoch advanced.2 <> gv_epoch g → evidence_cleared advanced.2).
Proof.
  cbv zeta. pose proof (retag_same g Hg) as Hsame. pose proof (go_tags _ Hg) as [Ht _].
  assert (∀ g1 g2, volatile g1 = volatile g2 →
    (unchanged g g2 → unchanged g g1) ∧ (∀ p e, in_force p e g g2 → in_force p e g g1)
    ∧ (evidence_cleared g2 → evidence_cleared g1) ∧ gv_epoch g1 = gv_epoch g2) as Hvol.
  { intros g1 g2 E. unfold unchanged, in_force, evidence_cleared.
    unfold volatile, with_store, with_record_generations in E. cbn in E.
    injection E as E1 E2 E3 E4 E5 E6 E7 E8 E9 E10. by rewrite E2, E3, E4, E7, E8, E9. }
  assert (∀ P Q R T : Prop, (P ∧ R) ∧ (Q ∧ T) → P ∧ Q ∧ R ∧ T) as Hre by tauto. apply Hre. split.
  - destruct (install_cases p g) as [[Hv Hf]|(Hval & _ & Hid & Hgen & Hle & Hc)].
    { destruct (Hvol _ _ Hv) as (V1 & _ & _ & V4). split; [left; split; [done|by apply V1]|]. by rewrite V4. }
    cbv zeta in Hc. destruct Hc as [[Hf Hv]|Hv]; destruct (Hvol _ _ Hv) as (V1 & V2 & V3 & V4).
    + split; [left; split; [done|apply V1; rewrite Hsame; by destruct (_ >? _)]|].
      rewrite V4. by destruct (_ >? _).
    + split; [right; split; [apply V2; by destruct (_ >? _)|done]|]. rewrite V4. cbn. intros Hne. apply V3.
      rewrite (proj2 (gtb_true_lt _ _)) by lia. done.
  - destruct (advance_cases e g) as [[Hv Hf]|(_ & Hlt & Hc)].
    { destruct (Hvol _ _ Hv) as (V1 & _ & _ & V4). split; [left; split; [done|by apply V1]|]. by rewrite V4. }
    cbv zeta in Hc. rewrite Ht in Hc.
    destruct Hc as [[Hf Hv]|[Hr Hv]]; destruct (Hvol _ _ Hv) as (V1 & V2 & V3 & V4).
    + split; [left; split; [done|apply V1; by rewrite Hsame]|]. by rewrite V4.
    + split; [right; split_and!; [done|done|by apply V2]|]. intros _. by apply V3.
Qed.

(** C24: Shutdown is final.  Once a governor in service has been shut down, every
    operation on every state it reaches from there is refused (shutting down again
    succeeds and does nothing), its policy, epoch and ledger stay as they were, the
    store is released, and no evidence is held: no staged snapshot, no known identity
    and no publisher sequence. *)
Theorem shutdown_is_final {S} `{Backend S} (g g' : Governor S)
    (Hg : governor_ok g) (Hlive : gv_stopping g = false) (Hrun : rtc step (shutdown g).2 g') :
  gv_stopping g' = true
  ∧ gv_policy g' = gv_policy g ∧ gv_epoch g' = gv_epoch g ∧ gv_accounting g' = gv_accounting g
  ∧ gv_store g' = None ∧ evidence_cleared g'
  ∧ (∀ p, (install_policy p g').2 = g' ∧ ∃ st, (install_policy p g').1 = Failure st)
  ∧ (∀ e, advance_epoch e g' = (fail StatusCode.ShuttingDown "governor is shutting down", g'))
  ∧ (∀ e, (ingest_evidence e g').2 = g' ∧ ∃ st, (ingest_evidence e g').1 = Failure st)
  ∧ (∀ d, (commit_decision d g').2 = g' ∧ ∃ st, (commit_decision d g').1 = Failure st)
  ∧ (∀ rq, ∃ st, evaluate rq g' = Failure st)
  ∧ shutdown g' = (Value tt, g').
Proof.
  assert (gv_stopping g' = true ∧ gv_policy g' = gv_policy g ∧ gv_epoch g' = gv_epoch g
    ∧ gv_accounting g' = gv_accounting g ∧ gv_store g' = None ∧ evidence_cleared g') as (Hs & H2 & H3 & H4 & H5 & H6).
  { rewrite (run_closed (shutdown g).2 g' Hrun); unfold shutdown; by rewrite Hlive. }
  do 6 (split; [done|]). split_and!.
  - intros p. unfold install_policy. rewrite Hs. destruct (validate_policy p); by split; [|eexists].
  - intros e. unfold advance_epoch. by rewrite Hs.
  - intros e. unfold ingest_evidence. rewrite Hs. destruct (validate_evidence e); by split; [|eexists].
  - intros d. unfold commit_decision, check_decision. rewrite Hs. by split; [|eexists].
  - intros rq. unfold evaluate. rewrite Hs. by eexists.
  - unfold shutdown. by rewrite Hs.
Qed.

(** ** Restarts and deaths *)

(** C25: No service window is committed twice, not even across restarts and deaths.
    Once a commit for a window has been acknowledged, every later governor over the
    store, after any operations, restarts with any configuration that names the store
    (of an older, the same or a newer policy; only it must not fake the 64-bit digest
    of another policy of its generation), and deaths at any durable write of a commit,
    an epoch advance or an installation, refuses every decision for that window or an
    earlier one and is left as it was.  A restart that is refused yields no governor. *)
Theorem window_committed_once {S} `{DurabilityLaws S} d (g g' : Governor S)
    (Hg : governor_ok g) (Hk : kept g) (Hd : decision_typed d)
    (Hcommit : (commit_decision d g).1 = Value tt) (Hlife : rtc passes (commit_decision d g).2 g') :
  ∀ d', av_window (fd_authority d') <= av_window (fd_authority d) →
    (∃ st, (commit_decision d' g').1 = Failure st) ∧ volatile (commit_decision d' g').2 = volatile g'.
Proof.
  intros d' Hle. destruct (commit_cases d g) as [[_ [st Hf]]|(after & Hc & Ha & _ & Hv)]; [congruence|].
  destruct (apply_decision_ok d g after Hg Hd Ha) as [[_ [Ew _] _ _ _ _ _ _ _] _].
  destruct (check_decision_facts d g Hc) as (_ & _ & _ & _ & _ & _ & Hne & _).
  assert (acc_last_window (gv_accounting (commit_decision d g).2) = av_window (fd_authority d)) as Elast.
  { apply volatile_accounting in Hv. by rewrite Hv. }
  assert (governor_ok (commit_decision d g).2 ∧ kept (commit_decision d g).2) as [Hg1 Hk1].
  { split; [by apply commit_ok|]. apply (step_kept g); [by apply step_commit|done|done]. }
  destruct (life_ok _ _ Hlife Hg1 Hk1) as (_ & _ & Hs).
  destruct (commit_cases d' g') as [[Hv' Hf]|(after' & Hc' & _)]; [done|exfalso].
  destruct (check_decision_facts d' g' Hc') as (_ & _ & _ & _ & _ & _ & Hne' & _ & Hw & _).
  pose proof (su_window _ _ Hs) as Hsw. pose proof (db_window _ Hd). rewrite Elast in Hsw.
  destruct Hw as [E|Hlt]; [|lia]. rewrite E in Hsw. ulia.
Qed.

(** C26: What a commit acknowledges is durable, and the store alone is enough if and
    only if the committed ledger is within the streak bound its decoder checks: it is,
    if the ledger was and the decision's streaks are, as those of every evaluation.
    Then any valid configuration that names the store and is of the same policy
    identity, of a generation not newer and equal to the policy served if of its
    generation, opens a governor with the same policy and epoch, exactly the ledger
    just committed less the entries the policy does not govern, and no evidence.
    Beyond the bound, which the commit does not check, the commit is acknowledged all
    the same and opening is refused (reported). *)
Theorem acknowledged_commit_survives {S} `{DurabilityLaws S} d (g : Governor S) s config i
    (Hg : governor_ok g) (Hp : persisted g s) (Hd : decision_typed d)
    (Hcommit : (commit_decision d g).1 = Value tt)
    (Hc : check_config config = Value tt) (Hs : starts config i) (Hacc : accepts config (gv_policy g)) :
  let served := (commit_decision d g).2 in
  ∃ s1, gv_store served = Some s1
    ∧ (ledger_readable (gv_accounting g) → decision_readable d → ledger_readable (gv_accounting served))
    ∧ (ledger_readable (gv_accounting served) →
         ∃ g' s2, open config i (Value s1) = (Value g', Value s2)
           ∧ gv_policy g' = gv_policy served ∧ gv_epoch g' = gv_epoch served
           ∧ untagged (gv_accounting g') = untagged (keep_entries (gv_policy served) (gv_accounting served))
           ∧ evidence_cleared g' ∧ governor_ok g')
    ∧ (¬ ledger_readable (gv_accounting served) → ∃ st s2, open config i (Value s1) = (Failure st, Value s2)).
Proof.
  cbv zeta. destruct (commit_persisted d g s Hd Hg Hp) as [(s1 & _ & Hps & Hst & He)|(st & E)]; [|by rewrite E in Hcommit].
  destruct (commit_cases d g) as [[_ [st Hf]]|(after & _ & Ha & _ & Hv)]; [congruence|].
  destruct (apply_decision_ok d g after Hg Hd Ha) as [[_ _ _ _ _ Hread _ _ _] _].
  pose proof (volatile_accounting _ _ Hv) as Eacc. cbn in Eacc.
  assert (gv_policy (commit_decision d g).2 = gv_policy g) as Epol.
  { unfold volatile, with_store, with_record_generations in Hv; cbn in Hv; by injection Hv as _ -> _ _ _ _ _ _ _ _. }
  destruct (persisted_pending _ _ Hps) as (K1 & _).
  exists s1. split; [apply (ba_store _ _ (ps_backed _ _ Hps))|]. split; [by rewrite Eacc|].
  destruct (reopen_exact config i _ s1 (λ a, a = gv_accounting (commit_decision d g).2) False
    (commit_ok d g Hd Hg) Hs) as (a & -> & Hor); [by rewrite Epol|done|exact K1| |].
  { left. split; [apply (ba_sound _ _ (ps_backed _ _ Hps))|]. exists (gv_accounting (commit_decision d g).2). by split. }
  destruct Hor as [(Hr & g' & s2 & Ho & R & _)|([Hno|[]] & Hf)]; (split; [intros Hr'|intros Hno']); try done.
  exists g', s2. split; [done|]. destruct R as (R1 & R2 & _ & _ & _ & R3 & R4 & R5 & R6 & R7).
  split; [done|]. split; [by rewrite R2, He|]. by split_and!.
Qed.


(** C28: The files of the durable store keep every promise the governor relies on:
    loading, recovery of an intact, of an interrupted and of a torn first record, the
    exact conditions and effect of a commit, and what a death inside one leaves under
    any script of failures and torn replaces, for each kind of record apart from the
    other. *)
Theorem disk_keeps_promises : DurabilityLaws Disk.
Proof. apply disk_laws. Qed.

(** ** Witnesses *)

Lemma reachable_states_ok_witness :
  rtc step memory_governor memory_serving
  ∧ governor_ok memory_serving ∧ advanced memory_governor memory_serving.
Proof.
  assert (rtc step memory_governor memory_serving) as Hrun.
  { apply rtc_once. apply (step_ingest sample_evidence). apply sample_evidence_typed. }
  split; [exact Hrun|].
  destruct (reachable_states_ok sample_policy sample_incarnation memory_governor memory_serving sample_policy_typed
    ltac:(split; concrete) memory_value Hrun) as (Hg & Ha & _). split; [exact Hg|exact Ha].
Defined.

Lemma commit_all_or_nothing_witness :
  ∃ after, decision_applied (gv_policy serving) (gv_epoch serving) (gv_incarnation serving)
    (gv_accounting serving) serving_decision after.
Proof.
  destruct (commit_all_or_nothing serving_decision serving serving_ok (proj1 serving_bounded))
    as [[[st Hf] _]|[_ (after & Ha & _)]].
  - exfalso. rewrite serving_commit_value in Hf. discriminate Hf.
  - exists after. exact Ha.
Defined.

Lemma evaluate_then_commit_witness :
  ∃ d, evaluate sample_request serving = Value d ∧ (commit_decision d serving).1 = Value tt.
Proof.
  destruct (evaluate_then_commit sample_request serving serving_ok serving_room)
    as (d & after & Hd & Ha & Hiff & _).
  - vm_compute. reflexivity.
  - right. exists opened_disk. exact serving_persisted.
  - concrete.
  - concrete.
  - exists d. split; [exact Hd|]. apply Hiff. split; [split_and!; [discriminate|discriminate|]|].
    + intros Hl. exfalso. apply Hl. vm_compute. reflexivity.
    + right. rewrite (inj Value _ _ (eq_trans (eq_sym Hd) serving_decision_value)) in Ha.
      rewrite (inj Value _ _ (eq_trans (eq_sym Ha) first_after_value)). exact first_after_fits.
Defined.

Lemma accepted_decision_is_current_witness :
  rtc step serving (clear_staged serving)
  ∧ (commit_decision serving_decision (clear_staged serving)).1 = Value tt
  ∧ acc_subjects (gv_accounting (clear_staged serving)) = acc_subjects (gv_accounting serving).
Proof.
  assert (rtc step serving (clear_staged serving)) as Hrun by (apply rtc_once, step_clear).
  assert ((commit_decision serving_decision (clear_staged serving)).1 = Value tt) as Hc by (vm_compute; reflexivity).
  split; [exact Hrun|]. split; [exact Hc|].
  exact (proj2 (proj2 (proj2 (proj2 (accepted_decision_is_current sample_request serving_decision serving
    (clear_staged serving) serving_ok serving_room serving_decision_value Hrun Hc))))).
Defined.

Lemma ingestion_exact_witness :
  (ingest_evidence sample_evidence opened_governor).1 = Value (ingest_result Disposition.Staged sample_evidence)
  ∧ acceptable opened_governor sample_evidence ∧ fresh opened_governor sample_evidence.
Proof.
  pose proof (ingestion_exact sample_evidence opened_governor (proj1 opened_ok) sample_evidence_typed) as H.
  assert ((ingest_evidence sample_evidence opened_governor).1
    = Value (ingest_result Disposition.Staged sample_evidence)) as E by (vm_compute; reflexivity).
  split; [exact E|]. destruct (ingest_evidence sample_evidence opened_governor) as [r g'].
  exact (proj1 (proj1 H) E).
Defined.

Lemma policy_and_epoch_change_whole_witness :
  (advance_epoch 2 serving).1 = Value tt ∧ evidence_cleared (advance_epoch 2 serving).2.
Proof.
  assert ((advance_epoch 2 serving).1 = Value tt) as E by (vm_compute; reflexivity).
  split; [exact E|].
  apply (policy_and_epoch_change_whole serving sample_policy 2 serving_ok). vm_compute. discriminate.
Defined.

Lemma shutdown_is_final_witness :
  rtc step (shutdown serving).2 (clear_staged (shutdown serving).2)
  ∧ gv_stopping (clear_staged (shutdown serving).2) = true.
Proof.
  assert (rtc step (shutdown serving).2 (clear_staged (shutdown serving).2)) as Hrun by (apply rtc_once, step_clear).
  split; [exact Hrun|]. exact (proj1 (shutdown_is_final serving _ serving_ok eq_refl Hrun)).
Defined.

Lemma window_committed_once_witness :
  ∃ g' : Governor Disk, rtc passes committed_governor g' ∧ gv_incarnation g' = next_incarnation
    ∧ ∃ st, (commit_decision serving_decision g').1 = Failure st.
Proof.
  destruct committed_reopens as (s1 & g' & s2 & Hs & Hi & Ho).
  assert (rtc passes committed_governor g') as Hlife.
  { apply rtc_once. exact (passes_restart _ _ _ _ _ _ Hs committed_restarts Ho). }
  exists g'. split; [exact Hlife|]. split; [exact Hi|].
  exact (proj1 (window_committed_once serving_decision serving g' serving_ok
    (or_intror (ex_intro _ opened_disk serving_persisted)) (proj1 serving_bounded) serving_commit_value Hlife
    serving_decision (Z.le_refl _))).
Defined.

Lemma acknowledged_commit_survives_witness :
  ∃ s1 (g' : Governor Disk) s2, open sample_config next_incarnation (Value s1) = (Value g', Value s2)
    ∧ gv_policy g' = gv_policy committed_governor.
Proof.
  destruct (acknowledged_commit_survives serving_decision serving opened_disk sample_config next_incarnation
    serving_ok serving_persisted (proj1 serving_bounded) serving_commit_value sample_config_valid sample_starts)
    as (s1 & _ & _ & Hopen & _).
  - exact committed_accepts.
  - destruct (Hopen committed_readable) as (g' & s2 & Ho & Hp & _). exists s1, g', s2. split; [exact Ho|exact Hp].
Defined.


(** What the commit does not check: a decision beyond the decoder's streak bound is
    acknowledged, and the store it leaves opens no more. *)
Example streak_beyond_bound_locks_store :
  let served := (commit_decision beyond_decision serving).2 in
  (commit_decision beyond_decision serving).1 = Value tt
  ∧ match gv_store served with
    | Some disk =>
        match (open sample_config next_incarnation (Value disk)).1 with
        | Failure st => status_code st = StatusCode.OutOfRange
        | Value _ => False
        end
    | None => False
    end.
Proof. vm_compute. split; reflexivity. Qed.

(** A torn first ledger commit opens no more either. *)
Example torn_first_ledger_locks_store :
  match (open sample_config next_incarnation (Value torn_disk)).1 with
  | Failure st => status_detail st = "durable accounting record is not usable"
  | Value _ => False
  end.
Proof. vm_compute. reflexivity. Qed.
