(* ===== verification/PropLink.v ===== *)
(** Properties of the evidence link: frames on the wire, a publisher's session from
    end to end, the server against any peer, and its threads. *)
From stdpp Require Import relations.
From S2P Require Import Prelude Status Core Bytes Fields Policy Accounting Evidence Outcome Codec CodecSpec Engine Fixture FixtureSpec Frame FrameSpec Socket SocketSpec Fsutil Store Governor GovernorInv GovernorReach Disk GovernorFixture LinkServer LinkClient LinkSpec LinkSession LinkEvents LinkSafety LinkWorkers LinkThreads.
#[local] Open Scope string_scope.
#[local] Open Scope list_scope.
#[local] Open Scope Z_scope.

(** ** Lemmas *)

Lemma prefix_lookup_field offset width (l k : ByteBuffer) :
  (offset + width <= length l)%nat → field offset width (l ++ k) = field offset width l.
Proof. intros Hl. unfold field. rewrite drop_app_le, take_app_le; rewrite ?length_drop; [done|lia|lia]. Qed.

(** What is accepted off a stream is as long as the length field says. *)
Lemma delivered_length bytes rest m h :
  byte_list bytes → accepted bytes m h → sizeZ bytes = 80 + field 12 4 (bytes ++ rest).
Proof.
  intros Hb Ha. destruct (accepted_checks _ _ _ Hb Ha) as (Hl & _ & -> & _). by rewrite prefix_lookup_field by lia.
Qed.

Lemma encoded_length_field h payload :
  byte_list payload → header_ok h → sizeZ payload <= U32_MAX → field 12 4 (encode_frame h payload) = sizeZ payload.
Proof.
  intros Hp Hh Hs. pose proof (encode_frame_accepted h payload U32_MAX Hh Hs ltac:(lia)) as Ha.
  pose proof (delivered_length _ [] _ _ (encode_frame_bytes h payload Hp) Ha) as E.
  rewrite app_nil_r in E. unfold sizeZ in E at 1. rewrite length_encode_frame in E. unfold sizeZ in *. lia.
Qed.

(** ** Frames *)

(** C29: A frame is received exactly as it was sent or not at all.  However the
    network divides the stream into chunks and however long it pauses within the idle
    budget, the header with its checksum and the payload are delivered, and what
    follows the frame stays for the next read.  A damaged frame is never delivered:
    cut the stream at any point inside the frame, or change any single byte of it
    outside the length field, and however it arrives no frame is read; and a frame
    with any single byte changed, the length field included, is not accepted as a
    whole. *)
Theorem frame_exact h payload
    (Hh : header_ok h) (Hp : byte_list payload) (Hs : sizeZ payload <= U32_MAX) :
  let bytes := encode_frame h payload in
  (∀ max_payload idle_polls d more rest, sizeZ payload <= max_payload → max_payload <= U32_MAX →
     0 <= idle_polls <= U32_MAX → timely idle_polls d → bytes_of d = bytes ++ more →
     ∃ d', read_frame max_payload idle_polls (arrivals_of d ++ rest)
       = (Value (mk_inbound (received_header h payload) payload), false, arrivals_of d' ++ rest)
       ∧ timely idle_polls d' ∧ bytes_of d' = more)
  ∧ (∀ k w max_payload idle_polls frame closed w', (k < length bytes)%nat → stream w = take k bytes →
       read_frame max_payload idle_polls w <> (Value frame, closed, w'))
  ∧ (∀ i b b' w max_payload idle_polls frame closed w', bytes !! i = Some b → u8 b' → b' <> b →
       (i < 12 ∨ 16 <= i)%nat → stream w = <[i:=b']> bytes →
       read_frame max_payload idle_polls w <> (Value frame, closed, w'))
  ∧ (∀ i b b' max_payload h', bytes !! i = Some b → u8 b' → b' <> b →
       ¬ accepted (<[i:=b']> bytes) max_payload h').
Proof.
  intros bytes. split; [intros; by apply read_frame_delivery|].
  pose proof (encode_frame_bytes h payload Hp) as Hb.
  pose proof (encode_frame_accepted h payload U32_MAX Hh Hs ltac:(lia)) as Ha.
  pose proof (encoded_length_field h payload Hp Hh Hs) as Hl. fold bytes in Hb, Ha, Hl.
  pose proof (length_encode_frame h payload) as Hlen. fold bytes in Hlen.
  assert (∀ i b b' m h', bytes !! i = Some b → u8 b' → b' <> b → ¬ accepted (<[i:=b']> bytes) m h') as Hone.
  { intros i b b' m h' Hi Hb' Hne. by eapply accepted_single_byte. }
  split_and!; [| |exact Hone].
  - intros k w m idle frame closed w' Hk Hst Hr. apply read_frame_stream in Hr as (seen & E & Hacc & _ & _ & H80).
    rewrite Hst in E. assert (byte_list (take k bytes)) as Hbk by by apply Forall_take.
    rewrite E in Hbk. apply byte_list_app in Hbk as [Hbs _].
    pose proof (delivered_length _ (stream w') _ _ Hbs Hacc) as Hsz. rewrite <-E in Hsz.
    apply (f_equal length) in E. rewrite length_take, length_app in E. rewrite field_take, Hl in Hsz by lia.
    unfold sizeZ in Hsz. lia.
  - intros i b b' w m idle frame closed w' Hi Hb' Hne Hout Hst Hr.
    apply read_frame_stream in Hr as (seen & E & Hacc & _). rewrite Hst in E.
    assert (byte_list (<[i:=b']> bytes)) as Hbi by by apply Forall_insert.
    rewrite E in Hbi. apply byte_list_app in Hbi as [Hbs _].
    pose proof (delivered_length _ (stream w') _ _ Hbs Hacc) as Hsz. rewrite <-E, field_insert_outside, Hl in Hsz by lia.
    pose proof (f_equal length E) as El. rewrite length_insert, length_app in El. unfold sizeZ in Hsz.
    assert (stream w' = []) as E0 by (apply length_zero_iff_nil; lia). rewrite E0, app_nil_r in E. subst seen.
    by eapply Hone.
Qed.

(** ** A publisher's session *)

(** C31: A publishing session is the governor's contract carried over the wire.
    For a publisher of the live epoch with any snapshots that are valid and fit a
    frame, there is one exchange: the server, fed what the publisher sends in any
    chunks, leaves the governor exactly as ingesting the snapshots in order (and,
    if so configured, evaluating and committing each) does, and sends the answers;
    the publisher, fed those answers in any chunks, sends exactly what the server
    was fed, and every [submit] returns exactly the acknowledgement the contract
    gives that snapshot.  The server is asked to stop if and only if the goodbye
    asks for it. *)
Theorem session_refines_contract {S} `{Backend S} o co request es (g : Governor S)
    (Ho : server_ok o) (Hco : publisher_ok co) (Hg : governor_ok g) (He : co_epoch co = gv_epoch g)
    (Hstop : gv_stopping g = false) (Hes : Forall (publishable o (co_epoch co)) es) :
  let '(acks, g') := govern o es g in
  ∃ up down,
    (∀ d rest stats script, timely (so_idle_polls o) d → sendable script → bytes_of d = up →
       ∃ c, serve_connection o (mk_connection g [] stats (arrivals_of d ++ rest) script [] false) = Some c
         ∧ cn_governor c = g' ∧ cn_sent c = down ∧ cn_stop c = request)
    ∧ (∀ d rest script fresh_boot rounds ack_out, timely kClientIdlePolls d → sendable script → bytes_of d = down →
       ∃ cl hello,
         connect co fresh_boot (Connected (mk_socket (arrivals_of d ++ rest) script []) :: rounds) ack_out
         = (Answered cl, hello)
         ∧ hello_accepted hello = true
         ∧ (publish_all es cl).1 = Answered <$> acks
         ∧ client_sent (goodbye request (publish_all es cl).2).2 = up).
Proof.
  pose proof (governor_on_link g Hg) as Hl. rewrite <-He in Hl. rewrite (surjective_pairing (govern o es g)).
  exists (session_up co request es), (session_down o co request es g). split.
  - intros d rest stats script Hd Hs Hb.
    destruct (serve_session o co request es d rest g stats script) as (c & E & Eg & Es & Et & _); try done. by exists c.
  - intros d rest script fresh_boot rounds ack_out Hd Hs Hb.
    destruct (publish_session o co fresh_boot rounds ack_out request es d rest script g Ho Hco Hl Hes Hs Hd Hb)
      as (cl & Ec & Ep & _ & Eu).
    exists cl, (accepting_hello_ack o (session_of (hello_header co)) (authority g)).
    split; [exact Ec|]. split; [reflexivity|]. by split.
Qed.

(** C32: The server is safe against any peer.  Whatever octets arrive on a connection,
    however sends go and whatever other threads do between its calls, serving it
    ends, and is a conversation: frame by frame, what is read off the wire, the
    governor that each call finds, what the governor answers to it and what goes out
    give the frame its verdict, and the evidence of an accepted handshake is decoded,
    ingested and, with [evaluate_on_ingest], evaluated on the governor as it then is
    and the decision committed to the governor as it then is.  Every counter, of
    verdicts and of bytes, gains exactly what the events of the conversation call for.
    A handshake is refused, or accepted and followed by evidence and at most one
    frame that closes; so the frames received are the evidence accepted, duplicate and
    rejected plus at most two, and with [evaluate_on_ingest] every accepted snapshot
    is one window committed or one evaluation failed.  Without an accepted handshake
    the governor moves only by the other threads; and a server that only stages keeps
    a well-formed governor well formed. *)
Theorem connection_safe {S} `{Backend S} others o (c : Connection S) (Hc : sound others c) :
  ∃ c' es,
    serve_connection o c = Some c'
    ∧ conversation others o (cn_governor c, wire c) es (cn_governor c', wire c')
    ∧ (∀ k, cn_stats c' k = wrap64 (cn_stats c k + tally es k))
    ∧ session_verdicts o (le_verdict <$> es)
    ∧ total es [LinkStats.evidence_accepted; LinkStats.evidence_duplicate; LinkStats.evidence_rejected]
      <= tally es LinkStats.frames_received
      <= 2 + total es [LinkStats.evidence_accepted; LinkStats.evidence_duplicate; LinkStats.evidence_rejected]
    ∧ total es [LinkStats.windows_committed; LinkStats.evaluations_failed]
      = (if so_evaluate_on_ingest o then tally es LinkStats.evidence_accepted else 0)
    ∧ (admitted es = false → rtc others (cn_governor c) (cn_governor c'))
    ∧ (so_evaluate_on_ingest o = false → (∀ g g', others g g' → step g g') → governor_ok (cn_governor c) →
         governor_ok (cn_governor c') ∧ advanced (cn_governor c) (cn_governor c')).
Proof.
  destruct (serve_connection_converses others o c Hc) as (c' & es & E & _ & Hconv & Hs).
  pose proof (conversation_verdicts others o _ _ _ Hconv) as Hvs. destruct (session_totals o es Hvs) as [Ht He].
  exists c', es. split_and!; [done|exact Hconv|exact Hs|exact Hvs|apply Ht|apply Ht|exact He| |].
  - by apply (conversation_unadmitted others o _ _ _ Hconv).
  - intros Ho Hsteps Hg.
    assert (rtc step (cn_governor c) (cn_governor c')) as Hrun.
    { apply (conversation_moves others o step Hsteps (λ e g Te _, step_ingest e g Te) (cn_governor c, wire c) es
        (cn_governor c', wire c') Ho (so_octets _ _ Hc) Hconv). }
    split; [by eapply run_ok|by apply run_advanced].
Qed.

(** ** The threads of the server *)

(** C33: The server is the sum of its connections, whatever the schedule.  Workers
    take their commands one at a time and in any order, while connections are
    accepted or refused and other users call the governor.  In every such run, of
    which the log keeps every call of the governor in its order, the governor is what
    the log says, and the log holds only what the others did and what workers may do:
    reading, ingesting a valid snapshot, and committing a decision that was evaluated
    on an earlier state of this very governor.  Every worker that is done has served
    its connection to the end exactly as it would alone, from the governor the log has
    at its start and with what the rest of the server did between its calls, read off
    the log.  When all are done every counter, those of bytes included, is exactly the
    connections accepted, what refusing the others adds, and what the events of each
    worker's conversation call for.  All can always be carried to their end; and a
    well-formed governor stays well formed if the server only stages or the ledger has
    room at every state of the run. *)
Theorem server_interleaved {S} `{Backend S} others o (g : Governor S) log srv
    (Hrun : server_run o others g log srv) :
  srv_governor srv = at_governor (account g log) ∧ conduct o others g log
  ∧ (∀ i w, srv_workers srv !! i = Some w → ∀ b, wk_program w = link_ret b →
       finished w ∧ ∃ es, ran o g log srv i w es)
  ∧ (Forall finished (srv_workers srv) → ∃ ess,
       length ess = length (srv_workers srv)
       ∧ (∀ i w es, srv_workers srv !! i = Some w → ess !! i = Some es → ran o g log srv i w es)
       ∧ ∀ k, srv_stats srv k = wrap64 (entry_gain (account g log) k + sumZ ((λ es, tally es k) <$> ess)))
  ∧ (∃ more srv', server_run o others g (log ++ more) srv' ∧ Forall of_worker more ∧ Forall finished (srv_workers srv'))
  ∧ (roomy o g log → (∀ g g', others g g' → step g g') → governor_ok g →
       governor_ok (srv_governor srv) ∧ advanced g (srv_governor srv)).
Proof.
  destruct (serving_run others o g log srv Hrun) as (ps & Hs). split_and!.
  - apply Hs.
  - apply Hs.
  - intros i w Hw b Eb. destruct (serving_finished others o g log srv ps i w b Hs Hw Eb) as (Hf & es & pg & Hr & _). eauto.
  - intros Hf. by apply (serving_done others o g log srv ps).
  - destruct (workers_drain others o g (length (srv_workers srv)) log srv Hrun) as (more & srv' & Hr & Hm & Hl & Hf).
    exists more, srv'. split; [done|]. split; [done|]. destruct (serving_run others o g _ srv' Hr) as (ps' & Hs').
    rewrite take_ge in Hf by lia. rewrite Forall_lookup in Hf |- *. intros i w Hw. destruct (Hf i w Hw) as [b Eb].
    by destruct (serving_finished others o g _ srv' ps' i w b Hs' Hw Eb).
  - intros Hroom Hsteps Hg. assert (rtc step g (srv_governor srv)) as Hr.
    { rewrite (sg_governor _ _ _ _ _ _ Hs).
      apply (conduct_ok others o g log Hsteps Hroom Hg (sg_conduct _ _ _ _ _ _ Hs)). apply visited_now. }
    split; [by eapply run_ok|by apply run_advanced].
Qed.

(** C34: Stopping is final for the workers.  In every interleaving of the accept
    loop, the workers and [shutdown], the count of active workers is the number of
    workers between their increment and their decrement; and once [shutdown] has
    drained the registry, no connection gets a worker any more, the workers to
    join never grow in number, and when all are joined none is active. *)
Theorem workers_joined o s (Hrun : rtc (service_step o) started s) :
  sv_active_workers s = wrap32 (serving_count (sv_workers s ++ sv_pending s))
  ∧ (sv_draining s = true → ∀ s', rtc (service_step o) s s' →
       sv_stop s' = true ∧ sv_workers s' = []
       ∧ (length (sv_pending s') <= length (sv_pending s))%nat
       ∧ (sv_pending s' = [] → sv_active_workers s' = 0)).
Proof.
  pose proof (service_run_ok o s Hrun) as Hok. split; [apply Hok|]. intros Hd s' Hr.
  destruct (service_run_stopped o s s' Hr Hd Hok) as (Hd' & Hok' & Hp).
  destruct (sk_drained _ Hok' Hd') as [Hs Hw]. split_and!; [done|done|done|].
  intros E. rewrite (sk_active _ Hok'), Hw, E. done.
Qed.

(** ** Witnesses *)

Definition sample_header : FrameHeader :=
  mk_header FrameKind.Evidence kFrameFlagNone 0 3 1 9 77 1 1 0.

Lemma sample_header_ok : header_ok sample_header.
Proof. constructor; cbn; unfold u64; lia. Qed.

(** The frame arrives in three chunks with pauses, its end together with the next
    frame's beginning. *)
Definition sample_delivery : list (nat * ByteBuffer) :=
  [(0%nat, take 30 (encode_frame sample_header [1; 2; 3]));
   (2%nat, take 51 (drop 30 (encode_frame sample_header [1; 2; 3])));
   (1%nat, drop 81 (encode_frame sample_header [1; 2; 3]) ++ [70; 71])].

(** The frame received; a payload byte changed; the frame cut in its payload. *)
Lemma frame_exact_witness :
  let bytes := encode_frame sample_header [1; 2; 3] in
  (∃ d', read_frame 1000 3 (arrivals_of sample_delivery ++ [Fault])
     = (Value (mk_inbound (received_header sample_header [1; 2; 3]) [1; 2; 3]), false, arrivals_of d' ++ [Fault])
     ∧ bytes_of d' = [70; 71])
  ∧ (∀ frame closed w', read_frame 1000 3 [Arrived (<[81%nat := 9]> bytes)] <> (Value frame, closed, w'))
  ∧ (∀ frame closed w', read_frame 1000 3 [Idle; Arrived (take 82 bytes)] <> (Value frame, closed, w')).
Proof.
  assert (byte_list [1; 2; 3]) as Hp by (repeat constructor; unfold u8; lia).
  assert (sizeZ [1; 2; 3] <= U32_MAX) as Hs by (vm_compute; discriminate).
  destruct (frame_exact sample_header [1; 2; 3] sample_header_ok Hp Hs) as (Hwhole & Hcut & Hone & _).
  split; [|split].
  - destruct (Hwhole 1000 3 sample_delivery [70; 71] [Fault]) as (d' & E & _ & Hb).
    + vm_compute. discriminate.
    + vm_compute. discriminate.
    + vm_compute. split; discriminate.
    + repeat constructor; vm_compute; discriminate.
    + vm_compute. reflexivity.
    + exists d'. split; [exact E|exact Hb].
  - intros frame closed w'. apply (Hone 81%nat 2 9).
    + vm_compute. reflexivity.
    + unfold u8. lia.
    + lia.
    + right. lia.
    + vm_compute. reflexivity.
  - intros frame closed w'. apply (Hcut 82%nat).
    + vm_compute. lia.
    + vm_compute. reflexivity.
Defined.

Definition sample_publisher : LinkClientOptions := mk_client_options "127.0.0.1" 4500 1 9 77 1 200 100 50.

Definition evaluating_options : LinkServerOptions :=
  mk_server_options "127.0.0.1" 0 4 8 kMaxFramePayloadBytes 200 50 true.

Lemma evaluating_options_ok : server_ok evaluating_options.
Proof. constructor; cbn; [unfold kMaxFramePayloadBytes|unfold u32]; lia. Qed.

Lemma sample_publisher_ok : publisher_ok sample_publisher.
Proof. constructor; cbn; unfold u64; lia. Qed.

Lemma sample_publishable : publishable evaluating_options 1 sample_evidence.
Proof. constructor; [apply sample_evidence_typed|apply sample_evidence_wf|reflexivity|vm_compute; discriminate]. Qed.

Definition no_hello : HelloAck := mk_hello_ack 0 0 0 0 0 0 0 0 0 "".

(** One snapshot sent to an evaluating server: it is staged, evaluated and
    committed, and the publisher learns of the ledger's next generation. *)
Lemma session_refines_contract_witness :
  (govern evaluating_options [sample_evidence] opened_governor).1 = [mk_evidence_ack 0 5 1 1 0 "evidence accepted"]
  ∧ ∃ up down,
    (∃ c, serve_connection evaluating_options
            (mk_connection opened_governor [] LinkStats.zero (arrivals_of (at_once up) ++ []) [] [] false) = Some c
       ∧ cn_sent c = down ∧ cn_stop c = true)
    ∧ ∃ cl hello,
        connect sample_publisher 0 [Connected (mk_socket (arrivals_of (at_once down) ++ []) [] [])] no_hello
        = (Answered cl, hello)
        ∧ (publish_all [sample_evidence] cl).1 = [Answered (mk_evidence_ack 0 5 1 1 0 "evidence accepted")].
Proof.
  assert ((govern evaluating_options [sample_evidence] opened_governor).1
    = [mk_evidence_ack 0 5 1 1 0 "evidence accepted"]) as Ea by (vm_compute; reflexivity).
  split; [exact Ea|].
  assert (gv_epoch opened_governor = 1) as E1 by (vm_compute; reflexivity).
  assert (gv_stopping opened_governor = false) as E2 by (vm_compute; reflexivity).
  pose proof (session_refines_contract evaluating_options sample_publisher true [sample_evidence] opened_governor
    evaluating_options_ok sample_publisher_ok (proj1 opened_ok) (eq_sym E1) E2
    (Forall_cons_2 _ _ _ sample_publishable (Forall_nil_2 _))) as Ht.
  revert Ea Ht. generalize (govern evaluating_options [sample_evidence] opened_governor). intros [acks g'] Ea Ht.
  cbn [fst] in Ea. subst acks. destruct Ht as (up & down & Hup & Hdown). exists up, down.
  destruct (at_once_delivers 50 up ltac:(lia)) as [T1 B1]. destruct (at_once_delivers 8 down ltac:(lia)) as [T2 B2].
  split.
  - destruct (Hup (at_once up) [] LinkStats.zero [] T1 (Forall_nil_2 _) B1) as (c & Ec & _ & Es & Eb).
    exists c. split; [exact Ec|]. split; [exact Es|exact Eb].
  - destruct (Hdown (at_once down) [] [] 0 [] no_hello T2 (Forall_nil_2 _) B2) as (cl & hello & Ec & _ & Ep & _).
    exists cl, hello. split; [exact Ec|exact Ep].
Defined.

(** A peer that sends three octets of nothing while another thread advances the
    epoch. *)
Definition noisy_connection : Connection Disk :=
  mk_connection opened_governor [λ g, (advance_epoch 2 g).2] LinkStats.zero [Arrived [1; 2; 3]; Idle; Fault] [] [] false.

Lemma connection_safe_witness :
  ∃ c' es, serve_connection default_server_options noisy_connection = Some c'
    ∧ cn_stats c' LinkStats.frames_rejected = wrap64 (tally es LinkStats.frames_rejected)
    ∧ session_verdicts default_server_options (le_verdict <$> es) ∧ governor_ok (cn_governor c').
Proof.
  assert (sound step noisy_connection) as Hc.
  { constructor.
    - constructor; [|constructor]. intros g. apply step_advance. unfold u64. lia.
    - repeat constructor; unfold u8; lia.
    - intros k. unfold noisy_connection, LinkStats.zero, u64. cbn. lia. }
  destruct (connection_safe step default_server_options noisy_connection Hc)
    as (c' & es & E & _ & Hk & Hvs & _ & _ & _ & Hok).
  exists c', es. split; [exact E|]. split; [exact (Hk LinkStats.frames_rejected)|]. split; [exact Hvs|].
  apply (Hok eq_refl (λ g g' Hs, Hs)). exact (proj1 opened_ok).
Defined.

(** A peer that sends octets of nothing, then breaks off. *)
Definition stray : list arrival * list departure := ([Arrived [1; 2; 3]; Idle; Fault], []).

Lemma server_interleaved_witness :
  ∃ log srv, server_run default_server_options step opened_governor log srv
    ∧ Forall finished (srv_workers srv) ∧ ∃ ess,
        length ess = length (srv_workers srv)
        ∧ srv_stats srv LinkStats.connections_accepted
          = wrap64 (entry_gain (account opened_governor log) LinkStats.connections_accepted
              + sumZ ((λ es, tally es LinkStats.connections_accepted) <$> ess)).
Proof.
  assert (server_run default_server_options step opened_governor [Accepted stray]
    (accept default_server_options stray (opened_server opened_governor))) as Hrun.
  { apply (run_step _ _ _ [] (opened_server opened_governor)); [apply run_opened|]. apply step_accept.
    repeat constructor; unfold u8; lia. }
  destruct (server_interleaved step default_server_options opened_governor _ _ Hrun) as (_ & _ & _ & _ & (more & srv & Hr & _ & Hf) & _).
  destruct (server_interleaved step default_server_options opened_governor _ srv Hr) as (_ & _ & _ & Hd & _).
  destruct (Hd Hf) as (ess & Hl & _ & Hk).
  exists ([Accepted stray] ++ more), srv. split; [exact Hr|]. split; [exact Hf|]. exists ess. split; [exact Hl|]. apply Hk.
Defined.

(** One worker, admitted, stopped while it serves, drained, joined. *)
Definition served_once : list (Service → Service) :=
  [enter; take_connection default_server_options; register; move_worker 0 Spawned; request_stop; drain_workers;
   move_pending 0 Serving; move_pending 0 Leaving].

Lemma served_once_run :
  rtc (service_step default_server_options) started (foldl (λ s f, f s) started served_once).
Proof.
  eapply rtc_l; [by apply step_enter|]. eapply rtc_l; [by apply step_take|]. eapply rtc_l; [by apply step_register|].
  eapply rtc_l; [by apply (step_worker _ _ 0 Spawned)|]. eapply rtc_l; [by apply step_stop|]. eapply rtc_l; [by apply step_drain|].
  eapply rtc_l; [by apply (step_pending _ _ 0 Serving)|]. eapply rtc_l; [by apply (step_pending _ _ 0 Leaving)|]. reflexivity.
Qed.

Lemma workers_joined_witness :
  let s := foldl (λ s f, f s) started served_once in
  sv_draining s = true ∧ sv_pending s = [Finished] ∧ sv_active_workers (join_next s) = 0.
Proof.
  split; [reflexivity|]. split; [reflexivity|].
  destruct (workers_joined default_server_options _ served_once_run) as [_ Hd].
  destruct (Hd eq_refl (join_next (foldl (λ s f, f s) started served_once))) as (_ & _ & _ & Ha).
  - apply rtc_once, step_join. reflexivity.
  - apply Ha. reflexivity.
Defined.

(** The budget of [max_connections] is not a bound on the workers: a second
    connection is admitted before the first one's thread has counted itself. *)
Example connection_budget_exceeded :
  let o := mk_server_options "127.0.0.1" 0 1 8 kMaxFramePayloadBytes 200 50 false in
  ∃ s, rtc (service_step o) started s ∧ sv_active_workers s = 2.
Proof.
  intros o.
  exists (foldl (λ s f, f s) started
    [enter; take_connection o; register; take_connection o; register; move_worker 0 Spawned; move_worker 1 Spawned]).
  split; [|reflexivity].
  eapply rtc_l; [by apply step_enter|]. eapply rtc_l; [by apply step_take|]. eapply rtc_l; [by apply step_register|].
  eapply rtc_l; [by apply step_take|]. eapply rtc_l; [by apply step_register|].
  eapply rtc_l; [by apply (step_worker _ _ 0 Spawned)|].
  eapply rtc_l; [by apply (step_worker _ _ 1 Spawned)|]. reflexivity.
Qed.
