(* ===== verification/PropProcess.v ===== *)
(** Properties of the processes: the link process and the publishers that visit it. *)
From S2P Require Import Prelude Status Core Bytes Policy PolicyValid Accounting Evidence Outcome Codec Engine EngineSpec GovernorEval Fixture FixtureSpec Explain Scenario Frame FrameSpec Socket SocketSpec Fsutil Store Governor BackendSpec GovernorSpec GovernorInv GovernorReach GovernorDurable Disk GovernorFixture LinkServer LinkClient LinkSpec LinkSession LinkEvents LinkSafety LinkCounts Cli ScenarioTyped ScenarioFixture Publisher PublisherSpec LinkProcess ProcessSpec.
#[local] Open Scope string_scope.
#[local] Open Scope list_scope.
#[local] Open Scope Z_scope.

(** C30: The processes together do what the governor's contract says.  A link
    process whose governor opens is visited by any number of publisher processes,
    one after another, and by a last one of the live epoch in the mode that asks for
    the stop.  A publisher names the live epoch, and then its snapshots are valid, of
    that epoch and fit a frame; or it names another epoch and has anything to publish.
    There is one exchange of bytes that both sides agree on, however the network
    divides it, while sends succeed: the link process, fed what the visitors send,
    ends with 0 and the governor that ingesting everything published by those of the
    live epoch in order gives; it prints its ledger and counters, and every counter,
    of frames and of bytes, is exactly what the acknowledgements, the ledger and the
    bytes exchanged call for; and over a store that holds what the opened governor
    serves it leaves one that holds what it printed, while the ledger has room.
    Every publisher of the live epoch, fed what the link process answers it, sends its
    part, prints one line for each acknowledgement of the contract and the number
    accepted and rejected, and ends with 0; every other one is fenced out: its hello
    is answered by a refusal, it prints STALE_EPOCH, ends with 3 and leaves the
    governor alone.  The last one ends with 0 after its goodbye. *)
Theorem processes_exact {S} `{DurabilityLaws S} arguments text lo s i (opened : Result S) left g a port procs visits stop_proc stopper
    (Hlo : link_options arguments default_link_options = inr lo) (Hpath : str_size (lo_scenario_path lo) <> 0)
    (Ht : parse_scenario text = Value s) (Hpol : sc_has_policy s = true)
    (Hopen : open (link_config s lo) i opened = (Value g, left))
    (Hg : governor_ok g)
    (Hprocs : Forall2 (runs_as "normal") procs visits) (Hstop : runs_as "shutdown" stop_proc stopper)
    (Hvisits : Forall (visitor (link_server_options lo) (gv_epoch g)) visits)
    (Hstopper : publisher_ok (vi_client stopper)) (Hepoch : co_epoch (vi_client stopper) = gv_epoch g) :
  let o := link_server_options lo in
  let everything := published_evidence (gv_epoch g) visits in
  let '(acks, g') := govern o everything g in
  let up := visits_up (gv_epoch g) visits (vi_client stopper) in
  let down := visits_down o visits (vi_client stopper) g in
  (∀ peers, Forall2 (carries o) up peers →
     ∃ stats,
       link_main arguments (Some text) i opened (mk_listening true a true true (Some port)) peers
       = Some (mk_link_run (Some 0) (link_output lo port g stats g') "" (gv_store g') down)
       ∧ ∀ k, stats k = wrap64 (visits_gained true (live_visits (gv_epoch g) visits + 1) (stale_visits (gv_epoch g) visits)
                          acks (generation g' - generation g) (bytes_counted up) (bytes_in_all down) k))
  ∧ (∀ s0, persisted g s0 → (∀ n, ledger_room (gv_accounting (govern o (take n everything) g).2)) →
       governor_ok g' ∧ ∃ s', gv_store g' = Some s' ∧ persisted g' s')
  ∧ (∀ n p v, procs !! n = Some p → visits !! n = Some v →
       let before := (govern o (published_evidence (gv_epoch g) (take n visits)) g).2 in
       up !! n = Some (pr_sent (publishing o v before))
       ∧ ∃ bytes_down, down !! n = Some bytes_down ∧ runs p bytes_down (publishing o v before))
  ∧ ∃ bytes_up bytes_down, last up = Some bytes_up ∧ down !! length visits = Some bytes_down
      ∧ runs stop_proc bytes_down
          (mk_publishing 0 (farewell_printed (session_of (hello_header (vi_client stopper)))) "" bytes_up []).
Proof.
  intros o everything. assert (hosting o g) as Hh by (constructor; [apply link_server_ok|by apply governor_on_link|by eapply open_serving]).
  rewrite (surjective_pairing (govern o everything g)). intros up down. split_and!.
  - intros peers Hp.
    destruct (serve_visits o visits (vi_client stopper) g LinkStats.zero [] peers Hh Hvisits Hstopper Hepoch) as (stats & E & Hs);
      [intros k; unfold LinkStats.zero; ulia|exact Hp|].
    exists stats. rewrite (link_main_serving arguments lo text s i opened g left a port peers) by done. fold o. rewrite E.
    split; [apply (f_equal Some), stopped_run_value|exact Hs].
  - intros s0 Hp Hroom. destruct (govern_kept o everything g s0) as [Hg' [s' Hp']]; try done.
    { apply Forall_bind. eapply Forall_impl; [exact Hvisits|]. intros v Hv.
      eapply Forall_impl; [exact (visitor_evidence _ _ _ Hv)|]. by intros e []. }
    split; [done|]. exists s'. split; [apply (ba_store _ _ (ps_backed _ _ Hp'))|done].
  - intros n p v Ep Ev before. destruct (visitor_publishes o visits g n Hh Hvisits) as [Hn En]. fold before in Hn, En. split.
    + unfold up, visits_up. rewrite lookup_app_l by (rewrite length_fmap; by eapply lookup_lt_Some).
      rewrite list_lookup_fmap, Ev. unfold publishing, visit_up. cbn [fmap option_fmap option_map]. rewrite En.
      by destruct (live (gv_epoch g) v).
    + exists (visit_down o v before). split; [by apply visits_down_lookup|]. apply process_publishes; [done| |].
      * rewrite En. rewrite Forall_lookup in Hvisits. by eapply Hvisits.
      * by eapply (Forall2_lookup_lr (runs_as "normal") procs visits).
  - exists (session_up (vi_client stopper) true []). eexists. split; [apply last_snoc|].
    split; [by apply visits_down_last|].
    destruct (visitor_publishes o visits g (length visits) Hh Hvisits) as [Hn En]. rewrite take_ge in Hn, En by done.
    apply process_stops; [done|done|by rewrite En|done].
Qed.

(** ** Witness *)

Definition sample_link_arguments : list string := ["--scenario"; "flows.fg"; "--store"; "/var/lib/fg"; "--quiet"].
Definition sample_link_options : LinkOptions := mk_link_options "flows.fg" "/var/lib/fg" 0 true.

Definition sample_process : Process :=
  mk_process ["--port"; "4500"; "--epoch"; "1"; "--publisher"; "9"; "--scenario"; "flows.fg"] (Some sample_text) 77.
Definition stale_process : Process :=
  mk_process ["--port"; "4500"; "--epoch"; "2"; "--publisher"; "9"; "--scenario"; "flows.fg"] (Some sample_text) 79.
Definition stop_process : Process :=
  mk_process ["--port"; "4500"; "--epoch"; "1"; "--publisher"; "9"; "--mode"; "shutdown"] None 78.

Definition sample_visit : Visit :=
  mk_visit (mk_client_options "127.0.0.1" 4500 1 9 77 1 200 100 50) (sc_evidence sample_scenario).
Definition stale_visit : Visit :=
  mk_visit (mk_client_options "127.0.0.1" 4500 2 9 79 1 200 100 50) (sc_evidence sample_scenario).
Definition stop_visit : Visit := mk_visit (mk_client_options "127.0.0.1" 4500 1 9 78 1 200 100 50) [].

Lemma sample_file epoch : publisher_scenario (mk_publisher "127.0.0.1" "flows.fg" 4500 epoch 9 "normal" false) (Some sample_text)
  = inr sample_scenario.
Proof. unfold publisher_scenario. cbn [pb_scenario_path]. rewrite sample_parsed. vm_compute. reflexivity. Qed.

Lemma sample_runs : runs_as "normal" sample_process sample_visit.
Proof.
  exists (mk_publisher "127.0.0.1" "flows.fg" 4500 1 9 "normal" false), sample_scenario.
  split_and!; [vm_compute; reflexivity|reflexivity|apply sample_file|done|vm_compute; discriminate|vm_compute; reflexivity].
Qed.

Lemma stale_runs : runs_as "normal" stale_process stale_visit.
Proof.
  exists (mk_publisher "127.0.0.1" "flows.fg" 4500 2 9 "normal" false), sample_scenario.
  split_and!; [vm_compute; reflexivity|reflexivity|apply sample_file|done|vm_compute; discriminate|vm_compute; reflexivity].
Qed.

Lemma stop_runs : runs_as "shutdown" stop_process stop_visit.
Proof.
  exists (mk_publisher "127.0.0.1" "" 4500 1 9 "shutdown" false), default_scenario.
  split_and!; [vm_compute; reflexivity|reflexivity|vm_compute; reflexivity|done|vm_compute; discriminate|vm_compute; reflexivity].
Qed.

Lemma sample_epoch : gv_epoch sample_governor = 1.
Proof. vm_compute. reflexivity. Qed.

Lemma sample_visitors : Forall (visitor (link_server_options sample_link_options) (gv_epoch sample_governor)) [sample_visit; stale_visit].
Proof.
  rewrite sample_epoch. constructor; [|constructor; [|constructor]].
  - constructor; [constructor; cbn; unfold u64; lia|]. intros _. cbn [vi_evidence sample_visit].
    destruct sample_scenario_wf as [T _ _ We]. pose proof (ct_evidence _ T) as Te.
    rewrite Forall_forall in We, Te |- *. intros e He.
    assert (Forall (λ e, ev_epoch e = 1 ∧ sizeZ (encode_evidence e) <= kMaxFramePayloadBytes) (sc_evidence sample_scenario)) as Hf.
    { apply Forall_cons. split; [split; vm_compute; [reflexivity|discriminate]|apply Forall_nil; exact I]. }
    rewrite Forall_forall in Hf. destruct (Hf e He). constructor; auto.
  - constructor; [constructor; cbn; unfold u64; lia|]. discriminate.
Qed.

Definition sample_evidence_published : list EvidenceSnapshot :=
  published_evidence (gv_epoch sample_governor) [sample_visit; stale_visit].

Lemma sample_published : sample_evidence_published = sc_evidence sample_scenario.
Proof. unfold sample_evidence_published. rewrite sample_epoch. apply app_nil_r. Qed.

(** There is room before the snapshot and after it. *)
Lemma sample_visit_room n :
  ledger_room (gv_accounting (govern (link_server_options sample_link_options)
    (take n sample_evidence_published) sample_governor).2).
Proof.
  rewrite sample_published. assert (take n (sc_evidence sample_scenario) = [] ∨ take n (sc_evidence sample_scenario) = sc_evidence sample_scenario)
    as [-> | ->].
  { assert (length (sc_evidence sample_scenario) = 1%nat) as Hl by (vm_compute; reflexivity).
    destruct n as [|n]; [left; reflexivity|right]. apply take_ge. lia. }
  - exact sample_room.
  - constructor; [concrete|..]; apply (bool_decide_unpack _); vm_compute; reflexivity.
Qed.

Definition peer (up : ByteBuffer) : Peer := (arrivals_of (at_once up) ++ [], []).

Lemma peer_carries up : carries (link_server_options sample_link_options) up (peer up).
Proof.
  destruct (at_once_delivers 50 up ltac:(lia)) as [T B]. exists (at_once up), [].
  split; [reflexivity|]. split; [exact T|]. split; [exact B|constructor].
Qed.

Lemma sample_stale : stale_visits (gv_epoch sample_governor) [sample_visit; stale_visit] = 1.
Proof. vm_compute. reflexivity. Qed.

Lemma sample_accepted :
  code_count StatusCode.Ok (govern (link_server_options sample_link_options) sample_evidence_published sample_governor).1 = 1.
Proof. vm_compute. reflexivity. Qed.

(** Three answers, by their places. *)
Lemma three_lookups {A} (l : list A) a b c :
  length l = 3%nat → l !! 0%nat = Some a → l !! 1%nat = Some b → l !! 2%nat = Some c → l = [a; b; c].
Proof. destruct l as [|x [|y [|z [|? ?]]]]; try done. cbn. congruence. Qed.

Lemma three_up epoch v1 v2 stopper u1 u2 u3 :
  visits_up epoch [v1; v2] stopper !! 0%nat = Some u1 → visits_up epoch [v1; v2] stopper !! 1%nat = Some u2 →
  last (visits_up epoch [v1; v2] stopper) = Some u3 → visits_up epoch [v1; v2] stopper = [u1; u2; u3].
Proof. unfold visits_up. cbn [fmap list_fmap app lookup list_lookup last]. congruence. Qed.

(** One publisher gets through, one is fenced out, and the last one stops the link. *)
Lemma processes_exact_witness :
  ∃ up down stale_up stale_down stop_up stop_down stats g',
    link_main sample_link_arguments (Some sample_text) sample_incarnation (Value empty_disk)
      (mk_listening true true true true (Some 4500)) [peer up; peer stale_up; peer stop_up]
    = Some (mk_link_run (Some 0) (link_output sample_link_options 4500 sample_governor stats g') "" (gv_store g')
        [down; stale_down; stop_down])
    ∧ stats LinkStats.evidence_accepted = 1 ∧ stats LinkStats.handshakes_rejected = 1
    ∧ (∃ s', gv_store g' = Some s' ∧ persisted g' s')
    ∧ (∃ out, runs sample_process down (mk_publishing 0 out "" up []))
    ∧ runs stale_process stale_down (mk_publishing 3 turned_away "" stale_up []).
Proof.
  pose proof (processes_exact sample_link_arguments sample_text sample_link_options sample_scenario sample_incarnation
    (Value empty_disk) (Value sample_disk) sample_governor true 4500 [sample_process; stale_process] [sample_visit; stale_visit]
    stop_process stop_visit
    eq_refl ltac:(vm_compute; discriminate) sample_parsed ltac:(vm_compute; reflexivity) sample_opening
    (proj1 sample_governor_ok) ltac:(constructor; [exact sample_runs|constructor; [exact stale_runs|constructor]]) stop_runs
    sample_visitors ltac:(constructor; cbn; unfold u64; lia) (eq_sym sample_epoch)) as Ht.
  cbv zeta in Ht. fold sample_evidence_published in Ht. pose proof sample_accepted as Hc. pose proof sample_visit_room as Hroom.
  revert Hc Ht. generalize (govern (link_server_options sample_link_options) sample_evidence_published sample_governor).
  intros [acks g'] Hc (Hlink & Hstore & Hpub & Hstop). cbn [fst] in Hc.
  destruct (Hpub 0%nat sample_process sample_visit eq_refl eq_refl) as (E1 & down & E2 & Hr1).
  destruct (Hpub 1%nat stale_process stale_visit eq_refl eq_refl) as (E3 & stale_down & E4 & Hr2).
  destruct Hstop as (stop_up & stop_down & E5 & E6 & _).
  match type of Hr1 with runs _ _ ?result => assert (result = mk_publishing 0 (pr_out result) ""
    (session_up (vi_client sample_visit) false (vi_evidence sample_visit)) []) as P1
    by (rewrite publishing_live by (vm_compute; reflexivity); reflexivity) end.
  match type of Hr2 with runs _ _ ?result => assert (result = mk_publishing 3 turned_away ""
    (encode_frame (hello_header (vi_client stale_visit)) []) []) as P2
    by (apply publishing_stale; vm_compute; reflexivity) end.
  rewrite P1 in E1, Hr1. rewrite P2 in E3, Hr2.
  pose proof (three_up _ _ _ _ _ _ _ E1 E3 E5) as Eup.
  destruct (Hlink [peer (session_up (vi_client sample_visit) false (vi_evidence sample_visit));
    peer (encode_frame (hello_header (vi_client stale_visit)) []); peer stop_up]) as (stats & Erun & Hstats).
  { rewrite Eup. constructor; [|constructor; [|constructor; [|constructor]]]; apply peer_carries. }
  exists (session_up (vi_client sample_visit) false (vi_evidence sample_visit)), down,
    (encode_frame (hello_header (vi_client stale_visit)) []), stale_down, stop_up, stop_down, stats, g'.
  split; [|split; [|split; [|split; [|split]]]].
  - rewrite Erun. do 2 f_equal. refine (three_lookups _ _ _ _ _ E2 E4 E6). reflexivity.
  - rewrite Hstats, sample_stale. cbn [visits_gained gained]. rewrite Hc. reflexivity.
  - rewrite Hstats, sample_stale. reflexivity.
  - exact (proj2 (Hstore sample_disk (proj2 sample_governor_ok) Hroom)).
  - eexists. exact Hr1.
  - exact Hr2.
Defined.
