(* ===== verification/PropScenario.v ===== *)
(** Properties of the texts: the scenario documents the process reads, the
    explanations it prints, and what a run of the command line does. *)
From S2P Require Import Prelude Status Core Bytes Policy PolicyValid Accounting Evidence Outcome Engine Planner EngineSpec PlannerSpec EvalSpec Fixture FixtureSpec Explain ExplainSpec Scenario ScenarioText ScenarioLines ScenarioTyped ScenarioPrint Fsutil Store StoreSpec Governor BackendSpec GovernorSpec GovernorEval GovernorInv GovernorReach GovernorDurable GovernorLife Disk GovernorFixture Cli CliSpec ScenarioFixture.
From coqutil Require Import Datatypes.RecordSetters.
Import DoubleBraceUpdate.
#[local] Open Scope string_scope.
#[local] Open Scope list_scope.
#[local] Open Scope Z_scope.

(** ** Definitions *)

(** Where a refused document goes wrong: at a directive, with the lines before it
    accepted; at its end; or in validation, reported as line 0. *)
Inductive refused_at (text : string) : Z → string → Prop :=
  | at_directive i raw pre post st message :
      raw_lines text !! i = Some raw →
      document 0 (raw_lines text) = pre ++ scan_line (Z.of_nat i + 1) raw :: post →
      fold_result placed parse_start pre = Value st →
      directive (scan_line (Z.of_nat i + 1) raw) st = Failure message →
      refused_at text (Z.of_nat i + 1) (status_detail message)
  | at_end st :
      fold_result placed parse_start (document 0 (raw_lines text)) = Value st →
      pa_saw_version st = false ∨ pa_saw_body st = false →
      refused_at text (sizeZ (raw_lines text))
        (if pa_saw_version st then "the document declares no policy, evidence, or request"
         else "the document must begin with: version 1")
  | at_validation st message :
      fold_result placed parse_start (document 0 (raw_lines text)) = Value st →
      validate_scenario (settle_epoch (pa_scenario st)) = Failure message →
      refused_at text 0 (status_detail message).

(** ** Scenario documents *)

(** C35: Parsing is total and its answers are exact.  Every document of a size below
    2^64 is answered: either by a scenario in which every number is in the range of
    its field, the policy, if there is one, is valid and of the scenario's epoch, each
    snapshot is valid by itself, and the digest is the text's; or by an
    [INVALID_ARGUMENT] naming the place and the complaint of the first error: the
    1-based number of the first line whose directive is refused in the state the lines
    before it built, the last line when the document ends too early, or line 0 when the
    whole is not valid.  It is not as strict as the format's header says: a document
    with text after a label attribute, one with a policy attribute that appears twice,
    of which the last counts, and one with a snapshot of another epoch than the
    policy's are accepted (reported). *)
Theorem scenario_parsed_exactly text (Hsize : str_size text <= U64_MAX) :
  match parse_scenario text with
  | Value s => scenario_wf s ∧ sc_source_digest s = checksum64 (string_bytes text)
  | Failure f =>
      ∃ number what, refused_at text number what
        ∧ f = mk_status StatusCode.InvalidArgument ("line " +:+ to_decimal number +:+ ": " +:+ what)
  end
  ∧ (∃ s, parse_scenario swallowing_text = Value s ∧ sc_epoch s = 3)
  ∧ (∃ s, parse_scenario repeating_text = Value s ∧ pol_fair_band_units (sc_policy s) = 2)
  ∧ (∃ s, parse_scenario foreign_text = Value s ∧ pol_epoch (sc_policy s) = 1 ∧ ev_epoch <$> sc_evidence s = [2]).
Proof.
  split; [|split; [exact swallowing_parsed|split; [exact repeating_parsed|exact foreign_parsed]]].
  destruct (parse_scenario text) as [s|f] eqn:E; [by apply parse_scenario_wf|].
  pose proof (raw_lines_size text) as Hs. rewrite parse_scenario_fold in E.
  destruct (fold_result placed parse_start (document 0 (raw_lines text))) as [st|g] eqn:Ef; cbn [result_bind] in E.
  - rewrite last_number_exact in E by lia. unfold finish in E.
    destruct (pa_saw_version st && pa_saw_body st) eqn:Hb.
    + apply andb_true_iff in Hb as [Hv Hb]. rewrite Hv, Hb in E. cbn [negb at_line result_bind] in E.
      destruct (validate_scenario _) as [[]|m] eqn:Em; cbn [at_line result_bind] in E; [done|].
      injection E as <-. exists 0, (status_detail m). split; [by eapply at_validation|done].
    + eexists _, _. split; [eapply at_end; [exact Ef|by apply andb_false_iff]|].
      destruct (pa_saw_version st); cbn [andb negb] in *; [rewrite Hb in E|]; injection E as <-; by rewrite Z.add_0_l.
  - injection E as <-. destruct (fold_placed_failure _ _ _ Ef) as (pre & l & post & st & m & Hl & Hpre & Hd & ->).
    assert (l ∈ document 0 (raw_lines text)) as Hin by (rewrite Hl; apply elem_of_app; right; left).
    destruct (document_line (raw_lines text) 0 l ltac:(lia) ltac:(lia) Hin) as (i & raw & Hi & Er). rewrite Z.add_0_l in Er. subst l.
    exists (Z.of_nat i + 1), (status_detail m). split; [by eapply at_directive|]. by rewrite scan_line_number.
Qed.

Lemma scenario_parsed_exactly_witness :
  scenario_wf sample_scenario
  ∧ ∃ number what, refused_at faulty_text number what
      ∧ "line 3: duplicate group attribute: weight" = "line " +:+ to_decimal number +:+ ": " +:+ what.
Proof.
  destruct (scenario_parsed_exactly sample_text ltac:(vm_compute; discriminate)) as [H1 _]. rewrite sample_parsed in H1.
  destruct (scenario_parsed_exactly faulty_text ltac:(vm_compute; discriminate)) as [H2 _]. rewrite faulty_value in H2.
  split; [exact (proj1 H1)|]. destruct H2 as (number & what & Hr & He). exists number, what. split; [exact Hr|].
  exact (f_equal status_detail He).
Defined.

(** C36: Printing, then parsing, is the identity.  Every scenario the format can
    express - whatever its policy, groups, subjects, snapshots, observations and
    request, provided its names hold no blanks and its labels survive trimming -
    is read back, field by field, from the document printed for it. *)
Theorem scenario_roundtrip s (Hs : scenario_printable s) :
  parse_scenario (print_scenario s) = Value (s {{ sc_source_digest := checksum64 (string_bytes (print_scenario s)) }}).
Proof. by apply print_parse. Qed.

Lemma scenario_roundtrip_witness :
  parse_scenario (print_scenario sample_scenario)
  = Value (sample_scenario {{ sc_source_digest := checksum64 (string_bytes (print_scenario sample_scenario)) }}).
Proof. exact (scenario_roundtrip sample_scenario sample_printable). Defined.

(** ** Explanations *)

(** C37: An explanation is whole or visibly cut.  It is the decision's lines - the
    outcome, the authority, the counts, the correction, then whichever of groups,
    subjects, intents and notes are asked for, in order, and the digest - when they
    fit the bound; otherwise exactly the bound's worth of them and the truncation
    marker.  It never exceeds the bound by more than the marker. *)
Theorem explanation_whole_or_cut d o
    (Hmax : 0 <= eo_max_bytes o) (Hsize : eo_max_bytes o + str_size (text_of (explained d o)) <= U64_MAX) :
  let whole := text_of (explained d o) in
  explain d o
  = (if str_size whole <=? eo_max_bytes o then whole
     else String.substring 0 (Z.to_nat (eo_max_bytes o)) whole +:+ truncation_marker)
  ∧ str_size (explain d o) <= eo_max_bytes o + str_size truncation_marker.
Proof.
  intros whole. rewrite explain_shows by done. split; [|by apply cut_size].
  unfold cut. fold whole. rewrite Z.gtb_ltb, Z.ltb_antisym. by destruct (str_size whole <=? eo_max_bytes o).
Qed.

Definition short_explanation : ExplainOptions := mk_explain true true true true 40.

Lemma explanation_whole_or_cut_witness :
  explain serving_decision short_explanation
  = String.substring 0 40 (text_of (explained serving_decision short_explanation)) +:+ truncation_marker
  ∧ explain serving_decision default_explain = text_of (explained serving_decision default_explain).
Proof.
  destruct (explanation_whole_or_cut serving_decision short_explanation) as [H1 _];
    [vm_compute; discriminate|vm_compute; discriminate|].
  destruct (explanation_whole_or_cut serving_decision default_explain) as [H2 _];
    [vm_compute; discriminate|vm_compute; discriminate|].
  split; [rewrite H1|rewrite H2]; vm_compute; reflexivity.
Defined.

(** ** The command line *)

(** C38: A run of the command line does what its scenario says and no more.  On a
    scenario that [check] accepts, [evaluate] without a store always opens its
    governor; it ends with 3 if and only if the governor refuses some evidence, with
    2 if no request is left to evaluate, and otherwise always evaluates, prints the
    rendering asked for, and ends with 4 exactly when a commit was asked for and the
    request names no window.  Over a store that holds what the opened governor
    serves, the ledger on the store moves only in a run asked to commit that ends
    with 0, and then to exactly the ledger of the commit; in every other run the
    store is left as opening left it. *)
Theorem cli_run_exact {S} `{DurabilityLaws S} path arguments o text s i (opened : Result S)
    (Ho : parse_options arguments default_cli = inr o) (Ht : parse_scenario text = Value s)
    (Hs : sc_has_policy s = true) (Hi : u64 (inc_boot i) ∧ u64 (inc_ordinal i)) :
  let run := main ("evaluate" :: path :: arguments) (Some text) i opened in
  run_exit (main ("check" :: path :: arguments) (Some text) i opened) = 0
  ∧ (str_size (cl_store o) = 0 →
      let g0 : Governor S := fresh_governor (scenario_config s o) i None in
      let '(ingested, g) := ingest_all (sc_evidence s) g0 in
      match ingested, chosen_request s o with
      | Failure st, _ => run = complain 3 (recovery_text o g0) ("evidence rejected: " +:+ status_to_string st) None
      | Value _, None => run_exit run = 2
      | Value _, Some rq =>
          ∃ d, evaluate rq g = Value d ∧
            let commits := bool_decide (rq_window rq <> 0 ∧ rq_window_generation rq <> 0) in
            run_exit run = (if cl_commit o && negb commits then 4 else 0)
            ∧ run_out run = (recovery_text o g0 +:+ rendering o d)
                +:+ (if cl_commit o && commits then commit_report (commit_decision d g).2 else "")
      end)
  ∧ (∀ g0 s0 left, open (scenario_config s o) i opened = (Value g0, left) →
       governor_ok g0 → ledger_room (gv_accounting g0) → persisted g0 s0 →
       (cl_commit o = true ∧ run_exit run = 0 ∧
          ∃ rq g d s', chosen_request s o = Some rq ∧ ingest_all (sc_evidence s) g0 = (Value tt, g)
            ∧ evaluate rq g = Value d ∧ (commit_decision d g).1 = Value tt ∧ run_store run = Some s'
            ∧ exactly (commit_decision d g).2 s' ∧ av_window (fd_authority d) = rq_window rq)
       ∨ ((cl_commit o = false ∨ run_exit run <> 0) ∧ run_store run = Some s0)).
Proof.
  intros run. destruct (parse_scenario_wf _ _ Ht) as [Hw _]. destruct Hi as [Hb Hn].
  split; [by rewrite (main_accepted "check" path arguments o text s) by auto|].
  assert (run = evaluate_command s o i opened) as -> by (by apply (main_accepted "evaluate"); auto). split.
  - intros Hm. exact (evaluate_memory s o i opened Hw Hs Hm Hb Hn).
  - intros g0 s0 left Hop Hg Hroom Hp. by eapply evaluate_durable.
Qed.

Definition sample_arguments : list string := ["--quiet"; "--commit"; "--store"; "/var/lib/fg"].

Lemma cli_run_exact_witness :
  let run := main ("evaluate" :: "flows.fg" :: sample_arguments) (Some sample_text) sample_incarnation (Value empty_disk) in
  run_exit run = 0 ∧ ∃ g d s', run_store run = Some s' ∧ exactly (commit_decision d g).2 s'.
Proof.
  destruct (cli_run_exact "flows.fg" sample_arguments sample_options sample_text sample_scenario sample_incarnation
    (Value empty_disk)) as (_ & _ & Hd).
  - vm_compute. reflexivity.
  - exact sample_parsed.
  - vm_compute. reflexivity.
  - split; concrete.
  - destruct (Hd sample_governor sample_disk _ sample_opening (proj1 sample_governor_ok) sample_room
      (proj2 sample_governor_ok)) as [(_ & Hx & rq & g & d & s' & _ & _ & _ & _ & Hst & Hex & _)|[[Hc|Hx] _]].
    + split; [exact Hx|]. exists g, d, s'. split; [exact Hst|exact Hex].
    + exfalso. discriminate Hc.
    + exfalso. apply Hx. vm_compute. reflexivity.
Defined.
