(* ===== verification/PropPrograms.v ===== *)
(** Properties of the programs built on the library: the benchmark and the examples. *)
From S2P Require Import Prelude Status Core Policy PolicyValid Accounting Evidence Outcome Engine Planner EngineSpec EvalSpec Explain Fixture FixtureSpec Fsutil Store StoreSpec Governor BackendSpec GovernorSpec GovernorEval GovernorInv GovernorReach GovernorDurable GovernorLife Disk GovernorFixture Cli CliSpec Benchmark BenchmarkSpec Examples ExamplesSpec.
#[local] Open Scope string_scope.
#[local] Open Scope list_scope.
#[local] Open Scope Z_scope.

(** ** The benchmark *)

(** C39: The benchmark measures what it says.  Whatever its arguments, it ends with 0
    and prints one row for each point of its sweep, in order: on the population of
    that point every evaluation returns the same decision, in which every subject has
    authority, so it is the whole evaluation that is timed, the row counts the scaled
    number of them and the digest is folded from that decision alone.  The
    populations are not all policies a governor would take: one drawn with more
    than one level of groups fails validation, whatever the seed. *)
Theorem benchmark_measures (arguments : list string) :
  let o := bench_options arguments default_bench in
  let run := bench_main arguments in
  bench_exit run = 0 ∧ bench_err run = ""
  ∧ Forall2 (measured (bn_iterations o)) (sweep (bn_quick o)) (bench_table run)
  ∧ ∀ n depth history seed, 4 <= n <= 4096 → 1 <= depth <= 8 → 1 <= history <= 1000000 →
      validate_policy (sy_policy (build_population n depth history seed)) = Value tt ↔ depth = 1.
Proof.
  intros o run. destruct (bench_rows_measured (bn_iterations o) (sweep (bn_quick o)) (sweep_ok _)) as (rows & E & Hall).
  assert (run = mk_bench_run 0 rows "") as -> by (unfold run, bench_main; fold o; by rewrite E).
  split_and!; [done|done|exact Hall|]. intros n depth history seed Hn Hd Hh.
  destruct (population_assembled n depth history seed ltac:(lia) ltac:(lia))
    as (groups & ids & subjects & observations & -> & F & D).
  rewrite (population_valid _ _ _ _ _ _ history F D ltac:(lia) ltac:(lia) Hh). lia.
Qed.

Lemma benchmark_measures_witness :
  bench_exit (bench_main ["--iterations"; "7"; "--quick"]) = 0
  ∧ length (bench_table (bench_main ["--iterations"; "7"; "--quick"])) = 12%nat
  ∧ (validate_policy (sy_policy (build_population 8 2 64 326)) = Value tt ↔ 2 = 1).
Proof.
  destruct (benchmark_measures ["--iterations"; "7"; "--quick"]) as (Hx & _ & Hrows & Hv).
  split; [exact Hx|]. split; [apply Forall2_length in Hrows; symmetry; exact Hrows|].
  apply (Hv 8 2 64 326); lia.
Defined.

(** ** The examples *)

(** C40: The examples end well.  The consumer, linked against the library, always
    ends with 0: its starving subject is found, the plan is even, the commit is
    accepted, and its two lines are those.  The evaluation example without a store
    always ends with 0 as well, having moved 200 units from one tenant to the
    starving one and committed the first generation of the ledger.  Over a store it
    ends with 0 only if no window from 500 on was committed before, and then the
    store holds exactly the ledger with window 500; otherwise it ends with 1 and
    leaves the store as opening left it. *)
Theorem examples_succeed {S} `{DurabilityLaws S} i (opened : Result S)
    (Hi : u64 (inc_boot i) ∧ u64 (inc_ordinal i)) :
  consumer_main (S := S) i
  = (0, "consumer ok: STARVATION_RISK fair=0 under=0 over=1 starve=1 correct=0 blocked=0 unknown=0 stale=0 augment=500 reduce=500"
        +:+ newline +:+ "library Fairness Governor 1.0.0" +:+ newline)
  ∧ example_main [] i opened
    = mk_run 0 (explain (set_decision_governor i example_decision) default_explain
                +:+ "committed accounting generation 1" +:+ newline) "" None
  ∧ fd_outcome example_decision = Outcome.StarvationRisk
  ∧ (λ it, (ci_direction it, ci_subject it, ci_units it)) <$> fd_intents example_decision
    = [(CorrectionDirection.Augment, 1, 200); (CorrectionDirection.Reduce, 2, 200)]
  ∧ ∀ path g0 s0 left, open (example_config path) i opened = (Value g0, left) →
      governor_ok g0 → ledger_room (gv_accounting g0) → persisted g0 s0 →
      let run := example_main [path] i opened in
      (run_exit run = 0 ∧ (acc_last_window (gv_accounting g0) <> 0 → acc_last_window (gv_accounting g0) < 500)
         ∧ ∃ g s', run_store run = Some s' ∧ exactly g s' ∧ acc_last_window (gv_accounting g) = 500)
      ∨ (run_exit run = 1 ∧ run_store run = Some s0).
Proof.
  destruct Hi as [Hb Ho]. split; [by apply consumer_succeeds|]. split; [by apply example_memory|].
  split; [vm_compute; reflexivity|]. split; [vm_compute; reflexivity|]. intros path g0 s0 left. apply example_durable.
Qed.

(** The example opened over an empty directory. *)
Definition example_governor : Governor Disk := (opening (example_config "/var/lib/fg") sample_incarnation empty_disk).1.
Definition example_disk : Disk := (opening (example_config "/var/lib/fg") sample_incarnation empty_disk).2.

Lemma example_opening :
  open (example_config "/var/lib/fg") sample_incarnation (Value empty_disk) = (Value example_governor, Value example_disk).
Proof. vm_compute. reflexivity. Qed.

Lemma example_opened_ok : governor_ok example_governor ∧ persisted example_governor example_disk.
Proof.
  assert (str_size (cfg_store_path (example_config "/var/lib/fg")) <> 0) as Hpath by (vm_compute; discriminate).
  assert (check_config (example_config "/var/lib/fg") = Value tt) as Hvalid by (vm_compute; reflexivity).
  destruct (open_value _ _ _ _ _ Hpath example_opening) as [_ E].
  destruct (open_durable_first (example_config "/var/lib/fg") sample_incarnation Hvalid example_policy_typed
    ltac:(split; concrete) ltac:(concrete) empty_disk _ _ empty_disk_sound E) as [R Hp].
  split; [exact (proj2 (proj2 (proj2 (proj2 (proj2 (proj2 (proj2 (proj2 (proj2 R)))))))))|exact Hp].
Qed.

Lemma examples_succeed_witness :
  (consumer_main (S := Disk) sample_incarnation).1 = 0
  ∧ run_exit (example_main [] sample_incarnation (Value empty_disk)) = 0
  ∧ (run_exit (example_main ["/var/lib/fg"] sample_incarnation (Value empty_disk)) = 0
     ∧ ∃ g s', run_store (example_main ["/var/lib/fg"] sample_incarnation (Value empty_disk)) = Some s' ∧ exactly g s').
Proof.
  destruct (examples_succeed sample_incarnation (Value empty_disk)) as (Hc & Hm & _ & _ & Hd); [split; concrete|].
  split; [rewrite Hc; reflexivity|]. split; [rewrite Hm; reflexivity|].
  destruct (Hd "/var/lib/fg" example_governor example_disk _ example_opening (proj1 example_opened_ok))
    as [(Hx & _ & g & s' & Hs & Hex & _)|[Hx _]].
  - apply empty_room; vm_compute; reflexivity.
  - exact (proj2 example_opened_ok).
  - split; [exact Hx|]. exists g, s'. split; [exact Hs|exact Hex].
  - exfalso. revert Hx. vm_compute. discriminate.
Defined.
